(** * gr-digitizers: the digitizer block (lib/digitizer_block_impl.cc)

    A shallow embedding of [digitizer_block_impl]: its configuration
    setters, the software trigger detectors, the arm/disarm lifecycle and
    the three worker functions [work_stream], [work_rapid_block] and
    [work].  Member functions are state transformers over the record
    [block]; what the block receives from its collaborators (the driver,
    the application buffer, the scheduler) is passed in explicitly. *)

From Stdlib Require Import ZArith List Bool String Ascii Lia SpecFloat QArith.
From coqutil Require Import Datatypes.RecordSetters.
Import ListNotations.
Import TriangleBracketNotations.
Local Open Scope Z_scope.

(** ** C++ arithmetic *)

(** [float] and [double] are IEEE-754 binary32 and binary64, rounding to
    nearest even, over the Standard Library's [spec_float]. *)
Module IEEE.

Definition float := spec_float.
Definition double := spec_float.

Definition prec32 := 24.
Definition emax32 := 128.
Definition prec64 := 53.
Definition emax64 := 1024.

(** An integer literal or an integer converted to [double]. *)
Definition d_of_Z (z : Z) : double := binary_normalize prec64 emax64 z 0 false.

(** The implicit promotion [float] -> [double] (exact). *)
Definition to_double (x : float) : double :=
  match x with
  | S754_finite s m e => binary_round prec64 emax64 s m e
  | _ => x
  end.

(** [static_cast<float>] and the implicit narrowing on assignment. *)
Definition to_float (x : double) : float :=
  match x with
  | S754_finite s m e => binary_round prec32 emax32 s m e
  | _ => x
  end.

Definition f_of_Z (z : Z) : float := binary_normalize prec32 emax32 z 0 false.

Definition dadd : double -> double -> double := SFadd prec64 emax64.
Definition dsub : double -> double -> double := SFsub prec64 emax64.
Definition ddiv : double -> double -> double := SFdiv prec64 emax64.

(** Comparisons; every one is false when an operand is NaN. *)
Definition le (x y : spec_float) : bool := SFleb x y.
Definition lt (x y : spec_float) : bool := SFltb x y.
Definition ge (x y : spec_float) : bool := SFleb y x.

(** A decimal literal [n / 10^k]. *)
Definition d_dec (n : Z) (k : Z) : double := ddiv (d_of_Z n) (d_of_Z (10 ^ k)).

End IEEE.

(** [uint32_t], [int] and [uint8_t] are integers with the wrap-around of
    the conversions written out. *)
Definition to_uint32 (z : Z) : Z := z mod 2 ^ 32.
Definition to_uint8 (z : Z) : Z := z mod 2 ^ 8.
Definition to_int (z : Z) : Z := (z + 2 ^ 31) mod 2 ^ 32 - 2 ^ 31.
Definition INT_MAX : Z := 2 ^ 31 - 1.
Definition INT_MIN : Z := - 2 ^ 31.
Definition is_int (z : Z) : Prop := INT_MIN <= z <= INT_MAX.
Definition is_uint32 (z : Z) : Prop := 0 <= z < 2 ^ 32.

(** ** Error codes and exceptions *)

(** [std::error_code]: empty, one of the block's own codes
    ([digitizer_block_errc]), or a code of the driver's category. *)
Inductive error_code :=
| ec_none
| Interrupted
| Stopped
| Watchdog
| driver_error (code : Z).

Definition ec_eqb (a b : error_code) : bool :=
  match a, b with
  | ec_none, ec_none | Interrupted, Interrupted
  | Stopped, Stopped | Watchdog, Watchdog => true
  | driver_error x, driver_error y => x =? y
  | _, _ => false
  end.

(** [if (ec)] *)
Definition ec_set (ec : error_code) : bool := negb (ec_eqb ec ec_none).

Inductive exn :=
| invalid_argument (what : string)
| runtime_error (what : string)
| out_of_range
| bad_lexical_cast.

(** How a member function ends: it returns, an exception leaves it, an
    [assert] fails, it runs into undefined behaviour (an access outside
    an array), or it never returns (a wait on a condition variable that no
    thread ends).  The object is still there after an exception. *)
Inductive outcome (S A : Type) :=
| Ok (a : A) (s : S)
| Throw (e : exn) (s : S)
| AssertFail
| Undefined
| Blocked.
Arguments Ok {S A} a s.
Arguments Throw {S A} e s.
Arguments AssertFail {S A}.
Arguments Undefined {S A}.
Arguments Blocked {S A}.

Definition M (S A : Type) : Type := S -> outcome S A.

Definition ret {S A} (a : A) : M S A := fun s => Ok a s.
Definition bind {S A B} (m : M S A) (k : A -> M S B) : M S B :=
  fun s => match m s with
           | Ok a s' => k a s'
           | Throw e s' => Throw e s'
           | AssertFail => AssertFail
           | Undefined => Undefined
           | Blocked => Blocked
           end.
Definition throw {S A} (e : exn) : M S A := fun s => Throw e s.
Definition get {S} : M S S := fun s => Ok s s.
Definition gets {S A} (f : S -> A) : M S A := fun s => Ok (f s) s.
Definition modify {S} (f : S -> S) : M S unit := fun s => Ok tt (f s).
Definition assert {S} (b : bool) : M S unit :=
  fun s => if b then Ok tt s else AssertFail.
Definition undefined {S A} : M S A := fun _ => Undefined.
Definition blocked {S A} : M S A := fun _ => Blocked.
(** [try { m } catch (...) { h }] *)
Definition try_catch {S A} (m : M S A) (h : M S A) : M S A :=
  fun s => match m s with
           | Throw _ s' => h s'
           | r => r
           end.

Declare Scope block_scope.
Delimit Scope block_scope with block.
Notation "x <- m ;; k" := (bind m (fun x => k))
  (at level 61, m at next level, right associativity) : block_scope.
Notation "m ;; k" := (bind m (fun _ => k))
  (at level 61, right associativity) : block_scope.

(** ** Data model *)


Inductive acquisition_mode_t := RAPID_BLOCK | STREAMING.

Inductive downsampling_mode_t :=
| DOWNSAMPLING_MODE_NONE
| DOWNSAMPLING_MODE_MIN_MAX
| DOWNSAMPLING_MODE_DECIMATE
| DOWNSAMPLING_MODE_AVERAGE.

Inductive trigger_direction_t :=
| TRIGGER_DIRECTION_RISING
| TRIGGER_DIRECTION_FALLING
| TRIGGER_DIRECTION_LOW
| TRIGGER_DIRECTION_HIGH.

Definition acquisition_mode_eqb (a b : acquisition_mode_t) : bool :=
  match a, b with
  | RAPID_BLOCK, RAPID_BLOCK | STREAMING, STREAMING => true
  | _, _ => false
  end.

Definition is_mode_none (m : downsampling_mode_t) : bool :=
  match m with DOWNSAMPLING_MODE_NONE => true | _ => false end.

(** The settings structs are declared in digitizer_block_impl.h; their
    fields are the ones the member functions below read and write, with the
    types of the setters' parameters ([double] for the voltages). *)
Record channel_setting_t := {
  range : IEEE.double;
  offset : IEEE.double;
  enabled : bool;
  dc_coupled : bool;
  actual_range : IEEE.double
}.

Record port_setting_t := {
  logic_level : IEEE.double;
  port_enabled : bool
}.

Record trigger_setting_t := {
  source : string;
  threshold : IEEE.double;
  direction : trigger_direction_t;
  pin_number : Z
}.

Inductive rapid_block_state := WAITING | READING_PART1 | READING_THE_REST.

Record rapid_block_state_t := {
  state : rapid_block_state;
  waveform_count : Z;
  waveform_idx : Z;
  bs_offset : Z;
  samples_left : Z
}.

Inductive poller_state_t := IDLE | RUNNING | PEND_IDLE | PEND_EXIT | EXIT.

(** Stream tags (digitizers/tags.h builds them; only what is put into
    them is kept here). *)
Record acq_info_t := {
  timestamp : Z;
  timebase : IEEE.double;
  user_delay : IEEE.double;
  actual_delay : IEEE.double;
  samples : Z;
  info_offset : Z;
  status : Z;
  triggered_data : bool;
  trigger_timestamp : Z
}.

Inductive tag_value :=
| trigger_tag_empty
| trigger_tag (pre post : Z) (st : Z) (tb : IEEE.double) (ts : Z)
| acq_info_tag (info : acq_info_t)
| timebase_info_tag (tb : IEEE.double).

Record tag_t := {
  tag_offset : Z;
  value : tag_value
}.

Definition is_timebase_tag (t : tag_t) : bool :=
  match value t with timebase_info_tag _ => true | _ => false end.

(** What digitizer_block_impl.h fixes and the source file only uses: the
    array bounds, the two reserved trigger sources, the value-initialised
    settings, and the printing of an error code. *)
Class Header := {
  MAX_SUPPORTED_AI_CHANNELS : Z;
  MAX_SUPPORTED_PORTS : Z;
  TRIGGER_NONE_SOURCE : string;
  TRIGGER_DIGITAL_SOURCE : string;
  default_channel_setting : channel_setting_t;
  default_port_setting : port_setting_t;
  default_trigger_setting : trigger_setting_t;
  to_string : error_code -> string
}.

(** The calls the block makes to the driver (the [driver_*] functions a
    device class implements), each with the error code it got back. *)
Inductive driver_call :=
| call_driver_arm (ec : error_code)
| call_driver_disarm (ec : error_code)
| call_driver_prefetch_block (nsamples waveform : Z) (ec : error_code)
| call_driver_get_rapid_block_data (offset_ nsamples waveform : Z) (ec : error_code).

(** The block.  [item_tags] and [nitems_written0] belong to the GNU Radio
    base class: the tags added so far, each with its output index, and
    [nitems_written(0)].  [driver_calls] is the record of the calls made
    to the driver so far, in order.  [ai_buffers_size] and
    [port_buffers_size] are the sizes of the pointer vectors [ai_buffers]
    (and [ai_error_buffers]) and [port_buffers].  The settings arrays
    [d_channel_settings] and [d_port_settings] have
    MAX_SUPPORTED_AI_CHANNELS and MAX_SUPPORTED_PORTS elements.  The
    watchdog's moving average is left out.  Of the poller thread the
    block has [d_poller_state], the state requested of it, and
    [d_poller_joinable], whether the thread object [d_poller] holds a
    thread ([d_poller.joinable()]). *)
Record block := {
  d_samp_rate : IEEE.double;
  d_actual_samp_rate : IEEE.double;
  d_samples : Z;
  d_pre_samples : Z;
  d_nr_captures : Z;
  d_buffer_size : Z;
  d_nr_buffers : Z;
  d_driver_buffer_size : Z;
  d_acquisition_mode : acquisition_mode_t;
  d_poll_rate : IEEE.double;
  d_downsampling_mode : downsampling_mode_t;
  d_downsampling_factor : Z;
  d_ai_channels : Z;
  d_ports : Z;
  d_channel_settings : list channel_setting_t;
  d_port_settings : list port_setting_t;
  d_trigger_settings : trigger_setting_t;
  d_status : list Z;
  d_was_last_callback_timestamp_taken : bool;
  d_initialized : bool;
  d_armed : bool;
  d_auto_arm : bool;
  d_trigger_once : bool;
  d_was_triggered_once : bool;
  d_timebase_published : bool;
  ai_buffers_size : Z;
  port_buffers_size : Z;
  d_data_rdy : bool;
  d_data_rdy_errc : error_code;
  d_trigger_state : Z;
  d_bstate : rapid_block_state_t;
  d_errors : list error_code;
  d_poller_state : poller_state_t;
  d_poller_joinable : bool;
  d_output_multiple : Z;
  item_tags : list (Z * tag_t);
  nitems_written0 : Z;
  driver_calls : list driver_call
}.

Definition blk (A : Type) : Type := M block A.

Local Open Scope block_scope.

(** Reading element [i] of a C array or [std::vector] with [operator[]]:
    outside the bounds the behaviour is undefined. *)
Definition index {S A} (l : list A) (i : Z) : M S A :=
  if (i <? 0) || (Z.of_nat (List.length l) <=? i) then undefined
  else match nth_error l (Z.to_nat i) with
       | Some a => ret a
       | None => undefined
       end.

(** [l[i] = f(l[i])] *)
Fixpoint update_nth {A} (n : nat) (f : A -> A) (l : list A) : list A :=
  match l, n with
  | [], _ => []
  | x :: r, O => f x :: r
  | x :: r, S n' => x :: update_nth n' f r
  end.

(** ** Helpers *)

Section Block.
Context {H : Header}.

(** Modelled from the spec: [trigger_setting_t::is_enabled] of
    digitizer_block_impl.h.  The source is "None", an analog channel id, or
    the digital-source sentinel. *)
Definition is_enabled (t : trigger_setting_t) : bool :=
  negb (String.eqb (source t) TRIGGER_NONE_SOURCE).

(** Modelled from the spec: [trigger_setting_t::is_digital], true for the
    digital-source sentinel. *)
Definition is_digital (t : trigger_setting_t) : bool :=
  is_enabled t && String.eqb (source t) TRIGGER_DIGITAL_SOURCE.

(** Modelled from the spec: [trigger_setting_t::is_analog], true for an
    enabled trigger whose source is not the digital one. *)
Definition is_analog (t : trigger_setting_t) : bool :=
  is_enabled t && negb (String.eqb (source t) TRIGGER_DIGITAL_SOURCE).

(** The divisions are [uint32_t] divisions; the factor is not zero in a
    block built by the constructor and the setters (see [set_downsampling]). *)
Definition get_pre_trigger_samples_with_downsampling (b : block) : Z :=
  let count := d_pre_samples b in
  if negb (is_mode_none (d_downsampling_mode b))
  then count / d_downsampling_factor b
  else count.

Definition get_post_trigger_samples_with_downsampling (b : block) : Z :=
  let count := d_samples b in
  if negb (is_mode_none (d_downsampling_mode b))
  then count / d_downsampling_factor b
  else count.

Definition get_block_size (b : block) : Z :=
  to_uint32 (d_samples b + d_pre_samples b).

Definition get_block_size_with_downsampling (b : block) : Z :=
  to_uint32 (get_pre_trigger_samples_with_downsampling b
             + get_post_trigger_samples_with_downsampling b).

Definition get_samp_rate (b : block) : IEEE.double := d_actual_samp_rate b.

Definition get_timebase_with_downsampling (b : block) : IEEE.double :=
  if is_mode_none (d_downsampling_mode b)
  then IEEE.ddiv (IEEE.d_of_Z 1) (d_actual_samp_rate b)
  else IEEE.ddiv (IEEE.d_of_Z (d_downsampling_factor b)) (d_actual_samp_rate b).

(** Modelled from the spec: the error ring [d_errors] (error_buffer_t), a
    bounded FIFO of capacity 128 that overwrites the oldest entry. *)
Definition errors_capacity : nat := 128.

(** Modelled from the spec: [error_buffer_t::push], which drops the
    oldest entry of a full ring. *)
Definition push_error (ec : error_code) (l : list error_code) : list error_code :=
  let l' := l ++ [ec] in
  skipn (List.length l' - errors_capacity) l'.

Definition add_error_code (ec : error_code) : blk unit :=
  modify (fun b => b <| d_errors ::= push_error ec |>).

(** [convert_to_aichan_idx]; [char] is signed and [toupper] is the C
    locale's. *)
Definition char_value (c : ascii) : Z :=
  let n := Z.of_nat (nat_of_ascii c) in
  if n <? 128 then n else n - 256.

Definition toupper (c : Z) : Z :=
  if (97 <=? c) && (c <=? 122) then c - 32 else c.

Definition convert_to_aichan_idx (id : string) : blk Z :=
  match id with
  | String c EmptyString =>
      let idx := toupper (char_value c) - 65 in
      if (idx <? 0) || (idx >? MAX_SUPPORTED_AI_CHANNELS)
      then throw (invalid_argument ("invalid aichan id: " ++ id)%string)
      else ret idx
  | _ => throw (invalid_argument ("aichan id should be a single character: " ++ id)%string)
  end.

(** ** The software trigger detectors *)

(** The four loops.  [i] is the offset of the head of [samples], [ts] is
    [d_trigger_state]; the result is the offsets pushed to
    [trigger_offsets], in order, and the final [d_trigger_state]. *)
Fixpoint analog_rising_loop (thr : IEEE.double) (lo : IEEE.float) (i : Z)
    (samples : list IEEE.float) (ts : Z) : list Z * Z :=
  match samples with
  | [] => ([], ts)
  | x :: rest =>
      if (ts =? 0) && IEEE.ge (IEEE.to_double x) thr then
        let '(offs, ts') := analog_rising_loop thr lo (i + 1) rest 1 in
        (i :: offs, ts')
      else if negb (ts =? 0) && IEEE.le x lo then
        analog_rising_loop thr lo (i + 1) rest 0
      else analog_rising_loop thr lo (i + 1) rest ts
  end.

Fixpoint analog_falling_loop (thr : IEEE.double) (hi : IEEE.float) (i : Z)
    (samples : list IEEE.float) (ts : Z) : list Z * Z :=
  match samples with
  | [] => ([], ts)
  | x :: rest =>
      if negb (ts =? 0) && IEEE.le (IEEE.to_double x) thr then
        let '(offs, ts') := analog_falling_loop thr hi (i + 1) rest 0 in
        (i :: offs, ts')
      else if (ts =? 0) && IEEE.ge x hi then
        analog_falling_loop thr hi (i + 1) rest 1
      else analog_falling_loop thr hi (i + 1) rest ts
  end.

Fixpoint digital_rising_loop (mask : Z) (i : Z) (samples : list Z) (ts : Z)
    : list Z * Z :=
  match samples with
  | [] => ([], ts)
  | x :: rest =>
      if (ts =? 0) && negb (Z.land x mask =? 0) then
        let '(offs, ts') := digital_rising_loop mask (i + 1) rest 1 in
        (i :: offs, ts')
      else if negb (ts =? 0) && (Z.land x mask =? 0) then
        digital_rising_loop mask (i + 1) rest 0
      else digital_rising_loop mask (i + 1) rest ts
  end.

Fixpoint digital_falling_loop (mask : Z) (i : Z) (samples : list Z) (ts : Z)
    : list Z * Z :=
  match samples with
  | [] => ([], ts)
  | x :: rest =>
      if negb (ts =? 0) && (Z.land x mask =? 0) then
        let '(offs, ts') := digital_falling_loop mask (i + 1) rest 0 in
        (i :: offs, ts')
      else if (ts =? 0) && negb (Z.land x mask =? 0) then
        digital_falling_loop mask (i + 1) rest 1
      else digital_falling_loop mask (i + 1) rest ts
  end.

(** The loops read [samples[0 .. nsamples-1]]: [samples] is what the
    pointer points to, and reading past its end is undefined. *)
Definition window {S A} (samples : list A) (nsamples : Z) : M S (list A) :=
  if Z.of_nat (List.length samples) <? nsamples then undefined
  else ret (firstn (Z.to_nat nsamples) samples).

Definition is_rising_or_high (d : trigger_direction_t) : bool :=
  match d with
  | TRIGGER_DIRECTION_RISING | TRIGGER_DIRECTION_HIGH => true
  | _ => false
  end.

(** The hysteresis band and the two re-arm levels, as the code rounds
    them: [band] is a [float], and so are [lo] and [hi]. *)
Definition band_of (c : channel_setting_t) : IEEE.float :=
  IEEE.to_float (IEEE.ddiv (actual_range c) (IEEE.d_of_Z 100)).

Definition lo_of (t : trigger_setting_t) (band : IEEE.float) : IEEE.float :=
  IEEE.to_float (IEEE.dsub (threshold t) (IEEE.to_double band)).

Definition hi_of (t : trigger_setting_t) (band : IEEE.float) : IEEE.float :=
  IEEE.to_float (IEEE.dadd (threshold t) (IEEE.to_double band)).

Definition find_analog_triggers (samples : list IEEE.float) (nsamples : Z)
    : blk (list Z) :=
  assert (nsamples >=? 0) ;;
  trig <- gets d_trigger_settings ;;
  if negb (is_enabled trig) || (nsamples =? 0) then ret []
  else
    assert (is_analog trig) ;;
    aichan <- convert_to_aichan_idx (source trig) ;;
    settings <- gets d_channel_settings ;;
    ts <- gets d_trigger_state ;;
    if is_rising_or_high (direction trig) then
      chan <- index settings aichan ;;
      let band := band_of chan in
      let lo := lo_of trig band in
      w <- window samples nsamples ;;
      let '(offs, ts') := analog_rising_loop (threshold trig) lo 0 w ts in
      modify (fun b => b <| d_trigger_state := ts' |>) ;;
      ret offs
    else
      chan <- index settings aichan ;;
      let band := band_of chan in
      let hi := hi_of trig band in
      w <- window samples nsamples ;;
      let '(offs, ts') := analog_falling_loop (threshold trig) hi 0 w ts in
      modify (fun b => b <| d_trigger_state := ts' |>) ;;
      ret offs.

Definition find_digital_triggers (samples : list Z) (nsamples : Z) (mask : Z)
    : blk (list Z) :=
  trig <- gets d_trigger_settings ;;
  ts <- gets d_trigger_state ;;
  w <- window samples nsamples ;;
  if is_rising_or_high (direction trig) then
    let '(offs, ts') := digital_rising_loop mask 0 w ts in
    modify (fun b => b <| d_trigger_state := ts' |>) ;;
    ret offs
  else
    let '(offs, ts') := digital_falling_loop mask 0 w ts in
    modify (fun b => b <| d_trigger_state := ts' |>) ;;
    ret offs.

(** ** Structors *)

(** Modelled from the spec: a new [rapid_block_state_t] is WAITING, with
    no waveform in progress. *)
Definition initial_bstate : rapid_block_state_t :=
  {| state := WAITING; waveform_count := 0; waveform_idx := 0;
     bs_offset := 0; samples_left := 0 |}.

Definition member_init (ai_channels di_ports : Z) (auto_arm : bool) : block :=
  {| d_samp_rate := IEEE.d_of_Z 10000;
     d_actual_samp_rate := IEEE.d_of_Z 10000;
     d_samples := 10000;
     d_pre_samples := 1000;
     d_nr_captures := 1;
     d_buffer_size := 8192;
     d_nr_buffers := 100;
     d_driver_buffer_size := 100000;
     d_acquisition_mode := STREAMING;
     d_poll_rate := IEEE.d_dec 1 3;
     d_downsampling_mode := DOWNSAMPLING_MODE_NONE;
     d_downsampling_factor := 1;
     d_ai_channels := ai_channels;
     d_ports := di_ports;
     d_channel_settings :=
       repeat default_channel_setting (Z.to_nat MAX_SUPPORTED_AI_CHANNELS);
     d_port_settings :=
       repeat default_port_setting (Z.to_nat MAX_SUPPORTED_PORTS);
     d_trigger_settings := default_trigger_setting;
     d_status := repeat 0 (Z.to_nat ai_channels);
     d_was_last_callback_timestamp_taken := false;
     d_initialized := false;
     d_armed := false;
     d_auto_arm := auto_arm;
     d_trigger_once := false;
     d_was_triggered_once := false;
     d_timebase_published := false;
     ai_buffers_size := ai_channels;
     port_buffers_size := di_ports;
     d_data_rdy := false;
     d_data_rdy_errc := ec_none;
     d_trigger_state := 0;
     d_bstate := initial_bstate;
     d_errors := [];
     d_poller_state := IDLE;
     d_poller_joinable := false;
     d_output_multiple := 1;
     item_tags := [];
     nitems_written0 := 0;
     driver_calls := [] |}.

(** The constructor: the member initialisers, then the two assertions. *)
Definition digitizer_block_impl (ai_channels di_ports : Z) (auto_arm : bool)
    : outcome block unit :=
  (assert (ai_channels <? MAX_SUPPORTED_AI_CHANNELS) ;;
   assert (di_ports <? MAX_SUPPORTED_PORTS))
    (member_init ai_channels di_ports auto_arm).

(** ** Public API: the configuration setters *)

Definition set_samples (samples pre_samples : Z) : blk unit :=
  if samples <? 1 then
    throw (invalid_argument "post-trigger samples can't be less than one")
  else if pre_samples <? 0 then
    throw (invalid_argument "pre-trigger samples can't be less than zero")
  else
    modify (fun b => b <| d_samples := to_uint32 samples |>) ;;
    modify (fun b => b <| d_pre_samples := to_uint32 pre_samples |>) ;;
    modify (fun b => b <| d_buffer_size := to_uint32 (d_samples b + d_pre_samples b) |>).

Definition set_samp_rate (rate : IEEE.double) : blk unit :=
  if IEEE.le rate (IEEE.d_of_Z 0) then
    throw (invalid_argument "sample rate should be greater than zero")
  else
    modify (fun b => b <| d_samp_rate := rate |>) ;;
    modify (fun b => b <| d_actual_samp_rate := rate |>).

(** [gr::block::set_output_multiple], of the GNU Radio base class. *)
Definition set_output_multiple (multiple : Z) : blk unit :=
  if multiple <? 1 then throw (invalid_argument "block::set_output_multiple")
  else modify (fun b => b <| d_output_multiple := multiple |>).

Definition set_buffer_size (buffer_size : Z) : blk unit :=
  if buffer_size <? 0 then
    throw (invalid_argument "buffer size can't be negative")
  else
    modify (fun b => b <| d_buffer_size := to_uint32 buffer_size |>) ;;
    set_output_multiple buffer_size.

Definition set_nr_buffers (nr_buffers : Z) : blk unit :=
  if nr_buffers <? 1 then
    throw (invalid_argument "number of buffers can't be a negative number")
  else modify (fun b => b <| d_nr_buffers := to_uint32 nr_buffers |>).

Definition set_driver_buffer_size (driver_buffer_size : Z) : blk unit :=
  if driver_buffer_size <? 1 then
    throw (invalid_argument "driver buffer size can't be a negative number")
  else modify (fun b => b <| d_driver_buffer_size := to_uint32 driver_buffer_size |>).

Definition set_auto_arm (auto_arm : bool) : blk unit :=
  modify (fun b => b <| d_auto_arm := auto_arm |>).

Definition set_trigger_once (once : bool) : blk unit :=
  modify (fun b => b <| d_trigger_once := once |>).

Definition set_streaming (poll_rate : IEEE.double) : blk unit :=
  if IEEE.lt poll_rate (IEEE.d_of_Z 0) then
    throw (invalid_argument "poll rate can't be negative")
  else
    modify (fun b => b <| d_acquisition_mode := STREAMING |>) ;;
    modify (fun b => b <| d_poll_rate := poll_rate |>) ;;
    modify (fun b => b <| d_nr_captures := 1 |>).

Definition set_rapid_block (nr_captures : Z) : blk unit :=
  if nr_captures <? 1 then
    throw (invalid_argument "nr waveforms should be at least one")
  else
    modify (fun b => b <| d_acquisition_mode := RAPID_BLOCK |>) ;;
    modify (fun b => b <| d_nr_captures := to_uint32 nr_captures |>).

Definition set_downsampling (mode : downsampling_mode_t) (downsample_factor : Z)
    : blk unit :=
  let store (downsample_factor : Z) : blk unit :=
    modify (fun b => b <| d_downsampling_mode := mode |>) ;;
    modify (fun b => b <| d_downsampling_factor := to_uint32 downsample_factor |>) in
  if is_mode_none mode then store 1
  else if downsample_factor <? 2 then
    throw (invalid_argument "downsampling factor should be at least 2")
  else store downsample_factor.

(** [x[idx].field = v] on one of the settings arrays. *)
Definition assign_at {A} (l : list A) (idx : Z) (f : A -> A) : blk (list A) :=
  _ <- index l idx ;;
  ret (update_nth (Z.to_nat idx) f l).

Definition set_aichan (id : string) (enabled' : bool) (range' : IEEE.double)
    (dc_coupling : bool) (range_offset : IEEE.double) : blk unit :=
  idx <- convert_to_aichan_idx id ;;
  cs <- gets d_channel_settings ;;
  cs' <- assign_at cs idx (fun c => c <| range := range' |>
                                      <| offset := range_offset |>
                                      <| enabled := enabled' |>
                                      <| dc_coupled := dc_coupling |>) ;;
  modify (fun b => b <| d_channel_settings := cs' |>).

Definition get_enabled_aichan_count (b : block) : Z :=
  fold_left (fun count c => count + Z.b2z (enabled c)) (d_channel_settings b) 0.

Definition set_aichan_range (id : string) (range' range_offset : IEEE.double)
    : blk unit :=
  idx <- convert_to_aichan_idx id ;;
  cs <- gets d_channel_settings ;;
  cs' <- assign_at cs idx (fun c => c <| range := range' |>
                                      <| offset := range_offset |>) ;;
  modify (fun b => b <| d_channel_settings := cs' |>).

Definition set_aichan_trigger (id : string) (direction' : trigger_direction_t)
    (threshold' : IEEE.double) : blk unit :=
  _ <- convert_to_aichan_idx id ;;
  modify (fun b => b <| d_trigger_settings :=
    {| source := id; threshold := threshold';
       direction := direction'; pin_number := 0 |} |>).

(** [boost::lexical_cast<int>] of one character: a decimal digit or
    [bad_lexical_cast]. *)
Definition lexical_cast_int (c : ascii) : blk Z :=
  let n := Z.of_nat (nat_of_ascii c) in
  if (48 <=? n) && (n <=? 57) then ret (n - 48) else throw bad_lexical_cast.

Definition convert_to_port_idx (id : string) : blk Z :=
  if negb (Nat.eqb (String.length id) 5) then
    throw (invalid_argument ("invalid port id: " ++ id
             ++ ", should be of the following format 'port<d>'")%string)
  else
    match String.get 4 id with
    | None => undefined
    | Some c =>
        idx <- lexical_cast_int c ;;
        if (idx <? 0) || (idx >? MAX_SUPPORTED_PORTS)
        then throw (invalid_argument ("invalid port number: " ++ id)%string)
        else ret idx
    end.

Definition set_diport (id : string) (enabled' : bool) (thresh_voltage : IEEE.double)
    : blk unit :=
  port_number <- convert_to_port_idx id ;;
  ps <- gets d_port_settings ;;
  ps' <- assign_at ps port_number (fun p => p <| logic_level := thresh_voltage |>
                                              <| port_enabled := enabled' |>) ;;
  modify (fun b => b <| d_port_settings := ps' |>).

Definition get_enabled_diport_count (b : block) : Z :=
  fold_left (fun count p => count + Z.b2z (port_enabled p)) (d_port_settings b) 0.

Definition set_di_trigger (pin : Z) (direction' : trigger_direction_t) : blk unit :=
  modify (fun b => b <| d_trigger_settings :=
    {| source := TRIGGER_DIGITAL_SOURCE; threshold := IEEE.d_of_Z 0;
       direction := direction'; pin_number := pin |} |>).

Definition disable_triggers : blk unit :=
  modify (fun b => b <| d_trigger_settings ::=
    fun t => t <| source := TRIGGER_NONE_SOURCE |> |>).

(** ** The collaborators *)

(** An output buffer of the scheduler: [float] samples or packed bits. *)
Inductive buffer :=
| float_buffer (l : list IEEE.float)
| byte_buffer (l : list Z).

(** What the collaborators answer while one member function runs: the
    driver's error codes and status words, the application buffer's pending
    error and next chunk (its lost-chunks count is only logged), the code a
    concurrent [notify_data_ready] passes while [wait_data_ready] blocks, the
    clock, and the scheduler's output buffers as they are on entry. *)
Record world := {
  driver_arm : error_code;
  driver_disarm : error_code;
  driver_prefetch_block : error_code;
  driver_get_rapid_block_data : error_code;
  rapid_block_status : list Z;
  app_buffer_wait_data_ready : error_code;
  chunk_values : list (list IEEE.float);
  chunk_errors : list (list IEEE.float);
  chunk_ports : list (list Z);
  chunk_status : list Z;
  notified : error_code;
  get_timestamp_utc_ns : Z;
  output_items : list buffer
}.

Definition output_items_size (w : world) : Z := Z.of_nat (List.length (output_items w)).

(** ** Lifecycle *)

Definition call_driver (c : driver_call) : blk unit :=
  modify (fun b => b <| driver_calls ::= fun l => l ++ [c] |>).

(** [transit_poll_thread_to_idle] stores PEND_IDLE and waits on
    [d_poller_cv], without a timeout, until [d_poller_state] is IDLE.
    Only the poller thread stores IDLE, on the next iteration in which it
    reads the state (see [poll_iteration]); when [d_poller] holds no
    thread the wait never ends. *)
Definition transit_poll_thread_to_idle : blk unit :=
  b <- get ;;
  match d_poller_state b with
  | EXIT => ret tt
  | _ =>
      modify (fun b => b <| d_poller_state := PEND_IDLE |>) ;;
      b <- get ;;
      if d_poller_joinable b then
        (* the poller thread acknowledges *)
        modify (fun b => b <| d_poller_state := IDLE |>)
      else blocked
  end.

Definition transit_poll_thread_to_running : blk unit :=
  modify (fun b => b <| d_poller_state := RUNNING |>).

(** C-style loops: [c_for fuel cond body v] runs [body] while [cond]
    holds; [body] ends with the loop's increment.  [fuel] bounds the number
    of iterations from above. *)
Fixpoint c_for {S V} (fuel : nat) (cond : V -> bool) (body : V -> M S V) (v : V)
    : M S V :=
  match fuel with
  | O => ret v
  | Datatypes.S fuel' =>
      if cond v then v' <- body v ;; c_for fuel' cond body v' else ret v
  end.

(** [for (auto i = 0; i < n; i++) body] over an accumulator. *)
Definition for_upto {S A} (n : Z) (body : Z -> A -> M S A) (a : A) : M S A :=
  r <- c_for (Z.to_nat n) (fun v => fst v <? n)
         (fun v => a' <- body (fst v) (snd v) ;; ret (fst v + 1, a')) (0, a) ;;
  ret (snd r).

Definition count_enabled_channels (b : block) : blk Z :=
  for_upto (d_ai_channels b)
    (fun i n => c <- index (d_channel_settings b) i ;;
                ret (if enabled c then n + 1 else n)) 0.

Definition count_enabled_ports (b : block) : blk Z :=
  for_upto (d_ports b)
    (fun i n => p <- index (d_port_settings b) i ;;
                ret (if port_enabled p then n + 1 else n)) 0.

Definition arm (w : world) : blk unit :=
  b <- get ;;
  if d_armed b then ret tt
  else
    (* the moving average is primed with the expected rate here *)
    let ec := driver_arm w in
    call_driver (call_driver_arm ec) ;;
    if ec_set ec then
      add_error_code ec ;;
      throw (runtime_error ("arm failed: " ++ to_string ec)%string)
    else
      modify (fun b => b <| d_armed := true |>) ;;
      modify (fun b => b <| d_timebase_published := false |>) ;;
      modify (fun b => b <| d_was_last_callback_timestamp_taken := false |>) ;;
      (* d_app_buffer.notify_data_ready(std::error_code {}) *)
      b <- get ;;
      (if acquisition_mode_eqb (d_acquisition_mode b) STREAMING
       then transit_poll_thread_to_running else ret tt) ;;
      b <- get ;;
      num_enabled_ai_channels <- count_enabled_channels b ;;
      num_enabled_di_ports <- count_enabled_ports b ;;
      modify (fun b => b <| ai_buffers_size := num_enabled_ai_channels |>) ;;
      modify (fun b => b <| port_buffers_size := num_enabled_di_ports |>).

Definition is_armed (b : block) : bool := d_armed b.

Definition disarm (w : world) : blk unit :=
  b <- get ;;
  if negb (d_armed b) then ret tt
  else
    (if acquisition_mode_eqb (d_acquisition_mode b) STREAMING
     then transit_poll_thread_to_idle else ret tt) ;;
    let ec := driver_disarm w in
    call_driver (call_driver_disarm ec) ;;
    (if ec_set ec then add_error_code ec else ret tt) ;;
    modify (fun b => b <| d_armed := false |>).

(** ** Driver interface *)

Definition notify_data_ready (ec : error_code) : blk unit :=
  (if ec_set ec then add_error_code ec else ret tt) ;;
  modify (fun b => b <| d_data_rdy := true |>) ;;
  modify (fun b => b <| d_data_rdy_errc := ec |>).

(** [wait_data_ready] blocks until [d_data_rdy]; when it is not set on
    entry, the thread that ends the wait is the one calling
    [notify_data_ready (notified w)]. *)
Definition wait_data_ready (w : world) : blk error_code :=
  b <- get ;;
  (if d_data_rdy b then ret tt else notify_data_ready (notified w)) ;;
  gets d_data_rdy_errc.

Definition clear_data_ready : blk unit :=
  modify (fun b => b <| d_data_rdy := false |>) ;;
  modify (fun b => b <| d_data_rdy_errc := ec_none |>).

(** Modelled from the spec: [rapid_block_state_t] of
    digitizer_block_impl.h, the per-waveform fetch state.  [initialize]
    starts a capture sequence of [nr_waveforms] waveforms; [update_state]
    accounts for the samples read: if samples are left it goes to
    READING_THE_REST, else it advances to the next waveform or back to
    WAITING. *)
Definition bstate_initialize (nr_waveforms : Z) (s : rapid_block_state_t)
    : rapid_block_state_t :=
  s <| state := READING_PART1 |> <| waveform_idx := 0 |>
    <| waveform_count := nr_waveforms |>.

(** Modelled from the spec: [rapid_block_state_t::set_waveform_params],
    the offset and the samples left of the waveform being read. *)
Definition set_waveform_params (offset_ samples_left_ : Z) (s : rapid_block_state_t)
    : rapid_block_state_t :=
  s <| bs_offset := offset_ |> <| samples_left := samples_left_ |>.

(** Modelled from the spec: [rapid_block_state_t::update_state], see
    [bstate_initialize]. *)
Definition update_state (nsamples : Z) (s : rapid_block_state_t)
    : rapid_block_state_t :=
  let s := s <| bs_offset := bs_offset s + nsamples |>
             <| samples_left := samples_left s - nsamples |> in
  if samples_left s >? 0 then s <| state := READING_THE_REST |>
  else
    let s := s <| waveform_idx := waveform_idx s + 1 |> in
    if waveform_idx s >=? waveform_count s then s <| state := WAITING |>
    else s <| state := READING_PART1 |>.

Definition rapid_block_state_eqb (a b : rapid_block_state) : bool :=
  match a, b with
  | WAITING, WAITING | READING_PART1, READING_PART1
  | READING_THE_REST, READING_THE_REST => true
  | _, _ => false
  end.

(** [add_item_tag], of the GNU Radio base class. *)
Definition add_item_tag (which_output : Z) (tag : tag_t) : blk unit :=
  modify (fun b => b <| item_tags ::= fun l => l ++ [(which_output, tag)] |>).

(** ** GR worker functions *)

Definition make_full_trigger_tag (w : world) (st : Z) (b : block) : tag_value :=
  trigger_tag (get_pre_trigger_samples_with_downsampling b)
              (get_post_trigger_samples_with_downsampling b)
              st
              (get_timebase_with_downsampling b)
              (get_timestamp_utc_ns w).

(** The WAITING part of [work_rapid_block]: [Some r] is [return r]. *)
Definition rapid_block_waiting (w : world) : blk (option Z) :=
  b <- get ;;
  if d_trigger_once b && d_was_triggered_once b then ret (Some (-1))
  else
    r <- (if d_auto_arm b
          then disarm w ;;
               try_catch (arm w ;; ret None) (ret (Some (-1)))
          else ret None) ;;
    match r with
    | Some v => ret (Some v)
    | None =>
        ec <- wait_data_ready w ;;
        clear_data_ready ;;
        if ec_eqb ec Stopped then ret (Some (-1))
        else if ec_set ec then ret (Some 0)
        else
          modify (fun b => b <| d_bstate ::= bstate_initialize (d_nr_captures b) |>) ;;
          ret None
    end.

Definition rapid_block_part1 (w : world) (noutput_items : Z) : blk Z :=
  modify (fun b => b <| d_was_triggered_once := true |>) ;;
  b <- get ;;
  let samples_to_fetch := get_block_size b in
  let downsampled_samples := get_block_size_with_downsampling b in
  let ec := driver_prefetch_block w in
  call_driver (call_driver_prefetch_block samples_to_fetch
                 (waveform_idx (d_bstate b)) ec) ;;
  if ec_set ec then add_error_code ec ;; ret (-1)
  else
    modify (fun b => b <| d_bstate ::=
              set_waveform_params 0 (to_int downsampled_samples) |>) ;;
    b <- get ;;
    let noutput_items := Z.min noutput_items (samples_left (d_bstate b)) in
    let ec := driver_get_rapid_block_data w in
    call_driver (call_driver_get_rapid_block_data (bs_offset (d_bstate b))
                   noutput_items (waveform_idx (d_bstate b)) ec) ;;
    modify (fun b => b <| d_status := rapid_block_status w |>) ;;
    if ec_set ec then add_error_code ec ;; ret (-1)
    else
      b <- get ;;
      let ttag := {| tag_offset := nitems_written0 b
                                   + get_pre_trigger_samples_with_downsampling b;
                     value := trigger_tag_empty |} in
      v <- c_for (Z.to_nat (d_ai_channels b))
             (fun v => (fst v <? d_ai_channels b) && (snd v <? to_int (output_items_size w)))
             (fun v =>
                let '(i, vec_idx) := v in
                c <- index (d_channel_settings b) i ;;
                (if negb (enabled c) then ret tt
                 else
                   st <- index (d_status b) i ;;
                   let trigger_tag := {| tag_offset := nitems_written0 b;
                                         value := make_full_trigger_tag w st b |} in
                   add_item_tag vec_idx trigger_tag ;;
                   add_item_tag vec_idx ttag) ;;
                ret (i + 1, vec_idx + 2))
             (0, 0) ;;
      let vec_idx := snd v in
      let trigger_tag := {| tag_offset := nitems_written0 b;
                            value := make_full_trigger_tag w 0 b |} in
      _ <- c_for (Z.to_nat (d_ports b))
             (fun v => (fst v <? d_ports b) && (snd v <? to_int (output_items_size w)))
             (fun v =>
                let '(i, vec_idx) := v in
                p <- index (d_port_settings b) i ;;
                (if negb (port_enabled p) then ret tt
                 else
                   add_item_tag vec_idx trigger_tag ;;
                   add_item_tag vec_idx ttag) ;;
                ret (i + 1, vec_idx + 1))
             (0, vec_idx) ;;
      modify (fun b => b <| d_bstate ::= update_state noutput_items |>) ;;
      ret noutput_items.

Definition rapid_block_the_rest (w : world) (noutput_items : Z) : blk Z :=
  b <- get ;;
  let noutput_items := Z.min noutput_items (samples_left (d_bstate b)) in
  let ec := driver_get_rapid_block_data w in
  call_driver (call_driver_get_rapid_block_data (bs_offset (d_bstate b))
                 noutput_items (waveform_idx (d_bstate b)) ec) ;;
  modify (fun b => b <| d_status := rapid_block_status w |>) ;;
  if ec_set ec then add_error_code ec ;; ret (-1)
  else
    modify (fun b => b <| d_bstate ::= update_state noutput_items |>) ;;
    ret noutput_items.

Definition work_rapid_block (w : world) (noutput_items : Z) : blk Z :=
  b <- get ;;
  r <- (if rapid_block_state_eqb (state (d_bstate b)) WAITING
        then rapid_block_waiting w else ret None) ;;
  match r with
  | Some v => ret v
  | None =>
      b <- get ;;
      match state (d_bstate b) with
      | READING_PART1 => rapid_block_part1 w noutput_items
      | READING_THE_REST => rapid_block_the_rest w noutput_items
      | WAITING => ret (-1)
      end
  end.

(** [*ptr = data] for the pointers collected from [output_items]: slot
    [p] of the output buffers receives the chunk's data. *)
Fixpoint write_slots {A} (mk : A -> buffer) (ptrs : list Z) (data : list A)
    (outs : list buffer) : list buffer :=
  match ptrs, data with
  | p :: ptrs', d :: data' =>
      write_slots mk ptrs' data' (update_nth (Z.to_nat p) (fun _ => mk d) outs)
  | _, _ => outs
  end.

(** Modelled from the spec: [app_buffer_t::get_data_chunk] copies the next
    chunk into the buffers the pointer vectors name and hands back the
    per-channel status (the timestamp it also hands back is not read). *)
Definition get_data_chunk (w : world) (ai_buffers ai_error_buffers port_buffers : list Z)
    (outs : list buffer) : list buffer :=
  write_slots byte_buffer port_buffers (chunk_ports w)
    (write_slots float_buffer ai_error_buffers (chunk_errors w)
       (write_slots float_buffer ai_buffers (chunk_values w) outs)).

(** [std::vector::at] *)
Definition at_ {S A} (l : list A) (i : Z) : M S A :=
  if (i <? 0) || (Z.of_nat (List.length l) <=? i) then throw out_of_range
  else index l i.

(** One tag on the output of every enabled channel and port, as the loops
    of [work_stream] place them: [output_idx] advances by two per enabled
    channel and by one per enabled port. *)
Definition tag_enabled_outputs (b : block) (chan_tag : Z -> blk tag_t)
    (port_tag : tag_t) : blk unit :=
  output_idx <- for_upto (d_ai_channels b)
    (fun i output_idx =>
       c <- index (d_channel_settings b) i ;;
       if enabled c then
         tag <- chan_tag i ;;
         add_item_tag output_idx tag ;;
         ret (output_idx + 2)
       else ret output_idx) 0 ;;
  _ <- for_upto (d_ports b)
    (fun i output_idx =>
       p <- index (d_port_settings b) i ;;
       if port_enabled p then
         add_item_tag output_idx port_tag ;;
         ret (output_idx + 1)
       else ret output_idx) output_idx ;;
  ret tt.

Definition as_floats (buf : buffer) : blk (list IEEE.float) :=
  match buf with float_buffer l => ret l | byte_buffer _ => undefined end.

Definition as_bytes (buf : buffer) : blk (list Z) :=
  match buf with byte_buffer l => ret l | float_buffer _ => undefined end.

(** The part of [work_stream] after the error checks. *)
Definition work_stream_chunk (w : world) (noutput_items : Z) : blk Z :=
  b <- get ;;
  let outs := output_items w in
  (* collect the output pointers of the enabled channels and ports *)
  r <- for_upto (d_ai_channels b)
    (fun i acc =>
       let '(output_items_idx, ai_buffers, ai_error_buffers) := acc in
       c <- index (d_channel_settings b) i ;;
       if enabled c then
         let buff_idx := Z.of_nat (List.length ai_buffers) in
         (if buff_idx <? ai_buffers_size b then ret tt else undefined) ;;
         _ <- index outs output_items_idx ;;
         _ <- index outs (output_items_idx + 1) ;;
         ret (output_items_idx + 2,
              ai_buffers ++ [output_items_idx],
              ai_error_buffers ++ [output_items_idx + 1])
       else ret (output_items_idx + 2, ai_buffers, ai_error_buffers))
    (0, [], []) ;;
  let '(output_items_idx, ai_buffers, ai_error_buffers) := r in
  r <- for_upto (d_ports b)
    (fun i acc =>
       let '(output_items_idx, port_buffers) := acc in
       p <- index (d_port_settings b) i ;;
       if port_enabled p then
         let port_idx := Z.of_nat (List.length port_buffers) in
         (if port_idx <? port_buffers_size b then ret tt else undefined) ;;
         _ <- index outs output_items_idx ;;
         ret (output_items_idx + 1, port_buffers ++ [output_items_idx])
       else ret (output_items_idx + 1, port_buffers))
    (output_items_idx, []) ;;
  let port_buffers := snd r in
  (* this writes the samples directly into the output buffers *)
  let outs := get_data_chunk w ai_buffers ai_error_buffers port_buffers outs in
  let channel_status := chunk_status w in
  let tag_info (st : Z) : acq_info_t :=
    {| timestamp := get_timestamp_utc_ns w;
       timebase := get_timebase_with_downsampling b;
       user_delay := IEEE.d_of_Z 0;
       actual_delay := IEEE.d_of_Z 0;
       samples := d_buffer_size b;
       info_offset := nitems_written0 b;
       status := st;
       triggered_data := false;
       trigger_timestamp := -1 |} in
  let acq_tag (st : Z) : tag_t :=
    {| tag_offset := nitems_written0 b; value := acq_info_tag (tag_info st) |} in
  tag_enabled_outputs b
    (fun i => st <- at_ channel_status i ;; ret (acq_tag st))
    (acq_tag 0) ;;
  (* software-based trigger detection *)
  trigger_offsets <-
    (if is_analog (d_trigger_settings b) then
       aichan <- convert_to_aichan_idx (source (d_trigger_settings b)) ;;
       output_idx <- for_upto aichan
         (fun i output_idx =>
            c <- index (d_channel_settings b) i ;;
            ret (if enabled c then output_idx + 2 else output_idx)) 0 ;;
       buf <- index outs output_idx ;;
       buffer <- as_floats buf ;;
       find_analog_triggers buffer (to_int (d_buffer_size b))
     else if is_digital (d_trigger_settings b) then
       let port := Z.quot (pin_number (d_trigger_settings b)) 8 in
       let pin := Z.rem (pin_number (d_trigger_settings b)) 8 in
       let mask := Z.shiftl 1 pin in
       buf <- index outs (output_items_size w - d_ports b + port) ;;
       buffer <- as_bytes buf ;;
       find_digital_triggers buffer (to_int (d_buffer_size b)) (to_uint8 mask)
     else ret []) ;;
  (* attach trigger tags *)
  fold_left
    (fun (k : blk unit) trigger_offset =>
       k ;;
       let trigger_tag := {| tag_offset := nitems_written0 b + trigger_offset;
                             value := trigger_tag_empty |} in
       tag_enabled_outputs b (fun _ => ret trigger_tag) trigger_tag)
    trigger_offsets (ret tt) ;;
  ret noutput_items.

Definition work_stream (w : world) (noutput_items : Z) : blk Z :=
  b <- get ;;
  assert (noutput_items >=? to_int (d_buffer_size b)) ;;
  (* process only one buffer per iteration *)
  let noutput_items := to_int (d_buffer_size b) in
  (* wait data on application buffer *)
  let ec := app_buffer_wait_data_ready w in
  (if ec_set ec then add_error_code ec else ret tt) ;;
  if ec_eqb ec Stopped then ret (-1)
  else if ec_eqb ec Watchdog then
    disarm w ;;
    arm w ;;
    ret 0
  else if ec_set ec then ret (-1)
  else work_stream_chunk w noutput_items.

Definition work (w : world) (noutput_items : Z) : blk Z :=
  b <- get ;;
  retval <- match d_acquisition_mode b with
            | STREAMING => work_stream w noutput_items
            | RAPID_BLOCK => work_rapid_block w noutput_items
            end ;;
  b <- get ;;
  (if (retval >? 0) && negb (d_timebase_published b) then
     let timebase_tag := {| tag_offset := nitems_written0 b;
                            value := timebase_info_tag (get_timebase_with_downsampling b) |} in
     _ <- for_upto (output_items_size w)
            (fun i (_ : unit) => add_item_tag i timebase_tag) tt ;;
     modify (fun b => b <| d_timebase_published := true |>)
   else ret tt) ;;
  ret retval.

End Block.

(** ** The detectors as one hysteresis automaton *)

(** The four loops are instances of one automaton.  [idle] is the truth
    value of [d_trigger_state] in which it may fire: a rising detector
    fires from [0] and latches [1], a falling one fires from [1] and
    latches [0]. *)
Definition truth (ts : Z) : bool := negb (ts =? 0).

Fixpoint hysteresis_loop {A} (idle : bool) (fire rearm : A -> bool) (i : Z)
    (samples : list A) (ts : Z) : list Z * Z :=
  match samples with
  | [] => ([], ts)
  | x :: rest =>
      if Bool.eqb (truth ts) idle && fire x then
        let '(offs, ts') :=
          hysteresis_loop idle fire rearm (i + 1) rest (Z.b2z (negb idle)) in
        (i :: offs, ts')
      else if negb (Bool.eqb (truth ts) idle) && rearm x then
        hysteresis_loop idle fire rearm (i + 1) rest (Z.b2z idle)
      else hysteresis_loop idle fire rearm (i + 1) rest ts
  end.

(** [samples[i]] *)
Definition sample_at {A} (samples : list A) (i : Z) : option A :=
  if i <? 0 then None else nth_error samples (Z.to_nat i).

(** [d_trigger_state] when the analog detector, started in [b], reaches
    offset [i] of [samples]; [chan] is the source channel. *)
Definition analog_state_before `{Header} (b : block) (chan : channel_setting_t)
    (samples : list IEEE.float) (i : Z) : Z :=
  let trig := d_trigger_settings b in
  let seen := firstn (Z.to_nat i) samples in
  if is_rising_or_high (direction trig) then
    snd (analog_rising_loop (threshold trig) (lo_of trig (band_of chan)) 0 seen
           (d_trigger_state b))
  else
    snd (analog_falling_loop (threshold trig) (hi_of trig (band_of chan)) 0 seen
           (d_trigger_state b)).

(** ** The configuration surface as one dispatch *)

(** A call of one of the twelve configuration setters, with its arguments. *)
Inductive setter_call :=
| call_set_samp_rate (rate : IEEE.double)
| call_set_samples (samples pre_samples : Z)
| call_set_buffer_size (buffer_size : Z)
| call_set_nr_buffers (nr_buffers : Z)
| call_set_driver_buffer_size (driver_buffer_size : Z)
| call_set_streaming (poll_rate : IEEE.double)
| call_set_rapid_block (nr_captures : Z)
| call_set_downsampling (mode : downsampling_mode_t) (downsample_factor : Z)
| call_set_aichan (id : string) (enabled' : bool) (range' : IEEE.double)
    (dc_coupling : bool) (range_offset : IEEE.double)
| call_set_diport (id : string) (enabled' : bool) (thresh_voltage : IEEE.double)
| call_set_aichan_trigger (id : string) (direction' : trigger_direction_t)
    (threshold' : IEEE.double)
| call_set_di_trigger (pin : Z) (direction' : trigger_direction_t).

Definition call_setter `{Header} (c : setter_call) : blk unit :=
  match c with
  | call_set_samp_rate rate => set_samp_rate rate
  | call_set_samples samples pre_samples => set_samples samples pre_samples
  | call_set_buffer_size n => set_buffer_size n
  | call_set_nr_buffers n => set_nr_buffers n
  | call_set_driver_buffer_size n => set_driver_buffer_size n
  | call_set_streaming poll_rate => set_streaming poll_rate
  | call_set_rapid_block n => set_rapid_block n
  | call_set_downsampling mode f => set_downsampling mode f
  | call_set_aichan id en r dc off => set_aichan id en r dc off
  | call_set_diport id en thr => set_diport id en thr
  | call_set_aichan_trigger id dir thr => set_aichan_trigger id dir thr
  | call_set_di_trigger pin dir => set_di_trigger pin dir
  end.

(** The same outcome with [f] applied to the state it leaves. *)
Definition map_state {S A} (f : S -> S) (o : outcome S A) : outcome S A :=
  match o with
  | Ok a s => Ok a (f s)
  | Throw e s => Throw e (f s)
  | AssertFail => AssertFail
  | Undefined => Undefined
  | Blocked => Blocked
  end.

(** What the spec calls a StateError is a [std::runtime_error] in the
    code ("disarm first", "initialize first"). *)
Definition is_state_error {S A} (o : outcome S A) : bool :=
  match o with
  | Throw (runtime_error _) _ => true
  | _ => false
  end.

(** The configuration fields: the acquisition settings and the channel,
    port and trigger configurations. *)
Definition same_configuration (b b' : block) : Prop :=
  d_samp_rate b' = d_samp_rate b
  /\ d_actual_samp_rate b' = d_actual_samp_rate b
  /\ d_samples b' = d_samples b
  /\ d_pre_samples b' = d_pre_samples b
  /\ d_nr_captures b' = d_nr_captures b
  /\ d_buffer_size b' = d_buffer_size b
  /\ d_nr_buffers b' = d_nr_buffers b
  /\ d_driver_buffer_size b' = d_driver_buffer_size b
  /\ d_acquisition_mode b' = d_acquisition_mode b
  /\ d_poll_rate b' = d_poll_rate b
  /\ d_downsampling_mode b' = d_downsampling_mode b
  /\ d_downsampling_factor b' = d_downsampling_factor b
  /\ d_channel_settings b' = d_channel_settings b
  /\ d_port_settings b' = d_port_settings b
  /\ d_trigger_settings b' = d_trigger_settings b
  /\ d_auto_arm b' = d_auto_arm b
  /\ d_trigger_once b' = d_trigger_once b.

(** [commutes T m]: running [m] after the state change [T] gives what
    running [m] first and applying [T] to the state it leaves gives: [m]
    neither reads nor writes what [T] sets. *)
Definition commutes {A} (T : block -> block) (m : blk A) : Prop :=
  forall b, m (T b) = map_state T (m b).

(** What a setter throws is never a [std::runtime_error]. *)
Definition no_state_error {A} (m : blk A) : Prop :=
  forall b, is_state_error (m b) = false.

(** ** The scheduler *)

(** The scheduler calls [work] and advances [nitems_written] by what it
    returned.  A call is the collaborators' answers and [noutput_items]. *)
Definition scheduled_work `{Header} (c : world * Z) : blk Z :=
  r <- work (fst c) (snd c) ;;
  (if r >? 0 then modify (fun b => b <| nitems_written0 ::= Z.add r |>)
   else ret tt) ;;
  ret r.

(** A run: [work] is called with the given inputs, one after the other,
    until it returns a negative value (end of stream); the result is the
    values it returned. *)
Fixpoint run `{Header} (calls : list (world * Z)) : blk (list Z) :=
  match calls with
  | [] => ret []
  | c :: rest =>
      r <- scheduled_work c ;;
      if r <? 0 then ret [r]
      else rs <- run rest ;; ret (r :: rs)
  end.

(** The first call of a run that returned [n > 0]. *)
Fixpoint first_success (calls : list (world * Z)) (results : list Z)
    : option (world * Z) :=
  match calls, results with
  | c :: calls', r :: results' =>
      if r >? 0 then Some c else first_success calls' results'
  | _, _ => None
  end.

(** The tags added between two states of a run, and the Timebase tags
    among them. *)
Definition tags_since (b0 b' : block) : list (Z * tag_t) :=
  skipn (List.length (item_tags b0)) (item_tags b').

Definition timebase_tags_since (b0 b' : block) : list (Z * tag_t) :=
  filter (fun t => is_timebase_tag (snd t)) (tags_since b0 b').

(** One tag on each of the [n] output slots. *)
Definition on_every_slot (n : nat) (tag : tag_t) : list (Z * tag_t) :=
  map (fun i => (Z.of_nat i, tag)) (seq 0 n).

(** The driver calls made between two states, and the calls of
    [driver_arm] that succeeded. *)
Definition is_arm_ok (c : driver_call) : bool :=
  match c with
  | call_driver_arm ec => negb (ec_set ec)
  | _ => false
  end.

Definition successful_arms (b : block) : nat :=
  List.length (filter is_arm_ok (driver_calls b)).

(** The waveforms whose reading began: the waveform index of every
    [driver_prefetch_block] call, in order. *)
Definition prefetched (calls : list driver_call) : list Z :=
  flat_map (fun c => match c with
                     | call_driver_prefetch_block _ waveform _ => [waveform]
                     | _ => []
                     end) calls.

(** [quiet b0 b']: from [b0] to [b'] the timebase and [nitems_written]
    did not change, the tags added are not Timebase tags, and
    [d_timebase_published] is what it was unless the driver was armed again,
    in which case it is cleared. *)
Definition quiet (b0 b' : block) : Prop :=
  d_actual_samp_rate b' = d_actual_samp_rate b0
  /\ d_downsampling_mode b' = d_downsampling_mode b0
  /\ d_downsampling_factor b' = d_downsampling_factor b0
  /\ nitems_written0 b' = nitems_written0 b0
  /\ (exists new, item_tags b' = item_tags b0 ++ new
        /\ forallb (fun t => negb (is_timebase_tag (snd t))) new = true)
  /\ (exists calls, driver_calls b' = driver_calls b0 ++ calls
        /\ d_timebase_published b'
           = if existsb is_arm_ok calls then false
             else d_timebase_published b0).

(** The Timebase tag [work] builds in state [b]. *)
Definition timebase_tag_of `{Header} (b : block) : tag_t :=
  {| tag_offset := nitems_written0 b;
     value := timebase_info_tag (get_timebase_with_downsampling b) |}.

(** The waveforms whose reading began between two states of a run. *)
Definition waveforms_since (b0 b' : block) : list Z :=
  prefetched (skipn (List.length (driver_calls b0)) (driver_calls b')).

(** [no_progress b b']: between [b] and [b'] the rapid-block reading did
    not move: the same mode, flags and fetch state, and no
    [driver_prefetch_block] among the driver calls made. *)
Definition no_progress (b b' : block) : Prop :=
  d_acquisition_mode b' = d_acquisition_mode b
  /\ d_trigger_once b' = d_trigger_once b
  /\ d_nr_captures b' = d_nr_captures b
  /\ d_was_triggered_once b' = d_was_triggered_once b
  /\ d_bstate b' = d_bstate b
  /\ exists cs, driver_calls b' = driver_calls b ++ cs /\ prefetched cs = [].

(** The invariant of a rapid-block run with [trigger_once] set, started
    in [b0] with no capture read yet: either nothing was read and the block
    waits, or one capture sequence of [d_nr_captures] waveforms was begun,
    its waveforms 0 .. k-1 were prefetched, each once and in order, and the
    fetch state points into that sequence. *)
Definition one_sequence (b0 b : block) : Prop :=
  d_acquisition_mode b = RAPID_BLOCK
  /\ d_trigger_once b = true
  /\ d_nr_captures b = d_nr_captures b0
  /\ exists cs, driver_calls b = driver_calls b0 ++ cs
     /\ ((d_was_triggered_once b = false
          /\ state (d_bstate b) = WAITING
          /\ prefetched cs = [])
         \/ (d_was_triggered_once b = true
             /\ waveform_count (d_bstate b) = d_nr_captures b0
             /\ exists k : nat,
                  prefetched cs = map Z.of_nat (seq 0 k)
                  /\ Z.of_nat k <= d_nr_captures b0
                  /\ match state (d_bstate b) with
                     | READING_PART1 =>
                         waveform_idx (d_bstate b) = Z.of_nat k
                         /\ Z.of_nat k < d_nr_captures b0
                     | READING_THE_REST =>
                         waveform_idx (d_bstate b) + 1 = Z.of_nat k
                     | WAITING => True
                     end)).

(** What holds of a run at its end, also when [work] gave up on an
    error. *)
Definition at_most_one_sequence (b0 b : block) : Prop :=
  d_acquisition_mode b = RAPID_BLOCK
  /\ d_trigger_once b = true
  /\ (exists cs, driver_calls b = driver_calls b0 ++ cs)
  /\ exists k : nat,
       waveforms_since b0 b = map Z.of_nat (seq 0 k)
       /\ Z.of_nat k <= d_nr_captures b0
       /\ (k <> 0%nat -> d_was_triggered_once b = true).

(** ** Predicates on member functions *)

(** [wp m Q E b]: started in [b], [m] returns a value and a state that
    satisfy [Q], or throws leaving a state that satisfies [E], or does not
    come back (a failed assertion, undefined behaviour, a wait without
    end). *)
Definition wp {A} (m : blk A) (Q : A -> block -> Prop) (E : block -> Prop)
    (b : block) : Prop :=
  match m b with
  | Ok a b' => Q a b'
  | Throw _ b' => E b'
  | AssertFail | Undefined | Blocked => True
  end.

(** [preserves R m]: whatever [m] does to the block, returning or
    throwing, stays within the relation [R] to where a computation
    started. *)
Definition preserves (R : block -> block -> Prop) {A} (m : blk A) : Prop :=
  forall b0 b, R b0 b -> wp m (fun _ b' => R b0 b') (fun b' => R b0 b') b.

(** [returns m P]: every value [m] returns satisfies [P]. *)
Definition returns {A} (m : blk A) (P : A -> Prop) : Prop :=
  forall b a b', m b = Ok a b' -> P a.

(** ** A concrete header and block *)

(** One choice of the header's constants, to run the model on. *)
Definition example_header : Header :=
  {| MAX_SUPPORTED_AI_CHANNELS := 16;
     MAX_SUPPORTED_PORTS := 8;
     TRIGGER_NONE_SOURCE := "NONE";
     TRIGGER_DIGITAL_SOURCE := "DI";
     default_channel_setting :=
       {| range := IEEE.d_of_Z 2; offset := IEEE.d_of_Z 0; enabled := false;
          dc_coupled := false; actual_range := IEEE.d_of_Z 2 |};
     default_port_setting :=
       {| logic_level := IEEE.d_dec 15 1; port_enabled := false |};
     default_trigger_setting :=
       {| source := "NONE"; threshold := IEEE.d_of_Z 0;
          direction := TRIGGER_DIRECTION_RISING; pin_number := 0 |};
     to_string := fun ec =>
       match ec with
       | ec_none => "Success"%string
       | Interrupted => "Wit interrupted"%string
       | _ => "(unrecognized error)"%string
       end |}.

(** A block with four analog channels and one digital port. *)
Definition example_block : block :=
  @member_init example_header 4 1 false.

(** The collaborators when nothing goes wrong: no error anywhere, an
    empty chunk, no output buffers. *)
Definition quiet_world : world :=
  {| driver_arm := ec_none;
     driver_disarm := ec_none;
     driver_prefetch_block := ec_none;
     driver_get_rapid_block_data := ec_none;
     rapid_block_status := [0; 0; 0; 0];
     app_buffer_wait_data_ready := ec_none;
     chunk_values := [];
     chunk_errors := [];
     chunk_ports := [];
     chunk_status := [];
     notified := ec_none;
     get_timestamp_utc_ns := 0;
     output_items := [] |}.

(** The example block with channel A enabled and an analog trigger on
    it: Rising, threshold 0.5 V. *)
Definition analog_example_block : block :=
  match (@set_aichan example_header "A" true (IEEE.d_of_Z 5) true (IEEE.d_of_Z 0) ;;
         @set_aichan_trigger example_header "A" TRIGGER_DIRECTION_RISING
           (IEEE.d_dec 5 1))%block example_block with
  | Ok _ b => b
  | _ => example_block
  end.

Definition example_channel_A : channel_setting_t :=
  nth 0 (d_channel_settings analog_example_block)
    (@default_channel_setting example_header).

Definition square_wave : list IEEE.float :=
  map IEEE.f_of_Z [0; 1; 0; 1].



(** The state a call leaves. *)
Definition result_state {A} (o : outcome block A) (otherwise : block) : block :=
  match o with
  | Ok _ b | Throw _ b => b
  | _ => otherwise
  end.

(** The example block set up for rapid-block mode: two captures of one
    sample each, [trigger_once] set. *)
Definition rapid_example_block : block :=
  result_state
    ((set_rapid_block 2 ;; set_samples 1 0 ;; set_trigger_once true)%block
       example_block)
    example_block.

Definition three_calls : list (world * Z) :=
  [(quiet_world, 1); (quiet_world, 1); (quiet_world, 1)].

(** A world with the nine output buffers of the example block, and the
    example block armed in it. *)
Definition nine_outputs : world :=
  quiet_world <| output_items := repeat (float_buffer []) 8 ++ [byte_buffer []] |>.

Definition freshly_armed_block : block :=
  result_state (@arm example_header nine_outputs example_block) example_block.

Definition two_chunks : list (world * Z) :=
  [(nine_outputs, 8192); (nine_outputs, 8192)].

(** The offsets of the plain trigger tags among some tags. *)
Definition trigger_offsets_of (tags : list (Z * tag_t)) : list Z :=
  flat_map (fun t => match value (snd t) with
                     | trigger_tag_empty => [tag_offset (snd t)]
                     | _ => []
                     end) tags.

(** The example block with port 0 enabled, a buffer of six samples and
    the digital trigger on pin 3, Rising; and a world whose next chunk has
    the six samples of the scenario on port 0. *)
Definition digital_example_block : block :=
  result_state
    ((set_buffer_size 6 ;;
      @set_diport example_header "port0" true (IEEE.d_dec 15 1) ;;
      @set_di_trigger example_header 3 TRIGGER_DIRECTION_RISING)%block
       example_block)
    example_block.

Definition digital_world : world :=
  nine_outputs <| chunk_ports := [[0; 0; 8; 8; 0; 8]] |>.

(** ** The flowgraph lifecycle *)

(** The parts of the object that only the lifecycle functions touch:
    the message [start] keeps of the exception it caught, the arguments of
    the last [d_app_buffer.initialize], and the lifecycle calls made to the
    driver so far, each with the code it answered. *)
Inductive lifecycle_call :=
| call_driver_initialize (ec : error_code)
| call_driver_configure (ec : error_code)
| call_driver_close (ec : error_code).

Record app_buffer_layout := {
  layout_ai_channels : Z;
  layout_di_ports : Z;
  layout_buffer_size : Z;
  layout_nr_buffers : Z
}.

Record flowgraph_block := {
  the_block : block;
  d_configure_exception_message : string;
  d_app_buffer : option app_buffer_layout;
  lifecycle_calls : list lifecycle_call
}.

(** What the driver answers to the lifecycle calls of one member
    function, the collaborators of the [arm] and [disarm] it runs, and
    the text [what()] gives for an exception the library built. *)
Record lifecycle_world := {
  driver_initialize : error_code;
  driver_configure : error_code;
  driver_close : error_code;
  arming : world;
  library_what : exn -> string
}.

Definition fg (A : Type) : Type := M flowgraph_block A.

(** A member function of the block run on the whole object. *)
Definition on_block {A} (m : blk A) : fg A :=
  fun s => match m (the_block s) with
           | Ok a b => Ok a (s <| the_block := b |>)
           | Throw e b => Throw e (s <| the_block := b |>)
           | AssertFail => AssertFail
           | Undefined => Undefined
           | Blocked => Blocked
           end.

(** [ex.what()] *)
Definition what (lw : lifecycle_world) (e : exn) : string :=
  match e with
  | invalid_argument s | runtime_error s => s
  | _ => library_what lw e
  end.

(** [try { m } catch (const std::exception& ex) { h ex }]; every
    exception of the model is a [std::exception]. *)
Definition try_catch_exception {S A} (m : M S A) (h : exn -> M S A) : M S A :=
  fun s => match m s with
           | Throw e s' => h e s'
           | r => r
           end.

Definition call_lifecycle (c : lifecycle_call) : fg unit :=
  modify (fun s => s <| lifecycle_calls ::= fun l => l ++ [c] |>).

Section Lifecycle.
Context {H : Header}.

Definition get_acquisition_mode (b : block) : acquisition_mode_t :=
  d_acquisition_mode b.

Definition initialize (lw : lifecycle_world) : fg unit :=
  s <- get ;;
  if d_initialized (the_block s) then ret tt
  else
    let ec := driver_initialize lw in
    call_lifecycle (call_driver_initialize ec) ;;
    if ec_set ec then
      on_block (add_error_code ec) ;;
      throw (runtime_error ("initialize failed: " ++ to_string ec)%string)
    else on_block (modify (fun b => b <| d_initialized := true |>)).

Definition configure (lw : lifecycle_world) : fg unit :=
  s <- get ;;
  if negb (d_initialized (the_block s)) then
    throw (runtime_error "initialize first")
  else if d_armed (the_block s) then
    throw (runtime_error "disarm first")
  else
    let ec := driver_configure lw in
    call_lifecycle (call_driver_configure ec) ;;
    if ec_set ec then
      on_block (add_error_code ec) ;;
      throw (runtime_error ("configure failed: " ++ to_string ec)%string)
    else
      (* initialize application buffer *)
      modify (fun s => s <| d_app_buffer := Some
        {| layout_ai_channels := get_enabled_aichan_count (the_block s);
           layout_di_ports := get_enabled_diport_count (the_block s);
           layout_buffer_size := d_buffer_size (the_block s);
           layout_nr_buffers := d_nr_buffers (the_block s) |} |>).

Definition close (lw : lifecycle_world) : fg unit :=
  let ec := driver_close lw in
  call_lifecycle (call_driver_close ec) ;;
  (if ec_set ec then on_block (add_error_code ec) else ret tt) ;;
  on_block (modify (fun b => b <| d_initialized := false |>)).

Definition getConfigureExceptionMessage (s : flowgraph_block) : string :=
  d_configure_exception_message s.

(** [start_poll_thread] and [stop_poll_thread].  The new thread runs
    [poll_work_function]; [stop_poll_thread] returns after [join], that is
    after the poller thread has read PEND_EXIT, stored EXIT and returned. *)
Definition start_poll_thread : blk unit :=
  b <- get ;;
  if negb (d_poller_joinable b) then
    modify (fun b => b <| d_poller_state := IDLE |>) ;;
    modify (fun b => b <| d_poller_joinable := true |>)
  else ret tt.

Definition stop_poll_thread : blk unit :=
  b <- get ;;
  if negb (d_poller_joinable b) then ret tt
  else
    modify (fun b => b <| d_poller_state := PEND_EXIT |>) ;;
    (* the poller thread acknowledges and returns *)
    modify (fun b => b <| d_poller_state := EXIT |>) ;;
    modify (fun b => b <| d_poller_joinable := false |>).

Definition start (lw : lifecycle_world) : fg bool :=
  try_catch_exception
    (initialize lw ;;
     configure lw ;;
     on_block (modify (fun b => b <| d_was_triggered_once := false |>)) ;;
     on_block (modify (fun b => b <| d_data_rdy_errc := ec_none |>)) ;;
     on_block (modify (fun b => b <| d_data_rdy := false |>)) ;;
     s <- get ;;
     (if acquisition_mode_eqb (d_acquisition_mode (the_block s)) STREAMING
      then on_block start_poll_thread else ret tt) ;;
     s <- get ;;
     (if d_auto_arm (the_block s)
         && acquisition_mode_eqb (d_acquisition_mode (the_block s)) STREAMING
      then on_block (arm (arming lw)) else ret tt) ;;
     ret true)
    (fun ex =>
       modify (fun s => s <| d_configure_exception_message := what lw ex |>) ;;
       ret false).

Definition stop (lw : lifecycle_world) : fg bool :=
  s <- get ;;
  if negb (d_initialized (the_block s)) then ret true
  else
    (if d_armed (the_block s) then
       on_block (notify_data_ready Stopped) ;;
       on_block (disarm (arming lw))
     else ret tt) ;;
    s <- get ;;
    (if acquisition_mode_eqb (d_acquisition_mode (the_block s)) STREAMING
     then on_block stop_poll_thread else ret tt) ;;
    modify (fun s => s <| d_configure_exception_message := EmptyString |>) ;;
    ret true.

End Lifecycle.

(** The object the constructor leaves: no message, an application buffer
    not yet laid out. *)
Definition new_flowgraph_block (b : block) : flowgraph_block :=
  {| the_block := b;
     d_configure_exception_message := EmptyString;
     d_app_buffer := None;
     lifecycle_calls := [] |}.

(** ** The poller thread *)

Definition dmul : IEEE.double -> IEEE.double -> IEEE.double :=
  SFmul IEEE.prec64 IEEE.emax64.

(** What the collaborators answer in one iteration of the poller's loop:
    the driver's [driver_poll] and the moving average of the sample rate. *)
Record poller_world := {
  driver_poll : error_code;
  get_avg_value : IEEE.float
}.

(** The locals of [poll_work_function] that live across iterations.
    [state] is declared without an initialiser. *)
Record poller_locals := {
  poller_state_check_counter : Z;
  state_read : option poller_state_t
}.

Definition check_every_n_times : Z := 10.

Definition poller_entry : poller_locals :=
  {| poller_state_check_counter := check_every_n_times; state_read := None |}.

(** What one iteration did outside the object: whether it called
    [driver_poll], and the codes it passed to
    [d_app_buffer.notify_data_ready], in order. *)
Record poller_effects := {
  polled : bool;
  app_buffer_notified : list error_code
}.

Definition no_effects : poller_effects :=
  {| polled := false; app_buffer_notified := [] |}.

(** One iteration of the [while (true)] loop of [poll_work_function];
    [None] for the locals is [return].  The accesses to [d_poller_state]
    are the ones the code makes under [d_poller_mutex]; the sleeps are
    left out.  [WATCHDOG_SAMPLE_RATE_THRESHOLD] is a constant of
    digitizer_block_impl.h. *)
Definition poll_iteration (WATCHDOG_SAMPLE_RATE_THRESHOLD : IEEE.double)
    (pw : poller_world) (l : poller_locals)
    : blk (option poller_locals * poller_effects) :=
  let counter := to_uint32 (poller_state_check_counter l + 1) in
  l <- (if counter >=? check_every_n_times then
          st <- gets d_poller_state ;;
          ret {| poller_state_check_counter := 0; state_read := Some st |}
        else ret (l <| poller_state_check_counter := counter |>)) ;;
  match state_read l with
  | None => undefined
  | Some RUNNING =>
      let ec := driver_poll pw in
      let estimated_samp_rate := get_avg_value pw in
      b <- get ;;
      ret (Some l,
           {| polled := true;
              app_buffer_notified :=
                (if ec_set ec then [ec] else [])
                ++ (if IEEE.lt (IEEE.to_double estimated_samp_rate)
                         (dmul (get_samp_rate b) WATCHDOG_SAMPLE_RATE_THRESHOLD)
                    then [Watchdog] else []) |})
  | Some PEND_IDLE =>
      modify (fun b => b <| d_poller_state := IDLE |>) ;;
      ret (Some (l <| state_read := Some IDLE |>), no_effects)
  | Some PEND_EXIT =>
      modify (fun b => b <| d_poller_state := EXIT |>) ;;
      ret (None, no_effects)
  | Some _ => ret (Some l, no_effects)
  end.

(** The thread over the iterations whose answers are given: the locals
    it is left with ([None] when it returned) and what each iteration
    did. *)
Fixpoint poll_iterations (threshold : IEEE.double) (pws : list poller_world)
    (l : poller_locals) : blk (option poller_locals * list poller_effects) :=
  match pws with
  | [] => ret (Some l, [])
  | pw :: rest =>
      r <- poll_iteration threshold pw l ;;
      match fst r with
      | None => ret (None, [snd r])
      | Some l' =>
          r' <- poll_iterations threshold rest l' ;;
          ret (fst r', snd r :: snd r')
      end
  end.

Definition poll_work_function (threshold : IEEE.double) (pws : list poller_world)
    : blk (option poller_locals * list poller_effects) :=
  poll_iterations threshold pws poller_entry.

(** ** Predicates for the properties *)

(** The arguments of a setter call that are [int]s in the code are in
    the range of [int]. *)
Definition int_arguments (c : setter_call) : Prop :=
  match c with
  | call_set_samples samples pre_samples => is_int samples /\ is_int pre_samples
  | call_set_buffer_size n | call_set_nr_buffers n
  | call_set_driver_buffer_size n | call_set_rapid_block n => is_int n
  | call_set_downsampling _ f => is_int f
  | _ => True
  end.

(** What the constructor and the setters keep true of the
    configuration: the counts in the range their checks allow, the
    downsampling factor 1 exactly in mode NONE, one capture in STREAMING
    mode, the settings arrays at their full size. *)
Definition valid_configuration `{Header} (b : block) : Prop :=
  1 <= d_samples b <= INT_MAX
  /\ 0 <= d_pre_samples b <= INT_MAX
  /\ is_uint32 (d_buffer_size b)
  /\ 1 <= d_nr_buffers b <= INT_MAX
  /\ 1 <= d_driver_buffer_size b <= INT_MAX
  /\ 1 <= d_nr_captures b <= INT_MAX
  /\ 1 <= d_downsampling_factor b <= INT_MAX
  /\ (d_downsampling_mode b = DOWNSAMPLING_MODE_NONE <-> d_downsampling_factor b = 1)
  /\ (d_acquisition_mode b = STREAMING -> d_nr_captures b = 1)
  /\ List.length (d_channel_settings b) = Z.to_nat MAX_SUPPORTED_AI_CHANNELS
  /\ List.length (d_port_settings b) = Z.to_nat MAX_SUPPORTED_PORTS.

(** A sequence of setter calls on one block; the caller catches what a
    setter throws and goes on.  [None] when a call runs into undefined
    behaviour. *)
Fixpoint apply_setters `{Header} (cs : list setter_call) (b : block) : option block :=
  match cs with
  | [] => Some b
  | c :: rest =>
      match call_setter c b with
      | Ok _ b' | Throw _ b' => apply_setters rest b'
      | _ => None
      end
  end.

(** The exceptions of a setter: [boost::bad_lexical_cast] or
    [std::invalid_argument], the block left as [b]. *)
Definition throws_argument_error {A} (o : outcome block A) (b : block) : Prop :=
  o = Throw bad_lexical_cast b \/ exists s, o = Throw (invalid_argument s) b.

(** The id of channel [n]: its capital letter, or its small letter. *)
Definition channel_letter (small : bool) (n : nat) : string :=
  String (ascii_of_nat ((if small then 97 else 65) + n)) EmptyString.

(** Whether the pin's bit is set in a sample of the port. *)
Definition bit_set (mask x : Z) : bool := negb (Z.land x mask =? 0).

(** The level the digital detector compares sample [i] with: the carried
    [d_trigger_state] at the start of the buffer, the pin's bit in the
    sample before otherwise. *)
Definition level_before (mask : Z) (b : block) (samples : list Z) (i : Z) : bool :=
  if i =? 0 then truth (d_trigger_state b)
  else match sample_at samples (i - 1) with
       | Some y => bit_set mask y
       | None => false
       end.

(** The state the automaton is in after sample [x]. *)
Definition hysteresis_next {A} (idle : bool) (fire rearm : A -> bool) (x : A)
    (ts : Z) : Z :=
  if Bool.eqb (truth ts) idle && fire x then Z.b2z (negb idle)
  else if negb (Bool.eqb (truth ts) idle) && rearm x then Z.b2z idle
  else ts.

(** The loop [find_analog_triggers] runs for the block's trigger
    settings and the settings [chan] of the source channel. *)
Definition analog_loop (b : block) (chan : channel_setting_t) (i : Z)
    (samples : list IEEE.float) (ts : Z) : list Z * Z :=
  let trig := d_trigger_settings b in
  if is_rising_or_high (direction trig)
  then analog_rising_loop (threshold trig) (lo_of trig (band_of chan)) i samples ts
  else analog_falling_loop (threshold trig) (hi_of trig (band_of chan)) i samples ts.

(** [never_throws m]: no exception leaves [m]. *)
Definition never_throws {S A} (m : M S A) : Prop :=
  forall s e s', m s <> Throw e s'.

(** The enabled ones among some channel or port settings. *)
Definition count_enabled {A} (is_on : A -> bool) (l : list A) : Z :=
  Z.of_nat (List.length (filter is_on l)).

(** What does not change while the block is armed or disarmed. *)
Definition lifecycle_frame (b0 b : block) : Prop :=
  d_initialized b = d_initialized b0
  /\ d_was_triggered_once b = d_was_triggered_once b0
  /\ d_data_rdy b = d_data_rdy b0
  /\ d_data_rdy_errc b = d_data_rdy_errc b0
  /\ d_auto_arm b = d_auto_arm b0
  /\ d_acquisition_mode b = d_acquisition_mode b0.

(** [d_acquisition_mode == acquisition_mode_t::STREAMING] *)
Definition is_streaming (b : block) : bool :=
  acquisition_mode_eqb (d_acquisition_mode b) STREAMING.

(** [disarm] on such a block never returns: armed in STREAMING mode, the
    poller not in state EXIT, and no poller thread that could acknowledge
    the request of [transit_poll_thread_to_idle]. *)
Definition waits_for_missing_poller (b : block) : bool :=
  d_armed b && is_streaming b && negb (d_poller_joinable b)
  && match d_poller_state b with EXIT => false | _ => true end.

(** What [start] leaves when it returns true. *)
Definition started (s s' : flowgraph_block) : Prop :=
  d_initialized (the_block s') = true
  /\ d_was_triggered_once (the_block s') = false
  /\ d_data_rdy (the_block s') = false
  /\ d_data_rdy_errc (the_block s') = ec_none
  /\ d_configure_exception_message s' = d_configure_exception_message s
  /\ d_app_buffer s' = Some
       {| layout_ai_channels := get_enabled_aichan_count (the_block s);
          layout_di_ports := get_enabled_diport_count (the_block s);
          layout_buffer_size := d_buffer_size (the_block s);
          layout_nr_buffers := d_nr_buffers (the_block s) |}
  /\ is_armed (the_block s')
     = d_auto_arm (the_block s) && is_streaming (the_block s)
  /\ is_armed (the_block s) = false
  /\ (is_streaming (the_block s) = true ->
      d_poller_joinable (the_block s') = true).

(** What [start] leaves when it returns false: the message of the
    exception it caught, and the block armed or not as it was. *)
Definition start_failed `{Header} (lw : lifecycle_world) (s s' : flowgraph_block) : Prop :=
  (d_configure_exception_message s' = "disarm first"%string
   \/ d_configure_exception_message s'
      = ("initialize failed: " ++ to_string (driver_initialize lw))%string
   \/ d_configure_exception_message s'
      = ("configure failed: " ++ to_string (driver_configure lw))%string
   \/ d_configure_exception_message s'
      = ("arm failed: " ++ to_string (driver_arm (arming lw)))%string)
  /\ is_armed (the_block s') = is_armed (the_block s).

(** The outcomes of [start]. *)
Definition start_post `{Header} (lw : lifecycle_world) (s : flowgraph_block)
    (o : outcome flowgraph_block bool) : Prop :=
  match o with
  | Ok true s' => started s s'
  | Ok false s' => start_failed lw s s'
  | Throw _ _ => False
  | AssertFail | Undefined | Blocked => True
  end.

(** The locals between two iterations: the counter below ten and a state
    that was read. *)
Definition poller_between_iterations (l : poller_locals) : Prop :=
  0 <= poller_state_check_counter l < check_every_n_times
  /\ (state_read l = Some IDLE \/ state_read l = Some RUNNING).

(** [tags_within lo hi b0 b]: the tags added from [b0] to [b] have their
    offsets in [lo, hi). *)
Definition tags_within (lo hi : Z) (b0 b : block) : Prop :=
  exists new, item_tags b = item_tags b0 ++ new
    /\ Forall (fun t => lo <= tag_offset (snd t) < hi) new.

(** The number a finite [float] or [double] stands for. *)
Definition exact_value (x : spec_float) : option Q :=
  match x with
  | S754_zero _ => Some 0%Q
  | S754_finite s m e =>
      Some (inject_Z (if s then Z.neg m else Z.pos m) * Qpower 2 e)%Q
  | _ => None
  end.

(** The re-arm level of a rising trigger as the specification states it,
    in exact arithmetic: threshold - actual_range / 100. *)
Definition claimed_rearm_level (t : trigger_setting_t) (c : channel_setting_t)
    : option Q :=
  match exact_value (threshold t), exact_value (actual_range c) with
  | Some thr, Some range => Some (thr - range / 100)%Q
  | _, _ => None
  end.

(** [x <= level], for a sample and an exact level. *)
Definition at_most (x : IEEE.float) (level : option Q) : Prop :=
  match exact_value x, level with
  | Some v, Some l => (v <= l)%Q
  | _, _ => False
  end.

(** [adds_tags m a]: whatever the state, [m] returns [a] and has only
    added tags. *)
Definition adds_tags {A} (m : blk A) (a : A) : Prop :=
  exists new, forall s : block, m s = Ok a (s <| item_tags ::= fun l => l ++ new |>).

(** The configuration a capture depends on: the configuration fields and
    the numbers of channels and ports. *)
Definition capture_frame (b0 b : block) : Prop :=
  same_configuration b0 b
  /\ d_ai_channels b = d_ai_channels b0
  /\ d_ports b = d_ports b0.

(** A call of [work] in which the collaborators report no error: the
    driver arms, prefetches and hands out the data, the wait for data ends
    without an error code, the driver's status has an entry for each of the
    block's channels, and the scheduler asks for at least one item. *)
Definition clean_call (b0 : block) (c : world * Z) : Prop :=
  ec_set (driver_arm (fst c)) = false
  /\ ec_set (driver_prefetch_block (fst c)) = false
  /\ ec_set (driver_get_rapid_block_data (fst c)) = false
  /\ ec_set (notified (fst c)) = false
  /\ d_ai_channels b0 <= Z.of_nat (List.length (rapid_block_status (fst c)))
  /\ 1 <= snd c.

(** The fetch state while the capture sequence of [N] waveforms of [D]
    samples is read, [k] of its waveforms begun. *)
Definition reading (N D : Z) (s : rapid_block_state_t) (k : Z) : Prop :=
  waveform_count s = N /\ 0 <= k <= N
  /\ match state s with
     | READING_PART1 => waveform_idx s = k /\ k < N
     | READING_THE_REST => waveform_idx s + 1 = k /\ 0 < samples_left s <= D
     | WAITING => k = N
     end.

(** The samples of the sequence that are still to be returned. *)
Definition left_to_read (N D : Z) (s : rapid_block_state_t) : Z :=
  match state s with
  | READING_PART1 => (N - waveform_idx s) * D
  | READING_THE_REST => (N - waveform_idx s - 1) * D + samples_left s
  | WAITING => 0
  end.

(** A bound on the calls of [work] that are still needed to return them. *)
Definition calls_needed (N D : Z) (s : rapid_block_state_t) : Z :=
  match state s with
  | READING_PART1 => (N - waveform_idx s) * (D + 1)
  | READING_THE_REST => (N - waveform_idx s - 1) * (D + 1) + samples_left s
  | WAITING => 0
  end.

(** The invariant of a rapid-block run with [trigger_once] set while its
    one capture sequence is read: the configuration is the one of [b0], a
    waveform was begun, the fetch state is within the sequence and [k]
    waveforms, 0 .. k-1, were prefetched, each once and in order. *)
Definition capturing (b0 b : block) (k : Z) : Prop :=
  capture_frame b0 b
  /\ d_was_triggered_once b = true
  /\ reading (d_nr_captures b0) (to_int (get_block_size_with_downsampling b0))
       (d_bstate b) k
  /\ exists cs, driver_calls b = driver_calls b0 ++ cs
       /\ prefetched cs = map Z.of_nat (seq 0 (Z.to_nat k)).

(** ** Further examples *)

(** The collaborators of the lifecycle when nothing goes wrong. *)
Definition quiet_lifecycle_world : lifecycle_world :=
  {| driver_initialize := ec_none;
     driver_configure := ec_none;
     driver_close := ec_none;
     arming := quiet_world;
     library_what := fun _ => "std::exception"%string |}.

(** A new block with [auto_arm] set, four channels and one port. *)
Definition auto_arm_example : flowgraph_block :=
  new_flowgraph_block (@member_init example_header 4 1 true).

(** The state a lifecycle call leaves. *)
Definition result_object {A} (o : outcome flowgraph_block A)
    (otherwise : flowgraph_block) : flowgraph_block :=
  match o with
  | Ok _ s | Throw _ s => s
  | _ => otherwise
  end.

(** A configuration session: one call throws, the others go through. *)
Definition example_session : list setter_call :=
  [call_set_samples 2000 500;
   call_set_downsampling DOWNSAMPLING_MODE_DECIMATE 4;
   call_set_nr_buffers 0;
   call_set_rapid_block 3;
   call_set_aichan "B" true (IEEE.d_of_Z 5) true (IEEE.d_of_Z 0)].

Definition configured_example : block :=
  match @apply_setters example_header example_session example_block with
  | Some b => b
  | None => example_block
  end.

(** The poller in the middle of a round of ten iterations, running, and
    the answers of one iteration: the driver polls fine, the estimate is
    the expected rate. *)
Definition running_poller : poller_locals :=
  {| poller_state_check_counter := 7; state_read := Some RUNNING |}.

Definition idle_poller : poller_locals :=
  {| poller_state_check_counter := 3; state_read := Some IDLE |}.

Definition steady_poll : poller_world :=
  {| driver_poll := ec_none; get_avg_value := IEEE.f_of_Z 10000 |}.

(** The rapid-block example with [auto_arm] set, and a world whose driver
    refuses to arm. *)
Definition auto_arm_rapid_example : block :=
  rapid_example_block <| d_auto_arm := true |>.

Definition refusing_world : world :=
  quiet_world <| driver_arm := driver_error 5 |>.

(** The example block with the digital trigger of the scenario. *)
Definition digital_trigger_block : block :=
  result_state (@set_di_trigger example_header 3 TRIGGER_DIRECTION_RISING example_block)
    example_block.

(** A world in which the waiting worker is woken with an error code. *)
Definition interrupting_world : world :=
  quiet_world <| notified := Interrupted |>.

(** The analog example with the threshold at 1 V: the channel's
    [actual_range] is 2 V, so the stated re-arm level is 0.98 V, which is
    no [float]; the level the code computes is the [float] next above it. *)
Definition unit_threshold_block : block :=
  result_state
    (@set_aichan_trigger example_header "A" TRIGGER_DIRECTION_RISING (IEEE.d_of_Z 1)
       analog_example_block)
    analog_example_block.

Definition rearm_level_example : IEEE.float :=
  lo_of (d_trigger_settings unit_threshold_block) (band_of example_channel_A).

(** A signal that comes down to the code's re-arm level and no
    further. *)
Definition grazing_samples : list IEEE.float :=
  [IEEE.f_of_Z 1; rearm_level_example; IEEE.f_of_Z 1].

(** Five calls for the rapid-block example, more than its two waveforms of
    one sample need. *)
Definition five_calls : list (world * Z) := repeat (quiet_world, 1) 5.

(** The example block armed in STREAMING mode by a direct [arm()], with no
    poller thread. *)
Definition unpolled_armed_block : block :=
  result_state (@arm example_header quiet_world example_block) example_block.

(** The object after [start()] in RAPID_BLOCK mode, which starts no poller
    thread, then [set_streaming] and [arm()]. *)
Definition stranded_example : flowgraph_block :=
  let s := result_object
             (@start example_header quiet_lifecycle_world
                (new_flowgraph_block rapid_example_block))
             (new_flowgraph_block rapid_example_block) in
  s <| the_block :=
         result_state
           ((set_streaming (IEEE.d_dec 1 3) ;; @arm example_header quiet_world)%block
              (the_block s))
           (the_block s) |>.

(** * Properties *)

(** ** The hysteresis automaton *)

Section Hysteresis.
Context {A : Type} (idle : bool) (fire rearm : A -> bool).

Local Notation "'loop'" := (hysteresis_loop idle fire rearm).

Lemma hysteresis_loop_cons (i : Z) (x : A) (rest : list A) (ts : Z) :
  loop i (x :: rest) ts =
  if Bool.eqb (truth ts) idle && fire x then
    (i :: fst (loop (i + 1) rest (Z.b2z (negb idle))),
     snd (loop (i + 1) rest (Z.b2z (negb idle))))
  else if negb (Bool.eqb (truth ts) idle) && rearm x then
    loop (i + 1) rest (Z.b2z idle)
  else loop (i + 1) rest ts.
Proof.
  cbn [hysteresis_loop].
  destruct (Bool.eqb (truth ts) idle && fire x); [|reflexivity].
  destruct (loop (i + 1) rest (Z.b2z (negb idle))); reflexivity.
Qed.

Lemma hysteresis_offsets_range (samples : list A) :
  forall i ts k, In k (fst (loop i samples ts)) ->
    i <= k < i + Z.of_nat (List.length samples).
Proof.
  induction samples as [|x rest IH]; intros i ts k Hin.
  - contradiction.
  - rewrite hysteresis_loop_cons in Hin. cbn [List.length].
    destruct (Bool.eqb (truth ts) idle && fire x).
    + cbn [fst In] in Hin. destruct Hin as [<-|Hin]; [lia|].
      apply IH in Hin. lia.
    + destruct (negb (Bool.eqb (truth ts) idle) && rearm x);
        apply IH in Hin; lia.
Qed.

Lemma truth_latched : truth (Z.b2z (negb idle)) = negb idle.
Proof. destruct idle; reflexivity. Qed.

Lemma truth_rearmed : truth (Z.b2z idle) = idle.
Proof. destruct idle; reflexivity. Qed.

(** The automaton state after the first [n] samples. *)
Lemma hysteresis_state_step (n : nat) (x : A) (rest : list A) (i : Z) (ts : Z) :
  snd (loop i (firstn (Datatypes.S n) (x :: rest)) ts) =
  snd (loop (i + 1) (firstn n rest)
         (if Bool.eqb (truth ts) idle && fire x then Z.b2z (negb idle)
          else if negb (Bool.eqb (truth ts) idle) && rearm x then Z.b2z idle
          else ts)).
Proof.
  cbn [firstn]. rewrite hysteresis_loop_cons.
  destruct (Bool.eqb (truth ts) idle && fire x); [reflexivity|].
  destruct (negb (Bool.eqb (truth ts) idle) && rearm x); reflexivity.
Qed.

Lemma hysteresis_state_shift (samples : list A) :
  forall i j ts, snd (loop i samples ts) = snd (loop j samples ts).
Proof.
  induction samples as [|x rest IH]; intros i j ts; [reflexivity|].
  rewrite !hysteresis_loop_cons.
  destruct (Bool.eqb (truth ts) idle && fire x); cbn [snd]; [apply IH|].
  destruct (negb (Bool.eqb (truth ts) idle) && rearm x); apply IH.
Qed.

(** A fire at offset [k] happens in the idle state, on a sample that
    meets the firing condition. *)
Lemma hysteresis_fire_only_if (samples : list A) :
  forall i ts k, In k (fst (loop i samples ts)) ->
    exists x, nth_error samples (Z.to_nat (k - i)) = Some x
      /\ truth (snd (loop i (firstn (Z.to_nat (k - i)) samples) ts)) = idle
      /\ fire x = true.
Proof.
  induction samples as [|x rest IH]; intros i ts k Hin; [contradiction|].
  pose proof (hysteresis_offsets_range _ _ _ _ Hin) as Hr.
  rewrite hysteresis_loop_cons in Hin.
  destruct (Z.eq_dec k i) as [->|Hne].
  - rewrite Z.sub_diag. cbn [Z.to_nat nth_error firstn hysteresis_loop snd].
    exists x. split; [reflexivity|].
    destruct (Bool.eqb (truth ts) idle) eqn:Hidle, (fire x) eqn:Hf;
      cbn [andb negb] in Hin.
    + split; [now apply Bool.eqb_prop|reflexivity].
    + destruct (rearm x); apply hysteresis_offsets_range in Hin; lia.
    + destruct (rearm x); apply hysteresis_offsets_range in Hin; lia.
    + destruct (rearm x); apply hysteresis_offsets_range in Hin; lia.
  - replace (Z.to_nat (k - i)) with (Datatypes.S (Z.to_nat (k - (i + 1)))) by lia.
    rewrite hysteresis_state_step. cbn [nth_error].
    destruct (Bool.eqb (truth ts) idle && fire x).
    + cbn [fst In] in Hin. destruct Hin as [Heq|Hin]; [lia|].
      now apply IH.
    + destruct (negb (Bool.eqb (truth ts) idle) && rearm x); now apply IH.
Qed.

(** From the latched state, the next fire comes after a sample that
    meets the re-arm condition. *)
Lemma hysteresis_rearm_before_fire (samples : list A) :
  forall i ts c l, truth ts = negb idle ->
    fst (loop i samples ts) = c :: l ->
    exists k x, i <= k < c
      /\ nth_error samples (Z.to_nat (k - i)) = Some x /\ rearm x = true.
Proof.
  induction samples as [|x rest IH]; intros i ts c l Hts Hfst; [discriminate|].
  assert (Hc : In c (fst (loop (i + 1) rest (Z.b2z idle)))
               \/ In c (fst (loop (i + 1) rest ts)) -> i + 1 <= c).
  { intros [Hin|Hin]; apply hysteresis_offsets_range in Hin; lia. }
  rewrite hysteresis_loop_cons in Hfst.
  rewrite Hts in Hfst.
  replace (Bool.eqb (negb idle) idle) with false in Hfst by (now destruct idle).
  cbn [andb negb] in Hfst.
  destruct (rearm x) eqn:Hre.
  - exists i, x. rewrite Z.sub_diag. cbn [Z.to_nat nth_error].
    assert (i + 1 <= c) by (apply Hc; left; rewrite Hfst; now left).
    repeat split; [lia|lia|assumption].
  - destruct (IH (i + 1) ts c l Hts Hfst) as (k & y & Hk & Hnth & Hy).
    exists k, y. replace (Z.to_nat (k - i)) with (Datatypes.S (Z.to_nat (k - (i + 1)))) by lia.
    cbn [nth_error]. repeat split; [lia|lia|assumption|assumption].
Qed.

(** Between two consecutive fires there is a sample that meets the
    re-arm condition. *)
Lemma hysteresis_between_fires (samples : list A) :
  forall i ts l1 a c l2,
    fst (loop i samples ts) = l1 ++ a :: c :: l2 ->
    exists k x, a < k < c
      /\ nth_error samples (Z.to_nat (k - i)) = Some x /\ rearm x = true.
Proof.
  induction samples as [|x rest IH]; intros i ts l1 a c l2 Hfst.
  - destruct l1; discriminate.
  - assert (Hshift : forall ts' l1',
        fst (loop (i + 1) rest ts') = l1' ++ a :: c :: l2 ->
        exists k y, a < k < c
          /\ nth_error (x :: rest) (Z.to_nat (k - i)) = Some y /\ rearm y = true).
    { intros ts' l1' Hrest.
      assert (i + 1 <= a).
      { assert (Hin : In a (fst (loop (i + 1) rest ts')))
          by (rewrite Hrest; apply in_or_app; right; now left).
        apply hysteresis_offsets_range in Hin. lia. }
      destruct (IH _ _ _ _ _ _ Hrest) as (k & y & Hk & Hnth & Hy).
      exists k, y.
      replace (Z.to_nat (k - i)) with (Datatypes.S (Z.to_nat (k - (i + 1)))) by lia.
      cbn [nth_error]. repeat split; [lia|lia|assumption|assumption]. }
    rewrite hysteresis_loop_cons in Hfst.
    destruct (Bool.eqb (truth ts) idle && fire x).
    + cbn [fst] in Hfst. destruct l1 as [|h l1'].
      * cbn [app] in Hfst. injection Hfst as Ha Hrest. subst a.
        destruct (hysteresis_rearm_before_fire rest (i + 1) _ c l2
                    truth_latched Hrest) as (k & y & Hk & Hnth & Hy).
        exists k, y.
        replace (Z.to_nat (k - i)) with (Datatypes.S (Z.to_nat (k - (i + 1)))) by lia.
        cbn [nth_error]. repeat split; [lia|lia|assumption|assumption].
      * cbn [app] in Hfst. injection Hfst as _ Hrest. eapply Hshift; eassumption.
    + destruct (negb (Bool.eqb (truth ts) idle) && rearm x);
        eapply (Hshift _ l1); eassumption.
Qed.

(** Fired offsets come out in increasing order. *)
Lemma hysteresis_offsets_increasing (samples : list A) :
  forall i ts l1 a c l2,
    fst (loop i samples ts) = l1 ++ a :: c :: l2 -> a < c.
Proof.
  intros i ts l1 a c l2 Hfst.
  destruct (hysteresis_between_fires _ _ _ _ _ _ _ Hfst) as (k & _ & Hk & _). lia.
Qed.

End Hysteresis.

(** ** The analog and digital detectors *)

Section Detectors.
Context {H : Header}.

Lemma analog_rising_loop_hysteresis (thr : IEEE.double) (lo : IEEE.float)
    (samples : list IEEE.float) :
  forall i ts,
    analog_rising_loop thr lo i samples ts =
    hysteresis_loop false (fun x => IEEE.ge (IEEE.to_double x) thr)
      (fun x => IEEE.le x lo) i samples ts.
Proof.
  induction samples as [|x rest IH]; intros i ts; [reflexivity|].
  cbn [analog_rising_loop hysteresis_loop]. rewrite !IH. unfold truth.
  destruct (ts =? 0); reflexivity.
Qed.

Lemma analog_falling_loop_hysteresis (thr : IEEE.double) (hi : IEEE.float)
    (samples : list IEEE.float) :
  forall i ts,
    analog_falling_loop thr hi i samples ts =
    hysteresis_loop true (fun x => IEEE.le (IEEE.to_double x) thr)
      (fun x => IEEE.ge x hi) i samples ts.
Proof.
  induction samples as [|x rest IH]; intros i ts; [reflexivity|].
  cbn [analog_falling_loop hysteresis_loop]. rewrite !IH. unfold truth.
  destruct (ts =? 0); reflexivity.
Qed.

Lemma index_ok {S A} (l : list A) (i : Z) (s s' : S) (a : A) :
  index l i s = Ok a s' ->
  s' = s /\ 0 <= i < Z.of_nat (List.length l) /\ nth_error l (Z.to_nat i) = Some a.
Proof.
  unfold index, undefined, ret.
  destruct (i <? 0) eqn:Hlo; [discriminate|].
  destruct (Z.of_nat (List.length l) <=? i) eqn:Hhi; [discriminate|].
  cbn [orb]. destruct (nth_error l (Z.to_nat i)); [|discriminate].
  intros [= -> ->]. repeat split; lia.
Qed.

Lemma window_ok {S A} (samples : list A) (nsamples : Z) (s s' : S) (w : list A) :
  window samples nsamples s = Ok w s' ->
  s' = s /\ nsamples <= Z.of_nat (List.length samples)
  /\ w = firstn (Z.to_nat nsamples) samples.
Proof.
  unfold window, undefined, ret.
  destruct (Z.of_nat (List.length samples) <? nsamples) eqn:Hn; [discriminate|].
  intros [= <- <-]. repeat split; lia.
Qed.

Lemma convert_to_aichan_idx_ok (id : string) (b b' : block) (idx : Z) :
  convert_to_aichan_idx id b = Ok idx b' ->
  b' = b /\ 0 <= idx <= MAX_SUPPORTED_AI_CHANNELS.
Proof.
  unfold convert_to_aichan_idx, throw, ret.
  destruct id as [|c [|c' id']]; try discriminate.
  destruct (toupper (char_value c) - 65 <? 0) eqn:Hlo; [discriminate|].
  destruct (toupper (char_value c) - 65 >? MAX_SUPPORTED_AI_CHANNELS) eqn:Hhi;
    [discriminate|].
  cbn [orb]. intros [= <- <-]. split; [reflexivity|lia].
Qed.

Lemma sample_at_firstn {A} (samples : list A) (n : nat) (k : Z) :
  0 <= k -> nth_error (firstn n samples) (Z.to_nat k) <> None ->
  sample_at samples k = nth_error (firstn n samples) (Z.to_nat k).
Proof.
  intros Hk Hnth. unfold sample_at.
  destruct (k <? 0) eqn:Hneg; [lia|].
  assert (Hlt : (Z.to_nat k < List.length (firstn n samples))%nat)
    by (now apply nth_error_Some).
  rewrite length_firstn in Hlt.
  rewrite nth_error_firstn.
  destruct (Nat.ltb_spec (Z.to_nat k) n); [reflexivity|lia].
Qed.

Lemma firstn_firstn_le {A} (samples : list A) (n m : nat) :
  (m <= n)%nat -> firstn m (firstn n samples) = firstn m samples.
Proof. intros Hle. rewrite firstn_firstn. now rewrite Nat.min_l. Qed.

(** C4, as the code has it.  The analog detector, Rising or High: every
    offset it reports is an offset at which [d_trigger_state] was 0
    (disarmed) and the sample was >= the threshold, and between two
    consecutive reported offsets [i < j] there is an offset [k],
    [i <= k < j], whose sample is <= [lo], the re-arm level the code
    computes: [band] is a hundredth of the source channel's [actual_range]
    rounded to [float], and [lo] is threshold - band rounded to [float]
    ([band_of], [lo_of]), which need not be the exact threshold -
    actual_range / 100.  Falling or Low, mirrored: it reports an offset only
    while [d_trigger_state] is set and the sample is <= the threshold, and
    between two consecutive reports there is a sample >= [hi], threshold +
    band rounded to [float] ([hi_of]).  For every sample sequence and every
    initial [d_trigger_state]. *)
Theorem find_analog_triggers_hysteresis :
  forall (b b' : block) (samples : list IEEE.float) (nsamples : Z)
         (offs : list Z) (aichan : Z) (chan : channel_setting_t),
    find_analog_triggers samples nsamples b = Ok offs b' ->
    convert_to_aichan_idx (source (d_trigger_settings b)) b = Ok aichan b ->
    nth_error (d_channel_settings b) (Z.to_nat aichan) = Some chan ->
    let trig := d_trigger_settings b in
    let band := band_of chan in
    (is_rising_or_high (direction trig) = true ->
       (forall i, In i offs ->
          exists x, sample_at samples i = Some x
            /\ analog_state_before b chan samples i = 0
            /\ IEEE.ge (IEEE.to_double x) (threshold trig) = true)
       /\ (forall l1 i j l2, offs = l1 ++ i :: j :: l2 ->
             i < j /\ exists k x, i <= k < j
               /\ sample_at samples k = Some x
               /\ IEEE.le x (lo_of trig band) = true))
    /\ (is_rising_or_high (direction trig) = false ->
       (forall i, In i offs ->
          exists x, sample_at samples i = Some x
            /\ analog_state_before b chan samples i <> 0
            /\ IEEE.le (IEEE.to_double x) (threshold trig) = true)
       /\ (forall l1 i j l2, offs = l1 ++ i :: j :: l2 ->
             i < j /\ exists k x, i <= k < j
               /\ sample_at samples k = Some x
               /\ IEEE.ge x (hi_of trig band) = true)).
Proof.
  intros b b' samples nsamples offs aichan chan Hrun Hidx Hchan trig band.
  unfold find_analog_triggers in Hrun.
  unfold bind, gets, assert, ret, modify in Hrun.
  destruct (nsamples >=? 0) eqn:Hn; [|discriminate].
  destruct (negb (is_enabled (d_trigger_settings b)) || (nsamples =? 0)) eqn:Hen.
  { injection Hrun as <- _.
    split; intros _; (split; [intros i []|intros [|? ?] ? ? ? ?; discriminate]). }
  destruct (is_analog (d_trigger_settings b)); [|discriminate].
  rewrite Hidx in Hrun.
  unfold analog_state_before. fold trig in Hrun |- *.
  destruct (is_rising_or_high (direction trig)) eqn:Hdir.
  - destruct (index (d_channel_settings b) aichan b) as [c s1| | | |] eqn:Hix;
      try discriminate.
    apply index_ok in Hix. destruct Hix as (-> & _ & Hc).
    rewrite Hchan in Hc. injection Hc as <-.
    destruct (window samples nsamples b) as [w s2| | | |] eqn:Hw; try discriminate.
    apply window_ok in Hw. destruct Hw as (-> & Hlen & ->).
    rewrite analog_rising_loop_hysteresis in Hrun.
    match type of Hrun with context [hysteresis_loop ?i ?f ?r 0 ?l ?t] =>
      destruct (hysteresis_loop i f r 0 l t) as [offs0 ts'] eqn:Hloop end.
    injection Hrun as <- _.
    split; [intros _|discriminate].
    pose proof (f_equal fst Hloop) as Hfst. cbn [fst] in Hfst.
    split.
    + intros i Hin. rewrite <- Hfst in Hin.
      pose proof (hysteresis_offsets_range _ _ _ _ _ _ _ Hin) as Hr.
      destruct (hysteresis_fire_only_if _ _ _ _ _ _ _ Hin) as (x & Hnth & Hst & Hf).
      rewrite Z.sub_0_r in Hnth, Hst.
      rewrite length_firstn in Hr.
      exists x. split; [|split; [|assumption]].
      * rewrite (sample_at_firstn samples (Z.to_nat nsamples)); [assumption|lia|congruence].
      * rewrite analog_rising_loop_hysteresis.
        rewrite firstn_firstn_le in Hst by lia.
        unfold truth in Hst. destruct (snd _ =? 0) eqn:Hz in Hst; [|discriminate].
        now apply Z.eqb_eq in Hz.
    + intros l1 i j l2 Heq. rewrite <- Hfst in Heq.
      destruct (hysteresis_between_fires _ _ _ _ _ _ _ _ _ _ Heq)
        as (k & x & Hk & Hnth & Hre).
      assert (Hi : In i (l1 ++ i :: j :: l2)) by (apply in_or_app; right; now left).
      rewrite <- Heq in Hi.
      apply hysteresis_offsets_range in Hi.
      rewrite Z.sub_0_r in Hnth.
      split; [lia|]. exists k, x. split; [lia|]. split; [|assumption].
      rewrite (sample_at_firstn samples (Z.to_nat nsamples)); [assumption|lia|congruence].
  - destruct (index (d_channel_settings b) aichan b) as [c s1| | | |] eqn:Hix;
      try discriminate.
    apply index_ok in Hix. destruct Hix as (-> & _ & Hc).
    rewrite Hchan in Hc. injection Hc as <-.
    destruct (window samples nsamples b) as [w s2| | | |] eqn:Hw; try discriminate.
    apply window_ok in Hw. destruct Hw as (-> & Hlen & ->).
    rewrite analog_falling_loop_hysteresis in Hrun.
    match type of Hrun with context [hysteresis_loop ?i ?f ?r 0 ?l ?t] =>
      destruct (hysteresis_loop i f r 0 l t) as [offs0 ts'] eqn:Hloop end.
    injection Hrun as <- _.
    split; [discriminate|intros _].
    pose proof (f_equal fst Hloop) as Hfst. cbn [fst] in Hfst.
    split.
    + intros i Hin. rewrite <- Hfst in Hin.
      pose proof (hysteresis_offsets_range _ _ _ _ _ _ _ Hin) as Hr.
      destruct (hysteresis_fire_only_if _ _ _ _ _ _ _ Hin) as (x & Hnth & Hst & Hf).
      rewrite Z.sub_0_r in Hnth, Hst.
      rewrite length_firstn in Hr.
      exists x. split; [|split; [|assumption]].
      * rewrite (sample_at_firstn samples (Z.to_nat nsamples)); [assumption|lia|congruence].
      * rewrite analog_falling_loop_hysteresis.
        rewrite firstn_firstn_le in Hst by lia.
        unfold truth in Hst. destruct (snd _ =? 0) eqn:Hz in Hst; [discriminate|].
        now apply Z.eqb_neq in Hz.
    + intros l1 i j l2 Heq. rewrite <- Hfst in Heq.
      destruct (hysteresis_between_fires _ _ _ _ _ _ _ _ _ _ Heq)
        as (k & x & Hk & Hnth & Hre).
      assert (Hi : In i (l1 ++ i :: j :: l2)) by (apply in_or_app; right; now left).
      rewrite <- Heq in Hi.
      apply hysteresis_offsets_range in Hi.
      rewrite Z.sub_0_r in Hnth.
      split; [lia|]. exists k, x. split; [lia|]. split; [|assumption].
      rewrite (sample_at_firstn samples (Z.to_nat nsamples)); [assumption|lia|congruence].
Qed.

End Detectors.

Lemma find_analog_triggers_hysteresis_witness :
  @find_analog_triggers example_header square_wave 4 analog_example_block
    = Ok [1; 3] (analog_example_block <| d_trigger_state := 1 |>)
  /\ exists k x, 1 <= k < 3
       /\ sample_at square_wave k = Some x
       /\ IEEE.le x (lo_of (d_trigger_settings analog_example_block)
                       (band_of example_channel_A)) = true.
Proof.
  assert (Hrun : @find_analog_triggers example_header square_wave 4
                   analog_example_block
                 = Ok [1; 3] (analog_example_block <| d_trigger_state := 1 |>))
    by (vm_compute; reflexivity).
  split; [exact Hrun|].
  assert (Hidx : @convert_to_aichan_idx example_header
                   (source (d_trigger_settings analog_example_block))
                   analog_example_block = Ok 0 analog_example_block)
    by (vm_compute; reflexivity).
  destruct (@find_analog_triggers_hysteresis example_header _ _ _ _ _ 0
              example_channel_A Hrun Hidx ltac:(vm_compute; reflexivity)) as [Hrising _].
  destruct (Hrising ltac:(vm_compute; reflexivity)) as [_ Hbetween].
  exact (proj2 (Hbetween [] 1 3 [] eq_refl)).
Defined.

(** The claim's re-arm level, threshold - actual_range / 100 in exact
    arithmetic, is not the level the detector compares with.  Threshold 1 V,
    [actual_range] 2 V: the code's [lo] is the [float] next above 0.98.  A
    signal that fires at offset 0, comes down to [lo] and goes up again fires
    a second time at offset 2, although no sample from offset 0 on is at or
    below 0.98. *)
Lemma analog_rearm_level_counterexample :
  let trig := d_trigger_settings unit_threshold_block in
  is_rising_or_high (direction trig) = true
  /\ @convert_to_aichan_idx example_header (source trig) unit_threshold_block
     = Ok 0 unit_threshold_block
  /\ nth_error (d_channel_settings unit_threshold_block) 0 = Some example_channel_A
  /\ @find_analog_triggers example_header grazing_samples 3 unit_threshold_block
     = Ok [0; 2] (unit_threshold_block <| d_trigger_state := 1 |>)
  /\ (forall k x, 0 <= k < 2 -> sample_at grazing_samples k = Some x ->
        ~ at_most x (claimed_rearm_level trig example_channel_A))
  /\ IEEE.le rearm_level_example (lo_of trig (band_of example_channel_A)) = true.
Proof.
  cbv zeta.
  split; [reflexivity|]. split; [vm_compute; reflexivity|].
  split; [vm_compute; reflexivity|]. split; [vm_compute; reflexivity|].
  split; [|vm_compute; reflexivity].
  intros k x Hk Hx.
  assert (Hcases : k = 0 \/ k = 1) by lia.
  destruct Hcases as [-> | ->]; vm_compute in Hx; injection Hx as <-;
    vm_compute; intros Hle; apply Hle; reflexivity.
Qed.

(** ** Scenario: the digital detector *)

Section DigitalScenario.
Context {H : Header}.

(** C7.  Digital trigger on port 0, bit 3 (pin 3, mask 0x08), Rising,
    from [d_trigger_state = 0]: the samples 0x00, 0x00, 0x08, 0x08, 0x00,
    0x08 give exactly the offsets [2; 5], in that order. *)
Theorem find_digital_triggers_scenario :
  forall b : block,
    d_trigger_state b = 0 ->
    exists b1,
      set_di_trigger 3 TRIGGER_DIRECTION_RISING b = Ok tt b1
      /\ Z.quot (pin_number (d_trigger_settings b1)) 8 = 0
      /\ to_uint8 (Z.shiftl 1 (Z.rem (pin_number (d_trigger_settings b1)) 8)) = 8
      /\ find_digital_triggers [0; 0; 8; 8; 0; 8] 6 8 b1
         = Ok [2; 5] (b1 <| d_trigger_state := 1 |>).
Proof.
  intros b Hts. eexists. split; [reflexivity|].
  split; [reflexivity|]. split; [reflexivity|].
  destruct b. cbn in Hts. subst. reflexivity.
Qed.

End DigitalScenario.

(** The same scenario through [work]: the chunk lands in the port's
    output buffer, the detector runs on it, and the trigger tags carry the
    offsets 2 and 5. *)
Lemma work_stream_digital_scenario :
  exists b',
    @work example_header digital_world 6 digital_example_block = Ok 6 b'
    /\ trigger_offsets_of (item_tags b') = [2; 5]
    /\ d_trigger_state b' = 1.
Proof. eexists. repeat split; vm_compute; reflexivity. Qed.

Lemma find_digital_triggers_scenario_witness :
  exists b1,
    @set_di_trigger example_header 3 TRIGGER_DIRECTION_RISING example_block = Ok tt b1
    /\ Z.quot (pin_number (d_trigger_settings b1)) 8 = 0
    /\ to_uint8 (Z.shiftl 1 (Z.rem (pin_number (d_trigger_settings b1)) 8)) = 8
    /\ find_digital_triggers [0; 0; 8; 8; 0; 8] 6 8 b1
       = Ok [2; 5] (b1 <| d_trigger_state := 1 |>).
Proof.
  apply (@find_digital_triggers_scenario example_header example_block).
  reflexivity.
Defined.

(** ** The configuration setters *)

Section Setters.
Context {H : Header}.

Lemma ge_zero_not_lt (x : IEEE.double) :
  IEEE.ge x (IEEE.d_of_Z 0) = true -> IEEE.lt x (IEEE.d_of_Z 0) = false.
Proof.
  unfold IEEE.ge, IEEE.lt, SFleb, SFltb. cbn.
  destruct x as [[|]|[|]| |[|] m e]; cbn; congruence.
Qed.

Lemma to_uint32_small (z : Z) : 0 <= z < 2 ^ 32 -> to_uint32 z = z.
Proof. intros Hz. unfold to_uint32. now apply Z.mod_small. Qed.

(** C9.  A call of [set_streaming] with [poll_rate >= 0] succeeds and
    changes exactly three fields: the mode becomes STREAMING, [d_poll_rate]
    the argument, and [d_nr_captures] 1, whatever [set_rapid_block] stored
    before. *)
Theorem set_streaming_resets_nr_captures :
  forall (b : block) (poll_rate : IEEE.double),
    IEEE.ge poll_rate (IEEE.d_of_Z 0) = true ->
    set_streaming poll_rate b
      = Ok tt (b <| d_acquisition_mode := STREAMING |>
                 <| d_poll_rate := poll_rate |>
                 <| d_nr_captures := 1 |>)
    /\ forall (nr_captures : Z) (b1 : block),
         set_rapid_block nr_captures b = Ok tt b1 ->
         exists b2, set_streaming poll_rate b1 = Ok tt b2
           /\ d_nr_captures b2 = 1
           /\ d_acquisition_mode b2 = STREAMING
           /\ d_poll_rate b2 = poll_rate.
Proof.
  intros b poll_rate Hge. apply ge_zero_not_lt in Hge.
  unfold set_streaming. rewrite Hge. split; [reflexivity|].
  intros nr_captures b1 _. eexists. split; [reflexivity|].
  repeat split.
Qed.

(** C10.  A call of [set_samples] with [samples >= 1] and
    [pre_samples >= 0] succeeds, stores both counts, and overwrites
    [d_buffer_size] with their sum, whatever [set_buffer_size] stored
    before; nothing else changes.  The arguments are [int]s. *)
Theorem set_samples_overwrites_buffer_size :
  forall (b : block) (samples pre_samples : Z),
    is_int samples -> is_int pre_samples ->
    1 <= samples -> 0 <= pre_samples ->
    set_samples samples pre_samples b
      = Ok tt (b <| d_samples := samples |>
                 <| d_pre_samples := pre_samples |>
                 <| d_buffer_size := samples + pre_samples |>)
    /\ forall (buffer_size : Z) (b1 : block),
         set_buffer_size buffer_size b = Ok tt b1 ->
         exists b2, set_samples samples pre_samples b1 = Ok tt b2
           /\ d_buffer_size b2 = samples + pre_samples
           /\ d_samples b2 = samples
           /\ d_pre_samples b2 = pre_samples.
Proof.
  intros b samples pre_samples [_ Hs] [_ Hp] Hs1 Hp0.
  unfold INT_MAX in *.
  assert (Hrun : forall b0, set_samples samples pre_samples b0
            = Ok tt (b0 <| d_samples := samples |>
                        <| d_pre_samples := pre_samples |>
                        <| d_buffer_size := samples + pre_samples |>)).
  { intros b0. unfold set_samples.
    destruct (Z.ltb_spec samples 1); [lia|].
    destruct (Z.ltb_spec pre_samples 0); [lia|].
    unfold bind, modify. destruct b0. cbn. unfold constant.
    rewrite !(to_uint32_small samples), !(to_uint32_small pre_samples) by lia.
    rewrite to_uint32_small by lia.
    reflexivity. }
  split; [apply Hrun|].
  intros buffer_size b1 _. eexists. split; [apply Hrun|]. repeat split.
Qed.

(** C8.  [set_downsampling mode factor], [factor] an [int]: it fails, with
    [std::invalid_argument], exactly when [mode] is not NONE and
    [factor < 2], and succeeds otherwise; after a success the stored factor
    is 1 exactly when the stored mode is NONE (for NONE the argument is
    ignored and 1 is stored); and the block the constructor builds has mode
    NONE and factor 1. *)
Theorem set_downsampling_factor_invariant :
  forall (b : block) (mode : downsampling_mode_t) (downsample_factor : Z),
    is_int downsample_factor ->
    ((exists what b', set_downsampling mode downsample_factor b
                      = Throw (invalid_argument what) b')
       <-> (mode <> DOWNSAMPLING_MODE_NONE /\ downsample_factor < 2))
    /\ ((exists b', set_downsampling mode downsample_factor b = Ok tt b')
        <-> ~ (mode <> DOWNSAMPLING_MODE_NONE /\ downsample_factor < 2))
    /\ (forall b', set_downsampling mode downsample_factor b = Ok tt b' ->
          d_downsampling_mode b' = mode
          /\ (d_downsampling_factor b' = 1
              <-> d_downsampling_mode b' = DOWNSAMPLING_MODE_NONE)
          /\ (mode = DOWNSAMPLING_MODE_NONE -> d_downsampling_factor b' = 1)
          /\ (mode <> DOWNSAMPLING_MODE_NONE ->
              d_downsampling_factor b' = downsample_factor))
    /\ (forall ai_channels di_ports auto_arm,
          let b0 := member_init ai_channels di_ports auto_arm in
          d_downsampling_factor b0 = 1
          <-> d_downsampling_mode b0 = DOWNSAMPLING_MODE_NONE).
Proof.
  intros b mode f [_ Hf]. unfold INT_MAX in Hf.
  assert (Hcase :
    (mode = DOWNSAMPLING_MODE_NONE
     /\ set_downsampling mode f b
        = Ok tt (b <| d_downsampling_mode := mode |>
                   <| d_downsampling_factor := 1 |>))
    \/ (mode <> DOWNSAMPLING_MODE_NONE /\ f < 2
        /\ exists what, set_downsampling mode f b = Throw (invalid_argument what) b)
    \/ (mode <> DOWNSAMPLING_MODE_NONE /\ 2 <= f
        /\ set_downsampling mode f b
           = Ok tt (b <| d_downsampling_mode := mode |>
                      <| d_downsampling_factor := f |>))).
  { unfold set_downsampling, bind, modify, throw.
    destruct (is_mode_none mode) eqn:Hnone.
    - left. split; [now destruct mode|reflexivity].
    - right. assert (mode <> DOWNSAMPLING_MODE_NONE) by (now destruct mode).
      destruct (Z.ltb_spec f 2).
      + left. repeat split; [assumption..|]. now eexists.
      + right. repeat split; [assumption..|].
        rewrite to_uint32_small by lia. reflexivity. }
  split; [|split; [|split]].
  - destruct Hcase as [(Hm & Hrun)|[(Hm & Hlt & what & Hrun)|(Hm & Hge & Hrun)]];
      rewrite Hrun; split.
    + intros (w & b' & Heq). discriminate.
    + intros [Hn _]. contradiction.
    + intros _. now split.
    + intros _. now do 2 eexists.
    + intros (w & b' & Heq). discriminate.
    + intros [_ Hlt]. lia.
  - destruct Hcase as [(Hm & Hrun)|[(Hm & Hlt & what & Hrun)|(Hm & Hge & Hrun)]];
      rewrite Hrun; split.
    + intros _ [Hn _]. contradiction.
    + intros _. now eexists.
    + intros (b' & Heq). discriminate.
    + intros Hn. elim Hn. now split.
    + intros _ [_ Hlt]. lia.
    + intros _. now eexists.
  - intros b' Hok.
    destruct Hcase as [(Hm & Hrun)|[(Hm & Hlt & what & Hrun)|(Hm & Hge & Hrun)]];
      rewrite Hrun in Hok; try discriminate; injection Hok as Hb'.
    + assert (Hmode : d_downsampling_mode b' = mode) by (now subst b').
      assert (Hfac : d_downsampling_factor b' = 1) by (now subst b').
      rewrite Hmode, Hfac. intuition (try congruence; try lia).
    + assert (Hmode : d_downsampling_mode b' = mode) by (now subst b').
      assert (Hfac : d_downsampling_factor b' = f) by (now subst b').
      rewrite Hmode, Hfac. intuition (try congruence; try lia).
  - intros ai_channels di_ports auto_arm. cbn. split; reflexivity.
Qed.

Lemma armed_block_eta (b : block) :
  d_armed b = true -> b = b <| d_armed := true |>.
Proof. destruct b. cbn. intros ->. reflexivity. Qed.

Section Commutes.
Context (T : block -> block).

Lemma commutes_ret {A} (a : A) : commutes T (ret a).
Proof. intros b. reflexivity. Qed.

Lemma commutes_throw {A} (e : exn) : commutes T (@throw block A e).
Proof. intros b. reflexivity. Qed.

Lemma commutes_undefined {A} : commutes T (@undefined block A).
Proof. intros b. reflexivity. Qed.

Lemma commutes_bind {A B} (m : blk A) (k : A -> blk B) :
  commutes T m -> (forall a, commutes T (k a)) -> commutes T (bind m k).
Proof.
  intros Hm Hk b. unfold bind. rewrite Hm.
  destruct (m b); cbn [map_state]; try reflexivity. apply Hk.
Qed.

Lemma commutes_gets {A} (f : block -> A) :
  (forall b, f (T b) = f b) -> commutes T (gets f).
Proof. intros Hf b. unfold gets. cbn [map_state]. now rewrite Hf. Qed.

Lemma commutes_modify (g : block -> block) :
  (forall b, g (T b) = T (g b)) -> commutes T (modify g).
Proof. intros Hg b. unfold modify. cbn [map_state]. now rewrite Hg. Qed.

Lemma commutes_if {A} (c : bool) (m1 m2 : blk A) :
  commutes T m1 -> commutes T m2 -> commutes T (if c then m1 else m2).
Proof. now destruct c. Qed.

Lemma commutes_index {A} (l : list A) (i : Z) : commutes T (index l i).
Proof.
  unfold index. apply commutes_if; [apply commutes_undefined|].
  destruct (nth_error l (Z.to_nat i));
    [apply commutes_ret|apply commutes_undefined].
Qed.

Lemma commutes_assign_at {A} (l : list A) (i : Z) (f : A -> A) :
  commutes T (assign_at l i f).
Proof.
  unfold assign_at. apply commutes_bind; [apply commutes_index|].
  intros _. apply commutes_ret.
Qed.

Lemma commutes_convert_to_aichan_idx (id : string) :
  commutes T (convert_to_aichan_idx id).
Proof.
  unfold convert_to_aichan_idx.
  destruct id as [|c [|c' id']]; try apply commutes_throw.
  apply commutes_if; [apply commutes_throw|apply commutes_ret].
Qed.

Lemma commutes_convert_to_port_idx (id : string) :
  commutes T (convert_to_port_idx id).
Proof.
  unfold convert_to_port_idx, lexical_cast_int.
  apply commutes_if; [apply commutes_throw|].
  destruct (String.get 4 id); [|apply commutes_undefined].
  apply commutes_bind.
  - apply commutes_if; [apply commutes_ret|apply commutes_throw].
  - intros idx. apply commutes_if; [apply commutes_throw|apply commutes_ret].
Qed.

End Commutes.

Ltac commutes_steps :=
  repeat first
    [ apply commutes_ret | apply commutes_throw | apply commutes_undefined
    | apply commutes_convert_to_aichan_idx | apply commutes_convert_to_port_idx
    | apply commutes_assign_at | apply commutes_index
    | apply commutes_if
    | apply commutes_bind; [|intro]
    | apply commutes_gets; intros b; now destruct b
    | apply commutes_modify; intros b; now destruct b ].

(** No setter reads or writes [d_armed]. *)
Lemma call_setter_commutes_armed (v : bool) (c : setter_call) :
  commutes (fun b => b <| d_armed := v |>) (call_setter c).
Proof.
  destruct c; cbn [call_setter];
    unfold set_samp_rate, set_samples, set_buffer_size, set_output_multiple,
      set_nr_buffers, set_driver_buffer_size, set_streaming, set_rapid_block,
      set_downsampling, set_aichan, set_diport, set_aichan_trigger,
      set_di_trigger;
    commutes_steps.
Qed.

Lemma armed_twice (b : block) :
  b <| d_armed := false |> <| d_armed := true |> = b <| d_armed := true |>.
Proof. now destruct b. Qed.

Lemma no_state_error_bind {A B} (m : blk A) (k : A -> blk B) :
  no_state_error m -> (forall a, no_state_error (k a)) ->
  no_state_error (bind m k).
Proof.
  intros Hm Hk b. unfold bind. specialize (Hm b).
  destruct (m b); try reflexivity; [apply Hk|exact Hm].
Qed.

Lemma no_state_error_if {A} (c : bool) (m1 m2 : blk A) :
  no_state_error m1 -> no_state_error m2 ->
  no_state_error (if c then m1 else m2).
Proof. now destruct c. Qed.

Lemma no_state_error_index {A} (l : list A) (i : Z) :
  no_state_error (@index block A l i).
Proof.
  intros b. unfold index, undefined, ret.
  destruct ((i <? 0) || (Z.of_nat (List.length l) <=? i)); [reflexivity|].
  now destruct (nth_error l (Z.to_nat i)).
Qed.

Lemma no_state_error_convert_to_aichan_idx (id : string) :
  no_state_error (convert_to_aichan_idx id).
Proof.
  intros b. unfold convert_to_aichan_idx, throw, ret.
  destruct id as [|c [|c' id']]; try reflexivity.
  now destruct ((toupper (char_value c) - 65 <? 0)
                || (toupper (char_value c) - 65 >? MAX_SUPPORTED_AI_CHANNELS)).
Qed.

Lemma no_state_error_convert_to_port_idx (id : string) :
  no_state_error (convert_to_port_idx id).
Proof.
  intros b. unfold convert_to_port_idx, lexical_cast_int, bind, throw, ret, undefined.
  destruct (negb (String.length id =? 5)%nat); [reflexivity|].
  destruct (String.get 4 id) as [c|]; [|reflexivity].
  destruct ((48 <=? Z.of_nat (nat_of_ascii c)) && (Z.of_nat (nat_of_ascii c) <=? 57));
    [|reflexivity].
  now destruct ((Z.of_nat (nat_of_ascii c) - 48 <? 0)
                || (Z.of_nat (nat_of_ascii c) - 48 >? MAX_SUPPORTED_PORTS)).
Qed.

Ltac no_state_error_steps :=
  repeat first
    [ apply no_state_error_convert_to_aichan_idx
    | apply no_state_error_convert_to_port_idx
    | apply no_state_error_index
    | apply no_state_error_if
    | apply no_state_error_bind; [|intro]
    | (intros b; reflexivity) ].

Lemma call_setter_no_state_error (c : setter_call) :
  no_state_error (call_setter c).
Proof.
  destruct c; cbn [call_setter];
    unfold set_samp_rate, set_samples, set_buffer_size, set_output_multiple,
      set_nr_buffers, set_driver_buffer_size, set_streaming, set_rapid_block,
      set_downsampling, set_aichan, set_diport, set_aichan_trigger,
      set_di_trigger, assign_at;
    no_state_error_steps.
Qed.

(** C2, as the code has it.  No setter looks at [is_armed()]: called on an
    armed block, each of the twelve setters does what it does on the same
    block disarmed, so it returns normally and stores its arguments when
    they are in range, and what it throws otherwise is never a StateError
    ([std::runtime_error]); the block stays armed. *)
Theorem setters_ignore_armed :
  forall (c : setter_call) (b : block),
    is_armed b = true ->
    call_setter c b
      = map_state (fun s => s <| d_armed := true |>)
          (call_setter c (b <| d_armed := false |>))
    /\ is_state_error (call_setter c b) = false
    /\ (forall b', call_setter c b = Ok tt b' -> is_armed b' = true).
Proof.
  intros c b Harmed. unfold is_armed in *.
  assert (Heq : call_setter c b
                = map_state (fun s => s <| d_armed := true |>)
                    (call_setter c (b <| d_armed := false |>))).
  { rewrite <- (call_setter_commutes_armed true c (b <| d_armed := false |>)).
    rewrite armed_twice. now rewrite <- armed_block_eta. }
  split; [exact Heq|]. split; [apply call_setter_no_state_error|].
  intros b' Hok. rewrite Heq in Hok.
  destruct (call_setter c (b <| d_armed := false |>)); try discriminate.
  cbn [map_state] in Hok. injection Hok as _ <-. reflexivity.
Qed.

End Setters.

(** The claim that an armed block refuses its setters fails on the example
    block: armed, [set_samp_rate(20000)] returns normally and the sample
    rate is the new one. *)
Lemma setters_fail_when_armed_counterexample :
  let b := example_block <| d_armed := true |> in
  let call := @call_setter example_header
                (call_set_samp_rate (IEEE.d_of_Z 20000)) in
  is_armed b = true
  /\ is_state_error (call b) = false
  /\ exists b', call b = Ok tt b'
       /\ d_samp_rate b' = IEEE.d_of_Z 20000
       /\ d_samp_rate b = IEEE.d_of_Z 10000
       /\ ~ same_configuration b b'.
Proof.
  cbv zeta. split; [reflexivity|]. split; [reflexivity|].
  eexists. split; [reflexivity|]. split; [reflexivity|]. split; [reflexivity|].
  intros (Hrate & _). vm_compute in Hrate. discriminate.
Qed.

Lemma setters_ignore_armed_witness :
  let b := example_block <| d_armed := true |> in
  let c := call_set_samp_rate (IEEE.d_of_Z 20000) in
  is_armed b = true
  /\ @call_setter example_header c b
     = map_state (fun s => s <| d_armed := true |>)
         (@call_setter example_header c (b <| d_armed := false |>)).
Proof.
  cbv zeta. split; [reflexivity|].
  apply (@setters_ignore_armed example_header
           (call_set_samp_rate (IEEE.d_of_Z 20000))
           (example_block <| d_armed := true |>)).
  reflexivity.
Defined.

Lemma set_streaming_resets_nr_captures_witness :
  let b := example_block <| d_nr_captures := 5 |> in
  IEEE.ge (IEEE.d_dec 5 4) (IEEE.d_of_Z 0) = true
  /\ @set_streaming (IEEE.d_dec 5 4) b
     = Ok tt (b <| d_acquisition_mode := STREAMING |>
                <| d_poll_rate := IEEE.d_dec 5 4 |>
                <| d_nr_captures := 1 |>).
Proof.
  cbv zeta. split; [reflexivity|].
  apply (set_streaming_resets_nr_captures
           (example_block <| d_nr_captures := 5 |>) (IEEE.d_dec 5 4)).
  reflexivity.
Defined.

Lemma set_samples_overwrites_buffer_size_witness :
  is_int 9000 /\ is_int 1000 /\ 1 <= 9000 /\ 0 <= 1000
  /\ set_samples 9000 1000 example_block
     = Ok tt (example_block <| d_samples := 9000 |>
                <| d_pre_samples := 1000 |>
                <| d_buffer_size := 9000 + 1000 |>).
Proof.
  assert (H9 : is_int 9000) by (unfold is_int, INT_MIN, INT_MAX; lia).
  assert (H1 : is_int 1000) by (unfold is_int, INT_MIN, INT_MAX; lia).
  split; [exact H9|]. split; [exact H1|]. split; [lia|]. split; [lia|].
  apply (set_samples_overwrites_buffer_size example_block
           9000 1000 H9 H1); lia.
Defined.

Lemma set_downsampling_factor_invariant_witness :
  is_int 16
  /\ forall b', @set_downsampling DOWNSAMPLING_MODE_DECIMATE 16 example_block
              = Ok tt b' ->
       d_downsampling_factor b' = 1
       <-> d_downsampling_mode b' = DOWNSAMPLING_MODE_NONE.
Proof.
  assert (H16 : is_int 16) by (unfold is_int, INT_MIN, INT_MAX; lia).
  split; [exact H16|].
  intros b' Hok.
  apply (@set_downsampling_factor_invariant example_header example_block
           DOWNSAMPLING_MODE_DECIMATE 16 H16).
  exact Hok.
Defined.

(** ** Reasoning about member functions *)

Lemma bind_Ok {A B} (m : blk A) (k : A -> blk B) (b b' : block) (r : B) :
  bind m k b = Ok r b' ->
  exists a b1, m b = Ok a b1 /\ k a b1 = Ok r b'.
Proof.
  unfold bind. destruct (m b) as [a b1| | | |]; try discriminate.
  intros Hk. now exists a, b1.
Qed.

Lemma Ok_inj {S A} (a a' : A) (s s' : S) :
  Ok a s = Ok a' s' -> a = a' /\ s = s'.
Proof. intros Heq. now injection Heq. Qed.

Lemma bind_run {A B} (m : blk A) (k : A -> blk B) (b b1 : block) (a : A) :
  m b = Ok a b1 -> bind m k b = k a b1.
Proof. unfold bind. now intros ->. Qed.

Section Returns.
Context {A : Type} (P : A -> Prop).

Lemma returns_ret (a : A) : P a -> returns (ret a) P.
Proof. intros Ha b a' b' [= <- _]. exact Ha. Qed.

Lemma returns_bind {B} (m : blk B) (k : B -> blk A) :
  (forall x, returns (k x) P) -> returns (bind m k) P.
Proof.
  intros Hk b a b' Hrun. apply bind_Ok in Hrun.
  destruct Hrun as (x & b1 & _ & Hrun). exact (Hk x b1 a b' Hrun).
Qed.

Lemma returns_if (c : bool) (m1 m2 : blk A) :
  returns m1 P -> returns m2 P -> returns (if c then m1 else m2) P.
Proof. now destruct c. Qed.

End Returns.

Section Preserves.
Context (R : block -> block -> Prop).
Hypothesis R_trans : forall a b c, R a b -> R b c -> R a c.

Lemma preserves_ret {A} (a : A) : preserves R (ret a).
Proof. intros b0 b Hb. exact Hb. Qed.

Lemma preserves_throw {A} (e : exn) : preserves R (@throw block A e).
Proof. intros b0 b Hb. exact Hb. Qed.

Lemma preserves_undefined {A} : preserves R (@undefined block A).
Proof. intros b0 b Hb. exact I. Qed.

Lemma preserves_blocked {A} : preserves R (@blocked block A).
Proof. intros b0 b Hb. exact I. Qed.

Lemma preserves_get : preserves R get.
Proof. intros b0 b Hb. exact Hb. Qed.

Lemma preserves_gets {A} (f : block -> A) : preserves R (gets f).
Proof. intros b0 b Hb. exact Hb. Qed.

Lemma preserves_assert (c : bool) : preserves R (assert c).
Proof. intros b0 b Hb. unfold wp, assert. now destruct c. Qed.

Lemma preserves_modify (f : block -> block) :
  (forall b, R b (f b)) -> preserves R (modify f).
Proof. intros Hf b0 b Hb. unfold wp, modify. eapply R_trans; [exact Hb|apply Hf]. Qed.

Lemma preserves_bind {A B} (m : blk A) (k : A -> blk B) :
  preserves R m -> (forall a, preserves R (k a)) -> preserves R (bind m k).
Proof.
  intros Hm Hk b0 b Hb. specialize (Hm b0 b Hb). unfold wp, bind in *.
  destruct (m b) as [a b1|e b1| | |]; try exact I; [|exact Hm].
  exact (Hk a b0 b1 Hm).
Qed.

Lemma preserves_if {A} (c : bool) (m1 m2 : blk A) :
  preserves R m1 -> preserves R m2 -> preserves R (if c then m1 else m2).
Proof. now destruct c. Qed.

Lemma preserves_try_catch {A} (m h : blk A) :
  preserves R m -> preserves R h -> preserves R (try_catch m h).
Proof.
  intros Hm Hh b0 b Hb. specialize (Hm b0 b Hb). unfold wp, try_catch in *.
  destruct (m b) as [a b1|e b1| | |]; try exact I; [exact Hm|].
  exact (Hh b0 b1 Hm).
Qed.

Lemma preserves_index {A} (l : list A) (i : Z) : preserves R (index l i).
Proof.
  unfold index. apply preserves_if; [apply preserves_undefined|].
  destruct (nth_error l (Z.to_nat i));
    [apply preserves_ret|apply preserves_undefined].
Qed.

Lemma preserves_at_ {A} (l : list A) (i : Z) : preserves R (at_ l i).
Proof.
  unfold at_. apply preserves_if; [apply preserves_throw|apply preserves_index].
Qed.

Lemma preserves_c_for {V} (cond : V -> bool) (body : V -> blk V) (fuel : nat) :
  (forall v, preserves R (body v)) ->
  forall v, preserves R (c_for fuel cond body v).
Proof.
  intros Hbody. induction fuel as [|fuel IH]; intros v; cbn [c_for].
  - apply preserves_ret.
  - apply preserves_if; [|apply preserves_ret].
    apply preserves_bind; [apply Hbody|exact IH].
Qed.

Lemma preserves_for_upto {A} (n : Z) (body : Z -> A -> blk A) (a : A) :
  (forall i x, preserves R (body i x)) -> preserves R (for_upto n body a).
Proof.
  intros Hbody. unfold for_upto. apply preserves_bind.
  - apply preserves_c_for. intros v. apply preserves_bind; [apply Hbody|].
    intros x. apply preserves_ret.
  - intros r. apply preserves_ret.
Qed.

Lemma preserves_fold_left {X} (step : X -> blk unit) (l : list X) :
  (forall x, preserves R (step x)) ->
  forall k0 : blk unit, preserves R k0 ->
    preserves R (fold_left (fun (k : blk unit) x => bind k (fun _ => step x)) l k0).
Proof.
  intros Hstep. induction l as [|x l IH]; intros k0 Hk0; cbn [fold_left].
  - exact Hk0.
  - apply IH. apply preserves_bind; [exact Hk0|]. intros _. apply Hstep.
Qed.

Lemma preserves_window {A} (samples : list A) (n : Z) :
  preserves R (window samples n).
Proof.
  unfold window. apply preserves_if; [apply preserves_undefined|apply preserves_ret].
Qed.

End Preserves.

(** One step of a compositional proof of [preserves R m]; [leaf] proves
    the steps that change the state. *)
Ltac preserves_step leaf :=
  lazymatch goal with
  | |- preserves _ (ret _) => apply preserves_ret
  | |- preserves _ (throw _) => apply preserves_throw
  | |- preserves _ undefined => apply preserves_undefined
  | |- preserves _ blocked => apply preserves_blocked
  | |- preserves _ get => apply preserves_get
  | |- preserves _ (gets _) => apply preserves_gets
  | |- preserves _ (assert _) => apply preserves_assert
  | |- preserves _ (index _ _) => apply preserves_index
  | |- preserves _ (at_ _ _) => apply preserves_at_
  | |- preserves _ (window _ _) => apply preserves_window
  | |- preserves _ (add_error_code _) => leaf
  | |- preserves _ (add_item_tag _ _) => leaf
  | |- preserves _ (call_driver _) => leaf
  | |- preserves _ (modify _) => leaf
  | |- preserves _ (try_catch _ _) => apply preserves_try_catch
  | |- preserves _ (c_for _ _ _ _) => apply preserves_c_for; intro
  | |- preserves _ (for_upto _ _ _) => apply preserves_for_upto; intros
  | |- preserves _ (bind _ _) => apply preserves_bind; [|intro]
  | |- preserves _ (if _ then _ else _) => apply preserves_if
  | |- preserves _ (match ?x with _ => _ end) => destruct x
  | |- preserves _ (let '(_, _) := ?x in _) => destruct x
  end.

(** A computation that preserves a reflexive relation relates the state
    it starts in to the state it returns. *)
Lemma preserves_Ok {A} (R : block -> block -> Prop) (m : blk A)
    (b b' : block) (a : A) :
  (forall x, R x x) -> preserves R m -> m b = Ok a b' -> R b b'.
Proof.
  intros Hrefl Hm Hrun. specialize (Hm b b (Hrefl b)).
  unfold wp in Hm. now rewrite Hrun in Hm.
Qed.

Lemma preserves_Throw {A} (R : block -> block -> Prop) (m : blk A)
    (b b' : block) (e : exn) :
  (forall x, R x x) -> preserves R m -> m b = Throw e b' -> R b b'.
Proof.
  intros Hrefl Hm Hrun. specialize (Hm b b (Hrefl b)).
  unfold wp in Hm. now rewrite Hrun in Hm.
Qed.

(** ** Streaming: what [work] returns *)

Section Streaming.
Context {H : Header}.

Ltac returns_steps :=
  repeat first
    [ apply returns_ret; reflexivity
    | apply returns_bind;
      let x := fresh "x" in
      intro x;
      repeat match goal with
             | p : (_ * _)%type |- _ => destruct p
             end ].

Lemma work_stream_chunk_returns (w : world) (noutput_items : Z) :
  returns (work_stream_chunk w noutput_items) (fun r => r = noutput_items).
Proof. unfold work_stream_chunk. returns_steps. Qed.

Lemma to_int_positive (z : Z) : is_uint32 z -> to_int z > 0 -> to_int z = z.
Proof.
  unfold is_uint32, to_int. intros Hz Hpos.
  destruct (Z.lt_ge_cases z (2 ^ 31)) as [Hlt|Hge].
  - rewrite Z.mod_small by lia. lia.
  - exfalso.
    replace (z + 2 ^ 31) with ((z - 2 ^ 31) + 1 * 2 ^ 32) in Hpos by lia.
    rewrite Z.mod_add in Hpos by lia.
    rewrite Z.mod_small in Hpos by lia. lia.
Qed.

Lemma work_stream_returns (w : world) (noutput_items : Z) (b b' : block) (r : Z) :
  work_stream w noutput_items b = Ok r b' ->
  r = -1 \/ r = 0 \/ r = to_int (d_buffer_size b).
Proof.
  unfold work_stream. intros Hrun.
  apply bind_Ok in Hrun. destruct Hrun as (b0 & b1 & [= <- <-] & Hrun).
  apply bind_Ok in Hrun. destruct Hrun as (_ & b2 & _ & Hrun).
  apply bind_Ok in Hrun. destruct Hrun as (_ & b3 & _ & Hrun).
  destruct (ec_eqb (app_buffer_wait_data_ready w) Stopped).
  { injection Hrun as <- _. now left. }
  destruct (ec_eqb (app_buffer_wait_data_ready w) Watchdog).
  { apply bind_Ok in Hrun. destruct Hrun as (_ & b4 & _ & Hrun).
    apply bind_Ok in Hrun. destruct Hrun as (_ & b5 & _ & Hrun).
    injection Hrun as <- _. right. now left. }
  destruct (ec_set (app_buffer_wait_data_ready w)).
  { injection Hrun as <- _. now left. }
  right. right. exact (work_stream_chunk_returns _ _ _ _ _ Hrun).
Qed.

Lemma work_returns_retval (w : world) (noutput_items : Z) (b b' : block) (r : Z) :
  work w noutput_items b = Ok r b' ->
  exists b1,
    match d_acquisition_mode b with
    | STREAMING => work_stream w noutput_items b
    | RAPID_BLOCK => work_rapid_block w noutput_items b
    end = Ok r b1.
Proof.
  unfold work. intros Hrun.
  apply bind_Ok in Hrun. destruct Hrun as (b0 & b1 & [= <- <-] & Hrun).
  apply bind_Ok in Hrun. destruct Hrun as (retval & b2 & Hworker & Hrun).
  apply bind_Ok in Hrun. destruct Hrun as (b3 & b4 & _ & Hrun).
  apply bind_Ok in Hrun. destruct Hrun as (_ & b5 & _ & Hrun).
  injection Hrun as <- _. exists b2.
  destruct (d_acquisition_mode b); exact Hworker.
Qed.

(** C1.  A call of [work] in STREAMING mode that returns [n > 0] returns
    the configured [d_buffer_size] (a [uint32_t]). *)
Theorem work_stream_produces_buffer_size :
  forall (w : world) (noutput_items : Z) (b b' : block) (n : Z),
    d_acquisition_mode b = STREAMING ->
    is_uint32 (d_buffer_size b) ->
    work w noutput_items b = Ok n b' ->
    n > 0 ->
    n = d_buffer_size b.
Proof.
  intros w noutput_items b b' n Hmode Hsize Hrun Hpos.
  apply work_returns_retval in Hrun. destruct Hrun as (b1 & Hrun).
  rewrite Hmode in Hrun. apply work_stream_returns in Hrun.
  destruct Hrun as [Hr|[Hr|Hr]]; subst n; [lia|lia|].
  now apply to_int_positive.
Qed.

Lemma ec_eqb_refl (ec : error_code) : ec_eqb ec ec = true.
Proof. destruct ec; cbn; [reflexivity..|apply Z.eqb_refl]. Qed.

Lemma ec_eqb_eq (a c : error_code) : ec_eqb a c = true -> a = c.
Proof.
  destruct a, c; cbn; try discriminate; try reflexivity.
  intros Heq. apply Z.eqb_eq in Heq. now subst.
Qed.



End Streaming.

Lemma work_stream_produces_buffer_size_witness :
  exists b',
    d_acquisition_mode example_block = STREAMING
    /\ is_uint32 (d_buffer_size example_block)
    /\ @work example_header quiet_world 8192 example_block = Ok 8192 b'
    /\ 8192 = d_buffer_size example_block.
Proof.
  assert (Hrun : exists b',
            @work example_header quiet_world 8192 example_block = Ok 8192 b')
    by (eexists; vm_compute; reflexivity).
  destruct Hrun as [b' Hrun]. exists b'.
  assert (Hsize : is_uint32 (d_buffer_size example_block))
    by (unfold is_uint32; cbn; lia).
  split; [reflexivity|]. split; [exact Hsize|]. split; [exact Hrun|].
  apply (@work_stream_produces_buffer_size example_header quiet_world 8192
           example_block b' 8192 eq_refl Hsize Hrun).
  lia.
Defined.



(** ** The worker functions are quiet *)

Section Quiet.
Context {H : Header}.

Lemma quiet_refl (b : block) : quiet b b.
Proof.
  repeat split; try reflexivity.
  - exists []. now rewrite app_nil_r.
  - exists []. now rewrite app_nil_r.
Qed.

Lemma quiet_trans (a b c : block) : quiet a b -> quiet b c -> quiet a c.
Proof.
  intros (Hr1 & Hm1 & Hf1 & Hn1 & (t1 & Ht1 & Hq1) & (c1 & Hc1 & Hp1))
         (Hr2 & Hm2 & Hf2 & Hn2 & (t2 & Ht2 & Hq2) & (c2 & Hc2 & Hp2)).
  repeat split; try congruence.
  - exists (t1 ++ t2). split.
    + rewrite Ht2, Ht1. now rewrite app_assoc.
    + rewrite forallb_app. now rewrite Hq1, Hq2.
  - exists (c1 ++ c2). split.
    + rewrite Hc2, Hc1. now rewrite app_assoc.
    + rewrite existsb_app. rewrite Hp2, Hp1.
      destruct (existsb is_arm_ok c1), (existsb is_arm_ok c2); reflexivity.
Qed.

(** A state change that touches none of the fields [quiet] reads. *)
Lemma quiet_frame (b b' : block) :
  d_actual_samp_rate b' = d_actual_samp_rate b ->
  d_downsampling_mode b' = d_downsampling_mode b ->
  d_downsampling_factor b' = d_downsampling_factor b ->
  nitems_written0 b' = nitems_written0 b ->
  item_tags b' = item_tags b ->
  driver_calls b' = driver_calls b ->
  d_timebase_published b' = d_timebase_published b ->
  quiet b b'.
Proof.
  intros Hr Hm Hf Hn Ht Hc Hp. repeat split; try assumption.
  - exists []. now rewrite app_nil_r.
  - exists []. now rewrite app_nil_r.
Qed.

Ltac frame := intro; apply quiet_frame; reflexivity.

Lemma quiet_add_item_tag (which_output : Z) (tag : tag_t) :
  is_timebase_tag tag = false ->
  preserves quiet (add_item_tag which_output tag).
Proof.
  intros Htag. apply (preserves_modify _ quiet_trans). intros b.
  repeat split; try reflexivity.
  - exists [(which_output, tag)]. split; [reflexivity|].
    cbn. now rewrite Htag.
  - exists []. now rewrite app_nil_r.
Qed.

Lemma quiet_call_driver (c : driver_call) :
  is_arm_ok c = false -> preserves quiet (call_driver c).
Proof.
  intros Hc. apply (preserves_modify _ quiet_trans). intros b.
  repeat split; try reflexivity.
  - exists []. now rewrite app_nil_r.
  - exists [c]. split; [reflexivity|]. cbn. now rewrite Hc.
Qed.

Lemma quiet_add_error_code (ec : error_code) : preserves quiet (add_error_code ec).
Proof. apply (preserves_modify _ quiet_trans). frame. Qed.

(** A bind whose continuation is only run on the values the first part
    can return. *)
Lemma preserves_bind_returns {A B} (R : block -> block -> Prop)
    (m : blk A) (k : A -> blk B) (P : A -> Prop) :
  preserves R m -> returns m P -> (forall a, P a -> preserves R (k a)) ->
  preserves R (bind m k).
Proof.
  intros Hm Hret Hk b0 b Hb. specialize (Hm b0 b Hb). unfold wp, bind in *.
  destruct (m b) as [a b1|e b1| | |] eqn:Hrun; try exact I; [|exact Hm].
  exact (Hk a (Hret _ _ _ Hrun) b0 b1 Hm).
Qed.

Ltac quiet_leaf :=
  first [ apply quiet_add_error_code
        | apply quiet_add_item_tag; reflexivity
        | apply quiet_call_driver; reflexivity
        | apply (preserves_modify _ quiet_trans); frame ].

Ltac quiet_step := preserves_step quiet_leaf.

Ltac quiet_steps := repeat quiet_step.

Lemma quiet_disarm (w : world) : preserves quiet (disarm w).
Proof. unfold disarm, transit_poll_thread_to_idle. quiet_steps. Qed.

Lemma quiet_count_enabled_channels (b : block) :
  preserves quiet (count_enabled_channels b).
Proof. unfold count_enabled_channels. quiet_steps. Qed.

Lemma quiet_count_enabled_ports (b : block) :
  preserves quiet (count_enabled_ports b).
Proof. unfold count_enabled_ports. quiet_steps. Qed.

Lemma quiet_arm (w : world) : preserves quiet (arm w).
Proof.
  intros b0 b Hb. unfold arm. unfold wp, bind at 1, get at 1.
  destruct (d_armed b); [exact Hb|].
  unfold bind at 1, call_driver at 1, modify at 1.
  destruct (ec_set (driver_arm w)) eqn:Hec.
  - assert (Hq : preserves quiet
                   (add_error_code (driver_arm w) ;;
                    throw (A:=unit) (runtime_error
                      ("arm failed: " ++ to_string (driver_arm w))%string)))
      by quiet_steps.
    apply Hq. eapply quiet_trans; [exact Hb|].
    repeat split; try reflexivity.
    + exists []. now rewrite app_nil_r.
    + exists [call_driver_arm (driver_arm w)]. split; [reflexivity|].
      cbn. now rewrite Hec.
  - unfold bind at 1, modify at 1. unfold bind at 1, modify at 1.
    unfold bind at 1, modify at 1.
    match goal with
    | |- match ?rest ?b1 with _ => _ end =>
        assert (Hq : preserves quiet rest);
        [|apply Hq; eapply quiet_trans; [exact Hb|]]
    end.
    + pose proof quiet_count_enabled_channels. pose proof quiet_count_enabled_ports.
      unfold transit_poll_thread_to_running.
      repeat first
        [ apply quiet_count_enabled_channels | apply quiet_count_enabled_ports
        | quiet_step ].
    + repeat split; try reflexivity.
      * exists []. now rewrite app_nil_r.
      * exists [call_driver_arm (driver_arm w)]. split; [reflexivity|].
        cbn. now rewrite Hec.
Qed.

Lemma quiet_convert_to_aichan_idx (id : string) :
  preserves quiet (convert_to_aichan_idx id).
Proof.
  unfold convert_to_aichan_idx. destruct id as [|c [|c' id']]; quiet_steps.
Qed.

Lemma quiet_find_analog_triggers (samples : list IEEE.float) (nsamples : Z) :
  preserves quiet (find_analog_triggers samples nsamples).
Proof.
  unfold find_analog_triggers.
  repeat first [ apply quiet_convert_to_aichan_idx | quiet_step ].
Qed.

Lemma quiet_find_digital_triggers (samples : list Z) (nsamples mask : Z) :
  preserves quiet (find_digital_triggers samples nsamples mask).
Proof. unfold find_digital_triggers. quiet_steps. Qed.

Lemma quiet_tag_enabled_outputs (b : block) (chan_tag : Z -> blk tag_t)
    (port_tag : tag_t) :
  (forall i, preserves quiet (chan_tag i)) ->
  (forall i, returns (chan_tag i) (fun t => is_timebase_tag t = false)) ->
  is_timebase_tag port_tag = false ->
  preserves quiet (tag_enabled_outputs b chan_tag port_tag).
Proof.
  intros Hchan Hret Hport. unfold tag_enabled_outputs.
  apply preserves_bind; [|intro].
  - apply preserves_for_upto. intros i output_idx.
    apply preserves_bind; [apply preserves_index|]. intros c.
    apply preserves_if; [|apply preserves_ret].
    apply (preserves_bind_returns _ _ _ _ (Hchan i) (Hret i)).
    intros tag Htag. apply preserves_bind; [|intro; apply preserves_ret].
    now apply quiet_add_item_tag.
  - apply preserves_bind; [|intro; apply preserves_ret].
    apply preserves_for_upto. intros i output_idx.
    apply preserves_bind; [apply preserves_index|]. intros p.
    apply preserves_if; [|apply preserves_ret].
    apply preserves_bind; [|intro; apply preserves_ret].
    now apply quiet_add_item_tag.
Qed.

Lemma quiet_as_floats (buf : buffer) : preserves quiet (as_floats buf).
Proof. unfold as_floats. quiet_steps. Qed.

Lemma quiet_as_bytes (buf : buffer) : preserves quiet (as_bytes buf).
Proof. unfold as_bytes. quiet_steps. Qed.

Lemma quiet_work_stream_chunk (w : world) (noutput_items : Z) :
  preserves quiet (work_stream_chunk w noutput_items).
Proof.
  unfold work_stream_chunk.
  repeat first
    [ apply quiet_convert_to_aichan_idx
    | apply quiet_find_analog_triggers
    | apply quiet_find_digital_triggers
    | apply quiet_as_floats | apply quiet_as_bytes
    | apply quiet_tag_enabled_outputs;
      [ intro; quiet_steps
      | intro; first [ apply returns_ret; reflexivity
                     | apply returns_bind; intro; apply returns_ret; reflexivity ]
      | reflexivity ]
    | apply preserves_fold_left; [intro|]
    | quiet_step ].
Qed.

Lemma quiet_work_stream (w : world) (noutput_items : Z) :
  preserves quiet (work_stream w noutput_items).
Proof.
  unfold work_stream.
  repeat first
    [ apply quiet_work_stream_chunk | apply quiet_disarm | apply quiet_arm
    | quiet_step ].
Qed.

Lemma quiet_wait_data_ready (w : world) : preserves quiet (wait_data_ready w).
Proof. unfold wait_data_ready, notify_data_ready. quiet_steps. Qed.

Lemma quiet_rapid_block_waiting (w : world) : preserves quiet (rapid_block_waiting w).
Proof.
  unfold rapid_block_waiting, clear_data_ready.
  repeat first
    [ apply quiet_disarm | apply quiet_arm | apply quiet_wait_data_ready
    | quiet_step ].
Qed.

Lemma quiet_rapid_block_part1 (w : world) (noutput_items : Z) :
  preserves quiet (rapid_block_part1 w noutput_items).
Proof. unfold rapid_block_part1. quiet_steps. Qed.

Lemma quiet_rapid_block_the_rest (w : world) (noutput_items : Z) :
  preserves quiet (rapid_block_the_rest w noutput_items).
Proof. unfold rapid_block_the_rest. quiet_steps. Qed.

Lemma quiet_work_rapid_block (w : world) (noutput_items : Z) :
  preserves quiet (work_rapid_block w noutput_items).
Proof.
  unfold work_rapid_block.
  repeat first
    [ apply quiet_rapid_block_waiting | apply quiet_rapid_block_part1
    | apply quiet_rapid_block_the_rest | quiet_step ].
Qed.

(** An [arm] that takes effect leaves [d_timebase_published] cleared. *)
Lemma arm_clears_timebase_published (w : world) (b b0 : block) :
  is_armed b = false -> arm w b = Ok tt b0 -> d_timebase_published b0 = false.
Proof.
  unfold is_armed, arm. intros Harmed. unfold bind at 1, get at 1.
  rewrite Harmed. unfold bind at 1, call_driver at 1, modify at 1.
  destruct (ec_set (driver_arm w)) eqn:Hec.
  { unfold bind, add_error_code, modify, throw. discriminate. }
  unfold bind at 1, modify at 1. unfold bind at 1, modify at 1.
  unfold bind at 1, modify at 1.
  match goal with
  | |- ?rest ?b1 = _ -> _ =>
      assert (Hq : preserves quiet rest);
      [|intros Hrun; specialize (Hq b1 b1 (quiet_refl b1));
        unfold wp in Hq; rewrite Hrun in Hq]
  end.
  - unfold transit_poll_thread_to_running.
    repeat first
      [ apply quiet_count_enabled_channels | apply quiet_count_enabled_ports
      | quiet_step ].
  - destruct Hq as (_ & _ & _ & _ & _ & (calls & _ & Hflag)).
    rewrite Hflag. now destruct (existsb is_arm_ok calls).
Qed.

(** The loop of [work] that tags every output. *)
Lemma tag_every_slot_loop (tag : tag_t) (n : nat) :
  forall (k i : nat) (b : block),
    (i + k = n)%nat ->
    c_for k (fun v : Z * unit => fst v <? Z.of_nat n)
      (fun v => a' <- add_item_tag (fst v) tag ;; ret (fst v + 1, a'))
      (Z.of_nat i, tt) b
    = Ok (Z.of_nat n, tt)
        (b <| item_tags := item_tags b
                ++ map (fun j => (Z.of_nat j, tag)) (seq i k) |>).
Proof.
  induction k as [|k IH]; intros i b Hik; cbn [c_for seq map].
  - replace i with n by lia. unfold ret. f_equal.
    destruct b. cbn. unfold constant. now rewrite app_nil_r.
  - cbn [fst]. destruct (Z.ltb_spec (Z.of_nat i) (Z.of_nat n)); [|lia].
    unfold bind at 1. unfold bind at 1. unfold add_item_tag at 1, modify at 1.
    unfold ret at 1.
    replace (Z.of_nat i + 1) with (Z.of_nat (Datatypes.S i)) by lia.
    rewrite IH by lia. f_equal.
    destruct b. cbn. unfold constant. now rewrite <- app_assoc.
Qed.

Lemma tag_every_slot (tag : tag_t) (n : nat) (b : block) :
  for_upto (Z.of_nat n) (fun i (_ : unit) => add_item_tag i tag) tt b
  = Ok tt (b <| item_tags := item_tags b ++ on_every_slot n tag |>).
Proof.
  unfold for_upto. rewrite Nat2Z.id.
  rewrite (bind_run _ _ b
             (b <| item_tags := item_tags b
                     ++ map (fun j => (Z.of_nat j, tag)) (seq 0 n) |>)
             (Z.of_nat n, tt)).
  - reflexivity.
  - apply (tag_every_slot_loop tag n n 0 b). lia.
Qed.

Lemma quiet_timebase_tag_of (b b1 : block) :
  quiet b b1 -> timebase_tag_of b1 = timebase_tag_of b.
Proof.
  intros (Hr & Hm & Hf & Hn & _). unfold timebase_tag_of,
    get_timebase_with_downsampling. now rewrite Hr, Hm, Hf, Hn.
Qed.

(** What a call of [work] by the scheduler does: the worker function is
    quiet, then, when it returned [r > 0] and [d_timebase_published] is
    clear, every output gets the Timebase tag and the flag is set; the
    scheduler adds [r] to [nitems_written]. *)
Lemma scheduled_work_post (c : world * Z) (b b2 : block) (r : Z) :
  scheduled_work c b = Ok r b2 ->
  exists b1,
    quiet b b1
    /\ driver_calls b2 = driver_calls b1
    /\ d_actual_samp_rate b2 = d_actual_samp_rate b1
    /\ d_downsampling_mode b2 = d_downsampling_mode b1
    /\ d_downsampling_factor b2 = d_downsampling_factor b1
    /\ nitems_written0 b2 = (if r >? 0 then r else 0) + nitems_written0 b1
    /\ d_timebase_published b2 = (r >? 0) || d_timebase_published b1
    /\ item_tags b2
       = item_tags b1
         ++ (if (r >? 0) && negb (d_timebase_published b1)
             then on_every_slot (List.length (output_items (fst c)))
                    (timebase_tag_of b1)
             else []).
Proof.
  unfold scheduled_work. intros Hrun.
  apply bind_Ok in Hrun. destruct Hrun as (r0 & b3 & Hwork & Hrun).
  apply bind_Ok in Hrun. destruct Hrun as (u & b4 & Hadv & Hrun).
  apply Ok_inj in Hrun. destruct Hrun as [-> ->].
  unfold work in Hwork.
  apply bind_Ok in Hwork. destruct Hwork as (b' & b'' & Hget & Hwork).
  apply Ok_inj in Hget. destruct Hget as [<- <-].
  apply bind_Ok in Hwork. destruct Hwork as (retval & b1 & Hworker & Hwork).
  assert (Hq : quiet b b1).
  { destruct (d_acquisition_mode b).
    - pose proof (quiet_work_rapid_block (fst c) (snd c) b b (quiet_refl b)) as Hq.
      unfold wp in Hq. now rewrite Hworker in Hq.
    - pose proof (quiet_work_stream (fst c) (snd c) b b (quiet_refl b)) as Hq.
      unfold wp in Hq. now rewrite Hworker in Hq. }
  exists b1. split; [exact Hq|].
  unfold bind at 1, get at 1 in Hwork.
  unfold output_items_size in Hwork.
  destruct ((retval >? 0) && negb (d_timebase_published b1)) eqn:Hcond.
  - unfold bind at 1 in Hwork. unfold bind at 1 in Hwork.
    rewrite tag_every_slot in Hwork. unfold modify, ret in Hwork.
    apply Ok_inj in Hwork. destruct Hwork as [<- <-].
    apply andb_prop in Hcond. destruct Hcond as [Hpos Hflag].
    rewrite Hpos in *. unfold modify in Hadv.
    apply Ok_inj in Hadv. destruct Hadv as [_ <-].
    apply negb_true_iff in Hflag. rewrite Hflag. cbn [orb andb negb].
    fold (timebase_tag_of b1).
    repeat split; reflexivity.
  - unfold bind, ret in Hwork.
    apply Ok_inj in Hwork. destruct Hwork as [<- <-].
    destruct (retval >? 0) eqn:Hpos.
    + cbn [andb] in Hcond. apply negb_false_iff in Hcond. rewrite Hcond.
      unfold modify in Hadv. apply Ok_inj in Hadv. destruct Hadv as [_ <-].
      cbn [orb andb negb]. rewrite app_nil_r.
      repeat split; try reflexivity. exact Hcond.
    + unfold ret in Hadv. apply Ok_inj in Hadv. destruct Hadv as [_ <-].
      cbn [orb andb]. rewrite app_nil_r. repeat split; reflexivity.
Qed.

End Quiet.

(** ** The Timebase tag over a run *)

Section TimebaseRun.
Context {H : Header}.

Lemma filter_none {A} (P : A -> bool) (l : list A) :
  forallb (fun x => negb (P x)) l = true -> filter P l = [].
Proof.
  induction l as [|x l IH]; cbn; [reflexivity|].
  intros Hall. apply andb_prop in Hall. destruct Hall as [Hx Hl].
  apply negb_true_iff in Hx. rewrite Hx. now apply IH.
Qed.

Lemma filter_on_every_slot (n : nat) (tag : tag_t) :
  is_timebase_tag tag = true ->
  filter (fun t => is_timebase_tag (snd t)) (on_every_slot n tag)
  = on_every_slot n tag.
Proof.
  intros Htag. unfold on_every_slot. generalize 0%nat.
  induction n as [|n IH]; intros i; cbn; [reflexivity|].
  rewrite Htag. now rewrite IH.
Qed.

Lemma successful_arms_app (b b1 : block) (cs : list driver_call) :
  driver_calls b1 = driver_calls b ++ cs ->
  successful_arms b1
  = (successful_arms b + List.length (filter is_arm_ok cs))%nat.
Proof.
  intros Hcs. unfold successful_arms. rewrite Hcs, filter_app.
  apply length_app.
Qed.

Lemma existsb_filter_length {A} (P : A -> bool) (l : list A) :
  existsb P l = negb (Nat.eqb (List.length (filter P l)) 0).
Proof.
  induction l as [|x l IH]; cbn; [reflexivity|].
  destruct (P x); cbn; [reflexivity|exact IH].
Qed.

Lemma skipn_app_length {A} (l new : list A) :
  skipn (List.length l) (l ++ new) = new.
Proof. induction l; cbn; [reflexivity|assumption]. Qed.

Lemma run_cons (c : world * Z) (rest : list (world * Z)) (b b' : block)
    (results : list Z) :
  run (c :: rest) b = Ok results b' ->
  exists r b2,
    scheduled_work c b = Ok r b2
    /\ ((r < 0 /\ results = [r] /\ b' = b2)
        \/ (0 <= r /\ exists rs, run rest b2 = Ok rs b' /\ results = r :: rs)).
Proof.
  cbn [run]. intros Hrun.
  apply bind_Ok in Hrun. destruct Hrun as (r & b2 & Hstep & Hrun).
  exists r, b2. split; [exact Hstep|].
  destruct (Z.ltb_spec r 0) as [Hneg|Hnn].
  - apply Ok_inj in Hrun. destruct Hrun as [<- <-]. left. repeat split; lia.
  - apply bind_Ok in Hrun. destruct Hrun as (rs & b3 & Hrest & Hrun).
    apply Ok_inj in Hrun. destruct Hrun as [<- <-].
    right. split; [lia|]. now exists rs.
Qed.

(** The driver calls of a step and of a run come after those made before. *)
Lemma scheduled_work_driver_calls (c : world * Z) (b b2 : block) (r : Z) :
  scheduled_work c b = Ok r b2 ->
  exists cs, driver_calls b2 = driver_calls b ++ cs.
Proof.
  intros Hstep. apply scheduled_work_post in Hstep.
  destruct Hstep as (b1 & Hq & Hc & _).
  destruct Hq as (_ & _ & _ & _ & _ & (cs & Hcs & _)).
  exists cs. congruence.
Qed.

Lemma run_driver_calls (calls : list (world * Z)) :
  forall (b b' : block) (results : list Z),
    run calls b = Ok results b' ->
    exists cs, driver_calls b' = driver_calls b ++ cs.
Proof.
  induction calls as [|c rest IH]; intros b b' results Hrun.
  - apply Ok_inj in Hrun. destruct Hrun as [_ <-].
    exists []. now rewrite app_nil_r.
  - apply run_cons in Hrun. destruct Hrun as (r & b2 & Hstep & Hrun).
    apply scheduled_work_driver_calls in Hstep. destruct Hstep as (cs1 & Hcs1).
    destruct Hrun as [(_ & _ & ->)|(_ & rs & Hrest & _)].
    + now exists cs1.
    + apply IH in Hrest. destruct Hrest as (cs2 & Hcs2).
      exists (cs1 ++ cs2). rewrite Hcs2, Hcs1. now rewrite app_assoc.
Qed.

(** One step of a run, in terms of the tags it adds. *)
Lemma scheduled_work_tags (c : world * Z) (b b2 : block) (r : Z) :
  scheduled_work c b = Ok r b2 ->
  exists new cs flag1,
    item_tags b2 = item_tags b ++ new
    /\ driver_calls b2 = driver_calls b ++ cs
    /\ flag1 = (if existsb is_arm_ok cs then false else d_timebase_published b)
    /\ filter (fun t => is_timebase_tag (snd t)) new
       = (if (r >? 0) && negb flag1
          then on_every_slot (List.length (output_items (fst c)))
                 (timebase_tag_of b)
          else [])
    /\ d_timebase_published b2 = (r >? 0) || flag1
    /\ (r <= 0 -> timebase_tag_of b2 = timebase_tag_of b).
Proof.
  intros Hstep. apply scheduled_work_post in Hstep.
  destruct Hstep as (b1 & Hq & Hc & Hr & Hm & Hf & Hn & Hp & Ht).
  pose proof (quiet_timebase_tag_of _ _ Hq) as Htag.
  destruct Hq as (_ & _ & _ & _ & (t1 & Ht1 & Hq1) & (cs & Hcs & Hflag)).
  exists (t1 ++ (if (r >? 0) && negb (d_timebase_published b1)
                 then on_every_slot (List.length (output_items (fst c)))
                        (timebase_tag_of b1)
                 else [])), cs, (d_timebase_published b1).
  split; [rewrite Ht, Ht1; now rewrite app_assoc|].
  split; [congruence|]. split; [exact Hflag|].
  split; [|split; [exact Hp|]].
  - rewrite filter_app, (filter_none _ _ Hq1). cbn [app].
    destruct ((r >? 0) && negb (d_timebase_published b1)); [|reflexivity].
    rewrite filter_on_every_slot by reflexivity. now rewrite Htag.
  - intros Hle. rewrite <- Htag. unfold timebase_tag_of,
      get_timebase_with_downsampling. rewrite Hr, Hm, Hf, Hn.
    destruct (Z.gtb_spec r 0); [lia|]. reflexivity.
Qed.

Lemma run_timebase_tags (calls : list (world * Z)) :
  forall (b b' : block) (results : list Z),
    run calls b = Ok results b' ->
    successful_arms b' = successful_arms b ->
    exists new,
      item_tags b' = item_tags b ++ new
      /\ filter (fun t => is_timebase_tag (snd t)) new
         = if d_timebase_published b then []
           else match first_success calls results with
                | Some c => on_every_slot (List.length (output_items (fst c)))
                              (timebase_tag_of b)
                | None => []
                end.
Proof.
  induction calls as [|c rest IH]; intros b b' results Hrun Harms.
  - apply Ok_inj in Hrun. destruct Hrun as [<- <-].
    exists []. rewrite app_nil_r. split; [reflexivity|].
    now destruct (d_timebase_published b).
  - apply run_cons in Hrun. destruct Hrun as (r & b2 & Hstep & Hrun).
    apply scheduled_work_tags in Hstep.
    destruct Hstep as (new1 & cs1 & flag1 & Ht1 & Hcs1 & Hflag1 & Hf1 & Hp2 & Htag).
    pose proof (successful_arms_app _ _ _ Hcs1) as Harms1.
    destruct Hrun as [(Hneg & -> & ->)|(Hnn & rs & Hrest & ->)].
    + exists new1. split; [exact Ht1|]. rewrite Hf1.
      destruct (Z.gtb_spec r 0); [lia|]. cbn [andb first_success].
      destruct (Z.gtb_spec r 0); [lia|].
      destruct rest; now destruct (d_timebase_published b).
    + destruct (run_driver_calls _ _ _ _ Hrest) as (cs2 & Hcs2).
      pose proof (successful_arms_app _ _ _ Hcs2) as Harms2.
      assert (Hno : existsb is_arm_ok cs1 = false).
      { rewrite existsb_filter_length.
        destruct (List.length (filter is_arm_ok cs1)); [reflexivity|lia]. }
      rewrite Hno in Hflag1. subst flag1.
      destruct (IH b2 b' rs Hrest ltac:(lia)) as (new2 & Ht2 & Hf2).
      exists (new1 ++ new2). split; [rewrite Ht2, Ht1; now rewrite app_assoc|].
      rewrite filter_app, Hf1, Hf2, Hp2. cbn [first_success].
      destruct (Z.gtb_spec r 0) as [Hpos|Hle]; cbn [andb orb].
      * destruct (d_timebase_published b); cbn [negb app];
          [reflexivity|now rewrite app_nil_r].
      * rewrite (Htag Hle).
        now destruct (d_timebase_published b).
Qed.

(** C6.  After an [arm()] that takes effect, the first call of [work]
    that returns [n > 0] puts one Timebase tag on every output slot, at the
    offset [nitems_written] had at the arm (no sample was produced in
    between, so this is the offset of the first sample of that call), and
    these are all the Timebase tags until the driver is armed again.  The
    same holds when the arming happens inside a call of [work] (the
    watchdog's rearm, or auto-arm in rapid-block mode): that call counts as
    the first one. *)
Theorem timebase_tag_once_after_arm :
  (forall (w0 : world) (b b0 b' : block) (calls : list (world * Z))
          (results : list Z),
      is_armed b = false ->
      arm w0 b = Ok tt b0 ->
      run calls b0 = Ok results b' ->
      successful_arms b' = successful_arms b0 ->
      timebase_tags_since b0 b'
      = match first_success calls results with
        | Some c =>
            on_every_slot (List.length (output_items (fst c)))
              {| tag_offset := nitems_written0 b0;
                 value := timebase_info_tag (get_timebase_with_downsampling b0) |}
        | None => []
        end)
  /\ (forall (c : world * Z) (b b2 b' : block) (r : Z)
             (calls : list (world * Z)) (results : list Z),
        scheduled_work c b = Ok r b2 ->
        (successful_arms b < successful_arms b2)%nat ->
        run calls b2 = Ok results b' ->
        successful_arms b' = successful_arms b2 ->
        timebase_tags_since b b'
        = match first_success (c :: calls) (r :: results) with
          | Some c' =>
              on_every_slot (List.length (output_items (fst c')))
                {| tag_offset := nitems_written0 b;
                   value := timebase_info_tag (get_timebase_with_downsampling b) |}
          | None => []
          end).
Proof.
  split.
  - intros w0 b b0 b' calls results Hdisarmed Harm Hrun Harms.
    pose proof (arm_clears_timebase_published _ _ _ Hdisarmed Harm) as Hflag.
    destruct (run_timebase_tags _ _ _ _ Hrun Harms) as (new & Ht & Hf).
    unfold timebase_tags_since, tags_since. rewrite Ht, skipn_app_length, Hf.
    now rewrite Hflag.
  - intros c b b2 b' r calls results Hstep Harmed Hrun Harms.
    apply scheduled_work_tags in Hstep.
    destruct Hstep as (new1 & cs1 & flag1 & Ht1 & Hcs1 & Hflag1 & Hf1 & Hp2 & Htag).
    pose proof (successful_arms_app _ _ _ Hcs1) as Harms1.
    assert (Hyes : existsb is_arm_ok cs1 = true).
    { rewrite existsb_filter_length.
      destruct (List.length (filter is_arm_ok cs1)); [lia|reflexivity]. }
    rewrite Hyes in Hflag1. subst flag1.
    destruct (run_timebase_tags _ _ _ _ Hrun Harms) as (new2 & Ht2 & Hf2).
    unfold timebase_tags_since, tags_since.
    rewrite Ht2, Ht1, <- app_assoc, skipn_app_length, filter_app, Hf1, Hf2, Hp2.
    cbn [first_success negb].
    destruct (Z.gtb_spec r 0) as [Hpos|Hle]; cbn [andb orb].
    + now rewrite app_nil_r.
    + now rewrite (Htag Hle).
Qed.

End TimebaseRun.

(** ** Rapid-block mode with trigger_once *)

Section RapidBlock.
Context {H : Header}.

Lemma no_progress_refl (b : block) : no_progress b b.
Proof.
  repeat split; try reflexivity. exists []. now rewrite app_nil_r.
Qed.

Lemma prefetched_app (l1 l2 : list driver_call) :
  prefetched (l1 ++ l2) = prefetched l1 ++ prefetched l2.
Proof. unfold prefetched. apply flat_map_app. Qed.

Lemma no_progress_trans (a b c : block) :
  no_progress a b -> no_progress b c -> no_progress a c.
Proof.
  intros (Hm1 & Ho1 & Hn1 & Hf1 & Hs1 & (c1 & Hc1 & Hp1))
         (Hm2 & Ho2 & Hn2 & Hf2 & Hs2 & (c2 & Hc2 & Hp2)).
  repeat split; try congruence.
  exists (c1 ++ c2). split.
  - rewrite Hc2, Hc1. now rewrite app_assoc.
  - now rewrite prefetched_app, Hp1, Hp2.
Qed.

Lemma no_progress_frame (b b' : block) :
  d_acquisition_mode b' = d_acquisition_mode b ->
  d_trigger_once b' = d_trigger_once b ->
  d_nr_captures b' = d_nr_captures b ->
  d_was_triggered_once b' = d_was_triggered_once b ->
  d_bstate b' = d_bstate b ->
  driver_calls b' = driver_calls b ->
  no_progress b b'.
Proof.
  intros Hm Ho Hn Hf Hs Hc. repeat split; try assumption.
  exists []. now rewrite app_nil_r.
Qed.

Lemma no_progress_call_driver (c : driver_call) :
  prefetched [c] = [] -> preserves no_progress (call_driver c).
Proof.
  intros Hc. apply (preserves_modify _ no_progress_trans). intros b.
  repeat split; try reflexivity. now exists [c].
Qed.

Ltac np_leaf :=
  first [ apply no_progress_call_driver; reflexivity
        | unfold add_error_code, add_item_tag;
          apply (preserves_modify _ no_progress_trans);
          intro; apply no_progress_frame; reflexivity ].

Ltac np_step := preserves_step np_leaf.

Lemma no_progress_disarm (w : world) : preserves no_progress (disarm w).
Proof. unfold disarm, transit_poll_thread_to_idle. repeat np_step. Qed.

Lemma no_progress_arm (w : world) : preserves no_progress (arm w).
Proof.
  unfold arm, transit_poll_thread_to_running, count_enabled_channels,
    count_enabled_ports.
  repeat np_step.
Qed.

Lemma no_progress_wait_data_ready (w : world) :
  preserves no_progress (wait_data_ready w).
Proof. unfold wait_data_ready, notify_data_ready. repeat np_step. Qed.

Lemma no_progress_clear_data_ready : preserves no_progress clear_data_ready.
Proof. unfold clear_data_ready. repeat np_step. Qed.

(** The fetch state. *)
Lemma update_state_cases (n : Z) (s : rapid_block_state_t) :
  let s' := update_state n s in
  waveform_count s' = waveform_count s
  /\ ((state s' = READING_THE_REST /\ waveform_idx s' = waveform_idx s)
      \/ (state s' = READING_PART1
          /\ waveform_idx s' = waveform_idx s + 1
          /\ waveform_idx s + 1 < waveform_count s)
      \/ (state s' = WAITING /\ waveform_idx s' = waveform_idx s + 1)).
Proof.
  destruct s as [st cnt idx off left]. unfold update_state. cbn.
  unfold constant.
  destruct (Z.gtb_spec (left - n) 0); cbn.
  - split; [reflexivity|]. now left.
  - destruct (Z.geb_spec (idx + 1) cnt); cbn.
    + split; [reflexivity|]. right. right. now split.
    + split; [reflexivity|]. right. left. repeat split. lia.
Qed.

Lemma set_waveform_params_keeps (o l : Z) (s : rapid_block_state_t) :
  state (set_waveform_params o l s) = state s
  /\ waveform_idx (set_waveform_params o l s) = waveform_idx s
  /\ waveform_count (set_waveform_params o l s) = waveform_count s.
Proof. destruct s. repeat split. Qed.

Lemma bstate_initialize_starts (n : Z) (s : rapid_block_state_t) :
  state (bstate_initialize n s) = READING_PART1
  /\ waveform_idx (bstate_initialize n s) = 0
  /\ waveform_count (bstate_initialize n s) = n.
Proof. destruct s. repeat split. Qed.

(** The WAITING part: it returns -1 or 0 and nothing moved, or it goes
    on with a fresh capture sequence of [d_nr_captures] waveforms. *)
Lemma rapid_block_waiting_post (w : world) (b b' : block) (o : option Z) :
  rapid_block_waiting w b = Ok o b' ->
  (d_trigger_once b = true -> d_was_triggered_once b = true -> o = Some (-1))
  /\ exists bw,
       no_progress b bw
       /\ match o with
          | Some v => (v = -1 \/ v = 0) /\ b' = bw
          | None => b' = bw <| d_bstate ::= bstate_initialize (d_nr_captures bw) |>
          end.
Proof.
  unfold rapid_block_waiting. unfold bind at 1, get at 1.
  destruct (d_trigger_once b && d_was_triggered_once b) eqn:Hdone.
  { intros Hrun. apply Ok_inj in Hrun. destruct Hrun as [<- <-].
    split; [reflexivity|]. exists b. split; [apply no_progress_refl|].
    split; [now left|reflexivity]. }
  intros Hrun. split.
  { intros Ho Hf. rewrite Ho, Hf in Hdone. discriminate. }
  apply bind_Ok in Hrun. destruct Hrun as (r & b1 & Harm & Hrun).
  assert (Hnp1 : no_progress b b1).
  { eapply preserves_Ok; [apply no_progress_refl| |exact Harm].
    repeat first [ apply no_progress_disarm | apply no_progress_arm | np_step ]. }
  assert (Hr : r = None \/ r = Some (-1)).
  { destruct (d_auto_arm b).
    - apply bind_Ok in Harm. destruct Harm as (u & b2 & _ & Harm).
      unfold try_catch, bind, ret in Harm.
      destruct (arm w b2); try discriminate;
        apply Ok_inj in Harm; destruct Harm as [<- _]; auto.
    - apply Ok_inj in Harm. destruct Harm as [<- _]. now left. }
  destruct Hr as [->| ->].
  - apply bind_Ok in Hrun. destruct Hrun as (ec & b2 & Hwait & Hrun).
    apply bind_Ok in Hrun. destruct Hrun as (u & b3 & Hclear & Hrun).
    assert (Hnp3 : no_progress b b3).
    { eapply no_progress_trans; [exact Hnp1|].
      eapply no_progress_trans.
      - eapply preserves_Ok; [apply no_progress_refl| |exact Hwait].
        apply no_progress_wait_data_ready.
      - eapply preserves_Ok; [apply no_progress_refl| |exact Hclear].
        apply no_progress_clear_data_ready. }
    exists b3. split; [exact Hnp3|].
    destruct (ec_eqb ec Stopped).
    { apply Ok_inj in Hrun. destruct Hrun as [<- <-]. split; [now left|reflexivity]. }
    destruct (ec_set ec).
    { apply Ok_inj in Hrun. destruct Hrun as [<- <-]. split; [now right|reflexivity]. }
    unfold bind, modify, ret in Hrun.
    apply Ok_inj in Hrun. destruct Hrun as [<- <-]. reflexivity.
  - apply Ok_inj in Hrun. destruct Hrun as [<- <-].
    exists b1. split; [exact Hnp1|]. split; [now left|reflexivity].
Qed.

(** READING_PART1: the waveform the fetch state points to is prefetched,
    [d_was_triggered_once] is set, and either the driver failed and -1 is
    returned, or the fetch state is updated with the samples read. *)
Lemma rapid_block_part1_post (w : world) (n : Z) (b b' : block) (r : Z) :
  rapid_block_part1 w n b = Ok r b' ->
  d_acquisition_mode b' = d_acquisition_mode b
  /\ d_trigger_once b' = d_trigger_once b
  /\ d_nr_captures b' = d_nr_captures b
  /\ d_was_triggered_once b' = true
  /\ (exists cs, driver_calls b' = driver_calls b ++ cs
        /\ prefetched cs = [waveform_idx (d_bstate b)])
  /\ ((r = -1 /\ d_bstate b' = d_bstate b)
      \/ (r = -1 /\ exists ds, d_bstate b' = set_waveform_params 0 ds (d_bstate b))
      \/ exists ds, d_bstate b'
                   = update_state r (set_waveform_params 0 ds (d_bstate b))).
Proof.
  unfold rapid_block_part1. intros Hrun. destruct b.
  unfold bind at 1, modify at 1 in Hrun.
  unfold bind at 1, get at 1 in Hrun.
  unfold bind at 1, call_driver at 1, modify at 1 in Hrun.
  destruct (ec_set (driver_prefetch_block w)).
  { unfold bind, add_error_code, modify, ret in Hrun.
    apply Ok_inj in Hrun. destruct Hrun as [<- <-].
    repeat split; try reflexivity.
    - eexists. split; reflexivity.
    - left. now split. }
  unfold bind at 1, modify at 1 in Hrun.
  unfold bind at 1, get at 1 in Hrun.
  unfold bind at 1, call_driver at 1, modify at 1 in Hrun.
  unfold bind at 1, modify at 1 in Hrun.
  destruct (ec_set (driver_get_rapid_block_data w)).
  { unfold bind, add_error_code, modify, ret in Hrun.
    apply Ok_inj in Hrun. destruct Hrun as [<- <-].
    repeat split; try reflexivity.
    - eexists. split; [cbn; rewrite <- app_assoc; reflexivity|reflexivity].
    - right. left. split; [reflexivity|]. eexists. reflexivity. }
  unfold bind at 1, get at 1 in Hrun.
  apply bind_Ok in Hrun. destruct Hrun as (v1 & b6 & Hloop1 & Hrun).
  apply bind_Ok in Hrun. destruct Hrun as (v2 & b7 & Hloop2 & Hrun).
  unfold bind, modify, ret in Hrun.
  apply Ok_inj in Hrun. destruct Hrun as [<- <-].
  match type of Hloop1 with
  | ?m ?s = Ok ?a _ =>
      assert (Hnp1 : no_progress s b6)
        by (apply (preserves_Ok no_progress m s b6 a no_progress_refl);
            [repeat np_step|exact Hloop1])
  end.
  assert (Hnp2 : no_progress b6 b7).
  { eapply preserves_Ok; [apply no_progress_refl| |exact Hloop2]. repeat np_step. }
  pose proof (no_progress_trans _ _ _ Hnp1 Hnp2) as Hnp.
  destruct Hnp as (Hm & Ho & Hn & Hf & Hs & (cs & Hcs & Hp)).
  repeat split.
  - exact Hm.
  - exact Ho.
  - exact Hn.
  - exact Hf.
  - eexists. split.
    + change (driver_calls (b7 <| d_bstate ::= update_state
                (Z.min n (samples_left (d_bstate _))) |>))
        with (driver_calls b7).
      rewrite Hcs. cbn. rewrite <- !app_assoc. reflexivity.
    + rewrite !prefetched_app, Hp. reflexivity.
  - right. right. eexists.
    match goal with
    | |- d_bstate (b7 <| d_bstate ::= ?f |>) = _ =>
        change (d_bstate (b7 <| d_bstate ::= f |>)) with (f (d_bstate b7))
    end.
    rewrite Hs. reflexivity.
Qed.

(** READING_THE_REST: no waveform is prefetched; either the driver
    failed and -1 is returned, or the fetch state is updated. *)
Lemma rapid_block_the_rest_post (w : world) (n : Z) (b b' : block) (r : Z) :
  rapid_block_the_rest w n b = Ok r b' ->
  d_acquisition_mode b' = d_acquisition_mode b
  /\ d_trigger_once b' = d_trigger_once b
  /\ d_nr_captures b' = d_nr_captures b
  /\ d_was_triggered_once b' = d_was_triggered_once b
  /\ (exists cs, driver_calls b' = driver_calls b ++ cs /\ prefetched cs = [])
  /\ ((r = -1 /\ d_bstate b' = d_bstate b)
      \/ d_bstate b' = update_state r (d_bstate b)).
Proof.
  unfold rapid_block_the_rest. intros Hrun. destruct b.
  unfold bind at 1, get at 1 in Hrun.
  unfold bind at 1, call_driver at 1, modify at 1 in Hrun.
  unfold bind at 1, modify at 1 in Hrun.
  destruct (ec_set (driver_get_rapid_block_data w)).
  - unfold bind, add_error_code, modify, ret in Hrun.
    apply Ok_inj in Hrun. destruct Hrun as [<- <-].
    repeat split; try reflexivity.
    + eexists. split; reflexivity.
    + left. now split.
  - unfold bind, modify, ret in Hrun.
    apply Ok_inj in Hrun. destruct Hrun as [<- <-].
    repeat split; try reflexivity.
    + eexists. split; reflexivity.
    + right. reflexivity.
Qed.

(** What [work] and the scheduler do after the worker function returned
    moves nothing in the rapid-block reading. *)
Lemma scheduled_work_rapid_block (c : world * Z) (b b2 : block) (r : Z) :
  d_acquisition_mode b = RAPID_BLOCK ->
  scheduled_work c b = Ok r b2 ->
  exists b1, work_rapid_block (fst c) (snd c) b = Ok r b1 /\ no_progress b1 b2.
Proof.
  intros Hmode Hrun. unfold scheduled_work in Hrun.
  apply bind_Ok in Hrun. destruct Hrun as (r0 & b3 & Hwork & Hrun).
  apply bind_Ok in Hrun. destruct Hrun as (u & b4 & Hadv & Hrun).
  apply Ok_inj in Hrun. destruct Hrun as [-> ->].
  unfold work in Hwork.
  apply bind_Ok in Hwork. destruct Hwork as (b' & b'' & Hget & Hwork).
  apply Ok_inj in Hget. destruct Hget as [<- <-].
  rewrite Hmode in Hwork.
  apply bind_Ok in Hwork. destruct Hwork as (retval & b1 & Hworker & Hwork).
  apply bind_Ok in Hwork. destruct Hwork as (b5 & b6 & Hget & Hwork).
  apply Ok_inj in Hget. destruct Hget as [<- <-].
  apply bind_Ok in Hwork. destruct Hwork as (u' & b7 & Htag & Hwork).
  apply Ok_inj in Hwork. destruct Hwork as [<- <-].
  exists b1. split; [exact Hworker|].
  eapply no_progress_trans.
  - match type of Htag with
    | ?m ?s = Ok ?a _ =>
        apply (preserves_Ok no_progress m s b7 a no_progress_refl);
          [repeat np_step|exact Htag]
    end.
  - match type of Hadv with
    | ?m ?s = Ok ?a _ =>
        apply (preserves_Ok no_progress m s b2 a no_progress_refl);
          [repeat np_step|exact Hadv]
    end.
Qed.

Lemma seq_snoc (k : nat) :
  map Z.of_nat (seq 0 k) ++ [Z.of_nat k] = map Z.of_nat (seq 0 (Datatypes.S k)).
Proof. rewrite seq_S, map_app. reflexivity. Qed.

Lemma one_sequence_no_progress (b0 b b' : block) :
  one_sequence b0 b -> no_progress b b' -> one_sequence b0 b'.
Proof.
  intros (Hm & Ho & Hn & (cs & Hcs & Hinv)) (Hm' & Ho' & Hn' & Hf' & Hs' & (cs' & Hcs' & Hp')).
  repeat split; try congruence.
  exists (cs ++ cs'). split; [rewrite Hcs', Hcs; now rewrite app_assoc|].
  rewrite prefetched_app, Hp', app_nil_r, Hf', Hs'. exact Hinv.
Qed.

Lemma waveforms_since_app (b0 b : block) (cs : list driver_call) :
  driver_calls b = driver_calls b0 ++ cs -> waveforms_since b0 b = prefetched cs.
Proof.
  intros Hcs. unfold waveforms_since. now rewrite Hcs, skipn_app_length.
Qed.

Lemma one_sequence_at_most (b0 b : block) :
  one_sequence b0 b -> 0 <= d_nr_captures b0 -> at_most_one_sequence b0 b.
Proof.
  intros (Hm & Ho & Hn & (cs & Hcs & Hinv)) HN.
  split; [exact Hm|]. split; [exact Ho|]. split; [now exists cs|].
  rewrite (waveforms_since_app _ _ _ Hcs).
  destruct Hinv as [(Hf & _ & Hp)|(Hf & _ & k & Hp & Hk & _)].
  - exists 0%nat. repeat split; [exact Hp|lia|congruence].
  - exists k. repeat split; try assumption. intros _. exact Hf.
Qed.

Lemma at_most_one_sequence_intro (b0 b : block) (cs : list driver_call) (k : nat) :
  d_acquisition_mode b = RAPID_BLOCK ->
  d_trigger_once b = true ->
  driver_calls b = driver_calls b0 ++ cs ->
  prefetched cs = map Z.of_nat (seq 0 k) ->
  Z.of_nat k <= d_nr_captures b0 ->
  d_was_triggered_once b = true ->
  at_most_one_sequence b0 b.
Proof.
  intros Hm Ho Hcs Hp Hk Hf. split; [exact Hm|]. split; [exact Ho|].
  split; [now exists cs|].
  exists k. rewrite (waveforms_since_app _ _ _ Hcs). now repeat split.
Qed.

Lemma at_most_one_sequence_no_progress (b0 b b' : block) :
  at_most_one_sequence b0 b -> no_progress b b' -> at_most_one_sequence b0 b'.
Proof.
  intros (Hm & Ho & (cs & Hcs) & (k & Hw & Hk & Hf))
         (Hm' & Ho' & Hn' & Hf' & Hs' & (cs' & Hcs' & Hp')).
  assert (Hcalls : driver_calls b' = driver_calls b0 ++ (cs ++ cs'))
    by (rewrite Hcs', Hcs; now rewrite app_assoc).
  split; [congruence|]. split; [congruence|].
  split; [exists (cs ++ cs'); exact Hcalls|].
  exists k. rewrite (waveforms_since_app _ _ _ Hcalls).
  rewrite (waveforms_since_app _ _ _ Hcs) in Hw.
  rewrite prefetched_app, Hp', app_nil_r.
  repeat split; try assumption. intros Hk0. rewrite Hf'. now apply Hf.
Qed.

(** The fetch state after a waveform's first read, seen from the
    invariant: [k] waveforms were begun before, this one is the next. *)
Lemma one_sequence_after_read (b0 b : block) (cs : list driver_call) (k : nat)
    (r : Z) (s : rapid_block_state_t) :
  d_acquisition_mode b = RAPID_BLOCK ->
  d_trigger_once b = true ->
  d_nr_captures b = d_nr_captures b0 ->
  driver_calls b = driver_calls b0 ++ cs ->
  d_was_triggered_once b = true ->
  d_bstate b = update_state r s ->
  waveform_count s = d_nr_captures b0 ->
  prefetched cs = map Z.of_nat (seq 0 k) ->
  Z.of_nat k <= d_nr_captures b0 ->
  waveform_idx s + 1 = Z.of_nat k ->
  one_sequence b0 b.
Proof.
  intros Hm Ho Hn Hcs Hf Hs Hcount Hp Hk Hidx.
  split; [exact Hm|]. split; [exact Ho|]. split; [exact Hn|].
  exists cs. split; [exact Hcs|]. right.
  destruct (update_state_cases r s) as (Hc' & Hcases). cbv zeta in *.
  rewrite <- Hs in Hc', Hcases.
  split; [exact Hf|]. split; [congruence|].
  exists k. split; [exact Hp|]. split; [exact Hk|].
  destruct Hcases as [(Hst & Hi)|[(Hst & Hi & Hlt)|(Hst & Hi)]]; rewrite Hst.
  - lia.
  - split; lia.
  - exact I.
Qed.

(** One call of [work_rapid_block] keeps the invariant, unless it ends
    the stream; at the end there is still at most one sequence. *)
Lemma work_rapid_block_step (w : world) (n : Z) (b0 b b1 : block) (r : Z) :
  one_sequence b0 b ->
  1 <= d_nr_captures b0 ->
  work_rapid_block w n b = Ok r b1 ->
  at_most_one_sequence b0 b1 /\ (0 <= r -> one_sequence b0 b1).
Proof.
  intros Hinv HN Hrun.
  assert (Hstable : forall bx, no_progress b bx ->
            at_most_one_sequence b0 bx /\ (0 <= r -> one_sequence b0 bx)).
  { intros bx Hnp.
    pose proof (one_sequence_no_progress _ _ _ Hinv Hnp) as Hx.
    split; [apply one_sequence_at_most; [exact Hx|lia]|intros _; exact Hx]. }
  unfold work_rapid_block in Hrun.
  apply bind_Ok in Hrun. destruct Hrun as (b' & b'' & Hget & Hrun).
  apply Ok_inj in Hget. destruct Hget as [<- <-].
  apply bind_Ok in Hrun. destruct Hrun as (o & bw & Hwait & Hrun).
  destruct Hinv as (Hm & Ho & Hn & (cs & Hcs & Hinv)).
  destruct (state (d_bstate b)) eqn:Hst; cbn [rapid_block_state_eqb] in Hwait.
  - (* WAITING *)
    apply rapid_block_waiting_post in Hwait.
    destruct Hwait as (Hdone & bw0 & Hnp & Hopt).
    destruct o as [v|].
    + destruct Hopt as [_ ->]. apply Ok_inj in Hrun. destruct Hrun as [<- <-].
      now apply Hstable.
    + subst bw.
      destruct Hinv as [(Hf & _ & Hp)|(Hf & _)];
        [|specialize (Hdone Ho Hf); discriminate].
      destruct Hnp as (Hm' & Ho' & Hn' & Hf' & Hs' & (cs' & Hcs' & Hp')).
      apply bind_Ok in Hrun. destruct Hrun as (b5 & b6 & Hget & Hrun).
      apply Ok_inj in Hget. destruct Hget as [<- <-].
      destruct (bstate_initialize_starts (d_nr_captures bw0) (d_bstate bw0))
        as (Hist & Hiidx & Hicount).
      change (state (d_bstate (bw0 <| d_bstate ::=
                bstate_initialize (d_nr_captures bw0) |>)))
        with (state (bstate_initialize (d_nr_captures bw0) (d_bstate bw0)))
        in Hrun.
      rewrite Hist in Hrun.
      apply rapid_block_part1_post in Hrun.
      destruct Hrun as (Hm1 & Ho1 & Hn1 & Hf1 & (cs1 & Hcs1 & Hp1) & Hb1).
      change (d_bstate (bw0 <| d_bstate ::=
                bstate_initialize (d_nr_captures bw0) |>))
        with (bstate_initialize (d_nr_captures bw0) (d_bstate bw0))
        in Hp1, Hb1.
      rewrite Hiidx in Hp1.
      change (d_acquisition_mode (bw0 <| d_bstate ::= _ |>))
        with (d_acquisition_mode bw0) in Hm1.
      change (d_trigger_once (bw0 <| d_bstate ::= _ |>))
        with (d_trigger_once bw0) in Ho1.
      change (d_nr_captures (bw0 <| d_bstate ::= _ |>))
        with (d_nr_captures bw0) in Hn1.
      change (driver_calls (bw0 <| d_bstate ::= _ |>))
        with (driver_calls bw0) in Hcs1.
      assert (Hcalls : driver_calls b1 = driver_calls b0 ++ (cs ++ cs' ++ cs1))
        by (rewrite Hcs1, Hcs', Hcs; now rewrite !app_assoc).
      assert (Hpre : prefetched (cs ++ cs' ++ cs1) = map Z.of_nat (seq 0 1))
        by (rewrite !prefetched_app, Hp, Hp', Hp1; reflexivity).
      split.
      * apply (at_most_one_sequence_intro b0 b1 _ 1 ltac:(congruence)
                 ltac:(congruence) Hcalls Hpre ltac:(lia) Hf1).
      * intros Hr.
        destruct Hb1 as [(Hneg & _)|[(Hneg & _)|(ds & Hb1)]]; [lia|lia|].
        destruct (set_waveform_params_keeps 0 ds
                    (bstate_initialize (d_nr_captures bw0) (d_bstate bw0)))
          as (_ & Hpidx & Hpcount).
        apply (one_sequence_after_read b0 b1 _ 1 r _ ltac:(congruence)
                 ltac:(congruence) ltac:(congruence) Hcalls Hf1 Hb1).
        -- rewrite Hpcount, Hicount. congruence.
        -- exact Hpre.
        -- lia.
        -- rewrite Hpidx, Hiidx. reflexivity.
  - (* READING_PART1 *)
    apply Ok_inj in Hwait. destruct Hwait as [<- <-].
    apply bind_Ok in Hrun. destruct Hrun as (b5 & b6 & Hget & Hrun).
    apply Ok_inj in Hget. destruct Hget as [<- <-].
    rewrite Hst in Hrun.
    apply rapid_block_part1_post in Hrun.
    destruct Hrun as (Hm1 & Ho1 & Hn1 & Hf1 & (cs1 & Hcs1 & Hp1) & Hb1).
    destruct Hinv as [(_ & Hw & _)|(Hf & Hcount & k & Hp & Hk & Hidx)];
      [discriminate|].
    destruct Hidx as [Hidx Hlt].
    assert (Hcalls : driver_calls b1 = driver_calls b0 ++ (cs ++ cs1))
      by (rewrite Hcs1, Hcs; now rewrite app_assoc).
    assert (Hpre : prefetched (cs ++ cs1) = map Z.of_nat (seq 0 (Datatypes.S k)))
      by (rewrite prefetched_app, Hp, Hp1, Hidx; apply seq_snoc).
    split.
    + apply (at_most_one_sequence_intro b0 b1 _ (Datatypes.S k)
               ltac:(congruence) ltac:(congruence) Hcalls Hpre ltac:(lia) Hf1).
    + intros Hr.
      destruct Hb1 as [(Hneg & _)|[(Hneg & _)|(ds & Hb1)]]; [lia|lia|].
      destruct (set_waveform_params_keeps 0 ds (d_bstate b))
        as (_ & Hpidx & Hpcount).
      apply (one_sequence_after_read b0 b1 _ (Datatypes.S k) r _
               ltac:(congruence) ltac:(congruence) ltac:(congruence)
               Hcalls Hf1 Hb1).
      * rewrite Hpcount. exact Hcount.
      * exact Hpre.
      * lia.
      * rewrite Hpidx. lia.
  - (* READING_THE_REST *)
    apply Ok_inj in Hwait. destruct Hwait as [<- <-].
    apply bind_Ok in Hrun. destruct Hrun as (b5 & b6 & Hget & Hrun).
    apply Ok_inj in Hget. destruct Hget as [<- <-].
    rewrite Hst in Hrun.
    apply rapid_block_the_rest_post in Hrun.
    destruct Hrun as (Hm1 & Ho1 & Hn1 & Hf1 & (cs1 & Hcs1 & Hp1) & Hb1).
    destruct Hinv as [(_ & Hw & _)|(Hf & Hcount & k & Hp & Hk & Hidx)];
      [discriminate|].
    assert (Hcalls : driver_calls b1 = driver_calls b0 ++ (cs ++ cs1))
      by (rewrite Hcs1, Hcs; now rewrite app_assoc).
    assert (Hpre : prefetched (cs ++ cs1) = map Z.of_nat (seq 0 k))
      by (rewrite prefetched_app, Hp, Hp1; apply app_nil_r).
    split.
    + apply (at_most_one_sequence_intro b0 b1 _ k ltac:(congruence)
               ltac:(congruence) Hcalls Hpre Hk ltac:(congruence)).
    + intros Hr. destruct Hb1 as [(Hneg & _)|Hb1]; [lia|].
      apply (one_sequence_after_read b0 b1 _ k r _ ltac:(congruence)
               ltac:(congruence) ltac:(congruence) Hcalls
               ltac:(congruence) Hb1 Hcount Hpre Hk Hidx).
Qed.

Lemma run_one_sequence (calls : list (world * Z)) :
  forall (b0 b b' : block) (results : list Z),
    one_sequence b0 b ->
    1 <= d_nr_captures b0 ->
    run calls b = Ok results b' ->
    at_most_one_sequence b0 b'.
Proof.
  induction calls as [|c rest IH]; intros b0 b b' results Hinv HN Hrun.
  - apply Ok_inj in Hrun. destruct Hrun as [_ <-].
    apply one_sequence_at_most; [exact Hinv|lia].
  - apply run_cons in Hrun. destruct Hrun as (r & b2 & Hstep & Hrun).
    pose proof Hinv as (Hm & _).
    apply (scheduled_work_rapid_block _ _ _ _ Hm) in Hstep.
    destruct Hstep as (b1 & Hwork & Hnp).
    destruct (work_rapid_block_step _ _ _ _ _ _ Hinv HN Hwork) as [Hend Hnext].
    destruct Hrun as [(Hneg & _ & ->)|(Hnn & rs & Hrest & _)].
    + exact (at_most_one_sequence_no_progress _ _ _ Hend Hnp).
    + apply (IH b0 b2 b' rs); [|exact HN|exact Hrest].
      exact (one_sequence_no_progress _ _ _ (Hnext Hnn) Hnp).
Qed.

(** Once [d_was_triggered_once] is set, a call that finds the block
    WAITING ends the stream and changes nothing. *)
Lemma work_rapid_block_done (w : world) (n : Z) (b : block) :
  d_acquisition_mode b = RAPID_BLOCK ->
  d_trigger_once b = true ->
  d_was_triggered_once b = true ->
  state (d_bstate b) = WAITING ->
  work w n b = Ok (-1) b.
Proof.
  intros Hm Ho Hf Hst.
  assert (Hwait : rapid_block_waiting w b = Ok (Some (-1)) b).
  { unfold rapid_block_waiting. rewrite (bind_run get _ b b b eq_refl).
    rewrite Ho, Hf. reflexivity. }
  assert (Hrb : work_rapid_block w n b = Ok (-1) b).
  { unfold work_rapid_block. rewrite (bind_run get _ b b b eq_refl).
    rewrite Hst. cbn [rapid_block_state_eqb].
    rewrite (bind_run _ _ b b (Some (-1)) Hwait). reflexivity. }
  unfold work. rewrite (bind_run get _ b b b eq_refl). rewrite Hm.
  rewrite (bind_run _ _ b b (-1) Hrb).
  rewrite (bind_run get _ b b b eq_refl). reflexivity.
Qed.

End RapidBlock.

(** The Timebase claim fails for an [arm()] on a block that is already
    armed: it returns at its guard, and the next call of [work] that returns
    [n > 0] tags none of the nine outputs. *)
Lemma timebase_after_every_arm_counterexample :
  exists b1 b2,
    @scheduled_work example_header (nine_outputs, 8192) freshly_armed_block
      = Ok 8192 b1
    /\ is_armed b1 = true
    /\ @arm example_header nine_outputs b1 = Ok tt b1
    /\ @scheduled_work example_header (nine_outputs, 8192) b1 = Ok 8192 b2
    /\ timebase_tags_since b1 b2 = []
    /\ List.length (output_items nine_outputs) = 9%nat.
Proof.
  do 2 eexists.
  split; [vm_compute; reflexivity|].
  split; [vm_compute; reflexivity|].
  split; [vm_compute; reflexivity|].
  split; [vm_compute; reflexivity|].
  split; vm_compute; reflexivity.
Qed.

Lemma timebase_tag_once_after_arm_witness :
  is_armed example_block = false
  /\ @arm example_header nine_outputs example_block = Ok tt freshly_armed_block
  /\ timebase_tags_since freshly_armed_block
       (result_state (@run example_header two_chunks freshly_armed_block)
          freshly_armed_block)
     = on_every_slot 9
         {| tag_offset := 0;
            value := timebase_info_tag
                       (get_timebase_with_downsampling freshly_armed_block) |}.
Proof.
  assert (Harm : @arm example_header nine_outputs example_block
                 = Ok tt freshly_armed_block) by (vm_compute; reflexivity).
  split; [reflexivity|]. split; [exact Harm|].
  destruct (@timebase_tag_once_after_arm example_header) as [Hafter _].
  exact (Hafter nine_outputs example_block freshly_armed_block
           (result_state (@run example_header two_chunks freshly_armed_block)
              freshly_armed_block)
           two_chunks [8192; 8192] eq_refl Harm
           ltac:(vm_compute; reflexivity) ltac:(vm_compute; reflexivity)).
Defined.

(** * Further properties *)

Section Configuration.

Context {H : Header}.

Lemma update_nth_length {A} (f : A -> A) (l : list A) :
  forall n, List.length (update_nth n f l) = List.length l.
Proof.
  induction l as [|x r IH]; intros [|n]; cbn; auto.
Qed.

Lemma assign_at_cases {A} (l : list A) (idx : Z) (f : A -> A) (b : block) :
  assign_at l idx f b = Ok (update_nth (Z.to_nat idx) f l) b
  \/ assign_at l idx f b = Undefined.
Proof.
  unfold assign_at, bind, index.
  destruct ((idx <? 0) || (Z.of_nat (List.length l) <=? idx)); [now right|].
  destruct (nth_error l (Z.to_nat idx)); [now left|now right].
Qed.

Lemma convert_to_aichan_idx_cases (id : string) (b : block) :
  (exists idx, convert_to_aichan_idx id b = Ok idx b)
  \/ (exists s, convert_to_aichan_idx id b = Throw (invalid_argument s) b).
Proof.
  unfold convert_to_aichan_idx.
  destruct id as [|c [|c' id']]; try (right; eexists; reflexivity).
  destruct (_ || _); [right|left]; eexists; reflexivity.
Qed.

Lemma convert_to_port_idx_cases (id : string) (b : block) :
  (exists idx, convert_to_port_idx id b = Ok idx b)
  \/ (exists s, convert_to_port_idx id b = Throw (invalid_argument s) b)
  \/ convert_to_port_idx id b = Throw bad_lexical_cast b
  \/ convert_to_port_idx id b = Undefined.
Proof.
  unfold convert_to_port_idx.
  destruct (negb _); [right; left; eexists; reflexivity|].
  destruct (String.get 4 id) as [c|]; [|now right; right; right].
  unfold bind, lexical_cast_int.
  destruct (_ && _); cbn; [|now right; right; left].
  destruct (_ || _); [right; left|left]; eexists; reflexivity.
Qed.

Lemma call_setter_cases (c : setter_call) (b : block) :
  (exists b', call_setter c b = Ok tt b')
  \/ throws_argument_error (call_setter c b) b
  \/ call_setter c b = Undefined
  \/ (exists n s, c = call_set_buffer_size n /\ 0 <= n
        /\ call_setter c b = Throw (invalid_argument s) (b <| d_buffer_size := to_uint32 n |>)).
Proof.
  unfold throws_argument_error.
  destruct c as [rate|nsamp npre|n|n|n|rate|n|mode f|id en r dc off|id en thr|id dir thr|pin dir];
    cbn [call_setter].
  - unfold set_samp_rate. destruct (IEEE.le _ _); [right; left; right|left]; eexists; reflexivity.
  - unfold set_samples. destruct (nsamp <? 1); [right; left; right; eexists; reflexivity|].
    destruct (npre <? 0); [right; left; right|left]; eexists; reflexivity.
  - unfold set_buffer_size. destruct (n <? 0) eqn:Hn;
      [right; left; right; eexists; reflexivity|].
    unfold bind, modify, set_output_multiple.
    destruct (n <? 1); [|left; eexists; reflexivity].
    right; right; right. do 2 eexists. split; [reflexivity|]. split; [lia|reflexivity].
  - unfold set_nr_buffers. destruct (_ <? _); [right; left; right|left]; eexists; reflexivity.
  - unfold set_driver_buffer_size. destruct (_ <? _); [right; left; right|left]; eexists; reflexivity.
  - unfold set_streaming. destruct (IEEE.lt _ _); [right; left; right|left]; eexists; reflexivity.
  - unfold set_rapid_block. destruct (_ <? _); [right; left; right|left]; eexists; reflexivity.
  - unfold set_downsampling. destruct (is_mode_none mode); [left; eexists; reflexivity|].
    destruct (_ <? _); [right; left; right|left]; eexists; reflexivity.
  - unfold set_aichan, bind, gets.
    destruct (convert_to_aichan_idx_cases id b) as [[idx ->]|[s ->]];
      [|right; left; right; eexists; reflexivity].
    destruct (assign_at_cases (d_channel_settings b) idx
                (fun c => c <| range := r |> <| offset := off |>
                            <| enabled := en |> <| dc_coupled := dc |>) b)
      as [-> | ->]; [left; eexists; reflexivity|now right; right; left].
  - unfold set_diport, bind, gets.
    destruct (convert_to_port_idx_cases id b) as [[idx ->]|[[s ->]|[-> | ->]]];
      [|right; left; right; eexists; reflexivity|right; left; now left|now right; right; left].
    destruct (assign_at_cases (d_port_settings b) idx
                (fun p => p <| logic_level := thr |> <| port_enabled := en |>) b)
      as [-> | ->]; [left; eexists; reflexivity|now right; right; left].
  - unfold set_aichan_trigger, bind.
    destruct (convert_to_aichan_idx_cases id b) as [[idx ->]|[s ->]];
      [left|right; left; right]; eexists; reflexivity.
  - left. eexists. reflexivity.
Qed.

Lemma valid_configuration_member_init (ai_channels di_ports : Z) (auto_arm : bool) :
  valid_configuration (member_init ai_channels di_ports auto_arm).
Proof.
  unfold valid_configuration, member_init, INT_MAX, is_uint32. cbn.
  rewrite !repeat_length. repeat split; try lia; try reflexivity.
Qed.

Ltac ok_state Hcall :=
  cbv [bind modify gets ret] in Hcall; apply Ok_inj in Hcall;
  destruct Hcall as [_ <-].

Ltac fields b :=
  destruct b; cbn in *; unfold constant, is_int, INT_MIN, INT_MAX in *.

Lemma call_setter_valid (c : setter_call) (b b' : block) :
  int_arguments c -> valid_configuration b ->
  call_setter c b = Ok tt b' -> valid_configuration b'.
Proof.
  unfold valid_configuration, is_int, is_uint32, INT_MAX, INT_MIN.
  destruct c as [rate|nsamp npre|n|n|n|rate|n|mode f|id en r dc off|id en thr|id dir thr|pin dir];
    cbn [call_setter int_arguments]; intros Hint Hv Hcall.
  - unfold set_samp_rate in Hcall. destruct (IEEE.le _ _); [discriminate|].
    ok_state Hcall. destruct b; exact Hv.
  - unfold set_samples in Hcall.
    destruct (Z.ltb_spec nsamp 1); [discriminate|].
    destruct (Z.ltb_spec npre 0); [discriminate|].
    ok_state Hcall. fields b.
    rewrite !to_uint32_small by lia. unfold to_uint32.
    pose proof (Z.mod_pos_bound (nsamp + npre) (2 ^ 32) ltac:(lia)).
    repeat split; try lia; try apply Hv.
  - unfold set_buffer_size in Hcall.
    destruct (Z.ltb_spec n 0); [discriminate|].
    unfold bind, modify, set_output_multiple in Hcall.
    destruct (n <? 1); [discriminate|].
    ok_state Hcall. fields b.
    rewrite !to_uint32_small by lia.
    repeat split; try lia; try apply Hv.
  - unfold set_nr_buffers in Hcall.
    destruct (Z.ltb_spec n 1); [discriminate|].
    ok_state Hcall. fields b.
    rewrite !to_uint32_small by lia.
    repeat split; try lia; try apply Hv.
  - unfold set_driver_buffer_size in Hcall.
    destruct (Z.ltb_spec n 1); [discriminate|].
    ok_state Hcall. fields b.
    rewrite !to_uint32_small by lia.
    repeat split; try lia; try apply Hv.
  - unfold set_streaming in Hcall. destruct (IEEE.lt _ _); [discriminate|].
    ok_state Hcall. fields b.
    repeat split; try lia; try apply Hv.
  - unfold set_rapid_block in Hcall.
    destruct (Z.ltb_spec n 1); [discriminate|].
    ok_state Hcall. fields b.
    rewrite !to_uint32_small by lia.
    repeat split; try lia; try apply Hv; discriminate.
  - unfold set_downsampling in Hcall.
    destruct mode; cbn [is_mode_none] in Hcall.
    + ok_state Hcall. fields b.
      repeat split; try lia; try apply Hv; try reflexivity.
    + destruct (Z.ltb_spec f 2); [discriminate|].
      ok_state Hcall. fields b. rewrite !to_uint32_small by lia.
      repeat split; try lia; try apply Hv; try discriminate.
    + destruct (Z.ltb_spec f 2); [discriminate|].
      ok_state Hcall. fields b. rewrite !to_uint32_small by lia.
      repeat split; try lia; try apply Hv; try discriminate.
    + destruct (Z.ltb_spec f 2); [discriminate|].
      ok_state Hcall. fields b. rewrite !to_uint32_small by lia.
      repeat split; try lia; try apply Hv; try discriminate.
  - unfold set_aichan, bind, gets in Hcall.
    destruct (convert_to_aichan_idx_cases id b) as [[idx Hc]|[s Hc]];
      rewrite Hc in Hcall; [|discriminate].
    match type of Hcall with context [assign_at ?l ?i ?f ?s] =>
      destruct (assign_at_cases l i f s) as [Ha|Ha]; rewrite Ha in Hcall end;
      [|discriminate].
    ok_state Hcall. fields b. rewrite update_nth_length.
    exact Hv.
  - unfold set_diport, bind, gets in Hcall.
    destruct (convert_to_port_idx_cases id b) as [[idx Hc]|[[s Hc]|[Hc|Hc]]];
      rewrite Hc in Hcall; try discriminate.
    match type of Hcall with context [assign_at ?l ?i ?f ?s] =>
      destruct (assign_at_cases l i f s) as [Ha|Ha]; rewrite Ha in Hcall end;
      [|discriminate].
    ok_state Hcall. fields b. rewrite update_nth_length.
    exact Hv.
  - unfold set_aichan_trigger, bind in Hcall.
    destruct (convert_to_aichan_idx_cases id b) as [[idx Hc]|[s Hc]];
      rewrite Hc in Hcall; [|discriminate].
    ok_state Hcall. destruct b; exact Hv.
  - unfold set_di_trigger in Hcall. ok_state Hcall. destruct b; exact Hv.
Qed.

Lemma call_setter_valid_throw (c : setter_call) (b b' : block) (e : exn) :
  valid_configuration b -> call_setter c b = Throw e b' -> valid_configuration b'.
Proof.
  intros Hv Hcall.
  destruct (call_setter_cases c b) as [[b1 Hc]|[[Hc|[s Hc]]|[Hc|(n & s & -> & Hn & Hc)]]];
    rewrite Hc in Hcall; try discriminate.
  - now injection Hcall as _ <-.
  - now injection Hcall as _ <-.
  - injection Hcall as _ <-.
    unfold valid_configuration, is_uint32 in *. fields b. unfold to_uint32.
    pose proof (Z.mod_pos_bound n (2 ^ 32) ltac:(lia)).
    repeat split; try lia; try apply Hv.
Qed.

Lemma apply_setters_valid (cs : list setter_call) :
  forall b b', Forall int_arguments cs -> valid_configuration b ->
    apply_setters cs b = Some b' -> valid_configuration b'.
Proof.
  induction cs as [|c rest IH]; intros b b' Hint Hv Hrun; cbn in Hrun.
  - now injection Hrun as <-.
  - inversion Hint as [|? ? Hc Hrest]; subst.
    destruct (call_setter c b) as [[] b1|e b1| | |] eqn:Hcall; try discriminate.
    + eapply IH; [exact Hrest| |exact Hrun]. eapply call_setter_valid; eauto.
    + eapply IH; [exact Hrest| |exact Hrun]. eapply call_setter_valid_throw; eauto.
Qed.

(** X1.  What a configuration setter throws is a [std::invalid_argument]
    (or the [boost::bad_lexical_cast] of a port id), and it throws before
    it has stored anything: the block is left as it was.  The one
    exception is [set_buffer_size], which stores [d_buffer_size] first and
    then calls [set_output_multiple]: when that call throws, on an argument
    that is not negative, the new size stays. *)
Theorem setters_exception_safety :
  forall (c : setter_call) (b b' : block) (e : exn),
    call_setter c b = Throw e b' ->
    (e = bad_lexical_cast \/ exists s, e = invalid_argument s)
    /\ (b' = b
        \/ exists n, c = call_set_buffer_size n /\ 0 <= n
             /\ b' = b <| d_buffer_size := to_uint32 n |>).
Proof.
  intros c b b' e Hcall.
  destruct (call_setter_cases c b) as [[b1 Hc]|[[Hc|[s Hc]]|[Hc|(n & s & -> & Hn & Hc)]]];
    rewrite Hc in Hcall; try discriminate; injection Hcall as <- <-.
  - split; [now left|now left].
  - split; [right; now exists s|now left].
  - split; [right; now exists s|]. right. exists n. repeat split; assumption.
Qed.

(** X2.  From the block the constructor builds, any sequence of setter
    calls with [int] arguments, whether the calls return or throw, leaves a
    valid configuration: at least one post-trigger sample, one buffer, one
    capture, a downsampling factor of at least 1 that is 1 exactly in mode
    NONE (so the getters never divide by zero), one capture in STREAMING
    mode, and settings arrays of their full size; and [get_block_size] is
    the plain sum [d_samples + d_pre_samples], without wrap-around. *)
Theorem setters_keep_configuration_valid :
  forall (ai_channels di_ports : Z) (auto_arm : bool) (cs : list setter_call)
         (b : block),
    Forall int_arguments cs ->
    apply_setters cs (member_init ai_channels di_ports auto_arm) = Some b ->
    valid_configuration b
    /\ get_block_size b = d_samples b + d_pre_samples b.
Proof.
  intros ai di auto cs b Hint Hrun.
  assert (Hv : valid_configuration b).
  { eapply apply_setters_valid; [exact Hint| |exact Hrun].
    apply valid_configuration_member_init. }
  split; [exact Hv|].
  unfold get_block_size. apply to_uint32_small.
  unfold valid_configuration, INT_MAX in Hv. lia.
Qed.

(** X3.  In a valid configuration, [get_block_size_with_downsampling] is
    the sum of the two counts, each divided by the factor on its own; so
    times the factor it is at most [get_block_size], and it falls short of
    [get_block_size / factor] by less than 2. *)
Theorem downsampled_block_size_bounds :
  forall b : block,
    valid_configuration b ->
    let f := d_downsampling_factor b in
    f * get_block_size_with_downsampling b <= get_block_size b
    /\ get_block_size b < f * (get_block_size_with_downsampling b + 2)
    /\ get_block_size_with_downsampling b
       = d_pre_samples b / f + d_samples b / f.
Proof.
  intros b Hv f.
  unfold valid_configuration, INT_MAX in Hv.
  destruct Hv as (Hs & Hp & _ & _ & _ & _ & Hf & Hmode & _).
  fold f in Hf, Hmode.
  assert (Hds : get_block_size_with_downsampling b
                = d_pre_samples b / f + d_samples b / f).
  { unfold get_block_size_with_downsampling,
      get_pre_trigger_samples_with_downsampling,
      get_post_trigger_samples_with_downsampling. fold f.
    assert (Hq1 : 0 <= d_pre_samples b / f <= d_pre_samples b).
    { split; [apply Z.div_pos; lia|apply Z.div_le_upper_bound; nia]. }
    assert (Hq2 : 0 <= d_samples b / f <= d_samples b).
    { split; [apply Z.div_pos; lia|apply Z.div_le_upper_bound; nia]. }
    destruct (is_mode_none (d_downsampling_mode b)) eqn:Hnone; cbn [negb].
    - assert (f = 1).
      { apply Hmode. destruct (d_downsampling_mode b); try discriminate; reflexivity. }
      subst f. rewrite H0, !Z.div_1_r. apply to_uint32_small. lia.
    - apply to_uint32_small. lia. }
  rewrite Hds.
  assert (Hbs : get_block_size b = d_samples b + d_pre_samples b).
  { unfold get_block_size. apply to_uint32_small. lia. }
  rewrite Hbs.
  pose proof (Z.div_mod (d_pre_samples b) f ltac:(lia)).
  pose proof (Z.div_mod (d_samples b) f ltac:(lia)).
  pose proof (Z.mod_pos_bound (d_pre_samples b) f ltac:(lia)).
  pose proof (Z.mod_pos_bound (d_samples b) f ltac:(lia)).
  repeat split; nia.
Qed.

Lemma update_nth_nth_error {A} (f : A -> A) (l : list A) :
  forall n x, nth_error l n = Some x ->
    nth_error (update_nth n f l) n = Some (f x).
Proof.
  induction l as [|y r IH]; intros [|n] x Hx; cbn in *; try discriminate.
  - now injection Hx as ->.
  - now apply IH.
Qed.

Lemma update_nth_other {A} (f : A -> A) (l : list A) :
  forall n j, j <> n -> nth_error (update_nth n f l) j = nth_error l j.
Proof.
  induction l as [|y r IH]; intros [|n] [|j] Hj; cbn; try reflexivity;
    try congruence.
  apply IH. congruence.
Qed.

Lemma fold_left_count_shift {A} (g : A -> Z) (l : list A) :
  forall acc, fold_left (fun count c => count + g c) l acc
              = acc + fold_left (fun count c => count + g c) l 0.
Proof.
  induction l as [|x r IH]; intros acc; cbn; [lia|].
  rewrite IH, (IH (g x)). lia.
Qed.

Lemma count_update_nth {A} (g : A -> Z) (f : A -> A) (l : list A) :
  forall n x, nth_error l n = Some x ->
    fold_left (fun count c => count + g c) (update_nth n f l) 0
    = fold_left (fun count c => count + g c) l 0 - g x + g (f x).
Proof.
  induction l as [|y r IH]; intros [|n] x Hx; cbn in *; try discriminate.
  - injection Hx as ->.
    rewrite (fold_left_count_shift g r (g (f x))), (fold_left_count_shift g r (g x)). lia.
  - rewrite (fold_left_count_shift g _ (g y)), (fold_left_count_shift g r (g y)).
    rewrite (IH n x Hx). lia.
Qed.

(** X4.  A [set_aichan] that returns has changed one entry of
    [d_channel_settings], the one [convert_to_aichan_idx] names: it holds
    the four arguments and the [actual_range] it had; every other entry and
    every other field of the block is as before, and
    [get_enabled_aichan_count] moves by the change of that entry's
    [enabled]. *)
Theorem set_aichan_updates_one_channel :
  forall (id : string) (en : bool) (r : IEEE.double) (dc : bool)
         (off : IEEE.double) (b b' : block),
    set_aichan id en r dc off b = Ok tt b' ->
    exists idx old,
      convert_to_aichan_idx id b = Ok idx b
      /\ nth_error (d_channel_settings b) (Z.to_nat idx) = Some old
      /\ nth_error (d_channel_settings b') (Z.to_nat idx)
         = Some {| range := r; offset := off; enabled := en; dc_coupled := dc;
                   actual_range := actual_range old |}
      /\ (forall j, j <> Z.to_nat idx ->
            nth_error (d_channel_settings b') j = nth_error (d_channel_settings b) j)
      /\ b' = b <| d_channel_settings := d_channel_settings b' |>
      /\ get_enabled_aichan_count b'
         = get_enabled_aichan_count b - Z.b2z (enabled old) + Z.b2z en.
Proof.
  intros id en r dc off b b' Hcall.
  unfold set_aichan, bind, gets in Hcall.
  destruct (convert_to_aichan_idx_cases id b) as [[idx Hc]|[s Hc]];
    rewrite Hc in Hcall; [|discriminate].
  unfold assign_at, bind in Hcall.
  destruct (index (d_channel_settings b) idx b) as [old b1| | | |] eqn:Hidx;
    try discriminate.
  apply index_ok in Hidx. destruct Hidx as (-> & Hrange & Hold).
  ok_state Hcall.
  exists idx, old. split; [exact Hc|]. split; [exact Hold|].
  unfold get_enabled_aichan_count.
  destruct b; cbn in *; unfold constant.
  split; [|split; [|split]].
  - rewrite (update_nth_nth_error _ _ _ _ Hold). destruct old; reflexivity.
  - intros j Hj. now apply update_nth_other.
  - reflexivity.
  - rewrite (count_update_nth (fun c => Z.b2z (enabled c)) _ _ _ _ Hold).
    destruct old; reflexivity.
Qed.

Lemma convert_to_aichan_idx_single (c : ascii) (b : block) :
  0 <= toupper (char_value c) - 65 <= MAX_SUPPORTED_AI_CHANNELS ->
  convert_to_aichan_idx (String c EmptyString) b
  = Ok (toupper (char_value c) - 65) b.
Proof.
  intros Hr. unfold convert_to_aichan_idx.
  destruct (Z.ltb_spec (toupper (char_value c) - 65) 0); [lia|].
  destruct (Z.gtb_spec (toupper (char_value c) - 65) MAX_SUPPORTED_AI_CHANNELS);
    [lia|]. reflexivity.
Qed.

Lemma channel_letter_value (small : bool) (n : nat) :
  (n < 26)%nat ->
  exists c, channel_letter small n = String c EmptyString
    /\ toupper (char_value c) - 65 = Z.of_nat n.
Proof.
  intros Hn. unfold channel_letter. eexists. split; [reflexivity|].
  do 26 (destruct n as [|n]; [destruct small; reflexivity|]). lia.
Qed.

(** X5.  [convert_to_aichan_idx] returns only for an id of one character,
    and then the distance of its upper-case form from 'A', between 0 and
    MAX_SUPPORTED_AI_CHANNELS; it never changes the block.  The small and
    the capital letter of a channel name the same index. *)
Theorem convert_to_aichan_idx_letters :
  forall (id : string) (b b' : block) (idx : Z),
    (convert_to_aichan_idx id b = Ok idx b' ->
       b' = b /\ 0 <= idx <= MAX_SUPPORTED_AI_CHANNELS
       /\ exists c, id = String c EmptyString
            /\ idx = toupper (char_value c) - 65)
    /\ (forall (small : bool) (n : nat),
          (n < 26)%nat -> Z.of_nat n <= MAX_SUPPORTED_AI_CHANNELS ->
          convert_to_aichan_idx (channel_letter small n) b = Ok (Z.of_nat n) b).
Proof.
  intros id b b' idx. split.
  - intros Hc. pose proof (convert_to_aichan_idx_ok _ _ _ _ Hc) as [-> Hr].
    split; [reflexivity|]. split; [exact Hr|].
    unfold convert_to_aichan_idx in Hc.
    destruct id as [|c [|c' id']]; try discriminate.
    exists c. split; [reflexivity|].
    destruct (_ || _); [discriminate|]. now injection Hc as <-.
  - intros small n Hn Hmax.
    destruct (channel_letter_value small n Hn) as (c & -> & Hv).
    rewrite convert_to_aichan_idx_single; rewrite Hv; [reflexivity|lia].
Qed.

Lemma index_past_the_end {S A} (l : list A) (s : S) :
  index l (Z.of_nat (List.length l)) s = Undefined.
Proof.
  unfold index. destruct (Z.ltb_spec (Z.of_nat (List.length l)) 0); [lia|].
  destruct (Z.leb_spec (Z.of_nat (List.length l)) (Z.of_nat (List.length l)));
    [reflexivity|lia].
Qed.

(** X6.  The range check of [convert_to_aichan_idx] is [idx >
    MAX_SUPPORTED_AI_CHANNELS]: the id whose index is
    MAX_SUPPORTED_AI_CHANNELS itself is accepted.  With settings arrays of
    MAX_SUPPORTED_AI_CHANNELS entries, [set_aichan] and [set_aichan_range]
    then write one past the end (undefined behaviour), and
    [set_aichan_trigger] stores the id as the trigger source. *)
Theorem channel_id_one_past_the_end :
  forall (c : ascii) (b : block) (en dc : bool) (r off thr : IEEE.double)
         (dir : trigger_direction_t),
    List.length (d_channel_settings b) = Z.to_nat MAX_SUPPORTED_AI_CHANNELS ->
    0 <= MAX_SUPPORTED_AI_CHANNELS ->
    toupper (char_value c) - 65 = MAX_SUPPORTED_AI_CHANNELS ->
    let id := String c EmptyString in
    convert_to_aichan_idx id b = Ok MAX_SUPPORTED_AI_CHANNELS b
    /\ set_aichan id en r dc off b = Undefined
    /\ set_aichan_range id r off b = Undefined
    /\ set_aichan_trigger id dir thr b
       = Ok tt (b <| d_trigger_settings :=
                  {| source := id; threshold := thr; direction := dir;
                     pin_number := 0 |} |>).
Proof.
  intros c b en dc r off thr dir Hlen Hmax Hc id.
  assert (Hconv : convert_to_aichan_idx id b = Ok MAX_SUPPORTED_AI_CHANNELS b).
  { unfold id. rewrite convert_to_aichan_idx_single; rewrite Hc; [reflexivity|lia]. }
  assert (Hidx : forall s : block,
             index (d_channel_settings b) MAX_SUPPORTED_AI_CHANNELS s = Undefined).
  { intros s. rewrite <- (Z2Nat.id MAX_SUPPORTED_AI_CHANNELS Hmax), <- Hlen.
    apply index_past_the_end. }
  split; [exact Hconv|].
  unfold set_aichan, set_aichan_range, set_aichan_trigger, assign_at, bind, gets.
  rewrite Hconv, Hidx. repeat split.
Qed.

Lemma convert_to_port_idx_Ok_iff :
  forall (id : string) (b : block) (idx : Z) (b' : block),
    convert_to_port_idx id b = Ok idx b' <->
    (b' = b /\ String.length id = 5%nat
     /\ exists c, String.get 4 id = Some c
          /\ 48 <= Z.of_nat (nat_of_ascii c) <= 57
          /\ idx = Z.of_nat (nat_of_ascii c) - 48
          /\ idx <= MAX_SUPPORTED_PORTS).
Proof.
  intros id b idx b'. unfold convert_to_port_idx.
  destruct (Nat.eqb_spec (String.length id) 5) as [Hlen|Hlen]; cbn [negb].
  + destruct (String.get 4 id) as [c|] eqn:Hget.
    * unfold bind, lexical_cast_int.
      destruct (Z.leb_spec 48 (Z.of_nat (nat_of_ascii c)));
        destruct (Z.leb_spec (Z.of_nat (nat_of_ascii c)) 57); cbn [andb];
        try (split; [discriminate|intros (_ & _ & c' & [= <-] & ? & _); lia]).
      cbn [ret].
      destruct (Z.ltb_spec (Z.of_nat (nat_of_ascii c) - 48) 0); [lia|].
      destruct (Z.gtb_spec (Z.of_nat (nat_of_ascii c) - 48) MAX_SUPPORTED_PORTS);
        cbn [orb].
      -- split; [discriminate|intros (_ & _ & c' & [= <-] & ? & -> & ?); lia].
      -- split.
         ++ intros [= <- <-]. repeat split; try assumption.
            exists c. repeat split; try lia.
         ++ intros (-> & _ & c' & [= <-] & _ & -> & _). reflexivity.
    * split; [discriminate|intros (_ & _ & c' & [=] & _)].
  + split; [discriminate|intros (_ & ? & _); contradiction].
Qed.

(** X7.  [convert_to_port_idx] returns exactly for the ids of five
    characters whose fifth is a decimal digit not above MAX_SUPPORTED_PORTS,
    and returns that digit: the first four characters are not looked at.
    A fifth character that is no digit makes it throw
    [boost::bad_lexical_cast], not [std::invalid_argument]. *)
Theorem convert_to_port_idx_reads_fifth_character :
  forall (id : string) (b : block),
    (forall idx b',
       convert_to_port_idx id b = Ok idx b' <->
       (b' = b /\ String.length id = 5%nat
        /\ exists c, String.get 4 id = Some c
             /\ 48 <= Z.of_nat (nat_of_ascii c) <= 57
             /\ idx = Z.of_nat (nat_of_ascii c) - 48
             /\ idx <= MAX_SUPPORTED_PORTS))
    /\ (forall c, String.length id = 5%nat -> String.get 4 id = Some c ->
          ~ 48 <= Z.of_nat (nat_of_ascii c) <= 57 ->
          convert_to_port_idx id b = Throw bad_lexical_cast b).
Proof.
  intros id b. split.
  - apply convert_to_port_idx_Ok_iff.
  - intros c Hlen Hget Hnot. unfold convert_to_port_idx.
    rewrite Hlen, Hget. cbn [Nat.eqb negb]. unfold bind, lexical_cast_int.
    destruct (Z.leb_spec 48 (Z.of_nat (nat_of_ascii c)));
      destruct (Z.leb_spec (Z.of_nat (nat_of_ascii c)) 57); cbn [andb];
      try reflexivity. lia.
Qed.

(** X8.  The range check of [convert_to_port_idx] is [idx >
    MAX_SUPPORTED_PORTS]: the port numbered MAX_SUPPORTED_PORTS is accepted,
    and with a settings array of MAX_SUPPORTED_PORTS entries [set_diport]
    then writes one past its end (undefined behaviour). *)
Theorem port_id_one_past_the_end :
  forall (id : string) (c : ascii) (b : block) (en : bool) (thr : IEEE.double),
    List.length (d_port_settings b) = Z.to_nat MAX_SUPPORTED_PORTS ->
    String.length id = 5%nat -> String.get 4 id = Some c ->
    48 <= Z.of_nat (nat_of_ascii c) <= 57 ->
    Z.of_nat (nat_of_ascii c) - 48 = MAX_SUPPORTED_PORTS ->
    convert_to_port_idx id b = Ok MAX_SUPPORTED_PORTS b
    /\ set_diport id en thr b = Undefined.
Proof.
  intros id c b en thr Hlen Hid Hget Hdigit Hmax.
  assert (Hconv : convert_to_port_idx id b = Ok MAX_SUPPORTED_PORTS b).
  { apply convert_to_port_idx_Ok_iff.
    split; [reflexivity|]. split; [exact Hid|]. exists c.
    split; [exact Hget|]. repeat split; lia. }
  split; [exact Hconv|].
  unfold set_diport, assign_at, bind, gets. rewrite Hconv.
  assert (Hm : 0 <= MAX_SUPPORTED_PORTS) by lia.
  rewrite <- (Z2Nat.id MAX_SUPPORTED_PORTS Hm), <- Hlen at 1.
  now rewrite index_past_the_end.
Qed.

Lemma le_zero_false (rate : IEEE.double) :
  IEEE.le rate (IEEE.d_of_Z 0) = false
  <-> (IEEE.lt (IEEE.d_of_Z 0) rate = true \/ rate = S754_nan).
Proof.
  unfold IEEE.le, IEEE.lt, SFleb, SFltb.
  change (IEEE.d_of_Z 0) with (S754_zero false).
  destruct rate as [[]|[]| |[] m e]; cbn; split;
    try discriminate; try tauto; try (intros [?|?]; discriminate).
Qed.

(** X9.  [set_samp_rate] returns exactly for the rates that are greater
    than zero or NaN (its test is [rate <= 0.0], which a NaN does not
    meet); it then stores the rate as nominal and actual rate.  After a NaN
    was stored the timebase is NaN. *)
Theorem set_samp_rate_accepts_nan :
  forall (b : block) (rate : IEEE.double),
    ((exists b', set_samp_rate rate b = Ok tt b')
       <-> (IEEE.lt (IEEE.d_of_Z 0) rate = true \/ rate = S754_nan))
    /\ (forall b', set_samp_rate rate b = Ok tt b' ->
          get_samp_rate b' = rate /\ d_samp_rate b' = rate)
    /\ (forall b', set_samp_rate S754_nan b = Ok tt b' ->
          get_timebase_with_downsampling b' = S754_nan).
Proof.
  intros b rate. split; [|split].
  - rewrite <- le_zero_false. unfold set_samp_rate.
    destruct (IEEE.le rate (IEEE.d_of_Z 0)).
    + split; [intros [b' Hb]; discriminate|discriminate].
    + split; [reflexivity|]. intros _. eexists. reflexivity.
  - intros b' Hb. unfold set_samp_rate in Hb.
    destruct (IEEE.le rate (IEEE.d_of_Z 0)); [discriminate|].
    ok_state Hb. destruct b; split; reflexivity.
  - intros b' Hb. unfold set_samp_rate in Hb. cbn in Hb.
    ok_state Hb. unfold get_timebase_with_downsampling.
    assert (Hr : forall x, IEEE.ddiv x S754_nan = S754_nan).
    { intros x. unfold IEEE.ddiv, SFdiv. now destruct x. }
    destruct b; cbn. unfold constant. destruct (is_mode_none _); try reflexivity; apply Hr.
Qed.

End Configuration.

Section Automaton.

Context {A : Type} (idle : bool) (fire rearm : A -> bool).

Local Notation "'loop'" := (hysteresis_loop idle fire rearm).

Local Notation "'next'" := (hysteresis_next idle fire rearm).

Lemma hysteresis_loop_next (i : Z) (x : A) (rest : list A) (ts : Z) :
  loop i (x :: rest) ts
  = ((if Bool.eqb (truth ts) idle && fire x then [i] else [])
       ++ fst (loop (i + 1) rest (next x ts)),
     snd (loop (i + 1) rest (next x ts))).
Proof.
  rewrite hysteresis_loop_cons. unfold hysteresis_next.
  destruct (Bool.eqb (truth ts) idle && fire x); [reflexivity|].
  cbn [app]. destruct (negb (Bool.eqb (truth ts) idle) && rearm x);
    apply surjective_pairing.
Qed.

(** Two buffers in a row are one buffer: the state carried over the
    boundary makes the second run continue the first. *)
Lemma hysteresis_loop_app (s1 s2 : list A) :
  forall i ts,
    loop i (s1 ++ s2) ts
    = (fst (loop i s1 ts)
         ++ fst (loop (i + Z.of_nat (List.length s1)) s2 (snd (loop i s1 ts))),
       snd (loop (i + Z.of_nat (List.length s1)) s2 (snd (loop i s1 ts)))).
Proof.
  induction s1 as [|x rest IH]; intros i ts.
  - cbn [app List.length hysteresis_loop fst snd]. rewrite Z.add_0_r.
    now rewrite <- surjective_pairing.
  - cbn [app]. rewrite !hysteresis_loop_next. cbn [fst snd].
    rewrite IH. cbn [fst snd List.length].
    replace (i + 1 + Z.of_nat (List.length rest))
      with (i + Z.of_nat (Datatypes.S (List.length rest))) by lia.
    now rewrite app_assoc.
Qed.

Lemma hysteresis_loop_shift (samples : list A) :
  forall i d ts,
    fst (loop (i + d) samples ts) = map (Z.add d) (fst (loop i samples ts)).
Proof.
  induction samples as [|x rest IH]; intros i d ts; [reflexivity|].
  rewrite !hysteresis_loop_next. cbn [fst].
  rewrite map_app. replace (i + d + 1) with (i + 1 + d) by lia.
  rewrite IH. f_equal.
  destruct (Bool.eqb (truth ts) idle && fire x); cbn; [|reflexivity].
  f_equal. lia.
Qed.

Hypothesis rearm_is_not_fire : forall x, rearm x = negb (fire x).

(** After a sample the automaton is idle exactly if the sample did not
    meet the firing condition. *)
Lemma edge_state_after (x : A) (ts : Z) :
  Bool.eqb (truth (next x ts)) idle = negb (fire x).
Proof.
  unfold hysteresis_next. rewrite rearm_is_not_fire.
  destruct (Bool.eqb (truth ts) idle) eqn:Hts, (fire x); cbn [andb negb];
    try exact Hts; destruct idle; reflexivity.
Qed.

Lemma edge_loop_fires (samples : list A) :
  forall i ts k,
    In k (fst (loop i samples ts)) <->
    exists j x, k = i + Z.of_nat j
      /\ nth_error samples j = Some x /\ fire x = true
      /\ match j with
         | O => Bool.eqb (truth ts) idle = true
         | Datatypes.S j' => exists y, nth_error samples j' = Some y /\ fire y = false
         end.
Proof.
  induction samples as [|x rest IH]; intros i ts k.
  - cbn. split; [contradiction|]. intros (j & x & _ & Hx & _). now destruct j.
  - rewrite hysteresis_loop_next. cbn [fst]. rewrite in_app_iff, IH. split.
    + intros [Hk|(j & x' & -> & Hx' & Hf & Hprev)].
      * destruct (Bool.eqb (truth ts) idle) eqn:Hts, (fire x) eqn:Hfx;
          cbn in Hk; try contradiction.
        destruct Hk as [<-|[]]. exists O, x. repeat split; try assumption. cbn; lia.
      * exists (Datatypes.S j), x'. split; [lia|]. split; [exact Hx'|].
        split; [exact Hf|]. destruct j as [|j'].
        -- exists x. split; [reflexivity|].
           rewrite edge_state_after in Hprev. now destruct (fire x).
        -- exact Hprev.
    + intros (j & x' & -> & Hx' & Hf & Hprev). destruct j as [|j].
      * left. cbn in Hx'. injection Hx' as ->. rewrite Hprev, Hf. cbn. lia.
      * right. exists j, x'. split; [lia|]. split; [exact Hx'|]. split; [exact Hf|].
        destruct j as [|j']; [|exact Hprev].
        destruct Hprev as (y & [= <-] & Hy). rewrite edge_state_after. now rewrite Hy.
Qed.

Lemma edge_loop_state (samples : list A) :
  forall i ts n x, nth_error samples n = Some x ->
    List.length samples = Datatypes.S n ->
    Bool.eqb (truth (snd (loop i samples ts))) idle = negb (fire x).
Proof.
  induction samples as [|y rest IH]; intros i ts n x Hx Hlen; [discriminate|].
  rewrite hysteresis_loop_next. cbn [snd].
  destruct n as [|n].
  - destruct rest; [|discriminate]. cbn in Hx. injection Hx as ->.
    cbn [hysteresis_loop snd]. apply edge_state_after.
  - cbn in Hx, Hlen. eapply IH; [exact Hx|lia].
Qed.

End Automaton.

Lemma digital_loops_hysteresis (mask : Z) (rising : bool) (samples : list Z) :
  forall i ts,
    (if rising then digital_rising_loop mask i samples ts
     else digital_falling_loop mask i samples ts)
    = hysteresis_loop (negb rising)
        (fun x => Bool.eqb (bit_set mask x) rising)
        (fun x => negb (Bool.eqb (bit_set mask x) rising)) i samples ts.
Proof.
  destruct rising; cbn [negb];
    (induction samples as [|x rest IH]; intros i ts; [reflexivity|]);
    cbn [digital_rising_loop digital_falling_loop hysteresis_loop]; rewrite !IH;
    unfold truth, bit_set; destruct (ts =? 0), (Z.land x mask =? 0); reflexivity.
Qed.

(** What [find_digital_triggers] computes, in terms of the automaton. *)
Lemma find_digital_triggers_loop (samples : list Z) (nsamples mask : Z)
    (b b' : block) (offs : list Z) :
  find_digital_triggers samples nsamples mask b = Ok offs b' ->
  let rising := is_rising_or_high (direction (d_trigger_settings b)) in
  let r := hysteresis_loop (negb rising)
             (fun x => Bool.eqb (bit_set mask x) rising)
             (fun x => negb (Bool.eqb (bit_set mask x) rising)) 0
             (firstn (Z.to_nat nsamples) samples) (d_trigger_state b) in
  nsamples <= Z.of_nat (List.length samples)
  /\ offs = fst r /\ b' = b <| d_trigger_state := snd r |>.
Proof.
  intros Hrun. cbv zeta.
  unfold find_digital_triggers in Hrun. unfold bind at 1 2 3, gets in Hrun.
  destruct (window samples nsamples b) as [w b1| | | |] eqn:Hw; try discriminate.
  apply window_ok in Hw. destruct Hw as (-> & Hn & ->).
  rewrite <- digital_loops_hysteresis.
  destruct (is_rising_or_high (direction (d_trigger_settings b)));
    match type of Hrun with context [let '(_, _) := ?l in _] =>
      destruct l as [o t] end;
    cbv [bind modify ret] in Hrun; apply Ok_inj in Hrun; destruct Hrun as [<- <-];
    repeat split; assumption.
Qed.

Lemma find_digital_triggers_run (samples : list Z) (nsamples mask : Z) (b : block) :
  nsamples <= Z.of_nat (List.length samples) ->
  let rising := is_rising_or_high (direction (d_trigger_settings b)) in
  let r := hysteresis_loop (negb rising)
             (fun x => Bool.eqb (bit_set mask x) rising)
             (fun x => negb (Bool.eqb (bit_set mask x) rising)) 0
             (firstn (Z.to_nat nsamples) samples) (d_trigger_state b) in
  find_digital_triggers samples nsamples mask b
  = Ok (fst r) (b <| d_trigger_state := snd r |>).
Proof.
  intros Hn rising r. subst r rising.
  unfold find_digital_triggers. unfold bind at 1 2 3, gets, window.
  destruct (Z.ltb_spec (Z.of_nat (List.length samples)) nsamples); [lia|].
  cbn [ret]. rewrite <- digital_loops_hysteresis.
  destruct (is_rising_or_high (direction (d_trigger_settings b)));
    match goal with |- context [let '(_, _) := ?l in _] =>
      destruct l as [o t] end; reflexivity.
Qed.

Lemma set_trigger_state_twice (b : block) (x y : Z) :
  b <| d_trigger_state := x |> <| d_trigger_state := y |>
  = b <| d_trigger_state := y |>.
Proof. now destruct b. Qed.

Lemma trigger_state_set (b : block) (t : Z) :
  d_trigger_state (b <| d_trigger_state := t |>) = t.
Proof. now destruct b. Qed.

Lemma trigger_settings_kept (b : block) (t : Z) :
  d_trigger_settings (b <| d_trigger_state := t |>) = d_trigger_settings b.
Proof. now destruct b. Qed.

Lemma sample_at_nth {A} (samples : list A) (j : nat) :
  sample_at samples (Z.of_nat j) = nth_error samples j.
Proof.
  unfold sample_at. destruct (Z.ltb_spec (Z.of_nat j) 0); [lia|].
  now rewrite Nat2Z.id.
Qed.

Lemma nth_error_firstn_lt {A} (l : list A) (n j : nat) :
  (j < n)%nat -> nth_error (firstn n l) j = nth_error l j.
Proof.
  revert l j. induction n as [|n IH]; intros l j Hj; [lia|].
  destruct l as [|x r]; [now destruct j|].
  destruct j as [|j]; [reflexivity|]. cbn. apply IH. lia.
Qed.

(** X10.  The digital detector is an edge detector.  Rising or High: it
    reports offset [i] of the buffer exactly when the pin's bit is set in
    sample [i] and was clear in the sample before, the carried
    [d_trigger_state] standing for the sample before the buffer; Falling or
    Low, mirrored.  After a buffer that is not empty [d_trigger_state] is
    the pin's bit in the last sample; nothing else in the block changes. *)
Theorem find_digital_triggers_edges :
  forall (samples : list Z) (nsamples mask : Z) (b b' : block) (offs : list Z),
    find_digital_triggers samples nsamples mask b = Ok offs b' ->
    let rising := is_rising_or_high (direction (d_trigger_settings b)) in
    (forall i, In i offs <->
       (0 <= i < nsamples
        /\ exists x, sample_at samples i = Some x
             /\ bit_set mask x = rising
             /\ level_before mask b samples i = negb rising))
    /\ (0 < nsamples ->
        exists x, sample_at samples (nsamples - 1) = Some x
          /\ truth (d_trigger_state b') = bit_set mask x)
    /\ b' = b <| d_trigger_state := d_trigger_state b' |>.
Proof.
  intros samples nsamples mask b b' offs Hrun rising.
  apply find_digital_triggers_loop in Hrun. fold rising in Hrun.
  cbv zeta in Hrun. destruct Hrun as (Hn & -> & ->).
  set (fire := fun x => Bool.eqb (bit_set mask x) rising) in *.
  set (rearm := fun x => negb (Bool.eqb (bit_set mask x) rising)) in *.
  set (w := firstn (Z.to_nat nsamples) samples) in *.
  assert (Hrf : forall x, rearm x = negb (fire x)) by reflexivity.
  assert (Hw : forall j, (j < Z.to_nat nsamples)%nat -> nth_error w j = nth_error samples j).
  { intros j Hj. now apply nth_error_firstn_lt. }
  assert (Hwlen : List.length w = Z.to_nat nsamples).
  { unfold w. rewrite length_firstn. lia. }
  split; [|split].
  - intros i. rewrite (edge_loop_fires (negb rising) fire rearm Hrf). split.
    + intros (j & x & -> & Hx & Hf & Hprev).
      assert (Hj : (j < Z.to_nat nsamples)%nat).
      { rewrite <- Hwlen. apply nth_error_Some. congruence. }
      split; [lia|]. exists x. rewrite Z.add_0_l, sample_at_nth, <- Hw by exact Hj.
      split; [exact Hx|]. split; [now apply eqb_prop|].
      unfold level_before. destruct j as [|j'].
      * cbn. now apply eqb_prop.
      * destruct (Z.eqb_spec (Z.of_nat (Datatypes.S j')) 0); [lia|].
        replace (Z.of_nat (Datatypes.S j') - 1) with (Z.of_nat j') by lia.
        rewrite sample_at_nth, <- Hw by lia.
        destruct Hprev as (y & -> & Hy). unfold fire in Hy.
        destruct (bit_set mask y), rising; cbn in *; congruence.
    + intros (Hi & x & Hx & Hbit & Hlev).
      exists (Z.to_nat i), x. split; [lia|].
      assert (Hj : (Z.to_nat i < Z.to_nat nsamples)%nat) by lia.
      rewrite <- (Z2Nat.id i) in Hx, Hlev by lia. rewrite sample_at_nth in Hx.
      rewrite Hw by exact Hj. split; [exact Hx|].
      split; [unfold fire; rewrite Hbit; apply eqb_reflx|].
      unfold level_before in Hlev.
      destruct (Z.to_nat i) as [|j'] eqn:Hi'.
      * cbn in Hlev. rewrite Hlev. apply eqb_reflx.
      * destruct (Z.eqb_spec (Z.of_nat (Datatypes.S j')) 0); [lia|].
        replace (Z.of_nat (Datatypes.S j') - 1) with (Z.of_nat j') in Hlev by lia.
        rewrite sample_at_nth in Hlev. rewrite Hw by lia.
        destruct (nth_error samples j') as [y|] eqn:Hy.
        -- exists y. split; [reflexivity|]. unfold fire. rewrite Hlev.
           now destruct rising.
        -- exfalso. apply nth_error_None in Hy.
           assert (Datatypes.S j' < List.length samples)%nat
             by (apply nth_error_Some; congruence). lia.
  - intros Hpos.
    assert (Hlast : (Z.to_nat (nsamples - 1) < Z.to_nat nsamples)%nat) by lia.
    destruct (nth_error w (Z.to_nat (nsamples - 1))) as [x|] eqn:Hx.
    2:{ apply nth_error_None in Hx. lia. }
    exists x. rewrite <- (Z2Nat.id (nsamples - 1)) at 1 by lia.
    rewrite sample_at_nth, <- Hw by exact Hlast. split; [exact Hx|].
    pose proof (edge_loop_state (negb rising) fire rearm Hrf w 0
                  (d_trigger_state b) _ x Hx ltac:(lia)) as Hst.
    destruct b; cbn. unfold constant. cbn in Hst. unfold fire in Hst.
    destruct (truth _), (bit_set mask x), rising; cbn in *; congruence.
  - destruct b; reflexivity.
Qed.

(** X11.  No digital trigger is lost or found twice at a buffer boundary:
    two calls of [find_digital_triggers] on two buffers in a row, the second
    starting in the state the first left, report what one call on the
    joined buffer reports (the second buffer's offsets shifted by the length
    of the first), and leave the same state. *)
Theorem find_digital_triggers_chunks :
  forall (s1 s2 : list Z) (mask : Z) (b b1 b2 : block) (o1 o2 : list Z),
    let n1 := Z.of_nat (List.length s1) in
    let n2 := Z.of_nat (List.length s2) in
    find_digital_triggers s1 n1 mask b = Ok o1 b1 ->
    find_digital_triggers s2 n2 mask b1 = Ok o2 b2 ->
    find_digital_triggers (s1 ++ s2) (n1 + n2) mask b
    = Ok (o1 ++ map (Z.add n1) o2) b2.
Proof.
  intros s1 s2 mask b b1 b2 o1 o2 n1 n2 H1 H2.
  apply find_digital_triggers_loop in H1. cbv zeta in H1.
  destruct H1 as (_ & -> & ->).
  apply find_digital_triggers_loop in H2. cbv zeta in H2.
  destruct H2 as (_ & -> & ->).
  rewrite find_digital_triggers_run by (rewrite length_app; lia).
  cbv zeta. subst n1 n2.
  replace (Z.to_nat (Z.of_nat (List.length s1) + Z.of_nat (List.length s2)))
    with (List.length (s1 ++ s2)) by (rewrite length_app; lia).
  rewrite !Nat2Z.id, !firstn_all, hysteresis_loop_app. cbn [fst snd].
  rewrite set_trigger_state_twice.
  rewrite trigger_settings_kept, trigger_state_set.
  rewrite (hysteresis_loop_shift _ _ _ s2 0 (Z.of_nat (List.length s1))).
  rewrite (hysteresis_state_shift _ _ _ s2 (0 + Z.of_nat (List.length s1)) 0).
  reflexivity.
Qed.

Section AnalogChunks.

Context {H : Header}.

Lemma analog_loop_app (b : block) (chan : channel_setting_t)
    (s1 s2 : list IEEE.float) (ts : Z) :
  analog_loop b chan 0 (s1 ++ s2) ts
  = (fst (analog_loop b chan 0 s1 ts)
       ++ map (Z.add (Z.of_nat (List.length s1)))
            (fst (analog_loop b chan 0 s2 (snd (analog_loop b chan 0 s1 ts)))),
     snd (analog_loop b chan 0 s2 (snd (analog_loop b chan 0 s1 ts)))).
Proof.
  unfold analog_loop.
  destruct (is_rising_or_high (direction (d_trigger_settings b)));
    rewrite ?analog_rising_loop_hysteresis, ?analog_falling_loop_hysteresis,
      hysteresis_loop_app;
    rewrite (hysteresis_loop_shift _ _ _ s2 0 (Z.of_nat (List.length s1)));
    rewrite (hysteresis_state_shift _ _ _ s2 (0 + Z.of_nat (List.length s1)) 0);
    reflexivity.
Qed.

Lemma convert_to_aichan_idx_any_state (id : string) (b s : block) (idx : Z) :
  convert_to_aichan_idx id b = Ok idx b -> convert_to_aichan_idx id s = Ok idx s.
Proof.
  unfold convert_to_aichan_idx. destruct id as [|c [|c' id']]; try discriminate.
  destruct (_ || _); [discriminate|]. now intros [= <-].
Qed.

(** [find_analog_triggers] when it does not run the loop. *)
Lemma find_analog_triggers_skip (samples : list IEEE.float) (nsamples : Z) (b : block) :
  0 <= nsamples ->
  negb (is_enabled (d_trigger_settings b)) || (nsamples =? 0) = true ->
  find_analog_triggers samples nsamples b = Ok [] b.
Proof.
  intros Hn Hskip. unfold find_analog_triggers, bind, gets, assert.
  destruct (Z.geb_spec nsamples 0); [|lia]. now rewrite Hskip.
Qed.

(** [find_analog_triggers] when it runs the loop. *)
Lemma find_analog_triggers_loop (samples : list IEEE.float) (nsamples : Z)
    (b b' : block) (offs : list Z) :
  find_analog_triggers samples nsamples b = Ok offs b' ->
  negb (is_enabled (d_trigger_settings b)) || (nsamples =? 0) = false ->
  exists aichan chan,
    convert_to_aichan_idx (source (d_trigger_settings b)) b = Ok aichan b
    /\ index (d_channel_settings b) aichan b = Ok chan b
    /\ is_analog (d_trigger_settings b) = true
    /\ 0 < nsamples <= Z.of_nat (List.length samples)
    /\ let r := analog_loop b chan 0 (firstn (Z.to_nat nsamples) samples)
                  (d_trigger_state b) in
       offs = fst r /\ b' = b <| d_trigger_state := snd r |>.
Proof.
  intros Hrun Hskip.
  unfold find_analog_triggers in Hrun.
  unfold bind, gets, assert, ret, modify in Hrun.
  destruct (Z.geb_spec nsamples 0) as [Hn|]; [|discriminate].
  rewrite Hskip in Hrun.
  apply orb_false_elim in Hskip. destruct Hskip as [_ Hz].
  apply Z.eqb_neq in Hz.
  destruct (is_analog (d_trigger_settings b)); [|discriminate].
  destruct (convert_to_aichan_idx _ b) as [aichan s0| | | |] eqn:Hconv;
    try discriminate.
  pose proof (convert_to_aichan_idx_ok _ _ _ _ Hconv) as [-> _].
  exists aichan.
  unfold analog_loop.
  destruct (is_rising_or_high (direction (d_trigger_settings b)));
    (destruct (index (d_channel_settings b) aichan b) as [chan s1| | | |] eqn:Hix;
       try discriminate;
     pose proof (index_ok _ _ _ _ _ Hix) as (-> & _ & _);
     destruct (window samples nsamples b) as [w s2| | | |] eqn:Hw; try discriminate;
     apply window_ok in Hw; destruct Hw as (-> & Hlen & ->);
     exists chan;
     match type of Hrun with context [let '(_, _) := ?l in _] =>
       destruct l as [o t] end;
     apply Ok_inj in Hrun; destruct Hrun as [<- <-];
     repeat split; try assumption; lia).
Qed.

Lemma find_analog_triggers_run (samples : list IEEE.float) (nsamples : Z)
    (b : block) (aichan : Z) (chan : channel_setting_t) :
  convert_to_aichan_idx (source (d_trigger_settings b)) b = Ok aichan b ->
  index (d_channel_settings b) aichan b = Ok chan b ->
  is_analog (d_trigger_settings b) = true ->
  is_enabled (d_trigger_settings b) = true ->
  0 < nsamples <= Z.of_nat (List.length samples) ->
  let r := analog_loop b chan 0 (firstn (Z.to_nat nsamples) samples)
             (d_trigger_state b) in
  find_analog_triggers samples nsamples b
  = Ok (fst r) (b <| d_trigger_state := snd r |>).
Proof.
  intros Hconv Hix Han Hen Hn r. subst r.
  unfold find_analog_triggers, analog_loop.
  unfold bind, gets, assert, ret, modify, window.
  destruct (Z.geb_spec nsamples 0); [|lia].
  rewrite Hen. cbn [negb orb].
  destruct (Z.eqb_spec nsamples 0); [lia|].
  rewrite Han, Hconv. cbv beta.
  destruct (Z.ltb_spec (Z.of_nat (List.length samples)) nsamples); [lia|].
  destruct (is_rising_or_high (direction (d_trigger_settings b)));
    rewrite Hix; unfold ret; cbv beta iota;
    match goal with |- context [match ?l with pair _ _ => _ end] =>
      destruct l as [o t] end; reflexivity.
Qed.

Lemma analog_loop_same_settings (b : block) (t : Z) :
  analog_loop (b <| d_trigger_state := t |>) = analog_loop b.
Proof. now destruct b. Qed.

Lemma channel_settings_kept (b : block) (t : Z) :
  d_channel_settings (b <| d_trigger_state := t |>) = d_channel_settings b.
Proof. now destruct b. Qed.

Lemma index_any_state {S A} (l : list A) (i : Z) (s s' : S) (a : A) :
  index l i s = Ok a s -> index l i s' = Ok a s'.
Proof.
  unfold index. destruct (_ || _); [discriminate|].
  destruct (nth_error l (Z.to_nat i)); [|discriminate]. now intros [= <-].
Qed.

Lemma map_add_zero (l : list Z) : map (Z.add 0) l = l.
Proof. induction l as [|x r IH]; cbn; [reflexivity|]. now rewrite IH. Qed.

(** X12.  The same for the analog detector, hysteresis included: two calls
    of [find_analog_triggers] on two buffers in a row, the second starting
    in the state the first left, report what one call on the joined buffer
    reports (the second buffer's offsets shifted), and leave the same
    state. *)
Theorem find_analog_triggers_chunks :
  forall (s1 s2 : list IEEE.float) (b b1 b2 : block) (o1 o2 : list Z),
    let n1 := Z.of_nat (List.length s1) in
    let n2 := Z.of_nat (List.length s2) in
    find_analog_triggers s1 n1 b = Ok o1 b1 ->
    find_analog_triggers s2 n2 b1 = Ok o2 b2 ->
    find_analog_triggers (s1 ++ s2) (n1 + n2) b
    = Ok (o1 ++ map (Z.add n1) o2) b2.
Proof.
  intros s1 s2 b b1 b2 o1 o2 n1 n2 H1 H2.
  destruct (negb (is_enabled (d_trigger_settings b)) || (n1 =? 0)) eqn:Hskip1.
  - (* the first call did nothing *)
    rewrite find_analog_triggers_skip in H1 by (assumption || lia).
    apply Ok_inj in H1. destruct H1 as [<- <-].
    cbn [app].
    destruct (negb (is_enabled (d_trigger_settings b))) eqn:Hen.
    + rewrite find_analog_triggers_skip in H2
        by (lia || (rewrite Hen; reflexivity)).
      apply Ok_inj in H2. destruct H2 as [<- <-].
      apply find_analog_triggers_skip; [lia|now rewrite Hen].
    + cbn [orb] in Hskip1. apply Z.eqb_eq in Hskip1.
      assert (s1 = []) by (destruct s1; [reflexivity|cbn in *; lia]).
      subst s1. rewrite Hskip1, map_add_zero. exact H2.
  - destruct (n2 =? 0) eqn:Hz2.
    + (* the second call did nothing *)
      rewrite find_analog_triggers_skip in H2
        by (lia || (rewrite Hz2; apply orb_true_r)).
      apply Ok_inj in H2. destruct H2 as [<- <-].
      apply Z.eqb_eq in Hz2.
      assert (s2 = []) by (destruct s2; [reflexivity|cbn in *; lia]).
      subst s2. rewrite Hz2, Z.add_0_r, !app_nil_r. exact H1.
    + pose proof Hskip1 as Hen. apply orb_false_elim in Hen.
      destruct Hen as [Hen _]. apply negb_false_iff in Hen.
      destruct (find_analog_triggers_loop _ _ _ _ _ H1 Hskip1)
        as (aichan & chan & Hconv & Hix & Han & Hn1 & Hr1).
      cbv zeta in Hr1. destruct Hr1 as [-> ->].
      assert (Hskip2 : negb (is_enabled (d_trigger_settings
                               (b <| d_trigger_state :=
                                  snd (analog_loop b chan 0
                                         (firstn (Z.to_nat n1) s1)
                                         (d_trigger_state b)) |>)))
                       || (n2 =? 0) = false).
      { rewrite trigger_settings_kept, Hen, Hz2. reflexivity. }
      destruct (find_analog_triggers_loop _ _ _ _ _ H2 Hskip2)
        as (aichan' & chan' & Hconv' & Hix' & _ & Hn2 & Hr2).
      cbv zeta in Hr2. destruct Hr2 as [-> ->].
      rewrite trigger_settings_kept in Hconv'.
      rewrite (convert_to_aichan_idx_any_state _ _ _ _ Hconv) in Hconv'.
      apply Ok_inj in Hconv'. destruct Hconv' as [<- _].
      rewrite channel_settings_kept in Hix'.
      rewrite (index_any_state _ _ _ _ _ Hix) in Hix'.
      apply Ok_inj in Hix'. destruct Hix' as [<- _].
      rewrite (find_analog_triggers_run _ _ _ aichan chan Hconv Hix Han Hen)
        by (rewrite length_app; lia).
      cbv zeta. subst n1 n2.
      replace (Z.to_nat (Z.of_nat (List.length s1) + Z.of_nat (List.length s2)))
        with (List.length (s1 ++ s2)) by (rewrite length_app; lia).
      rewrite !Nat2Z.id, !firstn_all, analog_loop_app. cbn [fst snd].
      rewrite set_trigger_state_twice, analog_loop_same_settings,
        trigger_state_set.
      reflexivity.
Qed.

End AnalogChunks.

Section NeverThrows.

Context {S : Type}.

Lemma never_throws_ret {A} (a : A) : never_throws (@ret S A a).
Proof. intros s e s'. discriminate. Qed.

Lemma never_throws_undefined {A} : never_throws (@undefined S A).
Proof. intros s e s'. discriminate. Qed.

Lemma never_throws_blocked {A} : never_throws (@blocked S A).
Proof. intros s e s'. discriminate. Qed.

Lemma never_throws_get : never_throws (@get S).
Proof. intros s e s'. discriminate. Qed.

Lemma never_throws_gets {A} (f : S -> A) : never_throws (gets f).
Proof. intros s e s'. discriminate. Qed.

Lemma never_throws_modify (f : S -> S) : never_throws (modify f).
Proof. intros s e s'. discriminate. Qed.

Lemma never_throws_assert (c : bool) : never_throws (@assert S c).
Proof. intros s e s'. unfold assert. destruct c; discriminate. Qed.

Lemma never_throws_index {A} (l : list A) (i : Z) : never_throws (@index S A l i).
Proof.
  intros s e s'. unfold index. destruct (_ || _); [discriminate|].
  destruct (nth_error l (Z.to_nat i)); discriminate.
Qed.

Lemma never_throws_bind {A B} (m : M S A) (k : A -> M S B) :
  never_throws m -> (forall a, never_throws (k a)) -> never_throws (bind m k).
Proof.
  intros Hm Hk s e s'. unfold bind. specialize (Hm s).
  destruct (m s) as [a s1|e1 s1| | |]; try discriminate.
  - apply Hk.
  - exfalso. now apply (Hm e1 s1).
Qed.

Lemma never_throws_if {A} (c : bool) (m1 m2 : M S A) :
  never_throws m1 -> never_throws m2 -> never_throws (if c then m1 else m2).
Proof. now destruct c. Qed.

Lemma never_throws_try_catch {A} (m h : M S A) :
  never_throws h -> never_throws (try_catch m h).
Proof.
  intros Hh s e s'. unfold try_catch.
  destruct (m s) as [a s1|e1 s1| | |]; try discriminate. apply Hh.
Qed.

Lemma never_throws_c_for {V} (cond : V -> bool) (body : V -> M S V) (fuel : nat) :
  (forall v, never_throws (body v)) ->
  forall v, never_throws (c_for fuel cond body v).
Proof.
  intros Hbody. induction fuel as [|fuel IH]; intros v; cbn [c_for].
  - apply never_throws_ret.
  - apply never_throws_if; [|apply never_throws_ret].
    apply never_throws_bind; [apply Hbody|exact IH].
Qed.

Lemma never_throws_for_upto {A} (n : Z) (body : Z -> A -> M S A) (a : A) :
  (forall i x, never_throws (body i x)) -> never_throws (for_upto n body a).
Proof.
  intros Hbody. unfold for_upto.
  apply never_throws_bind; [|intros; apply never_throws_ret].
  apply never_throws_c_for. intros v.
  apply never_throws_bind; [apply Hbody|intros; apply never_throws_ret].
Qed.

End NeverThrows.

Ltac never_throws_step :=
  lazymatch goal with
  | |- never_throws (ret _) => apply never_throws_ret
  | |- never_throws undefined => apply never_throws_undefined
  | |- never_throws blocked => apply never_throws_blocked
  | |- never_throws get => apply never_throws_get
  | |- never_throws (gets _) => apply never_throws_gets
  | |- never_throws (assert _) => apply never_throws_assert
  | |- never_throws (index _ _) => apply never_throws_index
  | |- never_throws (add_error_code _) => apply never_throws_modify
  | |- never_throws (add_item_tag _ _) => apply never_throws_modify
  | |- never_throws (call_driver _) => apply never_throws_modify
  | |- never_throws (modify _) => apply never_throws_modify
  | |- never_throws (try_catch _ _) => apply never_throws_try_catch
  | |- never_throws (c_for _ _ _ _) => apply never_throws_c_for; intro
  | |- never_throws (for_upto _ _ _) => apply never_throws_for_upto; intros
  | |- never_throws (bind _ _) => apply never_throws_bind; [|intro]
  | |- never_throws (if _ then _ else _) => apply never_throws_if
  | |- never_throws (match ?x with _ => _ end) => destruct x
  | |- never_throws (let '(_, _) := ?x in _) => destruct x
  | |- never_throws (let _ := _ in _) => cbv zeta
  end.

Section RapidBlockSafety.

Context {H : Header}.

Lemma never_throws_disarm (w : world) : never_throws (disarm w).
Proof. unfold disarm, transit_poll_thread_to_idle. repeat never_throws_step. Qed.

Lemma never_throws_wait_data_ready (w : world) : never_throws (wait_data_ready w).
Proof. unfold wait_data_ready, notify_data_ready. repeat never_throws_step. Qed.

Lemma never_throws_rapid_block_waiting (w : world) :
  never_throws (rapid_block_waiting w).
Proof.
  unfold rapid_block_waiting, clear_data_ready.
  repeat first [ apply never_throws_disarm | apply never_throws_wait_data_ready
               | never_throws_step ].
Qed.

Lemma never_throws_rapid_block_part1 (w : world) (n : Z) :
  never_throws (rapid_block_part1 w n).
Proof. unfold rapid_block_part1. repeat never_throws_step. Qed.

Lemma never_throws_rapid_block_the_rest (w : world) (n : Z) :
  never_throws (rapid_block_the_rest w n).
Proof. unfold rapid_block_the_rest. repeat never_throws_step. Qed.

Lemma never_throws_work_rapid_block (w : world) (n : Z) :
  never_throws (work_rapid_block w n).
Proof.
  unfold work_rapid_block.
  repeat first [ apply never_throws_rapid_block_waiting
               | apply never_throws_rapid_block_part1
               | apply never_throws_rapid_block_the_rest
               | never_throws_step ].
Qed.

(** X13.  In RAPID_BLOCK mode no exception leaves [work]: the [arm] of the
    auto-arm path is inside a try block, [disarm] only logs a driver error,
    and the driver's errors come back as return values. *)
Theorem work_rapid_block_never_throws :
  forall (w : world) (noutput_items : Z) (b b' : block) (e : exn),
    d_acquisition_mode b = RAPID_BLOCK ->
    work w noutput_items b <> Throw e b'.
Proof.
  intros w n b b' e Hmode.
  assert (Hw : never_throws
            (retval <- work_rapid_block w n ;;
             b <- get ;;
             (if (retval >? 0) && negb (d_timebase_published b) then
                let timebase_tag :=
                  {| tag_offset := nitems_written0 b;
                     value := timebase_info_tag (get_timebase_with_downsampling b) |} in
                _ <- for_upto (output_items_size w)
                       (fun i (_ : unit) => add_item_tag i timebase_tag) tt ;;
                modify (fun b => b <| d_timebase_published := true |>)
              else ret tt) ;;
             ret retval)).
  { repeat first [ apply never_throws_work_rapid_block | never_throws_step ]. }
  unfold work. unfold bind at 1, get at 1. rewrite Hmode. apply Hw.
Qed.

End RapidBlockSafety.

Lemma returns_bind_with {A B} (m : blk B) (k : B -> blk A) (Q : B -> Prop)
    (P : A -> Prop) :
  returns m Q -> (forall x, Q x -> returns (k x) P) -> returns (bind m k) P.
Proof.
  intros Hm Hk b a b' Hrun. apply bind_Ok in Hrun.
  destruct Hrun as (x & b1 & Hx & Hka). eapply Hk; [|exact Hka]. eapply Hm; exact Hx.
Qed.

Lemma returns_weaken {A} (m : blk A) (P Q : A -> Prop) :
  (forall a, P a -> Q a) -> returns m P -> returns m Q.
Proof. intros HPQ Hm b a b' Hrun. apply HPQ. eapply Hm; exact Hrun. Qed.

Lemma returns_try_catch {A} (m h : blk A) (P : A -> Prop) :
  returns m P -> returns h P -> returns (try_catch m h) P.
Proof.
  intros Hm Hh b a b' Hrun. unfold try_catch in Hrun.
  destruct (m b) as [a1 b1|e b1| | |] eqn:Hmb; try discriminate.
  - injection Hrun as <- <-. eapply Hm; exact Hmb.
  - eapply Hh; exact Hrun.
Qed.

Ltac returns_step :=
  lazymatch goal with
  | |- returns (ret _) _ => apply returns_ret
  | |- returns (try_catch _ _) _ => apply returns_try_catch
  | |- returns (bind _ _) _ => apply returns_bind; intro
  | |- returns (if _ then _ else _) _ => apply returns_if
  | |- returns (match ?x with _ => _ end) _ => destruct x
  | |- returns (let _ := _ in _) _ => cbv zeta
  end.

Section Produced.

Context {H : Header}.

Lemma rapid_block_waiting_returns (w : world) :
  returns (rapid_block_waiting w)
    (fun r => r = None \/ r = Some 0 \/ r = Some (-1)).
Proof.
  unfold rapid_block_waiting.
  apply returns_bind. intros b.
  apply returns_if; [apply returns_ret; auto|].
  apply (returns_bind_with _ _ (fun r => r = None \/ r = Some (-1))).
  - repeat returns_step; auto.
  - intros r [->| ->]; repeat returns_step; auto.
Qed.

Lemma rapid_block_part1_returns (w : world) (n : Z) :
  0 <= n -> returns (rapid_block_part1 w n) (fun r => r <= n).
Proof.
  intros Hn. unfold rapid_block_part1. repeat returns_step; lia.
Qed.

Lemma rapid_block_the_rest_returns (w : world) (n : Z) :
  0 <= n -> returns (rapid_block_the_rest w n) (fun r => r <= n).
Proof.
  intros Hn. unfold rapid_block_the_rest. repeat returns_step; lia.
Qed.

Lemma work_rapid_block_returns (w : world) (n : Z) :
  0 <= n -> returns (work_rapid_block w n) (fun r => r <= n).
Proof.
  intros Hn. unfold work_rapid_block.
  apply returns_bind. intros b.
  apply (returns_bind_with _ _ (fun r => r = None \/ r = Some 0 \/ r = Some (-1))).
  - apply returns_if; [apply rapid_block_waiting_returns|].
    apply returns_ret. now left.
  - intros r [-> | [-> | ->]].
    + apply returns_bind. intros b1.
      destruct (state (d_bstate b1)).
      * apply returns_ret. lia.
      * now apply rapid_block_part1_returns.
      * now apply rapid_block_the_rest_returns.
    + apply returns_ret. lia.
    + apply returns_ret. lia.
Qed.

(** X14.  In RAPID_BLOCK mode [work] never returns more than
    [noutput_items] ([noutput_items] not negative): what it returns is -1,
    0, or the count it cut to [noutput_items] and to the samples left of the
    waveform.  (In STREAMING mode the code only asserts that the buffer
    fits.) *)
Theorem rapid_block_never_overproduces :
  forall (w : world) (noutput_items : Z) (b b' : block) (r : Z),
    d_acquisition_mode b = RAPID_BLOCK ->
    0 <= noutput_items ->
    work w noutput_items b = Ok r b' ->
    r <= noutput_items.
Proof.
  intros w n b b' r Hmode Hn Hrun.
  destruct (work_returns_retval _ _ _ _ _ Hrun) as [b1 Hret].
  rewrite Hmode in Hret.
  eapply work_rapid_block_returns; [exact Hn|exact Hret].
Qed.

End Produced.

Lemma skipn_nth_error {A} (l : list A) :
  forall i c, nth_error l i = Some c -> skipn i l = c :: skipn (Datatypes.S i) l.
Proof.
  induction l as [|x r IH]; intros [|i] c Hc; cbn in *; try discriminate.
  - now injection Hc as ->.
  - now apply IH.
Qed.

Lemma count_enabled_cons {A} (is_on : A -> bool) (c : A) (l : list A) :
  count_enabled is_on (c :: l)
  = (if is_on c then 1 else 0) + count_enabled is_on l.
Proof.
  unfold count_enabled. cbn [filter]. destruct (is_on c); cbn [List.length]; lia.
Qed.

(** The counting loops of [arm]. *)
Lemma counting_loop {S A} (is_on : A -> bool) (l : list A) (n : Z) (s : S) :
  n <= Z.of_nat (List.length l) ->
  forall (k : nat) (i acc : Z),
    0 <= i -> Z.of_nat k = n - i ->
    c_for k (fun v => fst v <? n)
      (fun v => a' <- (c <- index l (fst v) ;;
                       ret (if is_on c then snd v + 1 else snd v)) ;;
                ret (fst v + 1, a')) (i, acc) s
    = Ok (n, acc + count_enabled is_on (skipn (Z.to_nat i) l)
                 - count_enabled is_on (skipn (Z.to_nat n) l)) s.
Proof.
  intros Hn. induction k as [|k IH]; intros i acc Hi Hk.
  - cbn [c_for]. assert (i = n) by lia. subst i. unfold ret. f_equal. f_equal; lia.
  - cbn [c_for fst snd].
    destruct (Z.ltb_spec i n); [|lia].
    destruct (nth_error l (Z.to_nat i)) as [c|] eqn:Hc.
    2:{ apply nth_error_None in Hc. lia. }
    unfold bind at 1 2 3. unfold index.
    destruct (Z.ltb_spec i 0); [lia|].
    destruct (Z.leb_spec (Z.of_nat (List.length l)) i); [lia|].
    cbn [orb]. rewrite Hc. cbn [ret].
    rewrite IH by lia.
    rewrite (skipn_nth_error _ _ _ Hc), count_enabled_cons.
    replace (Z.to_nat (i + 1)) with (Datatypes.S (Z.to_nat i)) by lia.
    f_equal. f_equal. destruct (is_on c); lia.
Qed.

Lemma count_enabled_firstn_skipn {A} (is_on : A -> bool) (l : list A) (n : nat) :
  count_enabled is_on l
  = count_enabled is_on (firstn n l) + count_enabled is_on (skipn n l).
Proof.
  unfold count_enabled. rewrite <- (firstn_skipn n l) at 1.
  rewrite filter_app, length_app. lia.
Qed.

Lemma for_upto_count {S A} (is_on : A -> bool) (l : list A) (n : Z) (s : S) :
  n <= Z.of_nat (List.length l) ->
  for_upto n (fun i acc => c <- index l i ;;
                           ret (if is_on c then acc + 1 else acc)) 0 s
  = Ok (count_enabled is_on (firstn (Z.to_nat n) l)) s.
Proof.
  intros Hn. unfold for_upto. unfold bind at 1.
  destruct (Z.le_gt_cases 0 n) as [Hpos|Hneg].
  - rewrite (counting_loop is_on l n s Hn (Z.to_nat n) 0 0) by lia.
    change (Z.to_nat 0) with 0%nat. cbn [skipn snd]. unfold ret.
    rewrite (count_enabled_firstn_skipn is_on l (Z.to_nat n)). f_equal. lia.
  - replace (Z.to_nat n) with 0%nat by lia. reflexivity.
Qed.

Section ArmDisarm.

Context {H : Header}.

Lemma count_enabled_channels_value (b s : block) :
  d_ai_channels b <= Z.of_nat (List.length (d_channel_settings b)) ->
  count_enabled_channels b s
  = Ok (count_enabled enabled
          (firstn (Z.to_nat (d_ai_channels b)) (d_channel_settings b))) s.
Proof. intros Hn. unfold count_enabled_channels. now apply for_upto_count. Qed.

Lemma count_enabled_ports_value (b s : block) :
  d_ports b <= Z.of_nat (List.length (d_port_settings b)) ->
  count_enabled_ports b s
  = Ok (count_enabled port_enabled
          (firstn (Z.to_nat (d_ports b)) (d_port_settings b))) s.
Proof. intros Hn. unfold count_enabled_ports. now apply for_upto_count. Qed.

End ArmDisarm.

Lemma fold_left_count_enabled {A} (is_on : A -> bool) (l : list A) :
  fold_left (fun count c => count + Z.b2z (is_on c)) l 0 = count_enabled is_on l.
Proof.
  induction l as [|x r IH]; [reflexivity|].
  cbn [fold_left]. rewrite fold_left_count_shift, IH, count_enabled_cons.
  destruct (is_on x); reflexivity.
Qed.

Lemma count_enabled_firstn_le {A} (is_on : A -> bool) (l : list A) (n : nat) :
  0 <= count_enabled is_on (firstn n l) <= count_enabled is_on l.
Proof.
  rewrite (count_enabled_firstn_skipn is_on l n). unfold count_enabled. lia.
Qed.

Section ArmDisarm2.

Context {H : Header}.

Lemma same_configuration_refl (b : block) : same_configuration b b.
Proof. repeat split. Qed.

(** X15.  [disarm] never throws, and it returns unless it has to wait for
    a poller thread that is not there: on a block armed in STREAMING mode
    whose poller is not in state EXIT and whose [d_poller] holds no thread,
    [disarm] never returns.  Everywhere else it returns, and the block is
    then not armed, with the configuration it had: on a block that is not
    armed it does nothing; on an armed block it calls [driver_disarm] once
    and, when the driver reports an error, records the code and disarms all
    the same.  A second [disarm] does nothing. *)
Theorem disarm_disarms_or_waits_forever :
  forall (w : world) (b : block),
    (waits_for_missing_poller b = true -> disarm w b = Blocked)
    /\ (waits_for_missing_poller b = false ->
        exists b',
          disarm w b = Ok tt b'
          /\ is_armed b' = false
          /\ same_configuration b b'
          /\ (is_armed b = false -> b' = b)
          /\ (is_armed b = true ->
              driver_calls b'
              = driver_calls b ++ [call_driver_disarm (driver_disarm w)]
              /\ d_errors b' = (if ec_set (driver_disarm w)
                                then push_error (driver_disarm w) (d_errors b)
                                else d_errors b))
          /\ (forall w', disarm w' b' = Ok tt b')).
Proof.
  intros w b.
  unfold waits_for_missing_poller, is_streaming, is_armed, disarm,
    transit_poll_thread_to_idle.
  unfold bind, get, modify, call_driver, add_error_code, ret, blocked.
  destruct (d_armed b) eqn:Harmed; cbn [negb andb].
  - destruct (d_acquisition_mode b) eqn:Hmode, (d_poller_state b) eqn:Hpoller,
      (d_poller_joinable b) eqn:Hjoin, (ec_set (driver_disarm w)) eqn:Hec;
      destruct b; cbn in *; subst; unfold constant; cbn;
      rewrite ?Hec; cbn;
      (split; [try discriminate; try reflexivity|]); try discriminate;
      intros _; eexists; (split; [reflexivity|]); cbn;
      repeat split; try reflexivity; discriminate.
  - split; [discriminate|]. intros _.
    eexists. split; [reflexivity|]. rewrite Harmed.
    repeat split; try reflexivity; discriminate.
Qed.

(** X16.  [arm] on a block that is not armed ([d_ai_channels] and
    [d_ports] within the settings arrays).  When the driver refuses, [arm]
    throws "arm failed: ..." with the code recorded and the block still not
    armed.  When the driver arms, the block is armed,
    [d_timebase_published] is cleared, the poller is set RUNNING in
    STREAMING mode only, no error is recorded, the configuration is
    untouched, and the pointer vectors are sized by the enabled channels and
    ports among the first [d_ai_channels] and [d_ports], which is at most
    what [get_enabled_aichan_count] and [get_enabled_diport_count] count
    over the whole arrays.  Armed, another [arm] does nothing. *)
Theorem arm_all_or_nothing :
  forall (w : world) (b : block),
    is_armed b = false ->
    d_ai_channels b <= Z.of_nat (List.length (d_channel_settings b)) ->
    d_ports b <= Z.of_nat (List.length (d_port_settings b)) ->
    let ec := driver_arm w in
    (ec_set ec = true ->
       arm w b = Throw (runtime_error ("arm failed: " ++ to_string ec)%string)
                   (b <| driver_calls ::= fun l => l ++ [call_driver_arm ec] |>
                      <| d_errors ::= push_error ec |>))
    /\ (ec_set ec = false ->
        exists b',
          arm w b = Ok tt b'
          /\ is_armed b' = true
          /\ d_timebase_published b' = false
          /\ driver_calls b' = driver_calls b ++ [call_driver_arm ec]
          /\ d_errors b' = d_errors b
          /\ d_poller_state b'
             = (if acquisition_mode_eqb (d_acquisition_mode b) STREAMING
                then RUNNING else d_poller_state b)
          /\ ai_buffers_size b'
             = count_enabled enabled
                 (firstn (Z.to_nat (d_ai_channels b)) (d_channel_settings b))
          /\ port_buffers_size b'
             = count_enabled port_enabled
                 (firstn (Z.to_nat (d_ports b)) (d_port_settings b))
          /\ ai_buffers_size b' <= get_enabled_aichan_count b'
          /\ port_buffers_size b' <= get_enabled_diport_count b'
          /\ same_configuration b b'
          /\ (forall w', arm w' b' = Ok tt b')).
Proof.
  intros w b Harmed Hai Hdi ec. unfold is_armed in Harmed. split; intros Hec.
  - unfold arm. unfold bind at 1, get at 1. rewrite Harmed.
    unfold bind at 1, call_driver at 1, modify at 1. fold ec. rewrite Hec.
    reflexivity.
  - unfold arm. unfold bind at 1, get at 1. rewrite Harmed.
    unfold bind at 1, call_driver at 1, modify at 1. fold ec. rewrite Hec.
    do 3 (unfold bind at 1, modify at 1).
    unfold bind at 1, get at 1.
    match goal with |- context [d_acquisition_mode ?x] =>
      replace (d_acquisition_mode x) with (d_acquisition_mode b)
        by (destruct b; reflexivity) end.
    unfold bind at 1.
    assert (Hcount : forall (b1 : block) (k : unit -> blk unit) (r : block),
              d_ai_channels b1 = d_ai_channels b ->
              d_ports b1 = d_ports b ->
              d_channel_settings b1 = d_channel_settings b ->
              d_port_settings b1 = d_port_settings b ->
              r = b1 <| ai_buffers_size :=
                         count_enabled enabled
                           (firstn (Z.to_nat (d_ai_channels b)) (d_channel_settings b)) |>
                     <| port_buffers_size :=
                         count_enabled port_enabled
                           (firstn (Z.to_nat (d_ports b)) (d_port_settings b)) |> ->
              (b0 <- get ;;
               num_enabled_ai_channels <- count_enabled_channels b0 ;;
               num_enabled_di_ports <- count_enabled_ports b0 ;;
               modify (fun b => b <| ai_buffers_size := num_enabled_ai_channels |>) ;;
               modify (fun b => b <| port_buffers_size := num_enabled_di_ports |>)) b1
              = Ok tt r).
    { intros b1 k r H1 H2 H3 H4 ->. unfold bind at 1, get at 1.
      unfold bind at 1. rewrite count_enabled_channels_value by (rewrite H1, H3; exact Hai).
      unfold bind at 1. rewrite count_enabled_ports_value by (rewrite H2, H4; exact Hdi).
      rewrite H1, H2, H3, H4. reflexivity. }
    rewrite <- !fold_left_count_enabled.
    destruct (d_acquisition_mode b) eqn:Hmode; cbn [acquisition_mode_eqb ret];
      unfold transit_poll_thread_to_running, modify;
      (erewrite Hcount; [|exact (fun _ => ret tt)|try (destruct b; reflexivity)..]);
      eexists; (split; [reflexivity|]).
    all: rewrite ?fold_left_count_enabled.
    all: pose proof (count_enabled_firstn_le enabled (d_channel_settings b)
                       (Z.to_nat (d_ai_channels b))) as Hle1.
    all: pose proof (count_enabled_firstn_le port_enabled (d_port_settings b)
                       (Z.to_nat (d_ports b))) as Hle2.
    all: unfold get_enabled_aichan_count, get_enabled_diport_count, is_armed.
    all: rewrite !fold_left_count_enabled.
    all: destruct b; cbn in *; unfold constant; subst.
    all: repeat split; try reflexivity; try lia.
Qed.

End ArmDisarm2.

Lemma bind_Ok_inv {S A B} (m : M S A) (k : A -> M S B) (s s' : S) (r : B) :
  bind m k s = Ok r s' -> exists a s1, m s = Ok a s1 /\ k a s1 = Ok r s'.
Proof.
  unfold bind. destruct (m s) as [a s1|e s1| | |]; try discriminate.
  intros Hk. now exists a, s1.
Qed.

Lemma bind_Throw_inv {S A B} (m : M S A) (k : A -> M S B) (s s' : S) (e : exn) :
  bind m k s = Throw e s' ->
  m s = Throw e s' \/ exists a s1, m s = Ok a s1 /\ k a s1 = Throw e s'.
Proof.
  unfold bind. destruct (m s) as [a s1|e1 s1| | |]; try discriminate.
  - intros Hk. right. now exists a, s1.
  - intros [= <- <-]. now left.
Qed.

Lemma bind_run_any {S A B} (m : M S A) (k : A -> M S B) (s s1 : S) (a : A) :
  m s = Ok a s1 -> bind m k s = k a s1.
Proof. unfold bind. now intros ->. Qed.

Lemma bind_get_any {S B} (k : S -> M S B) (s : S) : bind get k s = k s s.
Proof. reflexivity. Qed.

Section StartStop.

Context {H : Header}.

(** What [initialize] does. *)
Lemma initialize_outcome (lw : lifecycle_world) (s : flowgraph_block) :
  let ec := driver_initialize lw in
  initialize lw s
  = if d_initialized (the_block s) then Ok tt s
    else if ec_set ec then
      Throw (runtime_error ("initialize failed: " ++ to_string ec)%string)
        (s <| lifecycle_calls ::= fun l => l ++ [call_driver_initialize ec] |>
           <| the_block ::= fun b => b <| d_errors ::= push_error ec |> |>)
    else
      Ok tt (s <| lifecycle_calls ::= fun l => l ++ [call_driver_initialize ec] |>
               <| the_block ::= fun b => b <| d_initialized := true |> |>).
Proof.
  cbv zeta. unfold initialize, bind, get, call_lifecycle, modify, on_block,
    add_error_code, throw.
  destruct (d_initialized (the_block s)); [reflexivity|].
  destruct (ec_set (driver_initialize lw)); destruct s; reflexivity.
Qed.

Lemma configure_outcome (lw : lifecycle_world) (s : flowgraph_block) :
  let ec := driver_configure lw in
  configure lw s
  = if negb (d_initialized (the_block s)) then
      Throw (runtime_error "initialize first") s
    else if d_armed (the_block s) then Throw (runtime_error "disarm first") s
    else if ec_set ec then
      Throw (runtime_error ("configure failed: " ++ to_string ec)%string)
        (s <| lifecycle_calls ::= fun l => l ++ [call_driver_configure ec] |>
           <| the_block ::= fun b => b <| d_errors ::= push_error ec |> |>)
    else
      Ok tt (s <| lifecycle_calls ::= fun l => l ++ [call_driver_configure ec] |>
               <| d_app_buffer := Some
                    {| layout_ai_channels := get_enabled_aichan_count (the_block s);
                       layout_di_ports := get_enabled_diport_count (the_block s);
                       layout_buffer_size := d_buffer_size (the_block s);
                       layout_nr_buffers := d_nr_buffers (the_block s) |} |>).
Proof.
  cbv zeta. unfold configure, bind, get, call_lifecycle, modify, on_block,
    add_error_code, throw.
  destruct (d_initialized (the_block s)); [|reflexivity]. cbn [negb].
  destruct (d_armed (the_block s)); [reflexivity|].
  destruct (ec_set (driver_configure lw)); destruct s; reflexivity.
Qed.

Lemma lifecycle_frame_refl (b : block) : lifecycle_frame b b.
Proof. repeat split. Qed.

Lemma lifecycle_frame_trans (b1 b2 b3 : block) :
  lifecycle_frame b1 b2 -> lifecycle_frame b2 b3 -> lifecycle_frame b1 b3.
Proof. unfold lifecycle_frame. intuition congruence. Qed.

Ltac lifecycle_leaf :=
  apply (preserves_modify _ lifecycle_frame_trans);
  let b := fresh "b" in intro b; destruct b; repeat split.

Lemma lifecycle_frame_arm_tail (w : world) :
  preserves (fun b0 b => lifecycle_frame b0 b /\ d_armed b = d_armed b0
                         /\ d_poller_joinable b = d_poller_joinable b0)
    (modify (fun b => b <| d_timebase_published := false |>) ;;
     modify (fun b => b <| d_was_last_callback_timestamp_taken := false |>) ;;
     b <- get ;;
     (if acquisition_mode_eqb (d_acquisition_mode b) STREAMING
      then transit_poll_thread_to_running else ret tt) ;;
     b <- get ;;
     num_enabled_ai_channels <- count_enabled_channels b ;;
     num_enabled_di_ports <- count_enabled_ports b ;;
     modify (fun b => b <| ai_buffers_size := num_enabled_ai_channels |>) ;;
     modify (fun b => b <| port_buffers_size := num_enabled_di_ports |>)).
Proof.
  assert (Htrans : forall b1 b2 b3 : block,
            (lifecycle_frame b1 b2 /\ d_armed b2 = d_armed b1
             /\ d_poller_joinable b2 = d_poller_joinable b1) ->
            (lifecycle_frame b2 b3 /\ d_armed b3 = d_armed b2
             /\ d_poller_joinable b3 = d_poller_joinable b2) ->
            lifecycle_frame b1 b3 /\ d_armed b3 = d_armed b1
            /\ d_poller_joinable b3 = d_poller_joinable b1).
  { intros b1 b2 b3 (H1 & H1' & H1'') (H2 & H2' & H2'').
    split; [|split; congruence].
    eapply lifecycle_frame_trans; eassumption. }
  unfold transit_poll_thread_to_running, count_enabled_channels, count_enabled_ports.
  repeat preserves_step
    ltac:(apply (preserves_modify _ Htrans);
          let b := fresh "b" in intro b; destruct b; repeat split).
Qed.

Lemma arm_tail_never_throws (w : world) :
  never_throws
    (modify (fun b => b <| d_timebase_published := false |>) ;;
     modify (fun b => b <| d_was_last_callback_timestamp_taken := false |>) ;;
     b <- get ;;
     (if acquisition_mode_eqb (d_acquisition_mode b) STREAMING
      then transit_poll_thread_to_running else ret tt) ;;
     b <- get ;;
     num_enabled_ai_channels <- count_enabled_channels b ;;
     num_enabled_di_ports <- count_enabled_ports b ;;
     modify (fun b => b <| ai_buffers_size := num_enabled_ai_channels |>) ;;
     modify (fun b => b <| port_buffers_size := num_enabled_di_ports |>)).
Proof.
  unfold transit_poll_thread_to_running, count_enabled_channels, count_enabled_ports.
  repeat never_throws_step.
Qed.

(** What [arm] leaves: armed when it returns, as it was when it throws. *)
Lemma arm_outcome (w : world) (b : block) :
  match arm w b with
  | Ok _ b' =>
      d_armed b' = true /\ lifecycle_frame b b'
      /\ d_poller_joinable b' = d_poller_joinable b
  | Throw e b' =>
      d_armed b = false
      /\ e = runtime_error ("arm failed: " ++ to_string (driver_arm w))%string
      /\ d_armed b' = false /\ lifecycle_frame b b'
  | AssertFail | Undefined | Blocked => True
  end.
Proof.
  unfold arm. unfold bind at 1, get at 1.
  destruct (d_armed b) eqn:Harmed.
  { split; [exact Harmed|]. split; [apply lifecycle_frame_refl|reflexivity]. }
  unfold bind at 1, call_driver at 1, modify at 1.
  destruct (ec_set (driver_arm w)).
  { cbn. repeat split; destruct b; try reflexivity; exact Harmed. }
  unfold bind at 1, modify at 1.
  match goal with |- match ?rest ?b1 with _ => _ end =>
    pose proof (lifecycle_frame_arm_tail w b1 b1
                  (conj (lifecycle_frame_refl b1) (conj eq_refl eq_refl))) as Hf;
    pose proof (arm_tail_never_throws w b1) as Hnt;
    unfold wp in Hf;
    assert (Hb1 : d_armed b1 = true /\ lifecycle_frame b b1
                  /\ d_poller_joinable b1 = d_poller_joinable b)
      by (destruct b; repeat split);
    destruct (rest b1) as [[] b'|e b'| | |] eqn:Hrest
  end.
  - destruct Hf as (Hf & Ha & Hj). destruct Hb1 as (Hb1 & Hfr & Hjb).
    split; [congruence|]. split; [|congruence].
    eapply lifecycle_frame_trans; eassumption.
  - exfalso. now apply (Hnt e b').
  - exact I.
  - exact I.
  - exact I.
Qed.

(** What [disarm] leaves, and when it does not return. *)
Lemma disarm_outcome (w : world) (b : block) :
  (waits_for_missing_poller b = true -> disarm w b = Blocked)
  /\ (waits_for_missing_poller b = false ->
      exists b',
        disarm w b = Ok tt b'
        /\ d_armed b' = false
        /\ lifecycle_frame b b'
        /\ same_configuration b b'
        /\ (d_armed b = false -> b' = b)
        /\ (d_armed b = true ->
            driver_calls b' = driver_calls b ++ [call_driver_disarm (driver_disarm w)]
            /\ d_errors b' = (if ec_set (driver_disarm w)
                              then push_error (driver_disarm w) (d_errors b)
                              else d_errors b))
        /\ d_poller_joinable b' = d_poller_joinable b).
Proof.
  unfold waits_for_missing_poller, is_streaming, disarm,
    transit_poll_thread_to_idle.
  unfold bind, get, modify, call_driver, add_error_code, ret, blocked.
  destruct (d_armed b) eqn:Harmed; cbn [negb andb].
  - destruct (d_acquisition_mode b) eqn:Hmode, (d_poller_state b) eqn:Hpoller,
      (d_poller_joinable b) eqn:Hjoin, (ec_set (driver_disarm w)) eqn:Hec;
      destruct b; cbn in *; subst; unfold constant; cbn;
      rewrite ?Hec; cbn;
      (split; [try discriminate; try reflexivity|]); try discriminate;
      intros _; eexists; (split; [reflexivity|]); cbn;
      repeat split; try reflexivity; discriminate.
  - split; [discriminate|]. intros _.
    eexists. split; [reflexivity|]. rewrite Harmed.
    repeat split; try reflexivity; discriminate.
Qed.

Lemma on_block_Ok {A} (m : blk A) (s : flowgraph_block) (a : A) (b' : block) :
  m (the_block s) = Ok a b' -> on_block m s = Ok a (s <| the_block := b' |>).
Proof. unfold on_block. now intros ->. Qed.

Lemma on_block_Blocked {A} (m : blk A) (s : flowgraph_block) :
  m (the_block s) = Blocked -> on_block m s = Blocked.
Proof. unfold on_block. now intros ->. Qed.

Lemma start_poll_thread_outcome (b : block) :
  exists b',
    start_poll_thread b = Ok tt b'
    /\ d_poller_joinable b' = true
    /\ lifecycle_frame b b'
    /\ d_armed b' = d_armed b.
Proof.
  unfold start_poll_thread, bind, get, modify.
  destruct (d_poller_joinable b) eqn:Hjoin; cbn [negb].
  - eexists. split; [reflexivity|]. repeat split. exact Hjoin.
  - eexists. split; [reflexivity|]. destruct b. repeat split.
Qed.

Lemma the_block_set (s : flowgraph_block) (b : block) :
  the_block (s <| the_block := b |>) = b
  /\ d_configure_exception_message (s <| the_block := b |>)
     = d_configure_exception_message s
  /\ d_app_buffer (s <| the_block := b |>) = d_app_buffer s
  /\ lifecycle_calls (s <| the_block := b |>) = lifecycle_calls s.
Proof. destruct s. repeat split. Qed.

Lemma message_set (s : flowgraph_block) (m : string) :
  the_block (s <| d_configure_exception_message := m |>) = the_block s
  /\ d_configure_exception_message (s <| d_configure_exception_message := m |>) = m.
Proof. destruct s. repeat split. Qed.

(** [start] from the call of [configure] on, on an initialized block. *)
Ltac run_post := cbv beta iota delta [bind modify ret start_post what].

Lemma start_after_initialize (lw : lifecycle_world) (s : flowgraph_block) :
  d_initialized (the_block s) = true ->
  start_post lw s
    (try_catch_exception
       (configure lw ;;
        on_block (modify (fun b => b <| d_was_triggered_once := false |>)) ;;
        on_block (modify (fun b => b <| d_data_rdy_errc := ec_none |>)) ;;
        on_block (modify (fun b => b <| d_data_rdy := false |>)) ;;
        s <- get ;;
        (if acquisition_mode_eqb (d_acquisition_mode (the_block s)) STREAMING
         then on_block start_poll_thread else ret tt) ;;
        s <- get ;;
        (if d_auto_arm (the_block s)
            && acquisition_mode_eqb (d_acquisition_mode (the_block s)) STREAMING
         then on_block (arm (arming lw)) else ret tt) ;;
        ret true)
       (fun ex =>
          modify (fun s => s <| d_configure_exception_message := what lw ex |>) ;;
          ret false) s).
Proof.
  intros Hinit. unfold try_catch_exception.
  unfold bind at 1. rewrite configure_outcome. cbv zeta. rewrite Hinit. cbn [negb].
  destruct (d_armed (the_block s)) eqn:Harmed.
  { run_post. unfold start_failed, is_armed.
    destruct (message_set s "disarm first") as [-> ->]. split; [now left|reflexivity]. }
  destruct (ec_set (driver_configure lw)).
  { run_post. unfold start_failed, is_armed. cbn [what].
    match goal with |- context [?x <| d_configure_exception_message := ?m |>] =>
      destruct (message_set x m) as [-> ->] end.
    split; [right; right; now left|]. destruct s as [b ? ? ?]. now destruct b. }
  do 3 (unfold bind at 1, on_block at 1, modify at 1).
  unfold bind at 1, get at 1.
  match goal with |- context [bind _ _ ?s5] =>
    assert (H5 : d_initialized (the_block s5) = true
                 /\ d_was_triggered_once (the_block s5) = false
                 /\ d_data_rdy (the_block s5) = false
                 /\ d_data_rdy_errc (the_block s5) = ec_none
                 /\ d_armed (the_block s5) = false
                 /\ d_auto_arm (the_block s5) = d_auto_arm (the_block s)
                 /\ d_acquisition_mode (the_block s5) = d_acquisition_mode (the_block s)
                 /\ d_configure_exception_message s5 = d_configure_exception_message s
                 /\ d_app_buffer s5 = Some
                      {| layout_ai_channels := get_enabled_aichan_count (the_block s);
                         layout_di_ports := get_enabled_diport_count (the_block s);
                         layout_buffer_size := d_buffer_size (the_block s);
                         layout_nr_buffers := d_nr_buffers (the_block s) |});
    [destruct s as [b ? ? ?]; destruct b; cbn in *; repeat split; assumption|];
    generalize dependent s5
  end.
  intros s5 (I1 & I2 & I3 & I4 & I5 & I6 & I7 & I8 & I9).
  rewrite I7.
  assert (Hpoll : exists s6,
            (if acquisition_mode_eqb (d_acquisition_mode (the_block s)) STREAMING
             then on_block start_poll_thread else ret tt) s5 = Ok tt s6
            /\ (is_streaming (the_block s) = true ->
                d_poller_joinable (the_block s6) = true)
            /\ lifecycle_frame (the_block s5) (the_block s6)
            /\ d_armed (the_block s6) = d_armed (the_block s5)
            /\ d_configure_exception_message s6 = d_configure_exception_message s5
            /\ d_app_buffer s6 = d_app_buffer s5).
  { unfold is_streaming.
    destruct (acquisition_mode_eqb (d_acquisition_mode (the_block s)) STREAMING).
    - destruct (start_poll_thread_outcome (the_block s5)) as (b6 & Hb6 & J1 & J2 & J3).
      exists (s5 <| the_block := b6 |>).
      split; [exact (on_block_Ok _ _ _ _ Hb6)|].
      destruct (the_block_set s5 b6) as (-> & -> & -> & _).
      split; [intros _; exact J1|]. split; [exact J2|]. repeat split. exact J3.
    - exists s5. split; [reflexivity|]. split; [discriminate|].
      split; [apply lifecycle_frame_refl|]. repeat split. }
  destruct Hpoll as (s6 & Hs6 & J1 & J2 & J3 & J4 & J5).
  rewrite (bind_run_any _ _ _ _ _ Hs6), bind_get_any.
  destruct J2 as (K1 & K2 & K3 & K4 & K5 & K6).
  rewrite K5, K6, I6, I7.
  fold (is_streaming (the_block s)).
  destruct (d_auto_arm (the_block s) && is_streaming (the_block s)) eqn:Hauto.
  - unfold bind, on_block.
    pose proof (arm_outcome (arming lw) (the_block s6)) as Harm.
    destruct (arm (arming lw) (the_block s6)) as [[] b'|e b'| | |]; [| |exact I..].
    + destruct Harm as (A1 & (A2 & A3 & A4 & A5 & A6 & A7) & A8).
      run_post. unfold started, is_armed.
      destruct (the_block_set s6 b') as (-> & -> & -> & _).
      repeat split; try congruence; try (rewrite Hauto; exact A1).
      intros _. rewrite A8. apply J1. apply (andb_prop _ _ Hauto).
    + destruct Harm as (A0 & -> & A1 & A2).
      run_post. unfold start_failed, is_armed.
      match goal with |- context [?x <| d_configure_exception_message := ?m |>] =>
        destruct (message_set x m) as [-> ->] end.
      destruct (the_block_set s6 b') as (-> & _).
      split; [right; right; now right|congruence].
  - run_post. unfold started, is_armed.
    repeat split; try congruence; try (rewrite Hauto; congruence).
    exact J1.
Qed.

Lemma start_outcome (lw : lifecycle_world) (s : flowgraph_block) :
  start_post lw s (start lw s).
Proof.
  destruct (d_initialized (the_block s)) eqn:Hinit.
  - pose proof (start_after_initialize lw s Hinit) as Hpost.
    unfold start, try_catch_exception in *. unfold bind at 1.
    rewrite initialize_outcome. cbv zeta. rewrite Hinit. exact Hpost.
  - unfold start, try_catch_exception. unfold bind at 1.
    rewrite initialize_outcome. cbv zeta. rewrite Hinit.
    destruct (ec_set (driver_initialize lw)).
    + run_post. unfold start_failed, is_armed. cbn [what].
      match goal with |- context [?x <| d_configure_exception_message := ?m |>] =>
        destruct (message_set x m) as [-> ->] end.
      split; [right; now left|]. destruct s as [b ? ? ?]. now destruct b.
    + match goal with |- context [bind _ _ ?s1] =>
        pose proof (start_after_initialize lw s1) as Hpost;
        assert (H1 : d_initialized (the_block s1) = true
                     /\ d_armed (the_block s1) = d_armed (the_block s)
                     /\ d_auto_arm (the_block s1) = d_auto_arm (the_block s)
                     /\ d_acquisition_mode (the_block s1) = d_acquisition_mode (the_block s)
                     /\ d_configure_exception_message s1 = d_configure_exception_message s
                     /\ get_enabled_aichan_count (the_block s1)
                        = get_enabled_aichan_count (the_block s)
                     /\ get_enabled_diport_count (the_block s1)
                        = get_enabled_diport_count (the_block s)
                     /\ d_buffer_size (the_block s1) = d_buffer_size (the_block s)
                     /\ d_nr_buffers (the_block s1) = d_nr_buffers (the_block s))
          by (destruct s as [b ? ? ?]; destruct b; repeat split);
        generalize dependent s1
      end.
      intros s1 Hpost (I1 & I2 & I3 & I4 & I5 & I6 & I7 & I8 & I9).
      specialize (Hpost I1). unfold try_catch_exception in Hpost.
      match goal with |- start_post _ _ ?o => destruct o as [[] s'|e s'| | |] end;
        cbn [start_post] in *; try exact Hpost.
      * unfold started, is_armed, is_streaming in *.
        rewrite I2, I3, I4, I5, I6, I7, I8, I9 in Hpost. exact Hpost.
      * unfold start_failed, is_armed in *. rewrite I2 in Hpost. exact Hpost.
Qed.

(** X17.  No exception leaves [start]: it reports failure by returning
    false.  When it returns true the block is initialized, the application
    buffer is laid out by the enabled channel and port counts and the buffer
    settings, [d_was_triggered_once] and the data-ready flag are cleared,
    the block is armed exactly if [auto_arm] is set and the mode is
    STREAMING (it was not armed before), and in STREAMING mode the poller
    thread exists.  When it returns false, [d_configure_exception_message]
    is "disarm first" or the message of the failed [initialize], [configure]
    or [arm], and the block is armed or not as it was. *)
Theorem start_reports_failure_by_value :
  forall (lw : lifecycle_world) (s : flowgraph_block),
    (forall e s', start lw s <> Throw e s')
    /\ (forall s', start lw s = Ok true s' -> started s s')
    /\ (forall s', start lw s = Ok false s' -> start_failed lw s s').
Proof.
  intros lw s. pose proof (start_outcome lw s) as Hpost.
  unfold start_post in Hpost. split; [|split].
  - intros e s' Hrun. now rewrite Hrun in Hpost.
  - intros s' Hrun. now rewrite Hrun in Hpost.
  - intros s' Hrun. now rewrite Hrun in Hpost.
Qed.

(** X18.  After a [start] that armed the block (STREAMING mode,
    [auto_arm]), a second [start] without a [stop] in between returns false
    with the message "disarm first", and changes nothing else: the driver is
    not called. *)
Theorem start_twice_fails :
  forall (lw lw' : lifecycle_world) (s s1 : flowgraph_block),
    start lw s = Ok true s1 ->
    d_auto_arm (the_block s) = true ->
    is_streaming (the_block s) = true ->
    start lw' s1
    = Ok false (s1 <| d_configure_exception_message := "disarm first"%string |>).
Proof.
  intros lw lw' s s1 Hrun Hauto Hstream.
  pose proof (start_outcome lw s) as Hpost. rewrite Hrun in Hpost.
  cbn [start_post] in Hpost. unfold started, is_armed in Hpost.
  destruct Hpost as (Hinit & _ & _ & _ & _ & _ & Harmed & _).
  rewrite Hauto, Hstream in Harmed. cbn [andb] in Harmed.
  unfold start, try_catch_exception.
  unfold bind at 1. rewrite initialize_outcome. cbv zeta. rewrite Hinit.
  unfold bind at 1. rewrite configure_outcome. cbv zeta.
  rewrite Hinit, Harmed. reflexivity.
Qed.

Lemma stop_poll_thread_outcome (b : block) :
  exists b',
    stop_poll_thread b = Ok tt b'
    /\ d_poller_joinable b' = false
    /\ lifecycle_frame b b'
    /\ d_armed b' = d_armed b
    /\ (d_poller_joinable b = true -> d_poller_state b' = EXIT).
Proof.
  unfold stop_poll_thread, bind, get, modify.
  destruct (d_poller_joinable b) eqn:Hjoin; cbn [negb].
  - eexists. split; [reflexivity|]. destruct b. repeat split.
  - eexists. split; [reflexivity|]. repeat split; [exact Hjoin|discriminate].
Qed.

Lemma notify_stopped_outcome (s : flowgraph_block) :
  exists s0,
    on_block (notify_data_ready Stopped) s = Ok tt s0
    /\ d_initialized (the_block s0) = d_initialized (the_block s)
    /\ d_acquisition_mode (the_block s0) = d_acquisition_mode (the_block s)
    /\ d_data_rdy (the_block s0) = true
    /\ d_data_rdy_errc (the_block s0) = Stopped
    /\ d_armed (the_block s0) = d_armed (the_block s)
    /\ waits_for_missing_poller (the_block s0)
       = waits_for_missing_poller (the_block s).
Proof.
  unfold on_block, notify_data_ready, bind, modify, add_error_code.
  cbn [ec_set ec_eqb negb]. eexists. split; [reflexivity|].
  destruct s as [b ? ? ?]. destruct b. repeat split.
Qed.

(** [stop] from the call of [stop_poll_thread] on. *)
Lemma stop_after_disarm (s s1 : flowgraph_block) :
  d_armed (the_block s1) = false ->
  d_initialized (the_block s1) = true ->
  d_acquisition_mode (the_block s1) = d_acquisition_mode (the_block s) ->
  exists s',
    (s2 <- get ;;
     (if acquisition_mode_eqb (d_acquisition_mode (the_block s2)) STREAMING
      then on_block stop_poll_thread else ret tt) ;;
     modify (fun s => s <| d_configure_exception_message := EmptyString |>) ;;
     ret true) s1 = Ok true s'
    /\ is_armed (the_block s') = false
    /\ d_initialized (the_block s') = true
    /\ d_configure_exception_message s' = EmptyString
    /\ (is_streaming (the_block s) = true ->
        d_poller_joinable (the_block s') = false)
    /\ d_data_rdy (the_block s') = d_data_rdy (the_block s1)
    /\ d_data_rdy_errc (the_block s') = d_data_rdy_errc (the_block s1).
Proof.
  intros D1 D2 D3. rewrite bind_get_any, D3.
  assert (Hpoll : exists s2,
            (if acquisition_mode_eqb (d_acquisition_mode (the_block s)) STREAMING
             then on_block stop_poll_thread else ret tt) s1 = Ok tt s2
            /\ (is_streaming (the_block s) = true ->
                d_poller_joinable (the_block s2) = false)
            /\ lifecycle_frame (the_block s1) (the_block s2)
            /\ d_armed (the_block s2) = d_armed (the_block s1)).
  { unfold is_streaming.
    destruct (acquisition_mode_eqb (d_acquisition_mode (the_block s)) STREAMING).
    - destruct (stop_poll_thread_outcome (the_block s1)) as (b2 & Hb2 & J1 & J2 & J3 & _).
      exists (s1 <| the_block := b2 |>).
      split; [exact (on_block_Ok _ _ _ _ Hb2)|].
      destruct (the_block_set s1 b2) as (-> & _).
      split; [intros _; exact J1|]. now split.
    - exists s1. split; [reflexivity|]. split; [discriminate|].
      split; [apply lifecycle_frame_refl|reflexivity]. }
  destruct Hpoll as (s2 & Hs2 & J1 & (K1 & K2 & K3 & K4 & K5 & K6) & J3).
  rewrite (bind_run_any _ _ _ _ _ Hs2).
  unfold bind, modify, ret, is_armed.
  eexists. split; [reflexivity|].
  destruct (message_set s2 EmptyString) as [-> ->].
  repeat split; try congruence. exact J1.
Qed.

(** X19.  [stop] never throws, and returns true unless its [disarm] has to
    wait for a poller thread that is not there.  On a block that is not
    initialized it does nothing, armed or not.  On an initialized block that
    is armed in STREAMING mode, with the poller not in state EXIT and no
    poller thread, it never returns.  On every other initialized block it
    returns true and leaves the block disarmed and still initialized, with
    an empty exception message and, in STREAMING mode, no poller thread; when
    the block was armed, the data-ready flag is left set with the Stopped
    code.  In particular a [stop] that follows a [start] which returned true
    returns, with the block disarmed. *)
Theorem stop_disarms_or_waits_forever :
  forall (lw : lifecycle_world) (s : flowgraph_block),
    (d_initialized (the_block s) = false -> stop lw s = Ok true s)
    /\ (d_initialized (the_block s) = true ->
        waits_for_missing_poller (the_block s) = true ->
        stop lw s = Blocked)
    /\ (d_initialized (the_block s) = true ->
        waits_for_missing_poller (the_block s) = false ->
        exists s',
          stop lw s = Ok true s'
          /\ is_armed (the_block s') = false
          /\ d_initialized (the_block s') = true
          /\ d_configure_exception_message s' = EmptyString
          /\ (is_streaming (the_block s) = true ->
              d_poller_joinable (the_block s') = false)
          /\ (is_armed (the_block s) = true ->
              d_data_rdy (the_block s') = true
              /\ d_data_rdy_errc (the_block s') = Stopped))
    /\ (forall (lw0 : lifecycle_world) (s0 : flowgraph_block),
          start lw0 s0 = Ok true s ->
          exists s', stop lw s = Ok true s' /\ is_armed (the_block s') = false).
Proof.
  intros lw s.
  assert (Hreturns : d_initialized (the_block s) = true ->
            waits_for_missing_poller (the_block s) = false ->
            exists s',
              stop lw s = Ok true s'
              /\ is_armed (the_block s') = false
              /\ d_initialized (the_block s') = true
              /\ d_configure_exception_message s' = EmptyString
              /\ (is_streaming (the_block s) = true ->
                  d_poller_joinable (the_block s') = false)
              /\ (is_armed (the_block s) = true ->
                  d_data_rdy (the_block s') = true
                  /\ d_data_rdy_errc (the_block s') = Stopped)).
  { intros Hinit Hwaits. unfold stop, is_armed. rewrite bind_get_any, Hinit.
    cbn [negb].
    destruct (d_armed (the_block s)) eqn:Harmed.
    - destruct (notify_stopped_outcome s) as (s0 & Hs0 & I1 & I2 & I3 & I4 & I5 & I6).
      rewrite <- I6 in Hwaits.
      destruct (proj2 (disarm_outcome (arming lw) (the_block s0)) Hwaits)
        as (b' & Hb' & D1 & (F1 & F2 & F3 & F4 & F5 & F6) & _).
      assert (Hdis : (on_block (notify_data_ready Stopped) ;;
                      on_block (disarm (arming lw))) s
                     = Ok tt (s0 <| the_block := b' |>)).
      { rewrite (bind_run_any _ _ _ _ _ Hs0). exact (on_block_Ok _ _ _ _ Hb'). }
      rewrite (bind_run_any _ _ _ _ _ Hdis).
      destruct (stop_after_disarm s (s0 <| the_block := b' |>))
        as (s' & Hs' & E1 & E2 & E3 & E4 & E5 & E6);
        try (destruct (the_block_set s0 b') as (-> & _); congruence).
      exists s'. split; [exact Hs'|].
      destruct (the_block_set s0 b') as (Hb & _). rewrite Hb in E5, E6.
      repeat split; try assumption; congruence.
    - rewrite (bind_run_any _ _ _ _ _ (eq_refl : ret tt s = Ok tt s)).
      destruct (stop_after_disarm s s Harmed Hinit eq_refl)
        as (s' & Hs' & E1 & E2 & E3 & E4 & _).
      exists s'. split; [exact Hs'|]. repeat split; try assumption; discriminate. }
  split; [|split; [|split]].
  - intros Hinit. unfold stop. rewrite bind_get_any, Hinit. reflexivity.
  - intros Hinit Hwaits. unfold stop. rewrite bind_get_any, Hinit. cbn [negb].
    assert (Harmed : d_armed (the_block s) = true).
    { unfold waits_for_missing_poller in Hwaits.
      destruct (d_armed (the_block s)); [reflexivity|discriminate]. }
    rewrite Harmed.
    destruct (notify_stopped_outcome s) as (s0 & Hs0 & _ & _ & _ & _ & _ & I6).
    rewrite <- I6 in Hwaits.
    pose proof (on_block_Blocked _ s0
                  (proj1 (disarm_outcome (arming lw) (the_block s0)) Hwaits))
      as Hblocked.
    unfold bind. rewrite Hs0, Hblocked. reflexivity.
  - exact Hreturns.
  - intros lw0 s0 Hstart.
    pose proof (start_outcome lw0 s0) as Hpost. rewrite Hstart in Hpost.
    cbn [start_post] in Hpost. unfold started, is_armed in Hpost.
    destruct Hpost as (Hinit & _ & _ & _ & _ & _ & Harmed & _ & Hjoin).
    assert (Hwaits : waits_for_missing_poller (the_block s) = false).
    { unfold waits_for_missing_poller. rewrite Harmed.
      destruct (d_auto_arm (the_block s0)); [|reflexivity].
      destruct (is_streaming (the_block s0)); [|reflexivity].
      rewrite (Hjoin eq_refl). cbn. now rewrite andb_false_r. }
    destruct (Hreturns Hinit Hwaits) as (s' & Hs' & E1 & _).
    exists s'. split; assumption.
Qed.

End StartStop.

(** ** Rapid-block mode with trigger_once: the capture sequence *)

Section CaptureSequence.
Context {H : Header}.

Lemma adds_tags_ret {A} (a : A) : adds_tags (ret a) a.
Proof.
  exists []. intros s. unfold ret. f_equal. destruct s. cbn. unfold constant.
  now rewrite app_nil_r.
Qed.

Lemma adds_tags_add_item_tag (i : Z) (t : tag_t) : adds_tags (add_item_tag i t) tt.
Proof. exists [(i, t)]. intros s. reflexivity. Qed.

Lemma adds_tags_bind {A B} (m : blk A) (k : A -> blk B) (a : A) (c : B) :
  adds_tags m a -> adds_tags (k a) c -> adds_tags (bind m k) c.
Proof.
  intros [n1 H1] [n2 H2]. exists (n1 ++ n2). intros s.
  unfold bind. rewrite H1, H2. f_equal. destruct s. cbn. unfold constant.
  now rewrite app_assoc.
Qed.

Lemma adds_tags_index {A} (l : list A) (i : Z) :
  0 <= i < Z.of_nat (List.length l) ->
  exists a, adds_tags (index l i) a.
Proof.
  intros Hi. unfold index.
  destruct (nth_error l (Z.to_nat i)) as [a|] eqn:Hnth.
  - exists a. exists []. intros s.
    destruct (Z.ltb_spec i 0); [lia|].
    destruct (Z.leb_spec (Z.of_nat (List.length l)) i); [lia|]. cbn [orb].
    unfold ret. f_equal. destruct s. cbn. unfold constant. now rewrite app_nil_r.
  - apply nth_error_None in Hnth. lia.
Qed.

Lemma adds_tags_c_for {V} (good : V -> Prop) (cond : V -> bool) (body : V -> blk V) :
  (forall v, good v -> cond v = true -> exists v', good v' /\ adds_tags (body v) v') ->
  forall (fuel : nat) (v : V), good v ->
    exists v', adds_tags (c_for fuel cond body v) v'.
Proof.
  intros Hbody. induction fuel as [|fuel IH]; intros v Hv; cbn [c_for].
  - exists v. apply adds_tags_ret.
  - destruct (cond v) eqn:Hc.
    + destruct (Hbody v Hv Hc) as (v1 & Hv1 & Hb).
      destruct (IH v1 Hv1) as (v2 & Hrest).
      exists v2. eapply adds_tags_bind; eassumption.
    + exists v. apply adds_tags_ret.
Qed.

Lemma rapid_block_part1_reads (w : world) (n : Z) (b : block) :
  ec_set (driver_prefetch_block w) = false ->
  ec_set (driver_get_rapid_block_data w) = false ->
  d_ai_channels b <= Z.of_nat (List.length (d_channel_settings b)) ->
  d_ai_channels b <= Z.of_nat (List.length (rapid_block_status w)) ->
  d_ports b <= Z.of_nat (List.length (d_port_settings b)) ->
  let D := to_int (get_block_size_with_downsampling b) in
  let r := Z.min n D in
  exists b1,
    rapid_block_part1 w n b = Ok r b1
    /\ d_bstate b1 = update_state r (set_waveform_params 0 D (d_bstate b)).
Proof.
  intros Hpre Hget Hch Hst Hpo D r.
  unfold rapid_block_part1.
  unfold bind at 1, modify at 1. unfold bind at 1, get at 1.
  unfold bind at 1, call_driver at 1, modify at 1. rewrite Hpre.
  unfold bind at 1, modify at 1. unfold bind at 1, get at 1.
  unfold bind at 1, call_driver at 1, modify at 1.
  unfold bind at 1, modify at 1. rewrite Hget.
  unfold bind at 1, get at 1.
  match goal with
  | |- exists b1, bind (c_for _ _ _ _) _ ?s = _ /\ _ => remember s as b3 eqn:Hb3
  end.
  assert (E : d_ai_channels b3 = d_ai_channels b
              /\ d_channel_settings b3 = d_channel_settings b
              /\ d_status b3 = rapid_block_status w
              /\ d_ports b3 = d_ports b
              /\ d_port_settings b3 = d_port_settings b
              /\ d_bstate b3 = set_waveform_params 0 D (d_bstate b))
    by (subst b3 D; destruct b; repeat split).
  clear Hb3. destruct E as (E1 & E2 & E3 & E4 & E5 & E6).
  rewrite <- E1, <- E2 in Hch. rewrite <- E1, <- E3 in Hst.
  rewrite <- E4, <- E5 in Hpo.
  match goal with
  | |- exists b1, bind (c_for ?fuel ?cond ?body ?v0) ?k ?s = _ /\ _ =>
      assert (Hbody : forall v, 0 <= fst v -> cond v = true ->
                exists v', 0 <= fst v' /\ adds_tags (body v) v');
      [|destruct (adds_tags_c_for (fun v => 0 <= fst v) cond body Hbody fuel v0)
          as (v1 & new1 & Hloop1); [cbn [fst]; lia|]; clear Hbody]
  end.
  { intros [i vec_idx] Hi Hc. cbn [fst snd] in *.
    apply andb_prop in Hc. destruct Hc as [Hc _]. apply Z.ltb_lt in Hc.
    assert (Hi1 : 0 <= i < Z.of_nat (List.length (d_channel_settings b3))) by lia.
    assert (Hi2 : 0 <= i < Z.of_nat (List.length (d_status b3))) by lia.
    destruct (adds_tags_index _ i Hi1) as (c & Hc1).
    destruct (adds_tags_index _ i Hi2) as (st & Hst1).
    exists (i + 1, vec_idx + 2). split; [cbn [fst]; lia|].
    eapply adds_tags_bind; [exact Hc1|].
    eapply (adds_tags_bind _ _ tt); [|apply adds_tags_ret].
    destruct (negb (enabled c)); [apply adds_tags_ret|].
    eapply adds_tags_bind; [exact Hst1|].
    eapply adds_tags_bind; apply adds_tags_add_item_tag. }
  unfold bind at 1. rewrite Hloop1.
  match goal with
  | |- exists b1, bind (c_for ?fuel ?cond ?body ?v0) ?k ?s = _ /\ _ =>
      assert (Hbody : forall v, 0 <= fst v -> cond v = true ->
                exists v', 0 <= fst v' /\ adds_tags (body v) v');
      [|destruct (adds_tags_c_for (fun v => 0 <= fst v) cond body Hbody fuel v0)
          as (v2 & new2 & Hloop2); [cbn [fst]; lia|]; clear Hbody]
  end.
  { intros [i vec_idx] Hi Hc. cbn [fst snd] in *.
    apply andb_prop in Hc. destruct Hc as [Hc _]. apply Z.ltb_lt in Hc.
    assert (Hi1 : 0 <= i < Z.of_nat (List.length (d_port_settings b3))) by lia.
    destruct (adds_tags_index _ i Hi1) as (p & Hp1).
    exists (i + 1, vec_idx + 1). split; [cbn [fst]; lia|].
    eapply adds_tags_bind; [exact Hp1|].
    eapply (adds_tags_bind _ _ tt); [|apply adds_tags_ret].
    destruct (negb (port_enabled p)); [apply adds_tags_ret|].
    eapply adds_tags_bind; apply adds_tags_add_item_tag. }
  unfold bind at 1. rewrite Hloop2.
  unfold bind, modify, ret.
  match goal with
  | |- context [Z.min n (samples_left (d_bstate ?x))] =>
      replace (samples_left (d_bstate x)) with D
        by (subst D; destruct b as [? ? ? ? ? ? ? ? ? ? ? ? ? ? ? ? ? ? ? ? ? ? ? ? ? ? ? ? ? ? bs];
            now destruct bs)
  end.
  fold r.
  eexists. split; [reflexivity|].
  rewrite <- E6. destruct b3. reflexivity.
Qed.

Lemma rapid_block_the_rest_reads (w : world) (n : Z) (b : block) :
  ec_set (driver_get_rapid_block_data w) = false ->
  let r := Z.min n (samples_left (d_bstate b)) in
  exists b1,
    rapid_block_the_rest w n b = Ok r b1
    /\ d_bstate b1 = update_state r (d_bstate b).
Proof.
  intros Hget r. unfold rapid_block_the_rest.
  unfold bind, get, call_driver, modify, ret. rewrite Hget.
  eexists. split; [reflexivity|]. subst r. destruct b. reflexivity.
Qed.

Lemma capture_frame_refl (b : block) : capture_frame b b.
Proof. repeat split. Qed.

Lemma capture_frame_trans (a b c : block) :
  capture_frame a b -> capture_frame b c -> capture_frame a c.
Proof.
  unfold capture_frame, same_configuration.
  intros (H1 & H2) (H3 & H4). repeat split; intuition congruence.
Qed.

Ltac cf_leaf :=
  unfold add_error_code, add_item_tag, call_driver;
  apply (preserves_modify _ capture_frame_trans);
  let b := fresh "b" in intro b; destruct b; repeat split.

Ltac cf_step := preserves_step cf_leaf.

Lemma capture_frame_disarm (w : world) : preserves capture_frame (disarm w).
Proof. unfold disarm, transit_poll_thread_to_idle. repeat cf_step. Qed.

Lemma capture_frame_arm (w : world) : preserves capture_frame (arm w).
Proof.
  unfold arm, transit_poll_thread_to_running, count_enabled_channels,
    count_enabled_ports.
  repeat cf_step.
Qed.

Lemma capture_frame_rapid_block_waiting (w : world) :
  preserves capture_frame (rapid_block_waiting w).
Proof.
  unfold rapid_block_waiting, wait_data_ready, notify_data_ready, clear_data_ready.
  repeat first [ apply capture_frame_disarm | apply capture_frame_arm | cf_step ].
Qed.

Lemma capture_frame_work_rapid_block (w : world) (n : Z) :
  preserves capture_frame (work_rapid_block w n).
Proof.
  unfold work_rapid_block, rapid_block_part1, rapid_block_the_rest.
  repeat first [ apply capture_frame_rapid_block_waiting | cf_step ].
Qed.

Lemma ec_set_false (ec : error_code) : ec_set ec = false -> ec = ec_none.
Proof.
  unfold ec_set. intros Hec. apply ec_eqb_eq.
  destruct (ec_eqb ec ec_none); [reflexivity|discriminate].
Qed.

Lemma arm_succeeds (w : world) (b : block) :
  d_armed b = false ->
  ec_set (driver_arm w) = false ->
  d_ai_channels b <= Z.of_nat (List.length (d_channel_settings b)) ->
  d_ports b <= Z.of_nat (List.length (d_port_settings b)) ->
  exists b', arm w b = Ok tt b'.
Proof.
  intros Harmed Hec Hai Hdi.
  unfold arm. unfold bind at 1, get at 1. rewrite Harmed.
  unfold bind at 1, call_driver at 1, modify at 1. rewrite Hec.
  do 3 (unfold bind at 1, modify at 1).
  unfold bind at 1, get at 1.
  assert (Hcount : forall b1 : block,
            d_ai_channels b1 = d_ai_channels b ->
            d_ports b1 = d_ports b ->
            d_channel_settings b1 = d_channel_settings b ->
            d_port_settings b1 = d_port_settings b ->
            exists r,
              (b0 <- get ;;
               num_enabled_ai_channels <- count_enabled_channels b0 ;;
               num_enabled_di_ports <- count_enabled_ports b0 ;;
               modify (fun b => b <| ai_buffers_size := num_enabled_ai_channels |>) ;;
               modify (fun b => b <| port_buffers_size := num_enabled_di_ports |>)) b1
              = Ok tt r).
  { intros b1 H1 H2 H3 H4. unfold bind at 1, get at 1.
    unfold bind at 1. rewrite count_enabled_channels_value by (rewrite H1, H3; exact Hai).
    unfold bind at 1. rewrite count_enabled_ports_value by (rewrite H2, H4; exact Hdi).
    eexists. reflexivity. }
  match goal with |- context [acquisition_mode_eqb ?m STREAMING] =>
    destruct (acquisition_mode_eqb m STREAMING) end;
    unfold bind at 1, transit_poll_thread_to_running, modify, ret;
    apply Hcount; destruct b; reflexivity.
Qed.

Lemma rapid_mode_never_waits (b : block) :
  d_acquisition_mode b = RAPID_BLOCK -> waits_for_missing_poller b = false.
Proof.
  intros Hmode. unfold waits_for_missing_poller, is_streaming. rewrite Hmode.
  cbn [acquisition_mode_eqb]. rewrite andb_false_r. reflexivity.
Qed.

(** The WAITING part goes on to read when nothing fails. *)
Lemma rapid_block_waiting_proceeds (w : world) (b : block) :
  d_acquisition_mode b = RAPID_BLOCK ->
  d_trigger_once b && d_was_triggered_once b = false ->
  d_data_rdy b = false ->
  ec_set (driver_arm w) = false ->
  ec_set (notified w) = false ->
  d_ai_channels b <= Z.of_nat (List.length (d_channel_settings b)) ->
  d_ports b <= Z.of_nat (List.length (d_port_settings b)) ->
  exists b', rapid_block_waiting w b = Ok None b'.
Proof.
  intros Hmode Honce Hrdy Harm Hnot Hai Hdi.
  unfold rapid_block_waiting. rewrite (bind_run get _ b b b eq_refl), Honce.
  assert (Hprep : exists b2,
            (if d_auto_arm b
             then disarm w ;; try_catch (arm w ;; ret None) (ret (Some (-1)))
             else ret None) b = Ok (@None Z) b2
            /\ d_data_rdy b2 = false).
  { destruct (d_auto_arm b).
    - destruct (proj2 (disarm_outcome w b) (rapid_mode_never_waits b Hmode))
        as (b1 & Hdis & Harmed1 & Hframe & _).
      pose proof (preserves_Ok capture_frame _ _ _ _ capture_frame_refl
                    (capture_frame_disarm w) Hdis) as (Hconf & Hch & Hpo).
      destruct Hconf as (_ & _ & _ & _ & _ & _ & _ & _ & _ & _ & _ & _ & Hcs & Hps & _).
      destruct (arm_succeeds w b1 Harmed1 Harm) as (b2 & Harm2); [congruence..|].
      exists b2. split.
      + rewrite (bind_run _ _ _ _ _ Hdis). unfold try_catch.
        rewrite (bind_run _ _ _ _ _ Harm2). reflexivity.
      + pose proof (arm_outcome w b1) as Hout. rewrite Harm2 in Hout.
        destruct Hout as (_ & (_ & _ & Hr2 & _) & _).
        destruct Hframe as (_ & _ & Hr1 & _). congruence.
    - exists b. split; [reflexivity|exact Hrdy]. }
  destruct Hprep as (b2 & Hprep & Hrdy2).
  rewrite (bind_run _ _ _ _ _ Hprep).
  unfold wait_data_ready, notify_data_ready, clear_data_ready.
  rewrite (ec_set_false _ Hnot).
  unfold bind, get, gets, modify, ret. rewrite Hrdy2.
  eexists. reflexivity.
Qed.

Lemma calls_needed_nonneg (N D : Z) (s : rapid_block_state_t) (k : Z) :
  0 <= D -> reading N D s k -> 0 <= calls_needed N D s.
Proof.
  unfold reading, calls_needed. intros HD (Hc & Hk & Hs).
  destruct (state s); [lia| |]; nia.
Qed.

Lemma first_read_step (N D n : Z) (s : rapid_block_state_t) (k : Z) :
  0 <= D -> 1 <= n -> reading N D s k -> state s = READING_PART1 ->
  let r := Z.min n D in
  let s' := update_state r (set_waveform_params 0 D s) in
  0 <= r
  /\ reading N D s' (k + 1)
  /\ left_to_read N D s' = left_to_read N D s - r
  /\ calls_needed N D s' + 1 <= calls_needed N D s.
Proof.
  intros HD Hn (Hc & Hk & Hs) Hst. rewrite Hst in Hs. destruct Hs as [Hidx Hlt].
  unfold reading, left_to_read, calls_needed. rewrite Hst.
  destruct s as [st cnt idx off left]. cbn in Hc, Hidx, Hst. subst st cnt idx.
  unfold update_state, set_waveform_params. cbn. unfold constant.
  destruct (Z.gtb_spec (D - Z.min n D) 0); cbn.
  - repeat split; try lia; nia.
  - destruct (Z.geb_spec (k + 1) N); cbn; repeat split; try lia; nia.
Qed.

Lemma next_read_step (N D n : Z) (s : rapid_block_state_t) (k : Z) :
  0 <= D -> 1 <= n -> reading N D s k -> state s = READING_THE_REST ->
  let r := Z.min n (samples_left s) in
  let s' := update_state r s in
  0 <= r
  /\ reading N D s' k
  /\ left_to_read N D s' = left_to_read N D s - r
  /\ calls_needed N D s' + 1 <= calls_needed N D s.
Proof.
  intros HD Hn (Hc & Hk & Hs) Hst. rewrite Hst in Hs. destruct Hs as [Hidx Hleft].
  unfold reading, left_to_read, calls_needed. rewrite Hst.
  destruct s as [st cnt idx off left]. cbn in Hc, Hidx, Hst, Hleft. subst st cnt.
  unfold update_state. cbn. unfold constant.
  destruct (Z.gtb_spec (left - Z.min n left) 0); cbn.
  - repeat split; try lia; nia.
  - destruct (Z.geb_spec (idx + 1) N); cbn; repeat split; try lia; nia.
Qed.

Lemma capture_frame_block_size (b0 b : block) :
  capture_frame b0 b ->
  get_block_size_with_downsampling b = get_block_size_with_downsampling b0.
Proof.
  intros ((_ & _ & Hs & Hp & _ & _ & _ & _ & _ & _ & Hm & Hf & _) & _).
  unfold get_block_size_with_downsampling,
    get_pre_trigger_samples_with_downsampling,
    get_post_trigger_samples_with_downsampling.
  now rewrite Hs, Hp, Hm, Hf.
Qed.

Lemma work_returns (w : world) (n : Z) (b b1 : block) (r : Z) :
  d_acquisition_mode b = RAPID_BLOCK ->
  work_rapid_block w n b = Ok r b1 ->
  exists b2,
    work w n b = Ok r b2
    /\ no_progress b1 b2
    /\ capture_frame b1 b2.
Proof.
  intros Hmode Hrun. unfold work.
  rewrite (bind_run get _ b b b eq_refl), Hmode.
  rewrite (bind_run _ _ _ _ _ Hrun).
  rewrite (bind_run get _ b1 b1 b1 eq_refl).
  destruct ((r >? 0) && negb (d_timebase_published b1)).
  - unfold output_items_size. unfold bind at 1. unfold bind at 1.
    rewrite tag_every_slot. unfold modify, bind, ret.
    eexists. split; [reflexivity|].
    split; [apply no_progress_frame; destruct b1; reflexivity|].
    destruct b1; repeat split.
  - exists b1. split; [reflexivity|].
    split; [apply no_progress_refl|apply capture_frame_refl].
Qed.

Lemma scheduled_work_returns (c : world * Z) (b b1 : block) (r : Z) :
  d_acquisition_mode b = RAPID_BLOCK ->
  work_rapid_block (fst c) (snd c) b = Ok r b1 ->
  exists b2,
    scheduled_work c b = Ok r b2
    /\ no_progress b1 b2
    /\ capture_frame b1 b2.
Proof.
  intros Hmode Hrun.
  destruct (work_returns _ _ _ _ _ Hmode Hrun) as (b2 & Hwork & Hnp & Hcf).
  unfold scheduled_work. rewrite (bind_run _ _ _ _ _ Hwork).
  destruct (r >? 0).
  - unfold modify, bind, ret. eexists. split; [reflexivity|].
    split.
    + eapply no_progress_trans; [exact Hnp|].
      apply no_progress_frame; destruct b2; reflexivity.
    + eapply capture_frame_trans; [exact Hcf|]. destruct b2; repeat split.
  - exists b2. split; [reflexivity|]. now split.
Qed.

Lemma work_rapid_block_part1 (w : world) (n : Z) (b : block) :
  state (d_bstate b) = READING_PART1 ->
  work_rapid_block w n b = rapid_block_part1 w n b.
Proof.
  intros Hst. unfold work_rapid_block.
  rewrite (bind_run get _ b b b eq_refl), Hst. cbn [rapid_block_state_eqb].
  rewrite (bind_run (ret None) _ b b None eq_refl).
  rewrite (bind_run get _ b b b eq_refl), Hst. reflexivity.
Qed.

Lemma work_rapid_block_the_rest (w : world) (n : Z) (b : block) :
  state (d_bstate b) = READING_THE_REST ->
  work_rapid_block w n b = rapid_block_the_rest w n b.
Proof.
  intros Hst. unfold work_rapid_block.
  rewrite (bind_run get _ b b b eq_refl), Hst. cbn [rapid_block_state_eqb].
  rewrite (bind_run (ret None) _ b b None eq_refl).
  rewrite (bind_run get _ b b b eq_refl), Hst. reflexivity.
Qed.

Lemma seq_next (k : Z) (l : list Z) :
  0 <= k -> l = map Z.of_nat (seq 0 (Z.to_nat k)) ->
  l ++ [k] = map Z.of_nat (seq 0 (Z.to_nat (k + 1))).
Proof.
  intros Hk ->. replace (Z.to_nat (k + 1)) with (Datatypes.S (Z.to_nat k)) by lia.
  rewrite <- seq_snoc. now rewrite Z2Nat.id.
Qed.

Section Run.

Variable b0 : block.
Let N := d_nr_captures b0.
Let D := to_int (get_block_size_with_downsampling b0).

Hypothesis mode_rapid : d_acquisition_mode b0 = RAPID_BLOCK.

Hypothesis once : d_trigger_once b0 = true.

Hypothesis channels_fit :
  d_ai_channels b0 <= Z.of_nat (List.length (d_channel_settings b0)).

Hypothesis ports_fit : d_ports b0 <= Z.of_nat (List.length (d_port_settings b0)).

Hypothesis size_fits : 0 <= D.

(** A call that finds the block reading returns the samples it read and
    moves the fetch state on. *)
Lemma reading_call (c : world * Z) (b : block) (k : Z) :
  capturing b0 b k ->
  state (d_bstate b) <> WAITING ->
  clean_call b0 c ->
  exists r b2 k',
    scheduled_work c b = Ok r b2
    /\ 0 <= r
    /\ capturing b0 b2 k'
    /\ left_to_read N D (d_bstate b2) = left_to_read N D (d_bstate b) - r
    /\ calls_needed N D (d_bstate b2) + 1 <= calls_needed N D (d_bstate b).
Proof.
  intros (Hcf & Hf & Hread & (cs & Hcs & Hp)) Hst (_ & Hpre & Hget & _ & Hstat & Hn).
  fold N D in Hread.
  pose proof Hcf as (Hsame & Hch & Hpo).
  pose proof Hsame as (_ & _ & _ & _ & _ & _ & _ & _ & Hm & _ & _ & _ & Hcset & Hpset & _).
  assert (Hmode : d_acquisition_mode b = RAPID_BLOCK) by congruence.
  assert (HD : to_int (get_block_size_with_downsampling b) = D)
    by (unfold D; now rewrite (capture_frame_block_size _ _ Hcf)).
  assert (Hk : 0 <= k) by (destruct Hread as (_ & ? & _); lia).
  destruct (state (d_bstate b)) eqn:Hstate; [contradiction| |].
  - destruct (rapid_block_part1_reads (fst c) (snd c) b Hpre Hget)
      as (b1 & Hrun & Hbs); [congruence..|].
    cbv zeta in Hrun, Hbs. rewrite HD in Hrun, Hbs.
    pose proof (rapid_block_part1_post _ _ _ _ _ Hrun)
      as (_ & _ & _ & Hf1 & (cs1 & Hcs1 & Hp1) & _).
    rewrite <- (work_rapid_block_part1 _ _ _ Hstate) in Hrun.
    pose proof (preserves_Ok capture_frame _ _ _ _ capture_frame_refl
                  (capture_frame_work_rapid_block _ _) Hrun) as Hcf1.
    destruct (scheduled_work_returns _ _ _ _ Hmode Hrun)
      as (b2 & Hstep & (_ & _ & _ & Hf2 & Hs2 & (cs2 & Hcs2 & Hp2)) & Hcf2).
    destruct (first_read_step N D (snd c) (d_bstate b) k size_fits Hn Hread Hstate)
      as (Hr & Hread' & Hleft & Hcalls).
    cbv zeta in *. rewrite <- Hbs, <- Hs2 in Hread', Hleft, Hcalls.
    exists (Z.min (snd c) D), b2, (k + 1).
    split; [exact Hstep|]. split; [exact Hr|].
    split; [|split; assumption].
    split; [eapply capture_frame_trans; [exact Hcf|];
            eapply capture_frame_trans; eassumption|].
    split; [congruence|]. split; [exact Hread'|].
    exists (cs ++ cs1 ++ cs2). split.
    + rewrite Hcs2, Hcs1, Hcs. now rewrite !app_assoc.
    + rewrite !prefetched_app, Hp1, Hp2, app_nil_r.
      destruct Hread as (_ & _ & Hidx). rewrite Hstate in Hidx.
      destruct Hidx as [-> _]. now apply seq_next.
  - destruct (rapid_block_the_rest_reads (fst c) (snd c) b Hget)
      as (b1 & Hrun & Hbs).
    cbv zeta in Hrun, Hbs.
    pose proof (rapid_block_the_rest_post _ _ _ _ _ Hrun)
      as (_ & _ & _ & Hf1 & (cs1 & Hcs1 & Hp1) & _).
    rewrite <- (work_rapid_block_the_rest _ _ _ Hstate) in Hrun.
    pose proof (preserves_Ok capture_frame _ _ _ _ capture_frame_refl
                  (capture_frame_work_rapid_block _ _) Hrun) as Hcf1.
    destruct (scheduled_work_returns _ _ _ _ Hmode Hrun)
      as (b2 & Hstep & (_ & _ & _ & Hf2 & Hs2 & (cs2 & Hcs2 & Hp2)) & Hcf2).
    destruct (next_read_step N D (snd c) (d_bstate b) k size_fits Hn Hread Hstate)
      as (Hr & Hread' & Hleft & Hcalls).
    cbv zeta in *. rewrite <- Hbs, <- Hs2 in Hread', Hleft, Hcalls.
    exists (Z.min (snd c) (samples_left (d_bstate b))), b2, k.
    split; [exact Hstep|]. split; [exact Hr|].
    split; [|split; assumption].
    split; [eapply capture_frame_trans; [exact Hcf|];
            eapply capture_frame_trans; eassumption|].
    split; [congruence|]. split; [exact Hread'|].
    exists (cs ++ cs1 ++ cs2). split.
    + rewrite Hcs2, Hcs1, Hcs. now rewrite !app_assoc.
    + now rewrite !prefetched_app, Hp1, Hp2, !app_nil_r.
Qed.

(** Once the sequence is read, the next call ends the stream; until then
    every call returns what it read. *)
Lemma run_reads_sequence (calls : list (world * Z)) :
  forall (b : block) (k : Z),
    capturing b0 b k ->
    Forall (clean_call b0) calls ->
    calls_needed N D (d_bstate b) < Z.of_nat (List.length calls) ->
    exists results b',
      run calls b = Ok (results ++ [-1]) b'
      /\ Forall (fun r => 0 <= r) results
      /\ fold_right Z.add 0 results = left_to_read N D (d_bstate b)
      /\ waveforms_since b0 b' = map Z.of_nat (seq 0 (Z.to_nat N)).
Proof.
  induction calls as [|c rest IH]; intros b k Hinv Hclean Hlen.
  - destruct Hinv as (_ & _ & Hread & _). fold N D in Hread.
    pose proof (calls_needed_nonneg N D _ _ size_fits Hread).
    cbn [List.length] in Hlen. lia.
  - inversion Hclean as [|? ? Hc Hrest]; subst.
    destruct (state (d_bstate b)) eqn:Hstate.
    + destruct Hinv as (Hcf & Hf & Hread & (cs & Hcs & Hp)).
      pose proof Hcf as ((_ & _ & _ & _ & _ & _ & _ & _ & Hm & _ & _ & _ & _ & _ & _ & _ & Ho) & _).
      assert (Hwork : work (fst c) (snd c) b = Ok (-1) b)
        by (apply work_rapid_block_done; congruence).
      assert (Hsched : scheduled_work c b = Ok (-1) b)
        by (unfold scheduled_work; rewrite (bind_run _ _ _ _ _ Hwork); reflexivity).
      exists [], b. split.
      * cbn [run]. rewrite (bind_run _ _ _ _ _ Hsched). reflexivity.
      * split; [constructor|]. split.
        -- unfold left_to_read. now rewrite Hstate.
        -- rewrite (waveforms_since_app _ _ _ Hcs), Hp.
           destruct Hread as (_ & _ & Hk). rewrite Hstate in Hk. now subst k.
    + destruct (reading_call c b k Hinv ltac:(congruence) Hc)
        as (r & b2 & k' & Hstep & Hr & Hinv2 & Hleft & Hcalls).
      destruct (IH b2 k' Hinv2 Hrest) as (results & b' & Hrun & Hpos & Hsum & Hw).
      { cbn [List.length] in Hlen. lia. }
      exists (r :: results), b'. split.
      * cbn [run]. rewrite (bind_run _ _ _ _ _ Hstep).
        destruct (Z.ltb_spec r 0); [lia|].
        rewrite (bind_run _ _ _ _ _ Hrun). reflexivity.
      * split; [now constructor|]. split; [cbn [fold_right]; lia|exact Hw].
    + destruct (reading_call c b k Hinv ltac:(congruence) Hc)
        as (r & b2 & k' & Hstep & Hr & Hinv2 & Hleft & Hcalls).
      destruct (IH b2 k' Hinv2 Hrest) as (results & b' & Hrun & Hpos & Hsum & Hw).
      { cbn [List.length] in Hlen. lia. }
      exists (r :: results), b'. split.
      * cbn [run]. rewrite (bind_run _ _ _ _ _ Hstep).
        destruct (Z.ltb_spec r 0); [lia|].
        rewrite (bind_run _ _ _ _ _ Hrun). reflexivity.
      * split; [now constructor|]. split; [cbn [fold_right]; lia|exact Hw].
Qed.

Hypothesis not_triggered : d_was_triggered_once b0 = false.

Hypothesis waiting : state (d_bstate b0) = WAITING.

Hypothesis nothing_pending : d_data_rdy b0 = false.

Hypothesis captures : 1 <= N.

(** The first call arms, waits, starts the sequence and reads the first
    samples of waveform 0. *)
Lemma first_call (c : world * Z) :
  clean_call b0 c ->
  exists r b2,
    scheduled_work c b0 = Ok r b2
    /\ 0 <= r
    /\ capturing b0 b2 1
    /\ left_to_read N D (d_bstate b2) = N * D - r
    /\ calls_needed N D (d_bstate b2) + 1 <= N * (D + 1).
Proof.
  intros (Harm & Hpre & Hget & Hnot & Hstat & Hn).
  assert (Honce : d_trigger_once b0 && d_was_triggered_once b0 = false)
    by (rewrite not_triggered; apply andb_false_r).
  destruct (rapid_block_waiting_proceeds (fst c) b0 mode_rapid Honce nothing_pending
              Harm Hnot channels_fit ports_fit) as (bwi & Hwait).
  pose proof (preserves_Ok capture_frame _ _ _ _ capture_frame_refl
                (capture_frame_rapid_block_waiting _) Hwait) as Hcfw.
  destruct (rapid_block_waiting_post _ _ _ _ Hwait) as (_ & bw & Hnp & Hbwi).
  destruct Hnp as (_ & _ & Hnw & _ & Hsw & (csw & Hcsw & Hpw)).
  destruct (bstate_initialize_starts (d_nr_captures bw) (d_bstate bw))
    as (Hist & Hiidx & Hicount).
  assert (Hbs : d_bstate bwi = bstate_initialize N (d_bstate bw)).
  { subst bwi. unfold N. rewrite <- Hnw. now destruct bw. }
  assert (Hcalls_w : driver_calls bwi = driver_calls b0 ++ csw).
  { subst bwi. rewrite <- Hcsw. now destruct bw. }
  assert (Hsti : state (d_bstate bwi) = READING_PART1)
    by (rewrite Hbs; apply bstate_initialize_starts).
  pose proof Hcfw as (Hsame & Hch & Hpo).
  pose proof Hsame as (_ & _ & _ & _ & _ & _ & _ & _ & Hm & _ & _ & _ & Hcset & Hpset & _).
  assert (HD : to_int (get_block_size_with_downsampling bwi) = D)
    by (unfold D; now rewrite (capture_frame_block_size _ _ Hcfw)).
  destruct (rapid_block_part1_reads (fst c) (snd c) bwi Hpre Hget)
    as (b1 & Hrun & Hbs1); [congruence..|].
  cbv zeta in Hrun, Hbs1. rewrite HD in Hrun, Hbs1.
  pose proof (rapid_block_part1_post _ _ _ _ _ Hrun)
    as (_ & _ & _ & Hf1 & (cs1 & Hcs1 & Hp1) & _).
  pose proof (preserves_Ok capture_frame _ _ _ _ capture_frame_refl
                (capture_frame_work_rapid_block _ _)
                (eq_trans (work_rapid_block_part1 _ _ _ Hsti) Hrun)) as Hcf1.
  assert (Hwrb : work_rapid_block (fst c) (snd c) b0 = Ok (Z.min (snd c) D) b1).
  { unfold work_rapid_block. rewrite (bind_run get _ b0 b0 b0 eq_refl), waiting.
    cbn [rapid_block_state_eqb]. rewrite (bind_run _ _ _ _ _ Hwait).
    rewrite (bind_run get _ bwi bwi bwi eq_refl), Hsti. exact Hrun. }
  destruct (scheduled_work_returns _ _ _ _ mode_rapid Hwrb)
    as (b2 & Hstep & (_ & _ & _ & Hf2 & Hs2 & (cs2 & Hcs2 & Hp2)) & Hcf2).
  assert (Hread0 : reading N D (d_bstate bwi) 0).
  { rewrite Hbs. destruct (bstate_initialize_starts N (d_bstate bw)) as (E1 & E2 & E3).
    unfold reading. rewrite E1, E2, E3. repeat split; lia. }
  destruct (first_read_step N D (snd c) (d_bstate bwi) 0 size_fits Hn Hread0 Hsti)
    as (Hr & Hread' & Hleft & Hcalls).
  cbv zeta in *. rewrite <- Hbs1, <- Hs2 in Hread', Hleft, Hcalls.
  assert (Hl0 : left_to_read N D (d_bstate bwi) = N * D).
  { unfold left_to_read. rewrite Hsti, Hbs.
    destruct (bstate_initialize_starts N (d_bstate bw)) as (_ & -> & _). lia. }
  assert (Hc0 : calls_needed N D (d_bstate bwi) = N * (D + 1)).
  { unfold calls_needed. rewrite Hsti, Hbs.
    destruct (bstate_initialize_starts N (d_bstate bw)) as (_ & -> & _). lia. }
  exists (Z.min (snd c) D), b2.
  split; [exact Hstep|]. split; [exact Hr|].
  split; [|split; lia].
  split; [eapply capture_frame_trans; [exact Hcfw|];
          eapply capture_frame_trans; eassumption|].
  split; [congruence|]. split; [exact Hread'|].
  exists (csw ++ cs1 ++ cs2). split.
  - rewrite Hcs2, Hcs1, Hcalls_w. now rewrite !app_assoc.
  - rewrite !prefetched_app, Hpw, Hp1, Hp2. rewrite Hbs.
    destruct (bstate_initialize_starts N (d_bstate bw)) as (_ & -> & _). reflexivity.
Qed.

(** The whole run. *)
Lemma run_produces_sequence (calls : list (world * Z)) :
  Forall (clean_call b0) calls ->
  N * (D + 1) < Z.of_nat (List.length calls) ->
  exists results b',
    run calls b0 = Ok (results ++ [-1]) b'
    /\ Forall (fun r => 0 <= r) results
    /\ fold_right Z.add 0 results = N * D
    /\ waveforms_since b0 b' = map Z.of_nat (seq 0 (Z.to_nat N)).
Proof.
  intros Hclean Hlen.
  destruct calls as [|c rest]; [cbn [List.length] in Hlen; nia|].
  inversion Hclean as [|? ? Hc Hrest]; subst.
  destruct (first_call c Hc) as (r & b2 & Hstep & Hr & Hinv & Hleft & Hcalls).
  destruct (run_reads_sequence rest b2 1 Hinv Hrest)
    as (results & b' & Hrun & Hpos & Hsum & Hw).
  { cbn [List.length] in Hlen. lia. }
  exists (r :: results), b'. split.
  - cbn [run]. rewrite (bind_run _ _ _ _ _ Hstep).
    destruct (Z.ltb_spec r 0); [lia|].
    rewrite (bind_run _ _ _ _ _ Hrun). reflexivity.
  - split; [now constructor|]. split; [cbn [fold_right]; lia|exact Hw].
Qed.

End Run.

(** C3, as the code has it.  In RAPID_BLOCK mode with [trigger_once]
    set, a run that starts with the block waiting and nothing read reads
    one capture sequence of [d_nr_captures] waveforms, not one waveform.
    Whatever the collaborators answer, the waveforms it begins are 0, 1, ...,
    k-1, each once and in order, with k at most [d_nr_captures], and
    [d_was_triggered_once] is set as soon as one was begun.  From then on
    every call of [work] that finds the block WAITING returns -1 and leaves
    the block as it is, so this goes on for ever.  And the sequence is read
    to its end when nothing fails: in a run of enough calls in which the
    driver and the wait report no error, [work] returns the samples of all
    [d_nr_captures] waveforms, 0, 1, ..., [d_nr_captures] - 1, each of the
    downsampled block size, and then -1. *)
Theorem rapid_block_trigger_once :
  (forall (calls : list (world * Z)) (b0 b' : block) (results : list Z),
      d_acquisition_mode b0 = RAPID_BLOCK ->
      d_trigger_once b0 = true ->
      d_was_triggered_once b0 = false ->
      state (d_bstate b0) = WAITING ->
      1 <= d_nr_captures b0 ->
      run calls b0 = Ok results b' ->
      exists k : nat,
        waveforms_since b0 b' = map Z.of_nat (seq 0 k)
        /\ Z.of_nat k <= d_nr_captures b0
        /\ (k <> 0%nat -> d_was_triggered_once b' = true)
        /\ d_acquisition_mode b' = RAPID_BLOCK
        /\ d_trigger_once b' = true)
  /\ (forall (w : world) (n : Z) (b : block),
        d_acquisition_mode b = RAPID_BLOCK ->
        d_trigger_once b = true ->
        d_was_triggered_once b = true ->
        state (d_bstate b) = WAITING ->
        work w n b = Ok (-1) b)
  /\ (forall (calls : list (world * Z)) (b0 : block),
        d_acquisition_mode b0 = RAPID_BLOCK ->
        d_trigger_once b0 = true ->
        d_was_triggered_once b0 = false ->
        state (d_bstate b0) = WAITING ->
        1 <= d_nr_captures b0 ->
        d_data_rdy b0 = false ->
        d_ai_channels b0 <= Z.of_nat (List.length (d_channel_settings b0)) ->
        d_ports b0 <= Z.of_nat (List.length (d_port_settings b0)) ->
        let D := to_int (get_block_size_with_downsampling b0) in
        0 <= D ->
        Forall (clean_call b0) calls ->
        d_nr_captures b0 * (D + 1) < Z.of_nat (List.length calls) ->
        exists (results : list Z) (b' : block),
          run calls b0 = Ok (results ++ [-1]) b'
          /\ Forall (fun r => 0 <= r) results
          /\ fold_right Z.add 0 results = d_nr_captures b0 * D
          /\ waveforms_since b0 b'
             = map Z.of_nat (seq 0 (Z.to_nat (d_nr_captures b0)))).
Proof.
  split; [|split].
  - intros calls b0 b' results Hm Ho Hf Hst HN Hrun.
    assert (Hinv : one_sequence b0 b0).
    { split; [exact Hm|]. split; [exact Ho|]. split; [reflexivity|].
      exists []. split; [now rewrite app_nil_r|]. left. now repeat split. }
    destruct (run_one_sequence _ _ _ _ _ Hinv HN Hrun)
      as (Hm' & Ho' & _ & (k & Hw & Hk & Hk0)).
    exists k. now repeat split.
  - exact work_rapid_block_done.
  - intros calls b0 Hm Ho Hf Hst HN Hrdy Hch Hpo D HD Hclean Hlen.
    eapply run_produces_sequence; eassumption.
Qed.

End CaptureSequence.

(** The claim of exactly one waveform fails with two captures configured:
    with [trigger_once] set, the run reads waveform 0 and waveform 1, one
    sample each, and only then ends the stream. *)
Lemma exactly_one_waveform_counterexample :
  d_acquisition_mode rapid_example_block = RAPID_BLOCK
  /\ d_trigger_once rapid_example_block = true
  /\ d_nr_captures rapid_example_block = 2
  /\ exists b',
       @run example_header three_calls rapid_example_block = Ok [1; 1; -1] b'
       /\ waveforms_since rapid_example_block b' = [0; 1].
Proof.
  split; [reflexivity|]. split; [reflexivity|]. split; [reflexivity|].
  eexists. split; vm_compute; reflexivity.
Qed.

Lemma rapid_block_trigger_once_witness :
  (exists k : nat,
     waveforms_since rapid_example_block
       (result_state (@run example_header three_calls rapid_example_block)
          rapid_example_block)
     = map Z.of_nat (seq 0 k)
     /\ Z.of_nat k <= d_nr_captures rapid_example_block)
  /\ Forall (clean_call rapid_example_block) five_calls
  /\ exists (results : list Z) (b' : block),
       @run example_header five_calls rapid_example_block = Ok (results ++ [-1]) b'
       /\ fold_right Z.add 0 results = 2 * 1
       /\ waveforms_since rapid_example_block b' = [0; 1].
Proof.
  destruct (@rapid_block_trigger_once example_header) as (Hrun & _ & Hall).
  split.
  - destruct (Hrun three_calls rapid_example_block
                (result_state (@run example_header three_calls rapid_example_block)
                   rapid_example_block)
                [1; 1; -1]
                eq_refl eq_refl eq_refl eq_refl
                ltac:(vm_compute; discriminate)
                ltac:(vm_compute; reflexivity))
      as (k & Hw & Hk & _).
    exists k. split; assumption.
  - assert (Hclean : Forall (clean_call rapid_example_block) five_calls).
    { unfold five_calls. cbn [repeat].
      repeat constructor; try reflexivity; vm_compute; discriminate. }
    split; [exact Hclean|].
    destruct (Hall five_calls rapid_example_block eq_refl eq_refl eq_refl eq_refl
                ltac:(vm_compute; discriminate) eq_refl
                ltac:(vm_compute; discriminate) ltac:(vm_compute; discriminate)
                ltac:(vm_compute; discriminate) Hclean
                ltac:(vm_compute; reflexivity))
      as (results & b' & Hres & _ & Hsum & Hw).
    exists results, b'. split; [exact Hres|]. split; assumption.
Defined.

(** ** The poller thread's loop *)

Section Poller.

Variable threshold : IEEE.double.

Lemma poll_iteration_no_check (pw : poller_world) (l : poller_locals) (b : block) :
  poller_between_iterations l ->
  poller_state_check_counter l + 1 < check_every_n_times ->
  exists eff,
    poll_iteration threshold pw l b
    = Ok (Some (l <| poller_state_check_counter := poller_state_check_counter l + 1 |>),
          eff) b
    /\ (state_read l = Some IDLE -> eff = no_effects).
Proof.
  intros [Hc Hst] Hlt. unfold poll_iteration, check_every_n_times in *.
  rewrite to_uint32_small by lia.
  destruct (Z.geb_spec (poller_state_check_counter l + 1) 10); [lia|].
  unfold bind at 1. cbn [ret].
  destruct l as [c st]. cbn in *. unfold constant.
  destruct Hst as [-> | ->].
  - eexists. split; [reflexivity|reflexivity].
  - eexists. split; [reflexivity|discriminate].
Qed.

Lemma poll_iteration_check (pw : poller_world) (l : poller_locals) (b : block) :
  check_every_n_times <= poller_state_check_counter l + 1 < 2 ^ 32 ->
  poll_iteration threshold pw l b
  = match d_poller_state b with
    | PEND_IDLE =>
        Ok (Some {| poller_state_check_counter := 0; state_read := Some IDLE |},
            no_effects) (b <| d_poller_state := IDLE |>)
    | PEND_EXIT => Ok (None, no_effects) (b <| d_poller_state := EXIT |>)
    | RUNNING =>
        Ok (Some {| poller_state_check_counter := 0; state_read := Some RUNNING |},
            {| polled := true;
               app_buffer_notified :=
                 (if ec_set (driver_poll pw) then [driver_poll pw] else [])
                 ++ (if IEEE.lt (IEEE.to_double (get_avg_value pw))
                          (dmul (get_samp_rate b) threshold)
                     then [Watchdog] else []) |}) b
    | st =>
        Ok (Some {| poller_state_check_counter := 0; state_read := Some st |},
            no_effects) b
    end.
Proof.
  intros Hc. unfold poll_iteration, check_every_n_times in *.
  rewrite to_uint32_small by lia.
  destruct (Z.geb_spec (poller_state_check_counter l + 1) 10); [|lia].
  unfold bind at 1 2, gets. cbn [ret state_read].
  destruct (d_poller_state b); reflexivity.
Qed.

Lemma poll_iterations_quiet (pws : list poller_world) :
  forall (c : Z) (st : poller_state_t) (b : block),
    0 <= c -> c + Z.of_nat (List.length pws) < check_every_n_times ->
    st = IDLE \/ st = RUNNING ->
    exists effs,
      poll_iterations threshold pws
        {| poller_state_check_counter := c; state_read := Some st |} b
      = Ok (Some {| poller_state_check_counter := c + Z.of_nat (List.length pws);
                    state_read := Some st |}, effs) b
      /\ (st = IDLE -> Forall (fun e => e = no_effects) effs).
Proof.
  induction pws as [|pw rest IH]; intros c st b Hc Hlen Hst.
  - exists []. cbn [poll_iterations List.length]. rewrite Z.add_0_r.
    split; [reflexivity|]. intros _. constructor.
  - cbn [List.length] in Hlen.
    destruct (poll_iteration_no_check pw
                {| poller_state_check_counter := c; state_read := Some st |} b)
      as (eff & Hit & Heff).
    { split; [cbn; unfold check_every_n_times in *; lia|].
      cbn. destruct Hst as [-> | ->]; [now left|now right]. }
    { cbn. lia. }
    destruct (IH (c + 1) st b ltac:(lia) ltac:(lia) Hst) as (effs & Hrest & Heffs).
    exists (eff :: effs). split.
    + cbn [poll_iterations]. unfold bind at 1. rewrite Hit. cbn [fst snd].
      unfold bind. cbn [poller_state_check_counter].
      match goal with |- context [poll_iterations _ _ ?x _] =>
        change x with {| poller_state_check_counter := c + 1; state_read := Some st |}
      end.
      rewrite Hrest. cbn [ret fst snd List.length].
      replace (c + Z.of_nat (Datatypes.S (List.length rest)))
        with (c + 1 + Z.of_nat (List.length rest)) by lia.
      reflexivity.
    + intros ->. constructor; [now apply Heff|now apply Heffs].
Qed.

Lemma poll_iterations_app (p1 p2 : list poller_world) :
  forall (l l1 : poller_locals) (b b1 : block) (e1 : list poller_effects),
    poll_iterations threshold p1 l b = Ok (Some l1, e1) b1 ->
    poll_iterations threshold (p1 ++ p2) l b
    = (r <- poll_iterations threshold p2 l1 ;; ret (fst r, e1 ++ snd r)) b1.
Proof.
  induction p1 as [|pw rest IH]; intros l l1 b b1 e1 Hrun.
  - cbn in Hrun. injection Hrun as <- <- <-. cbn [app].
    unfold bind. destruct (poll_iterations threshold p2 l b) as [[r e] s| | | |];
      reflexivity.
  - cbn [app poll_iterations] in *. unfold bind at 1 in Hrun. unfold bind at 1.
    destruct (poll_iteration threshold pw l b) as [[[l'|] eff] s| | | |];
      try discriminate. cbn [fst snd] in *.
    unfold bind at 1 in Hrun.
    destruct (poll_iterations threshold rest l' s) as [[r e] s'| | | |] eqn:Hrest;
      try discriminate.
    cbn in Hrun. injection Hrun as -> <- <-.
    unfold bind at 1. rewrite (IH _ _ _ _ _ Hrest).
    unfold bind. destruct (poll_iterations threshold p2 l1 s') as [[r2 e2] s2| | | |];
      reflexivity.
Qed.

(** X20.  The poller reads [d_poller_state] on every tenth iteration.
    Between two iterations, with the counter at [c] and nobody else writing
    the state, a request PEND_IDLE is acknowledged with IDLE after [10 - c]
    iterations, the poller going on idle; a request PEND_EXIT is
    acknowledged with EXIT after [10 - c] iterations, and the thread
    returns.  Nothing else in the block changes. *)
Theorem poller_acknowledges_within_ten_iterations :
  forall (pws : list poller_world) (l : poller_locals) (b : block),
    poller_between_iterations l ->
    Z.of_nat (List.length pws) = check_every_n_times - poller_state_check_counter l ->
    (d_poller_state b = PEND_IDLE ->
       exists effs,
         poll_iterations threshold pws l b
         = Ok (Some {| poller_state_check_counter := 0; state_read := Some IDLE |},
               effs) (b <| d_poller_state := IDLE |>))
    /\ (d_poller_state b = PEND_EXIT ->
        exists effs,
          poll_iterations threshold pws l b
          = Ok (None, effs) (b <| d_poller_state := EXIT |>)).
Proof.
  intros pws l b [Hc Hst] Hlen. unfold check_every_n_times in *.
  destruct l as [c st]. cbn [poller_state_check_counter state_read] in Hc, Hst, Hlen.
  assert (Hsplit : exists p1 pw, pws = p1 ++ [pw]
                     /\ Z.of_nat (List.length p1) = 9 - c).
  { destruct (exists_last (l := pws)) as (p1 & pw & ->).
    { intros ->. cbn [List.length] in Hlen. lia. }
    exists p1, pw. split; [reflexivity|]. rewrite length_app in Hlen.
    cbn [List.length] in Hlen. lia. }
  destruct Hsplit as (p1 & pw & -> & Hp1).
  assert (Hq : exists st' effs,
            st = Some st' /\
            poll_iterations threshold p1
              {| poller_state_check_counter := c; state_read := st |} b
            = Ok (Some {| poller_state_check_counter := 9; state_read := Some st' |},
                  effs) b).
  { destruct Hst as [-> | ->].
    - destruct (poll_iterations_quiet p1 c IDLE b) as (effs & Hrun & _);
        [lia|unfold check_every_n_times; lia|now left|].
      exists IDLE, effs. split; [reflexivity|]. rewrite Hrun.
      replace (c + Z.of_nat (List.length p1)) with 9 by lia. reflexivity.
    - destruct (poll_iterations_quiet p1 c RUNNING b) as (effs & Hrun & _);
        [lia|unfold check_every_n_times; lia|now right|].
      exists RUNNING, effs. split; [reflexivity|]. rewrite Hrun.
      replace (c + Z.of_nat (List.length p1)) with 9 by lia. reflexivity. }
  destruct Hq as (st' & effs & -> & Hrun).
  rewrite (poll_iterations_app _ _ _ _ _ _ _ Hrun).
  cbn [poll_iterations]. unfold bind.
  rewrite poll_iteration_check by (cbn; unfold check_every_n_times; lia).
  split; intros Hreq; rewrite Hreq; eexists; reflexivity.
Qed.

(** X21.  While the requested state stays IDLE, an idle poller does
    nothing, for any number of iterations: it does not call [driver_poll],
    it notifies the application buffer of nothing, not of the watchdog
    either, and it does not write to the block. *)
Theorem idle_poller_is_silent :
  forall (pws : list poller_world) (l : poller_locals) (b : block),
    poller_between_iterations l ->
    state_read l = Some IDLE ->
    d_poller_state b = IDLE ->
    exists l' effs,
      poll_iterations threshold pws l b = Ok (Some l', effs) b
      /\ Forall (fun e => e = no_effects) effs
      /\ poller_between_iterations l'
      /\ state_read l' = Some IDLE.
Proof.
  induction pws as [|pw rest IH]; intros l b Hinv Hst Hb.
  - exists l, []. repeat split; try assumption; try apply Hinv. constructor.
  - destruct Hinv as [Hc Hst']. unfold check_every_n_times in Hc.
    destruct l as [c st]. cbn [poller_state_check_counter state_read] in Hc, Hst.
    subst st.
    assert (Hstep : exists l1,
              poll_iteration threshold pw
                {| poller_state_check_counter := c; state_read := Some IDLE |} b
              = Ok (Some l1, no_effects) b
              /\ poller_between_iterations l1 /\ state_read l1 = Some IDLE).
    { destruct (Z.lt_ge_cases (c + 1) 10) as [Hlt|Hge].
      - destruct (poll_iteration_no_check pw
                    {| poller_state_check_counter := c; state_read := Some IDLE |} b)
          as (eff & Hit & Heff).
        { split; [exact Hc|now left]. }
        { exact Hlt. }
        rewrite (Heff eq_refl) in Hit. eexists. split; [exact Hit|].
        split; [|reflexivity]. split; [|now left].
        change (0 <= c + 1 < 10). lia.
      - rewrite poll_iteration_check by (cbn; unfold check_every_n_times; lia).
        rewrite Hb. eexists. split; [reflexivity|].
        split; [|reflexivity]. split; [|now left].
        change (0 <= 0 < 10). lia. }
    destruct Hstep as (l1 & Hit & Hinv1 & Hst1).
    destruct (IH l1 b Hinv1 Hst1 Hb) as (l' & effs & Hrun & Heffs & Hinv' & Hst2).
    exists l', (no_effects :: effs). split.
    + cbn [poll_iterations]. unfold bind at 1. rewrite Hit. cbn [fst snd].
      unfold bind. rewrite Hrun. reflexivity.
    + split; [constructor; [reflexivity|exact Heffs]|]. now split.
Qed.

End Poller.

Section TagsWithin.

Context {H : Header}.
Variables lo hi : Z.

Lemma tags_within_refl (b : block) : tags_within lo hi b b.
Proof. exists []. split; [now rewrite app_nil_r|constructor]. Qed.

Lemma tags_within_trans (b1 b2 b3 : block) :
  tags_within lo hi b1 b2 -> tags_within lo hi b2 b3 -> tags_within lo hi b1 b3.
Proof.
  intros (n1 & H1 & F1) (n2 & H2 & F2). exists (n1 ++ n2). split.
  - now rewrite H2, H1, app_assoc.
  - apply Forall_app. now split.
Qed.

Lemma tags_within_frame (f : block -> block) :
  (forall b, item_tags (f b) = item_tags b) ->
  preserves (tags_within lo hi) (modify f).
Proof.
  intros Hf. apply (preserves_modify _ tags_within_trans). intros b.
  exists []. split; [now rewrite Hf, app_nil_r|constructor].
Qed.

Lemma tags_within_add_item_tag (which_output : Z) (tag : tag_t) :
  lo <= tag_offset tag < hi ->
  preserves (tags_within lo hi) (add_item_tag which_output tag).
Proof.
  intros Htag. apply (preserves_modify _ tags_within_trans). intros b.
  exists [(which_output, tag)]. split; [now destruct b|].
  constructor; [exact Htag|constructor].
Qed.

End TagsWithin.

Ltac tags_leaf :=
  first [ apply tags_within_add_item_tag; cbn [tag_offset]; lia
        | apply tags_within_frame; let b := fresh "b" in intro b; now destruct b ].

Ltac tags_step := preserves_step tags_leaf.

Section TagsInRange.

Context {H : Header}.
Variables lo hi : Z.

Lemma tags_within_add_error_code (ec : error_code) :
  preserves (tags_within lo hi) (add_error_code ec).
Proof. unfold add_error_code. tags_leaf. Qed.

Lemma tags_within_call_driver (c : driver_call) :
  preserves (tags_within lo hi) (call_driver c).
Proof. unfold call_driver. tags_leaf. Qed.

Lemma tags_within_convert_to_aichan_idx (id : string) :
  preserves (tags_within lo hi) (convert_to_aichan_idx id).
Proof.
  unfold convert_to_aichan_idx. destruct id as [|c [|c' id']]; repeat tags_step.
Qed.

Lemma tags_within_find_analog_triggers (samples : list IEEE.float) (n : Z) :
  preserves (tags_within lo hi) (find_analog_triggers samples n).
Proof.
  unfold find_analog_triggers.
  repeat first [ apply tags_within_convert_to_aichan_idx | tags_step ].
Qed.

Lemma tags_within_find_digital_triggers (samples : list Z) (n mask : Z) :
  preserves (tags_within lo hi) (find_digital_triggers samples n mask).
Proof. unfold find_digital_triggers. repeat tags_step. Qed.

Lemma tags_within_tag_enabled_outputs (b : block) (chan_tag : Z -> blk tag_t)
    (port_tag : tag_t) :
  (forall i, preserves (tags_within lo hi) (chan_tag i)) ->
  (forall i, returns (chan_tag i) (fun t => lo <= tag_offset t < hi)) ->
  lo <= tag_offset port_tag < hi ->
  preserves (tags_within lo hi) (tag_enabled_outputs b chan_tag port_tag).
Proof.
  intros Hchan Hret Hport. unfold tag_enabled_outputs.
  apply preserves_bind; [|intro].
  - apply preserves_for_upto. intros i output_idx.
    apply preserves_bind; [apply preserves_index|]. intros c.
    apply preserves_if; [|apply preserves_ret].
    apply (preserves_bind_returns _ _ _ _ (Hchan i) (Hret i)).
    intros tag Htag. apply preserves_bind; [|intro; apply preserves_ret].
    now apply tags_within_add_item_tag.
  - apply preserves_bind; [|intro; apply preserves_ret].
    apply preserves_for_upto. intros i output_idx.
    apply preserves_bind; [apply preserves_index|]. intros p.
    apply preserves_if; [|apply preserves_ret].
    apply preserves_bind; [|intro; apply preserves_ret].
    now apply tags_within_add_item_tag.
Qed.

Lemma hysteresis_offsets_window {A} (idle : bool) (fire rearm : A -> bool)
    (samples : list A) (n ts : Z) :
  Forall (fun o => 0 <= o < n)
    (fst (hysteresis_loop idle fire rearm 0 (firstn (Z.to_nat n) samples) ts)).
Proof.
  apply Forall_forall. intros k Hk.
  apply hysteresis_offsets_range in Hk. rewrite length_firstn in Hk. lia.
Qed.

Lemma find_digital_triggers_offsets (samples : list Z) (n mask : Z) :
  returns (find_digital_triggers samples n mask) (Forall (fun o => 0 <= o < n)).
Proof.
  intros b offs b' Hrun. apply find_digital_triggers_loop in Hrun.
  cbv zeta in Hrun. destruct Hrun as (_ & -> & _).
  apply hysteresis_offsets_window.
Qed.

Lemma find_analog_triggers_offsets (samples : list IEEE.float) (n : Z) :
  returns (find_analog_triggers samples n) (Forall (fun o => 0 <= o < n)).
Proof.
  intros b offs b' Hrun.
  destruct (negb (is_enabled (d_trigger_settings b)) || (n =? 0)) eqn:Hskip.
  - unfold find_analog_triggers, bind, gets, assert in Hrun.
    destruct (n >=? 0); [|discriminate]. rewrite Hskip in Hrun.
    injection Hrun as <- _. constructor.
  - destruct (find_analog_triggers_loop _ _ _ _ _ Hrun Hskip)
      as (aichan & chan & _ & _ & _ & _ & Hr).
    cbv zeta in Hr. destruct Hr as [-> _]. unfold analog_loop.
    destruct (is_rising_or_high (direction (d_trigger_settings b)));
      rewrite ?analog_rising_loop_hysteresis, ?analog_falling_loop_hysteresis;
      apply hysteresis_offsets_window.
Qed.

End TagsInRange.

Section StreamTags.

Context {H : Header}.

Lemma work_stream_chunk_tags (w : world) (n : Z) (b b' : block) (r : Z) :
  0 < to_int (d_buffer_size b) ->
  work_stream_chunk w (to_int (d_buffer_size b)) b = Ok r b' ->
  tags_within (nitems_written0 b) (nitems_written0 b + to_int (d_buffer_size b)) b b'.
Proof.
  intros Hpos Hrun.
  unfold work_stream_chunk in Hrun. rewrite (bind_run get _ b b b eq_refl) in Hrun.
  match type of Hrun with ?m b = _ =>
    assert (Hp : preserves (tags_within (nitems_written0 b)
                              (nitems_written0 b + to_int (d_buffer_size b))) m);
    [|exact (preserves_Ok _ m b b' r
               (tags_within_refl _ _) Hp Hrun)]
  end.
  clear Hrun.
  set (lo := nitems_written0 b). set (hi := lo + to_int (d_buffer_size b)).
  assert (Hlo : lo <= lo < hi) by (unfold hi; lia).
  assert (Hfold : forall offs : list Z,
            Forall (fun o => 0 <= o < to_int (d_buffer_size b)) offs ->
            preserves (tags_within lo hi)
              (fold_left
                 (fun (k : blk unit) trigger_offset =>
                    k ;;
                    let trigger_tag := {| tag_offset := nitems_written0 b + trigger_offset;
                                          value := trigger_tag_empty |} in
                    tag_enabled_outputs b (fun _ => ret trigger_tag) trigger_tag)
                 offs (ret tt))).
  { intros offs. generalize (ret (S:=block) tt), (preserves_ret (tags_within lo hi) tt).
    induction offs as [|o rest IH]; intros k0 Hk0 Hoffs; [exact Hk0|].
    inversion Hoffs as [|? ? Ho Hrest]; subst. cbn [fold_left].
    apply IH; [|exact Hrest].
    apply preserves_bind; [exact Hk0|intro]. cbv zeta.
    apply tags_within_tag_enabled_outputs.
    - intro. apply preserves_ret.
    - intro. intros ? ? ? Hr. injection Hr as <- _.
      cbn [tag_offset]. fold lo. unfold hi. lia.
    - cbn [tag_offset]. fold lo. unfold hi. lia. }
  assert (Htrig : forall (outs : list buffer),
            returns
              (if is_analog (d_trigger_settings b) then
                 aichan <- convert_to_aichan_idx (source (d_trigger_settings b)) ;;
                 output_idx <- for_upto aichan
                   (fun i output_idx =>
                      c <- index (d_channel_settings b) i ;;
                      ret (if enabled c then output_idx + 2 else output_idx)) 0 ;;
                 buf <- index outs output_idx ;;
                 buffer <- as_floats buf ;;
                 find_analog_triggers buffer (to_int (d_buffer_size b))
               else if is_digital (d_trigger_settings b) then
                 let port := Z.quot (pin_number (d_trigger_settings b)) 8 in
                 let pin := Z.rem (pin_number (d_trigger_settings b)) 8 in
                 let mask := Z.shiftl 1 pin in
                 buf <- index outs (output_items_size w - d_ports b + port) ;;
                 buffer <- as_bytes buf ;;
                 find_digital_triggers buffer (to_int (d_buffer_size b)) (to_uint8 mask)
               else ret [])
              (Forall (fun o => 0 <= o < to_int (d_buffer_size b)))).
  { intros outs.
    repeat first [ apply find_analog_triggers_offsets
                 | apply find_digital_triggers_offsets
                 | apply returns_if
                 | apply returns_bind; intro
                 | progress cbv zeta
                 | intros ? ? ? Hr; injection Hr as <- _; constructor ]. }
  apply preserves_bind; [repeat tags_step|]. intros [[idx ais] aes].
  apply preserves_bind; [repeat tags_step|]. intros r0.
  apply preserves_bind.
  { apply tags_within_tag_enabled_outputs.
    - intro. repeat tags_step.
    - intro. apply returns_bind. intro. intros ? ? ? Hr.
      injection Hr as <- _. exact Hlo.
    - exact Hlo. }
  intros _.
  eapply preserves_bind_returns;
    [|apply Htrig
     |intros offs Hoffs; apply preserves_bind;
      [exact (Hfold offs Hoffs)|intro; apply preserves_ret]].
  repeat first
    [ apply tags_within_convert_to_aichan_idx
    | apply tags_within_find_analog_triggers
    | apply tags_within_find_digital_triggers
    | progress cbv zeta
    | tags_step
    | unfold as_floats, as_bytes ].
Qed.

Lemma work_stream_tags (w : world) (n : Z) (b b' : block) (r : Z) :
  work_stream w n b = Ok r b' -> r > 0 ->
  r = to_int (d_buffer_size b)
  /\ tags_within (nitems_written0 b) (nitems_written0 b + r) b b'.
Proof.
  intros Hrun Hr.
  pose proof (work_stream_returns _ _ _ _ _ Hrun) as [-> | [-> | ->]]; try lia.
  split; [reflexivity|].
  unfold work_stream in Hrun. rewrite (bind_run get _ b b b eq_refl) in Hrun.
  unfold bind at 1, assert in Hrun.
  destruct (n >=? to_int (d_buffer_size b)); [|discriminate].
  destruct (ec_set (app_buffer_wait_data_ready w)) eqn:Hec.
  - exfalso. unfold bind at 1, add_error_code, modify in Hrun.
    destruct (ec_eqb (app_buffer_wait_data_ready w) Stopped).
    { injection Hrun as Hrun _. lia. }
    destruct (ec_eqb (app_buffer_wait_data_ready w) Watchdog).
    { apply bind_Ok in Hrun. destruct Hrun as (? & ? & _ & Hrun).
      apply bind_Ok in Hrun. destruct Hrun as (? & ? & _ & Hrun).
      injection Hrun as Hrun _. lia. }
    injection Hrun as Hrun _. lia.
  - unfold bind at 1, ret in Hrun.
    assert (Hnone : app_buffer_wait_data_ready w = ec_none).
    { unfold ec_set in Hec. apply negb_false_iff in Hec.
      destruct (app_buffer_wait_data_ready w); cbn in Hec; try discriminate.
      reflexivity. }
    rewrite Hnone in Hrun. cbn [ec_eqb ec_set negb] in Hrun.
    eapply work_stream_chunk_tags; [exact n|lia|exact Hrun].
Qed.

(** X22.  In STREAMING mode every tag a call of [work] attaches, when it
    returns [r > 0], lies within the items of that call: its offset is at
    least [nitems_written(0)] and less than [nitems_written(0) + r]. *)
Theorem work_stream_tags_in_range :
  forall (w : world) (noutput_items : Z) (b b' : block) (r : Z),
    d_acquisition_mode b = STREAMING ->
    work w noutput_items b = Ok r b' ->
    r > 0 ->
    exists new,
      item_tags b' = item_tags b ++ new
      /\ Forall (fun t => nitems_written0 b <= tag_offset (snd t)
                                         < nitems_written0 b + r) new.
Proof.
  intros w n b b' r Hmode Hrun Hr.
  unfold work in Hrun. rewrite (bind_run get _ b b b eq_refl) in Hrun.
  rewrite Hmode in Hrun. apply bind_Ok in Hrun.
  destruct Hrun as (r1 & b1 & Hstream & Hrest).
  rewrite (bind_run get _ b1 b1 b1 eq_refl) in Hrest.
  apply bind_Ok in Hrest. destruct Hrest as ([] & b2 & Htb & Hret).
  apply Ok_inj in Hret. destruct Hret as [-> ->].
  destruct (work_stream_tags _ _ _ _ _ Hstream Hr) as [_ Htags].
  assert (Hnw : nitems_written0 b1 = nitems_written0 b).
  { pose proof (preserves_Ok quiet _ _ _ _ quiet_refl
                  (quiet_work_stream w n) Hstream) as Hq.
    apply Hq. }
  apply (tags_within_trans _ _ b b1 b'); [exact Htags|].
  assert (Hp : preserves (tags_within (nitems_written0 b) (nitems_written0 b + r))
            (if (r >? 0) && negb (d_timebase_published b1) then
               let timebase_tag :=
                 {| tag_offset := nitems_written0 b1;
                    value := timebase_info_tag (get_timebase_with_downsampling b1) |} in
               _ <- for_upto (output_items_size w)
                      (fun i (_ : unit) => add_item_tag i timebase_tag) tt ;;
               modify (fun b => b <| d_timebase_published := true |>)
             else ret tt)).
  { rewrite Hnw. cbv zeta. repeat tags_step. }
  exact (preserves_Ok _ _ _ _ _ (tags_within_refl _ _) Hp Htb).
Qed.

End StreamTags.

Section DataReady.

Context {H : Header}.

Lemma notify_data_ready_outcome (ec : error_code) (b : block) :
  exists b1,
    notify_data_ready ec b = Ok tt b1
    /\ d_data_rdy b1 = true
    /\ d_data_rdy_errc b1 = ec
    /\ d_errors b1 = (if ec_set ec then push_error ec (d_errors b) else d_errors b).
Proof.
  unfold notify_data_ready, bind, add_error_code, modify, ret.
  destruct (ec_set ec); eexists; (split; [reflexivity|]); destruct b; repeat split.
Qed.

Lemma wait_data_ready_ready (w : world) (b : block) :
  d_data_rdy b = true -> wait_data_ready w b = Ok (d_data_rdy_errc b) b.
Proof.
  intros Hrdy. unfold wait_data_ready, bind, get, gets. now rewrite Hrdy.
Qed.

(** X23.  The data-ready handshake keeps one code, the last.  After
    [notify_data_ready ec], [wait_data_ready] returns [ec] at once and
    leaves the block as it is; a second notification replaces the code of
    the first, which is then only in the error ring (when it was an error);
    after [clear_data_ready] the flag and the code are reset, and a waiter
    gets the code of the next notification. *)
Theorem data_ready_last_notification_wins :
  forall (ec1 ec2 : error_code) (w : world) (b : block),
    exists b1 b2 b3 b4,
      notify_data_ready ec1 b = Ok tt b1
      /\ wait_data_ready w b1 = Ok ec1 b1
      /\ notify_data_ready ec2 b1 = Ok tt b2
      /\ wait_data_ready w b2 = Ok ec2 b2
      /\ d_errors b2
         = (if ec_set ec2 then push_error ec2 else fun l => l)
             (if ec_set ec1 then push_error ec1 (d_errors b) else d_errors b)
      /\ clear_data_ready b2 = Ok tt b3
      /\ d_data_rdy b3 = false /\ d_data_rdy_errc b3 = ec_none
      /\ wait_data_ready w b3 = Ok (notified w) b4.
Proof.
  intros ec1 ec2 w b.
  destruct (notify_data_ready_outcome ec1 b) as (b1 & H1 & R1 & E1 & L1).
  destruct (notify_data_ready_outcome ec2 b1) as (b2 & H2 & R2 & E2 & L2).
  assert (H3 : exists b3, clear_data_ready b2 = Ok tt b3
                 /\ d_data_rdy b3 = false /\ d_data_rdy_errc b3 = ec_none).
  { unfold clear_data_ready, bind, modify. eexists. split; [reflexivity|].
    destruct b2; split; reflexivity. }
  destruct H3 as (b3 & H3 & R3 & E3).
  destruct (notify_data_ready_outcome (notified w) b3) as (b4 & H4 & R4 & E4 & _).
  exists b1, b2, b3, b4.
  split; [exact H1|]. split; [rewrite <- E1; now apply wait_data_ready_ready|].
  split; [exact H2|]. split; [rewrite <- E2; now apply wait_data_ready_ready|].
  split; [rewrite L2, L1; now destruct (ec_set ec2)|].
  split; [exact H3|]. split; [exact R3|]. split; [exact E3|].
  unfold wait_data_ready. rewrite (bind_run get _ b3 b3 b3 eq_refl), R3.
  unfold bind. rewrite H4. unfold gets. now rewrite E4.
Qed.

End DataReady.

Section RapidBlockWaiting.

Context {H : Header}.

Lemma arm_refused (w : world) (b : block) :
  d_armed b = false -> ec_set (driver_arm w) = true ->
  arm w b
  = Throw (runtime_error ("arm failed: " ++ to_string (driver_arm w))%string)
      (b <| driver_calls ::= fun l => l ++ [call_driver_arm (driver_arm w)] |>
         <| d_errors ::= push_error (driver_arm w) |>).
Proof.
  intros Harmed Hec. unfold arm. unfold bind at 1, get at 1. rewrite Harmed.
  unfold bind at 1, call_driver at 1, modify at 1. rewrite Hec. reflexivity.
Qed.

(** [work] when [work_rapid_block] returns a value that is not positive. *)
Lemma work_rapid_block_no_output (w : world) (n : Z) (b b' : block) (r : Z) :
  d_acquisition_mode b = RAPID_BLOCK ->
  work_rapid_block w n b = Ok r b' -> r <= 0 ->
  work w n b = Ok r b'.
Proof.
  intros Hmode Hrun Hr. unfold work. rewrite (bind_run get _ b b b eq_refl), Hmode.
  rewrite (bind_run _ _ _ _ _ Hrun). rewrite (bind_run get _ b' b' b' eq_refl).
  destruct (Z.gtb_spec r 0); [lia|]. reflexivity.
Qed.

(** X24.  RAPID_BLOCK mode with [auto_arm], the block waiting and not
    finished by [trigger_once]: when the driver refuses to arm, [work]
    returns -1 (end of stream) with the block disarmed, the codes of the
    failed [driver_arm] (and of a failed [driver_disarm] before it)
    recorded, the fetch state unchanged and no tag attached. *)
Theorem rapid_block_arm_failure_ends_stream :
  forall (w : world) (noutput_items : Z) (b : block),
    d_acquisition_mode b = RAPID_BLOCK ->
    state (d_bstate b) = WAITING ->
    d_trigger_once b && d_was_triggered_once b = false ->
    d_auto_arm b = true ->
    ec_set (driver_arm w) = true ->
    exists b',
      work w noutput_items b = Ok (-1) b'
      /\ is_armed b' = false
      /\ d_errors b' = push_error (driver_arm w)
                         (if is_armed b && ec_set (driver_disarm w)
                          then push_error (driver_disarm w) (d_errors b)
                          else d_errors b)
      /\ d_bstate b' = d_bstate b
      /\ item_tags b' = item_tags b.
Proof.
  intros w n b Hmode Hstate Honce Hauto Hec.
  assert (Hwaits : waits_for_missing_poller b = false).
  { unfold waits_for_missing_poller, is_streaming. rewrite Hmode.
    cbn [acquisition_mode_eqb]. rewrite andb_false_r. reflexivity. }
  destruct (proj2 (disarm_outcome w b) Hwaits)
    as (b1 & Hdis & Harmed1 & Hframe & Hconf & Hsame & Hcalls & _).
  assert (Hb1 : d_bstate b1 = d_bstate b /\ item_tags b1 = item_tags b
                /\ d_errors b1 = (if is_armed b && ec_set (driver_disarm w)
                                  then push_error (driver_disarm w) (d_errors b)
                                  else d_errors b)).
  { unfold is_armed. destruct (d_armed b) eqn:Harmed.
    - destruct (Hcalls eq_refl) as [_ ->]. cbn [andb].
      clear - Hdis Harmed Hmode.
      unfold disarm, bind, get, modify, call_driver, add_error_code, ret in Hdis.
      rewrite Harmed, Hmode in Hdis. cbn [negb acquisition_mode_eqb] in Hdis.
      destruct (ec_set (driver_disarm w));
        apply Ok_inj in Hdis; destruct Hdis as [_ <-]; destruct b; repeat split.
    - rewrite (Hsame eq_refl). repeat split. }
  destruct Hb1 as (Hbs & Htags & Herr).
  eexists. split.
  - apply work_rapid_block_no_output; [exact Hmode| |lia].
    unfold work_rapid_block. rewrite (bind_run get _ b b b eq_refl), Hstate.
    cbn [rapid_block_state_eqb].
    unfold rapid_block_waiting. unfold bind at 1.
    rewrite (bind_run get _ b b b eq_refl), Honce, Hauto.
    unfold bind at 1. unfold bind at 1. rewrite Hdis.
    unfold try_catch, bind at 1. rewrite (arm_refused w b1 Harmed1 Hec).
    cbn [ret]. reflexivity.
  - rewrite <- Herr, <- Hbs, <- Htags. unfold is_armed.
    destruct b1; cbn in Harmed1 |- *; repeat split; try reflexivity; exact Harmed1.
Qed.

(** What [wait_data_ready] followed by [clear_data_ready] leaves. *)
Lemma wait_and_clear (w : world) (b : block) :
  let ec := if d_data_rdy b then d_data_rdy_errc b else notified w in
  exists b1,
    (ec' <- wait_data_ready w ;; clear_data_ready ;; ret ec') b = Ok ec b1
    /\ d_data_rdy b1 = false
    /\ d_data_rdy_errc b1 = ec_none
    /\ d_bstate b1 = d_bstate b
    /\ driver_calls b1 = driver_calls b
    /\ item_tags b1 = item_tags b
    /\ d_timebase_published b1 = d_timebase_published b
    /\ d_acquisition_mode b1 = d_acquisition_mode b.
Proof.
  cbv zeta. unfold wait_data_ready, clear_data_ready, notify_data_ready,
    add_error_code, bind, get, gets, modify, ret.
  destruct (d_data_rdy b) eqn:Hrdy.
  - eexists. split; [reflexivity|]. destruct b; repeat split.
  - destruct (ec_set (notified w)); eexists; (split; [reflexivity|]);
      destruct b; repeat split.
Qed.

(** X25.  RAPID_BLOCK mode without [auto_arm], the block waiting and not
    finished by [trigger_once]: when the wait ends with an error code (the
    pending one, or the one the notifier passes), [work] returns -1 for
    Stopped and 0 for every other code; it has cleared the data-ready flag,
    made no driver call, attached no tag and left the fetch state as it
    was. *)
Theorem rapid_block_wait_errors :
  forall (w : world) (noutput_items : Z) (b : block),
    d_acquisition_mode b = RAPID_BLOCK ->
    state (d_bstate b) = WAITING ->
    d_trigger_once b && d_was_triggered_once b = false ->
    d_auto_arm b = false ->
    let ec := if d_data_rdy b then d_data_rdy_errc b else notified w in
    ec_set ec = true ->
    exists b',
      work w noutput_items b = Ok (if ec_eqb ec Stopped then -1 else 0) b'
      /\ d_data_rdy b' = false
      /\ d_bstate b' = d_bstate b
      /\ driver_calls b' = driver_calls b
      /\ item_tags b' = item_tags b.
Proof.
  intros w n b Hmode Hstate Honce Hauto ec Hec.
  destruct (wait_and_clear w b) as (b1 & Hwait & R1 & E1 & S1 & C1 & T1 & P1 & M1).
  fold ec in Hwait.
  exists b1. split; [|repeat split; assumption].
  apply work_rapid_block_no_output; [exact Hmode| |destruct (ec_eqb ec Stopped); lia].
  unfold work_rapid_block. rewrite (bind_run get _ b b b eq_refl), Hstate.
  cbn [rapid_block_state_eqb].
  unfold rapid_block_waiting. unfold bind at 1.
  rewrite (bind_run get _ b b b eq_refl), Honce, Hauto.
  unfold bind at 1. cbn [ret].
  unfold bind in Hwait |- *.
  destruct (wait_data_ready w b) as [ec' b0| | | |]; try discriminate.
  destruct (clear_data_ready b0) as [[] b2| | | |]; try discriminate.
  apply Ok_inj in Hwait. destruct Hwait as [-> ->].
  destruct (ec_eqb ec Stopped); [reflexivity|]. rewrite Hec. reflexivity.
Qed.

End RapidBlockWaiting.

(** ** The further properties on the examples *)

Lemma setters_exception_safety_witness :
  let c := call_set_samples 0 0 in
  @call_setter example_header c example_block
  = Throw (invalid_argument "post-trigger samples can't be less than one")
      example_block
  /\ (example_block = example_block
      \/ exists n, c = call_set_buffer_size n /\ 0 <= n
           /\ example_block = example_block <| d_buffer_size := to_uint32 n |>).
Proof.
  split; [reflexivity|].
  exact (proj2 (@setters_exception_safety example_header (call_set_samples 0 0)
                  example_block example_block _ eq_refl)).
Defined.

Lemma setters_keep_configuration_valid_witness :
  Forall int_arguments example_session
  /\ @apply_setters example_header example_session
       (@member_init example_header 4 1 false) = Some configured_example
  /\ get_block_size configured_example
     = d_samples configured_example + d_pre_samples configured_example.
Proof.
  assert (Hint : Forall int_arguments example_session).
  { unfold example_session, int_arguments, is_int, INT_MIN, INT_MAX.
    repeat constructor; lia. }
  assert (Hrun : @apply_setters example_header example_session
                   (@member_init example_header 4 1 false) = Some configured_example)
    by (vm_compute; reflexivity).
  split; [exact Hint|]. split; [exact Hrun|].
  exact (proj2 (@setters_keep_configuration_valid example_header 4 1 false
                  example_session configured_example Hint Hrun)).
Defined.

Lemma valid_configuration_configured_example :
  @valid_configuration example_header configured_example.
Proof.
  apply (@apply_setters_valid example_header example_session example_block).
  - unfold example_session, int_arguments, is_int, INT_MIN, INT_MAX.
    repeat constructor; lia.
  - apply valid_configuration_member_init.
  - vm_compute. reflexivity.
Qed.

Lemma downsampled_block_size_bounds_witness :
  @valid_configuration example_header configured_example
  /\ d_downsampling_factor configured_example = 4
  /\ get_block_size configured_example = 2500
  /\ get_block_size_with_downsampling configured_example
     = d_pre_samples configured_example / d_downsampling_factor configured_example
       + d_samples configured_example / d_downsampling_factor configured_example.
Proof.
  split; [exact valid_configuration_configured_example|].
  split; [reflexivity|]. split; [reflexivity|].
  exact (proj2 (proj2 (@downsampled_block_size_bounds example_header
                         configured_example
                         valid_configuration_configured_example))).
Defined.

Lemma set_aichan_updates_one_channel_witness :
  let call := @set_aichan example_header "B" true (IEEE.d_of_Z 5) true (IEEE.d_of_Z 0) in
  let b' := result_state (call example_block) example_block in
  call example_block = Ok tt b'
  /\ exists idx old,
       @convert_to_aichan_idx example_header "B" example_block = Ok idx example_block
       /\ nth_error (d_channel_settings example_block) (Z.to_nat idx) = Some old
       /\ get_enabled_aichan_count b'
          = get_enabled_aichan_count example_block - Z.b2z (enabled old) + Z.b2z true.
Proof.
  cbv zeta.
  assert (Hcall : @set_aichan example_header "B" true (IEEE.d_of_Z 5) true
                    (IEEE.d_of_Z 0) example_block
                  = Ok tt (result_state
                             (@set_aichan example_header "B" true (IEEE.d_of_Z 5) true
                                (IEEE.d_of_Z 0) example_block) example_block))
    by (vm_compute; reflexivity).
  split; [exact Hcall|].
  destruct (@set_aichan_updates_one_channel example_header _ _ _ _ _ _ _ Hcall)
    as (idx & old & H1 & H2 & _ & _ & _ & H6).
  exists idx, old. repeat split; assumption.
Defined.

Lemma channel_id_one_past_the_end_witness :
  List.length (d_channel_settings example_block)
  = Z.to_nat (@MAX_SUPPORTED_AI_CHANNELS example_header)
  /\ 0 <= @MAX_SUPPORTED_AI_CHANNELS example_header
  /\ toupper (char_value "Q") - 65 = @MAX_SUPPORTED_AI_CHANNELS example_header
  /\ @set_aichan example_header "Q" true (IEEE.d_of_Z 5) true (IEEE.d_of_Z 0)
       example_block = Undefined.
Proof.
  assert (H1 : List.length (d_channel_settings example_block)
               = Z.to_nat (@MAX_SUPPORTED_AI_CHANNELS example_header))
    by reflexivity.
  assert (H2 : 0 <= @MAX_SUPPORTED_AI_CHANNELS example_header) by (cbn; lia).
  assert (H3 : toupper (char_value "Q") - 65
               = @MAX_SUPPORTED_AI_CHANNELS example_header) by reflexivity.
  split; [exact H1|]. split; [exact H2|]. split; [exact H3|].
  exact (proj1 (proj2 (@channel_id_one_past_the_end example_header "Q"%char
                         example_block true true (IEEE.d_of_Z 5) (IEEE.d_of_Z 0)
                         (IEEE.d_of_Z 0) TRIGGER_DIRECTION_RISING H1 H2 H3))).
Defined.

Lemma port_id_one_past_the_end_witness :
  List.length (d_port_settings example_block)
  = Z.to_nat (@MAX_SUPPORTED_PORTS example_header)
  /\ String.length "port8" = 5%nat
  /\ String.get 4 "port8" = Some "8"%char
  /\ Z.of_nat (nat_of_ascii "8") - 48 = @MAX_SUPPORTED_PORTS example_header
  /\ @set_diport example_header "port8" true (IEEE.d_dec 15 1) example_block
     = Undefined.
Proof.
  assert (H1 : List.length (d_port_settings example_block)
               = Z.to_nat (@MAX_SUPPORTED_PORTS example_header)) by reflexivity.
  assert (H4 : 48 <= Z.of_nat (nat_of_ascii "8") <= 57) by (cbn; lia).
  assert (H5 : Z.of_nat (nat_of_ascii "8") - 48 = @MAX_SUPPORTED_PORTS example_header)
    by reflexivity.
  split; [exact H1|]. split; [reflexivity|]. split; [reflexivity|].
  split; [exact H5|].
  exact (proj2 (@port_id_one_past_the_end example_header "port8" "8"%char
                  example_block true (IEEE.d_dec 15 1) H1 eq_refl eq_refl H4 H5)).
Defined.

Lemma find_digital_triggers_edges_witness :
  let b' := digital_trigger_block <| d_trigger_state := 1 |> in
  find_digital_triggers [0; 0; 8; 8; 0; 8] 6 8 digital_trigger_block = Ok [2; 5] b'
  /\ exists x, sample_at [0; 0; 8; 8; 0; 8] (6 - 1) = Some x
       /\ truth (d_trigger_state b') = bit_set 8 x.
Proof.
  cbv zeta.
  assert (Hrun : find_digital_triggers [0; 0; 8; 8; 0; 8] 6 8 digital_trigger_block
                 = Ok [2; 5] (digital_trigger_block <| d_trigger_state := 1 |>))
    by (vm_compute; reflexivity).
  split; [exact Hrun|].
  exact (proj1 (proj2 (find_digital_triggers_edges _ _ _ _ _ _ Hrun)) ltac:(lia)).
Defined.

Lemma find_digital_triggers_chunks_witness :
  let b1 := digital_trigger_block <| d_trigger_state := 1 |> in
  find_digital_triggers [0; 0; 8] 3 8 digital_trigger_block = Ok [2] b1
  /\ find_digital_triggers [8; 0; 8] 3 8 b1 = Ok [2] b1
  /\ find_digital_triggers [0; 0; 8; 8; 0; 8] 6 8 digital_trigger_block
     = Ok [2; 5] b1.
Proof.
  cbv zeta.
  assert (H1 : find_digital_triggers [0; 0; 8] 3 8 digital_trigger_block
               = Ok [2] (digital_trigger_block <| d_trigger_state := 1 |>))
    by (vm_compute; reflexivity).
  assert (H2 : find_digital_triggers [8; 0; 8] 3 8
                 (digital_trigger_block <| d_trigger_state := 1 |>)
               = Ok [2] (digital_trigger_block <| d_trigger_state := 1 |>))
    by (vm_compute; reflexivity).
  split; [exact H1|]. split; [exact H2|].
  exact (find_digital_triggers_chunks [0; 0; 8] [8; 0; 8] 8 _ _ _ _ _ H1 H2).
Defined.

Lemma find_analog_triggers_chunks_witness :
  let first_half := map IEEE.f_of_Z [0; 1] in
  let b1 := analog_example_block <| d_trigger_state := 1 |> in
  @find_analog_triggers example_header first_half 2 analog_example_block = Ok [1] b1
  /\ @find_analog_triggers example_header first_half 2 b1 = Ok [1] b1
  /\ @find_analog_triggers example_header (first_half ++ first_half) 4
       analog_example_block = Ok [1; 3] b1.
Proof.
  cbv zeta.
  assert (H1 : @find_analog_triggers example_header (map IEEE.f_of_Z [0; 1]) 2
                 analog_example_block
               = Ok [1] (analog_example_block <| d_trigger_state := 1 |>))
    by (vm_compute; reflexivity).
  assert (H2 : @find_analog_triggers example_header (map IEEE.f_of_Z [0; 1]) 2
                 (analog_example_block <| d_trigger_state := 1 |>)
               = Ok [1] (analog_example_block <| d_trigger_state := 1 |>))
    by (vm_compute; reflexivity).
  split; [exact H1|]. split; [exact H2|].
  exact (@find_analog_triggers_chunks example_header _ _ _ _ _ _ _ H1 H2).
Defined.

Lemma work_rapid_block_never_throws_witness :
  d_acquisition_mode rapid_example_block = RAPID_BLOCK
  /\ forall e b', @work example_header quiet_world 1 rapid_example_block <> Throw e b'.
Proof.
  assert (Hmode : d_acquisition_mode rapid_example_block = RAPID_BLOCK) by reflexivity.
  split; [exact Hmode|]. intros e b'.
  exact (@work_rapid_block_never_throws example_header quiet_world 1
           rapid_example_block b' e Hmode).
Defined.

Lemma rapid_block_never_overproduces_witness :
  let b' := result_state (@work example_header quiet_world 8 rapid_example_block)
              rapid_example_block in
  d_acquisition_mode rapid_example_block = RAPID_BLOCK
  /\ 0 <= 8
  /\ @work example_header quiet_world 8 rapid_example_block = Ok 1 b'
  /\ 1 <= 8.
Proof.
  cbv zeta.
  assert (Hn : 0 <= 8) by lia.
  assert (Hrun : @work example_header quiet_world 8 rapid_example_block
                 = Ok 1 (result_state
                           (@work example_header quiet_world 8 rapid_example_block)
                           rapid_example_block))
    by (vm_compute; reflexivity).
  split; [reflexivity|]. split; [exact Hn|]. split; [exact Hrun|].
  exact (@rapid_block_never_overproduces example_header quiet_world 8
           rapid_example_block _ 1 eq_refl Hn Hrun).
Defined.

Lemma disarm_disarms_or_waits_forever_witness :
  is_armed unpolled_armed_block = true
  /\ d_acquisition_mode unpolled_armed_block = STREAMING
  /\ d_poller_joinable unpolled_armed_block = false
  /\ waits_for_missing_poller unpolled_armed_block = true
  /\ @disarm quiet_world unpolled_armed_block = Blocked.
Proof.
  assert (Hwaits : waits_for_missing_poller unpolled_armed_block = true)
    by (vm_compute; reflexivity).
  do 3 (split; [vm_compute; reflexivity|]). split; [exact Hwaits|].
  exact (proj1 (disarm_disarms_or_waits_forever quiet_world unpolled_armed_block)
           Hwaits).
Defined.

Lemma arm_all_or_nothing_witness :
  is_armed example_block = false
  /\ d_ai_channels example_block
     <= Z.of_nat (List.length (d_channel_settings example_block))
  /\ d_ports example_block <= Z.of_nat (List.length (d_port_settings example_block))
  /\ ec_set (driver_arm quiet_world) = false
  /\ exists b',
       @arm example_header quiet_world example_block = Ok tt b'
       /\ is_armed b' = true
       /\ d_timebase_published b' = false
       /\ ai_buffers_size b' <= get_enabled_aichan_count b'.
Proof.
  assert (H1 : is_armed example_block = false) by reflexivity.
  assert (H2 : d_ai_channels example_block
               <= Z.of_nat (List.length (d_channel_settings example_block)))
    by (vm_compute; discriminate).
  assert (H3 : d_ports example_block
               <= Z.of_nat (List.length (d_port_settings example_block)))
    by (vm_compute; discriminate).
  split; [exact H1|]. split; [exact H2|]. split; [exact H3|].
  split; [reflexivity|].
  destruct (proj2 (@arm_all_or_nothing example_header quiet_world example_block
                     H1 H2 H3) eq_refl)
    as (b' & A1 & A2 & A3 & _ & _ & _ & _ & _ & A9 & _).
  exists b'. repeat split; assumption.
Defined.

Lemma start_twice_fails_witness :
  let s1 := result_object (@start example_header quiet_lifecycle_world auto_arm_example)
              auto_arm_example in
  @start example_header quiet_lifecycle_world auto_arm_example = Ok true s1
  /\ d_auto_arm (the_block auto_arm_example) = true
  /\ is_streaming (the_block auto_arm_example) = true
  /\ @start example_header quiet_lifecycle_world s1
     = Ok false (s1 <| d_configure_exception_message := "disarm first"%string |>).
Proof.
  cbv zeta.
  assert (Hrun : @start example_header quiet_lifecycle_world auto_arm_example
                 = Ok true (result_object
                              (@start example_header quiet_lifecycle_world
                                 auto_arm_example) auto_arm_example))
    by (vm_compute; reflexivity).
  split; [exact Hrun|]. split; [reflexivity|]. split; [reflexivity|].
  exact (@start_twice_fails example_header _ quiet_lifecycle_world _ _ Hrun
           eq_refl eq_refl).
Defined.

Lemma stop_disarms_or_waits_forever_witness :
  d_initialized (the_block stranded_example) = true
  /\ is_armed (the_block stranded_example) = true
  /\ d_acquisition_mode (the_block stranded_example) = STREAMING
  /\ d_poller_joinable (the_block stranded_example) = false
  /\ stop quiet_lifecycle_world stranded_example = Blocked.
Proof.
  assert (Hinit : d_initialized (the_block stranded_example) = true)
    by (vm_compute; reflexivity).
  assert (Hwaits : waits_for_missing_poller (the_block stranded_example) = true)
    by (vm_compute; reflexivity).
  split; [exact Hinit|]. do 3 (split; [vm_compute; reflexivity|]).
  exact (proj1 (proj2 (@stop_disarms_or_waits_forever example_header
                         quiet_lifecycle_world stranded_example)) Hinit Hwaits).
Defined.

Lemma poller_acknowledges_within_ten_iterations_witness :
  let b := example_block <| d_poller_state := PEND_IDLE |> in
  let pws := [steady_poll; steady_poll; steady_poll] in
  poller_between_iterations running_poller
  /\ Z.of_nat (List.length pws)
     = check_every_n_times - poller_state_check_counter running_poller
  /\ d_poller_state b = PEND_IDLE
  /\ exists effs,
       poll_iterations (IEEE.d_dec 8 1) pws running_poller b
       = Ok (Some {| poller_state_check_counter := 0; state_read := Some IDLE |}, effs)
           (b <| d_poller_state := IDLE |>).
Proof.
  cbv zeta.
  assert (H1 : poller_between_iterations running_poller).
  { split; [unfold check_every_n_times, running_poller; cbn; lia|now right]. }
  assert (H2 : Z.of_nat (List.length [steady_poll; steady_poll; steady_poll])
               = check_every_n_times - poller_state_check_counter running_poller)
    by reflexivity.
  split; [exact H1|]. split; [exact H2|]. split; [reflexivity|].
  exact (proj1 (poller_acknowledges_within_ten_iterations (IEEE.d_dec 8 1)
                  [steady_poll; steady_poll; steady_poll] running_poller
                  (example_block <| d_poller_state := PEND_IDLE |>) H1 H2) eq_refl).
Defined.

Lemma idle_poller_is_silent_witness :
  poller_between_iterations idle_poller
  /\ state_read idle_poller = Some IDLE
  /\ d_poller_state example_block = IDLE
  /\ exists l' effs,
       poll_iterations (IEEE.d_dec 8 1) [steady_poll; steady_poll] idle_poller
         example_block = Ok (Some l', effs) example_block
       /\ Forall (fun e => e = no_effects) effs.
Proof.
  assert (H1 : poller_between_iterations idle_poller).
  { split; [unfold check_every_n_times, idle_poller; cbn; lia|now left]. }
  split; [exact H1|]. split; [reflexivity|]. split; [reflexivity|].
  destruct (idle_poller_is_silent (IEEE.d_dec 8 1) [steady_poll; steady_poll]
              idle_poller example_block H1 eq_refl eq_refl)
    as (l' & effs & Hrun & Heffs & _).
  exists l', effs. split; assumption.
Defined.

Lemma work_stream_tags_in_range_witness :
  let b' := result_state (@work example_header digital_world 6 digital_example_block)
              digital_example_block in
  d_acquisition_mode digital_example_block = STREAMING
  /\ @work example_header digital_world 6 digital_example_block = Ok 6 b'
  /\ 6 > 0
  /\ exists new,
       item_tags b' = item_tags digital_example_block ++ new
       /\ Forall (fun t => nitems_written0 digital_example_block
                           <= tag_offset (snd t)
                           < nitems_written0 digital_example_block + 6) new.
Proof.
  cbv zeta.
  assert (Hrun : @work example_header digital_world 6 digital_example_block
                 = Ok 6 (result_state
                           (@work example_header digital_world 6 digital_example_block)
                           digital_example_block))
    by (vm_compute; reflexivity).
  assert (Hr : 6 > 0) by lia.
  split; [reflexivity|]. split; [exact Hrun|]. split; [exact Hr|].
  exact (@work_stream_tags_in_range example_header digital_world 6
           digital_example_block _ 6 eq_refl Hrun Hr).
Defined.

Lemma rapid_block_arm_failure_ends_stream_witness :
  d_acquisition_mode auto_arm_rapid_example = RAPID_BLOCK
  /\ state (d_bstate auto_arm_rapid_example) = WAITING
  /\ d_trigger_once auto_arm_rapid_example
     && d_was_triggered_once auto_arm_rapid_example = false
  /\ d_auto_arm auto_arm_rapid_example = true
  /\ ec_set (driver_arm refusing_world) = true
  /\ exists b',
       @work example_header refusing_world 1 auto_arm_rapid_example = Ok (-1) b'
       /\ is_armed b' = false.
Proof.
  do 5 (split; [reflexivity|]).
  destruct (@rapid_block_arm_failure_ends_stream example_header refusing_world 1
              auto_arm_rapid_example eq_refl eq_refl eq_refl eq_refl eq_refl)
    as (b' & Hrun & Harmed & _).
  exists b'. split; assumption.
Defined.

Lemma rapid_block_wait_errors_witness :
  d_acquisition_mode rapid_example_block = RAPID_BLOCK
  /\ state (d_bstate rapid_example_block) = WAITING
  /\ d_trigger_once rapid_example_block
     && d_was_triggered_once rapid_example_block = false
  /\ d_auto_arm rapid_example_block = false
  /\ ec_set (notified interrupting_world) = true
  /\ exists b',
       @work example_header interrupting_world 1 rapid_example_block = Ok 0 b'
       /\ d_data_rdy b' = false.
Proof.
  do 5 (split; [reflexivity|]).
  destruct (@rapid_block_wait_errors example_header interrupting_world 1
              rapid_example_block eq_refl eq_refl eq_refl eq_refl eq_refl)
    as (b' & Hrun & Hrdy & _).
  exists b'. split; assumption.
Defined.
